(** * mikro-orm: metadata resolution, schema diffing and query-condition
      compilation, embedded shallowly.

    The development follows three source files:
    - [packages/knex/src/query/QueryBuilderHelper.ts] (class [QueryBuilderHelper]),
    - the [SchemaGenerator] class that lives in the same source unit,
    - [packages/core/src/metadata/MetadataDiscovery.ts].

    JavaScript objects used as dictionaries are insertion-ordered association
    lists; calls on a knex builder are recorded as data (a list or tree of
    calls) instead of SQL text, which is knex's business. *)

From Stdlib Require Import ZArith Lia Bool List Ascii String DecimalString.
From stdpp Require Import base option list strings.
Import ListNotations.

Local Open Scope string_scope.
Local Open Scope list_scope.

(** ** JavaScript objects as ordered dictionaries *)

Module Js.

Definition Dictionary (V : Type) := list (string * V).

Section Dict.
Context {V : Type}.

(** [d[k]] *)
Fixpoint get (k : string) (d : Dictionary V) : option V :=
  match d with
  | [] => None
  | (k', v) :: d' => if String.eqb k k' then Some v else get k d'
  end.

(** [k in d] *)
Definition has (k : string) (d : Dictionary V) : bool :=
  match get k d with Some _ => true | None => false end.

(** [d[k] = v]: an existing key keeps its place, a new key goes last
    (keys that look like array indices, which JavaScript would sort
    first, do not occur as property or entity names). *)
Fixpoint set (k : string) (v : V) (d : Dictionary V) : Dictionary V :=
  match d with
  | [] => [(k, v)]
  | (k', v') :: d' =>
      if String.eqb k k' then (k', v) :: d' else (k', v') :: set k v d'
  end.

(** [delete d[k]] *)
Fixpoint delete (k : string) (d : Dictionary V) : Dictionary V :=
  match d with
  | [] => []
  | (k', v') :: d' =>
      if String.eqb k k' then delete k d' else (k', v') :: delete k d'
  end.

(** [Object.keys(d)], [Object.values(d)] *)
Definition keys (d : Dictionary V) : list string := List.map fst d.
Definition values (d : Dictionary V) : list V := List.map snd d.
End Dict.

(** [a.includes(x)] on an array of strings *)
Definition includes (x : string) (a : list string) : bool :=
  List.existsb (String.eqb x) a.

(** The member names of [Object.prototype]: a read [o[k]] on a plain object
    without an entry of its own under one of these names yields the
    inherited member, a function or, for [__proto__], the prototype. *)
Definition objectPrototype : list string :=
  ["constructor"; "__defineGetter__"; "__defineSetter__"; "hasOwnProperty";
   "__lookupGetter__"; "__lookupSetter__"; "isPrototypeOf"; "propertyIsEnumerable";
   "toString"; "valueOf"; "__proto__"; "toLocaleString"].

(** [s.startsWith(c)] and [s.endsWith(c)] for a one-character [c] *)
Definition startsWith (c : ascii) (s : string) : bool :=
  match s with
  | String a _ => Ascii.eqb a c
  | EmptyString => false
  end.

Fixpoint endsWith (c : ascii) (s : string) : bool :=
  match s with
  | EmptyString => false
  | String a EmptyString => Ascii.eqb a c
  | String _ r => endsWith c r
  end.

(** [s.match(/[...]/)] for a character class: some character of [s]
    satisfies [cls]. *)
Fixpoint matchesClass (cls : ascii -> bool) (s : string) : bool :=
  match s with
  | EmptyString => false
  | String a r => cls a || matchesClass cls r
  end.

(** [s.replace(/ab/g, by)] for a two-character literal pattern: matches are
    found left to right and do not overlap. *)
Fixpoint replace2 (a b : ascii) (by_ : string) (s : string) : string :=
  match s with
  | EmptyString => EmptyString
  | String x s' =>
    match s' with
    | String y r =>
        if Ascii.eqb x a && Ascii.eqb y b
        then by_ +:+ replace2 a b by_ r
        else String x (replace2 a b by_ s')
    | EmptyString => String x EmptyString
    end
  end.

(** [s.replace(/a/g, by)] for a one-character literal pattern *)
Fixpoint replace1 (a : ascii) (by_ : string) (s : string) : string :=
  match s with
  | EmptyString => EmptyString
  | String x r =>
    if Ascii.eqb x a then by_ +:+ replace1 a by_ r
    else String x (replace1 a by_ r)
  end.

(** [s.replace(/^a/g, '')]: without the [m] flag [^] only matches at
    index 0, so at most one character goes. *)
Definition stripStart (a : ascii) (s : string) : string :=
  match s with
  | String x r => if Ascii.eqb x a then r else s
  | EmptyString => EmptyString
  end.

(** [s.replace(/a$/g, '')]: without the [m] flag [$] only matches at the
    end of the input. *)
Fixpoint stripEnd (a : ascii) (s : string) : string :=
  match s with
  | EmptyString => EmptyString
  | String x EmptyString => if Ascii.eqb x a then EmptyString else s
  | String x r => String x (stripEnd a r)
  end.

(** [a.indexOf(x)] ([None] for -1) and [a.splice(a.indexOf(x), 1)]: a start
    index of -1 counts from the end, so the last element goes. *)
Section Arrays.
Context {A : Type} `{EqDecision A}.

Fixpoint indexOf (x : A) (l : list A) : option nat :=
  match l with
  | [] => None
  | y :: l' => if decide (x = y) then Some 0 else S <$> indexOf x l'
  end.

Fixpoint removeAt (i : nat) (l : list A) : list A :=
  match l, i with
  | [], _ => []
  | _ :: l', O => l'
  | y :: l', S i' => y :: removeAt i' l'
  end.

Definition spliceIndexOf (x : A) (l : list A) : list A :=
  match indexOf x l with
  | Some i => removeAt i l
  | None => List.removelast l
  end.

End Arrays.

(** [Utils.unique(items)], that is [[...new Set(items)]], on an array of
    objects: a set keeps one entry per object, so only the very same object
    is dropped when it comes again; [object] tells which object an item is. *)
Fixpoint unique {A : Type} (object : A -> nat) (l : list A) : list A :=
  match l with
  | [] => []
  | x :: l' => x :: List.filter (fun y => negb (Nat.eqb (object y) (object x))) (unique object l')
  end.

(** [a.forEach((x, idx) => ...)] threading a state. *)
Fixpoint forEachIdx {A S : Type} (f : A -> nat -> S -> S) (l : list A) (i : nat) (s : S) : S :=
  match l with
  | [] => s
  | x :: l' => forEachIdx f l' (Datatypes.S i) (f x i s)
  end.

(** An array-valued optional field read where the code expects it set. *)
Definition arr {A : Type} (o : option (list A)) : list A :=
  match o with Some l => l | None => [] end.

(** A JavaScript call either returns or throws. *)
Inductive Completion (E A : Type) :=
| Normal (a : A)
| Throw (e : E).
Arguments Normal {E A} a.
Arguments Throw {E A} e.

Definition bind {E A B : Type} (c : Completion E A) (k : A -> Completion E B)
    : Completion E B :=
  match c with
  | Normal a => k a
  | Throw e => Throw e
  end.

(** [l.forEach(x => f(x))] where every call appends to the same output and
    may throw. *)
Section ForEach.
Context {E A B : Type}.
Variable f : A -> Completion E (list B).

Fixpoint forEachM (l : list A) : Completion E (list B) :=
  match l with
  | [] => Normal []
  | x :: l' =>
      match f x with
      | Throw e => Throw e
      | Normal ys =>
          match forEachM l' with
          | Throw e => Throw e
          | Normal zs => Normal (ys ++ zs)
          end
      end
  end.
End ForEach.

(** [s.split(c)] for a one-character separator: the pieces between the
    separators; there is always a first piece. *)
Fixpoint split (sep : ascii) (s : string) : list string :=
  match s with
  | EmptyString => [EmptyString]
  | String c r =>
      if Ascii.eqb c sep then EmptyString :: split sep r
      else match split sep r with
           | piece :: pieces => String c piece :: pieces
           | [] => [String c EmptyString]
           end
  end.

(** [s.endsWith(suffix)] *)
Fixpoint endsWithString (suffix s : string) : bool :=
  String.eqb s suffix
  || match s with
     | EmptyString => false
     | String _ r => endsWithString suffix r
     end.

(** A missing value inside a template literal or as a property key. *)
Definition text (o : option string) : string :=
  match o with Some s => s | None => "undefined" end.

End Js.

(** ** The metadata model ([typings.ts], as the three classes use it) *)

Module Metadata.

Inductive ReferenceType :=
| SCALAR | ONE_TO_ONE | ONE_TO_MANY | MANY_TO_ONE | MANY_TO_MANY | EMBEDDED.

Inductive Cascade := PERSIST | MERGE | REMOVE | ALL.

(** A property such as [index?: boolean | string]: unset, a flag or a name. *)
Inductive NameOrFlag := Unset | Flag (b : bool) | Named (s : string).

(** [!!v] for such a value (the empty string is falsy). *)
Definition truthy (v : NameOrFlag) : bool :=
  match v with
  | Unset => false
  | Flag b => b
  | Named s => negb (String.eqb s "")
  end.

(** [EntityProperty], restricted to the fields the modelled methods read or
    write.  [columnTypes], [unsigned] and [length] are left out: they are only
    written by [initColumnType] and [initUnsigned] and read by column
    builders, none of which is modelled.  An optional field that the code
    tests with [!prop.f] is an [option]; [persist] is [false] exactly when the
    source has [persist === false]. *)
Record EntityProperty := mkProp {
  name : string;
  type : string;
  reference : ReferenceType;
  owner : bool;
  nullable : bool;
  primary : bool;
  persist : bool;
  object : bool;
  version : bool;
  customType : bool;
  enum : bool;
  items : option (list string);
  inherited : bool;
  index : NameOrFlag;
  unique : NameOrFlag;
  cascade : list Cascade;
  fieldNames : option (list string);
  joinColumns : option (list string);
  inverseJoinColumns : option (list string);
  referencedColumnNames : option (list string);
  referencedTableName : option string;
  pivotTable : option string;
  fixedOrder : option bool;
  fixedOrderColumn : option string;
  mappedBy : option string;
  inversedBy : option string
}.

(** Field assignments [prop.f = v]. *)
Definition set_nullable (v : bool) (p : EntityProperty) : EntityProperty :=
  let 'mkProp a1 a2 a3 a4 _ a6 a7 a8 a9 a10 a11 a12 a13 a14 a15 a16 a17 a18 a19 a20 a21 a22 a23 a24 a25 a26 := p in
  mkProp a1 a2 a3 a4 v a6 a7 a8 a9 a10 a11 a12 a13 a14 a15 a16 a17 a18 a19 a20 a21 a22 a23 a24 a25 a26.

Definition set_inherited (v : bool) (p : EntityProperty) : EntityProperty :=
  let 'mkProp a1 a2 a3 a4 a5 a6 a7 a8 a9 a10 a11 a12 _ a14 a15 a16 a17 a18 a19 a20 a21 a22 a23 a24 a25 a26 := p in
  mkProp a1 a2 a3 a4 a5 a6 a7 a8 a9 a10 a11 a12 v a14 a15 a16 a17 a18 a19 a20 a21 a22 a23 a24 a25 a26.

Definition set_fieldNames (v : option (list string)) (p : EntityProperty) : EntityProperty :=
  let 'mkProp a1 a2 a3 a4 a5 a6 a7 a8 a9 a10 a11 a12 a13 a14 a15 a16 _ a18 a19 a20 a21 a22 a23 a24 a25 a26 := p in
  mkProp a1 a2 a3 a4 a5 a6 a7 a8 a9 a10 a11 a12 a13 a14 a15 a16 v a18 a19 a20 a21 a22 a23 a24 a25 a26.

Definition set_joinColumns (v : option (list string)) (p : EntityProperty) : EntityProperty :=
  let 'mkProp a1 a2 a3 a4 a5 a6 a7 a8 a9 a10 a11 a12 a13 a14 a15 a16 a17 _ a19 a20 a21 a22 a23 a24 a25 a26 := p in
  mkProp a1 a2 a3 a4 a5 a6 a7 a8 a9 a10 a11 a12 a13 a14 a15 a16 a17 v a19 a20 a21 a22 a23 a24 a25 a26.

Definition set_inverseJoinColumns (v : option (list string)) (p : EntityProperty) : EntityProperty :=
  let 'mkProp a1 a2 a3 a4 a5 a6 a7 a8 a9 a10 a11 a12 a13 a14 a15 a16 a17 a18 _ a20 a21 a22 a23 a24 a25 a26 := p in
  mkProp a1 a2 a3 a4 a5 a6 a7 a8 a9 a10 a11 a12 a13 a14 a15 a16 a17 a18 v a20 a21 a22 a23 a24 a25 a26.

Definition set_referencedColumnNames (v : option (list string)) (p : EntityProperty) : EntityProperty :=
  let 'mkProp a1 a2 a3 a4 a5 a6 a7 a8 a9 a10 a11 a12 a13 a14 a15 a16 a17 a18 a19 _ a21 a22 a23 a24 a25 a26 := p in
  mkProp a1 a2 a3 a4 a5 a6 a7 a8 a9 a10 a11 a12 a13 a14 a15 a16 a17 a18 a19 v a21 a22 a23 a24 a25 a26.

Definition set_referencedTableName (v : option string) (p : EntityProperty) : EntityProperty :=
  let 'mkProp a1 a2 a3 a4 a5 a6 a7 a8 a9 a10 a11 a12 a13 a14 a15 a16 a17 a18 a19 a20 _ a22 a23 a24 a25 a26 := p in
  mkProp a1 a2 a3 a4 a5 a6 a7 a8 a9 a10 a11 a12 a13 a14 a15 a16 a17 a18 a19 a20 v a22 a23 a24 a25 a26.

Definition set_pivotTable (v : option string) (p : EntityProperty) : EntityProperty :=
  let 'mkProp a1 a2 a3 a4 a5 a6 a7 a8 a9 a10 a11 a12 a13 a14 a15 a16 a17 a18 a19 a20 a21 _ a23 a24 a25 a26 := p in
  mkProp a1 a2 a3 a4 a5 a6 a7 a8 a9 a10 a11 a12 a13 a14 a15 a16 a17 a18 a19 a20 a21 v a23 a24 a25 a26.

Definition set_fixedOrder (v : option bool) (p : EntityProperty) : EntityProperty :=
  let 'mkProp a1 a2 a3 a4 a5 a6 a7 a8 a9 a10 a11 a12 a13 a14 a15 a16 a17 a18 a19 a20 a21 a22 _ a24 a25 a26 := p in
  mkProp a1 a2 a3 a4 a5 a6 a7 a8 a9 a10 a11 a12 a13 a14 a15 a16 a17 a18 a19 a20 a21 a22 v a24 a25 a26.

Definition set_fixedOrderColumn (v : option string) (p : EntityProperty) : EntityProperty :=
  let 'mkProp a1 a2 a3 a4 a5 a6 a7 a8 a9 a10 a11 a12 a13 a14 a15 a16 a17 a18 a19 a20 a21 a22 a23 _ a25 a26 := p in
  mkProp a1 a2 a3 a4 a5 a6 a7 a8 a9 a10 a11 a12 a13 a14 a15 a16 a17 a18 a19 a20 a21 a22 a23 v a25 a26.

Definition set_inversedBy (v : option string) (p : EntityProperty) : EntityProperty :=
  let 'mkProp a1 a2 a3 a4 a5 a6 a7 a8 a9 a10 a11 a12 a13 a14 a15 a16 a17 a18 a19 a20 a21 a22 a23 a24 a25 _ := p in
  mkProp a1 a2 a3 a4 a5 a6 a7 a8 a9 a10 a11 a12 a13 a14 a15 a16 a17 a18 a19 a20 a21 a22 a23 a24 a25 v.

(** A scalar property with every optional field unset; object literals such
    as [{ name, type, reference } as EntityProperty] start from it. *)
Definition blankProperty (n t : string) (r : ReferenceType) : EntityProperty :=
  mkProp n t r false false false true false false false false None false
         Unset Unset [] None None None None None None None None None None.

(** An entry of [meta.indexes] or [meta.uniques]: [idx_object] is the
    identity of the declaration object, which two declarations with the same
    content do not share; [properties] is the [Utils.asArray] form of
    [string | string[]]. *)
Record IndexDecl := mkIndexDecl {
  idx_object : nat;
  idx_name : NameOrFlag;
  idx_properties : list string;
  idx_type : option string
}.

Record EntityMetadata := mkMeta {
  meta_name : string;
  className : string;
  collection : string;
  extends : option string;
  root : option string;            (* name of [meta.root], when set *)
  embeddable : bool;
  meta_pivotTable : bool;
  props : list EntityProperty;
  relations : list EntityProperty;
  properties : Js.Dictionary EntityProperty;
  primaryKeys : list string;
  compositePK : bool;
  indexes : list IndexDecl;
  uniques : list IndexDecl;
  discriminatorColumn : option string;
  discriminatorMap : option (Js.Dictionary string);
  discriminatorValue : option string;
  versionProperty : option string
}.

Definition set_properties (v : Js.Dictionary EntityProperty) (m : EntityMetadata) : EntityMetadata :=
  let 'mkMeta a1 a2 a3 a4 a5 a6 a7 a8 a9 _ a11 a12 a13 a14 a15 a16 a17 a18 := m in
  mkMeta a1 a2 a3 a4 a5 a6 a7 a8 a9 v a11 a12 a13 a14 a15 a16 a17 a18.

Definition set_indexes (v : list IndexDecl) (m : EntityMetadata) : EntityMetadata :=
  let 'mkMeta a1 a2 a3 a4 a5 a6 a7 a8 a9 a10 a11 a12 _ a14 a15 a16 a17 a18 := m in
  mkMeta a1 a2 a3 a4 a5 a6 a7 a8 a9 a10 a11 a12 v a14 a15 a16 a17 a18.

Definition set_uniques (v : list IndexDecl) (m : EntityMetadata) : EntityMetadata :=
  let 'mkMeta a1 a2 a3 a4 a5 a6 a7 a8 a9 a10 a11 a12 a13 _ a15 a16 a17 a18 := m in
  mkMeta a1 a2 a3 a4 a5 a6 a7 a8 a9 a10 a11 a12 a13 v a15 a16 a17 a18.

Definition set_discriminatorMap (v : option (Js.Dictionary string)) (m : EntityMetadata) : EntityMetadata :=
  let 'mkMeta a1 a2 a3 a4 a5 a6 a7 a8 a9 a10 a11 a12 a13 a14 a15 _ a17 a18 := m in
  mkMeta a1 a2 a3 a4 a5 a6 a7 a8 a9 a10 a11 a12 a13 a14 a15 v a17 a18.

Definition set_discriminatorValue (v : option string) (m : EntityMetadata) : EntityMetadata :=
  let 'mkMeta a1 a2 a3 a4 a5 a6 a7 a8 a9 a10 a11 a12 a13 a14 a15 a16 _ a18 := m in
  mkMeta a1 a2 a3 a4 a5 a6 a7 a8 a9 a10 a11 a12 a13 a14 a15 a16 v a18.

#[global] Instance ReferenceType_eq_dec : EqDecision ReferenceType.
Proof. solve_decision. Defined.
#[global] Instance Cascade_eq_dec : EqDecision Cascade.
Proof. solve_decision. Defined.
#[global] Instance NameOrFlag_eq_dec : EqDecision NameOrFlag.
Proof. solve_decision. Defined.
#[global] Instance EntityProperty_eq_dec : EqDecision EntityProperty.
Proof. solve_decision. Defined.
#[global] Instance IndexDecl_eq_dec : EqDecision IndexDecl.
Proof. solve_decision. Defined.

(** [MetadataStorage]: the dictionary behind [find], [get], [set] and
    [getAll]. *)
Definition MetadataStorage := Js.Dictionary EntityMetadata.

Definition find (name : string) (ms : MetadataStorage) : option EntityMetadata :=
  Js.get name ms.

End Metadata.

(** ** The commit order calculator *)

Module CommitOrderCalculator.

(** Modelled from the spec: the class [CommitOrderCalculator] of
    [@mikro-orm/core], of which the sources only hold the caller
    ([SchemaGenerator.getOrderedMetadata]).  The spec (section 4.2) asks for a
    dependency graph with a node per root entity and weighted edges, and for a
    dependency-respecting topological sort in which a cycle made only of
    weight-1 edges is a [SchemaDependencyError], while a weight-0 edge is
    deferrable and does not block the ordering.

    [addDependency from to weight] records that [from] has to exist before
    [to]; dependencies are kept in registration order. *)
Record Edge := mkEdge { from : string; to : string; weight : nat }.

Record t := mkCalc { nodes : list string; edges : list Edge }.

Definition empty : t := mkCalc [] [].

Definition hasNode (hash : string) (c : t) : bool := Js.includes hash (nodes c).

Definition addNode (hash : string) (c : t) : t :=
  if hasNode hash c then c else mkCalc (nodes c ++ [hash]) (edges c).

Definition addDependency (f t_ : string) (w : nat) (c : t) : t :=
  mkCalc (nodes c) (edges c ++ [mkEdge f t_ w]).

Inductive SortResult (A : Type) :=
| Sorted (order : list A)
| SchemaDependencyError.
Arguments Sorted {A} order.
Arguments SchemaDependencyError {A}.

(** A required edge is one that is not deferrable. *)
Definition required (e : Edge) : bool := negb (Nat.eqb (weight e) 0).

(** [n] still waits for a dependency among the [pending] nodes; with
    [onlyRequired] the deferrable edges are not counted. *)
Definition blocked (onlyRequired : bool) (es : list Edge) (pending : list string)
    (n : string) : bool :=
  List.existsb
    (fun e => String.eqb (to e) n && Js.includes (from e) pending
              && (negb onlyRequired || required e))
    es.

Definition removeNode (n : string) (l : list string) : list string :=
  List.filter (fun x => negb (String.eqb x n)) l.

(** One node is placed per round: the first pending node none of whose
    dependencies is pending; failing that, the first one whose pending
    dependencies are all deferrable; failing that, the pending nodes are held
    together by required edges only, and the sort fails. *)
Fixpoint sortLoop (rounds : nat) (es : list Edge) (pending placed : list string)
    : SortResult string :=
  match pending, rounds with
  | [], _ => Sorted placed
  | _ :: _, O => Sorted (placed ++ pending)
  | _ :: _, S rounds' =>
      match List.find (fun n => negb (blocked false es pending n)) pending with
      | Some n => sortLoop rounds' es (removeNode n pending) (placed ++ [n])
      | None =>
          match List.find (fun n => negb (blocked true es pending n)) pending with
          | Some n => sortLoop rounds' es (removeNode n pending) (placed ++ [n])
          | None => SchemaDependencyError
          end
      end
  end.

Definition sort (c : t) : SortResult string :=
  sortLoop (length (nodes c)) (edges c) (nodes c) [].

(** [a] comes before [b] in [l] (first occurrences). *)
Definition precedes {A : Type} `{EqDecision A} (a b : A) (l : list A) : Prop :=
  exists i j, Js.indexOf a l = Some i /\ Js.indexOf b l = Some j /\ i < j.

(** Walks along the edges: [path es x y] is a walk of at least one edge. *)
Inductive path (es : list Edge) : string -> string -> Prop :=
| path_edge e : In e es -> path es (from e) (to e)
| path_step e z : In e es -> path es (to e) z -> path es (from e) z.

Definition acyclic (es : list Edge) : Prop := forall x, ~ path es x x.

Definition requiredEdges (es : list Edge) : list Edge := List.filter required es.

End CommitOrderCalculator.

(** ** Live-schema side and the schema generator *)

Module Schema.
Import Metadata.

(** Entries of [column.indexes] and of [table.getIndexes()]. *)
Record Index := mkIndex {
  columnName : string;
  keyName : string;
  idx_unique : bool
}.

Record ForeignKey := mkForeignKey {
  fk_columnName : string;
  fk_constraintName : string
}.

Record Column := mkColumn {
  col_name : string;
  col_type : string;
  col_nullable : bool;
  col_defaultValue : option string;
  fk : option ForeignKey;
  col_indexes : list Index
}.

(** [copy.name = fieldName] on a copy of the column *)
Definition withName (n : string) (c : Column) : Column :=
  mkColumn n (col_type c) (col_nullable c) (col_defaultValue c) (fk c) (col_indexes c).

Record IsSame := mkIsSame {
  all : bool;
  sameTypes : bool;
  sameNullable : bool;
  sameDefault : bool;
  sameIndex : bool
}.

Record IndexDef := mkIndexDef {
  def_keyName : string;
  def_columnNames : list string;
  def_unique : bool
}.

Record UpdateEntry := mkUpdate {
  upd_prop : EntityProperty;
  upd_column : Column;
  upd_diff : IsSame
}.

Record RenameEntry := mkRename {
  ren_from : Column;
  ren_to : EntityProperty
}.

Record TableDifference := mkDiff {
  create : list EntityProperty;
  update : list UpdateEntry;
  rename : list RenameEntry;
  remove : list Column;
  addIndex : list IndexDef;
  dropIndex : list IndexDef
}.

(** [DatabaseTable]: [getColumns()], [getColumn(name)], [getIndexes()]. *)
Record DatabaseTable := mkTable {
  table_name : string;
  getColumns : list Column;
  getIndexes : Js.Dictionary (list Index)
}.

Definition getColumn (n : string) (t : DatabaseTable) : option Column :=
  List.find (fun c => String.eqb (col_name c) n) (getColumns t).

(** [DatabaseSchema]: [getTables()], [getTable(name)]. *)
Definition DatabaseSchema := list DatabaseTable.

Definition getTable (n : string) (s : DatabaseSchema) : option DatabaseTable :=
  List.find (fun t => String.eqb (table_name t) n) s.

#[global] Instance Index_eq_dec : EqDecision Index.
Proof. solve_decision. Defined.
#[global] Instance ForeignKey_eq_dec : EqDecision ForeignKey.
Proof. solve_decision. Defined.
#[global] Instance Column_eq_dec : EqDecision Column.
Proof. solve_decision. Defined.
#[global] Instance IsSame_eq_dec : EqDecision IsSame.
Proof. solve_decision. Defined.
#[global] Instance RenameEntry_eq_dec : EqDecision RenameEntry.
Proof. solve_decision. Defined.

Inductive IndexKind := KIndex | KUnique | KForeign.

(** Calls on a knex [TableBuilder] inside [createTable] / [alterTable].
    [CreateColumn prop alter] stands for [createTableColumn(t, meta, prop,
    alter)], whose column builders are not unfolded; [AlterColumn] is the same
    followed by [.alter()] on every column. *)
Inductive TableOp :=
| CreateColumn (prop : EntityProperty) (alter : option IsSame)
| AlterColumn (prop : EntityProperty) (diff : IsSame)
| Primary (columns : list string)
| Foreign (prop : EntityProperty)
| AddIndex (columns : list string) (name : string) (type : option string)
| AddUnique (columns : list string) (name : string)
| DropForeign (columns : list string) (constraintName : string)
| DropIndex (columns : list string) (name : option string)
| DropUnique (columns : list string) (name : string)
| DropColumn (name : string).

(** Statements handed to [dump]. *)
Inductive SchemaOp :=
| CreateTable (name : string) (body : list TableOp)
| AlterTable (name : string) (body : list TableOp)
| RenameColumn (table : string) (from : Column) (to : EntityProperty)
| DropTableIfExists (name : string) (cascade : bool).

End Schema.

Module SchemaGenerator.
Import Metadata Schema.
Module COC := CommitOrderCalculator.

Definition ref_eqb (a b : ReferenceType) : bool := bool_decide (a = b).

(** [[MANY_TO_ONE, ONE_TO_ONE].includes(prop.reference)] *)
Definition isToOne (prop : EntityProperty) : bool :=
  match reference prop with
  | MANY_TO_ONE | ONE_TO_ONE => true
  | _ => false
  end.

(** [prop.reference === MANY_TO_ONE || (prop.reference === ONE_TO_ONE && prop.owner)] *)
Definition isOwningToOne (prop : EntityProperty) : bool :=
  ref_eqb (reference prop) MANY_TO_ONE
  || (ref_eqb (reference prop) ONE_TO_ONE && owner prop).

(** *** Commit order *)

Definition addCommitDependency (calc : COC.t) (prop : EntityProperty)
    (entityName : string) : COC.t :=
  if negb (ref_eqb (reference prop) ONE_TO_ONE && owner prop)
     && negb (ref_eqb (reference prop) MANY_TO_ONE)
  then calc
  else COC.addDependency (type prop) entityName (if nullable prop then 0 else 1) calc.

(** [!meta.root || meta.root === meta]; the root is known by its name. *)
Definition isRootEntity (meta : EntityMetadata) : bool :=
  match root meta with
  | None => true
  | Some r => String.eqb r (meta_name meta)
  end.

Definition rootEntities (ms : MetadataStorage) : list EntityMetadata :=
  List.filter (fun meta => isRootEntity meta && negb (embeddable meta)) (Js.values ms).

(** The loop [while (meta) { ...; meta = metadata.pop() }] visits the root
    entities from the last to the first. *)
Definition addDependencies (calc : COC.t) (meta : EntityMetadata) : COC.t :=
  List.fold_left
    (fun c prop =>
       if COC.hasNode (type prop) c
       then addCommitDependency c prop (meta_name meta)
       else c)
    (props meta) calc.

Definition commitGraph (ms : MetadataStorage) : COC.t :=
  let metadata := rootEntities ms in
  let calc := List.fold_left (fun c meta => COC.addNode (meta_name meta) c) metadata COC.empty in
  List.fold_left addDependencies (List.rev metadata) calc.

(** [calc.sort().map(cls => this.metadata.find(cls)!)] *)
Definition getOrderedMetadata (ms : MetadataStorage)
    : COC.SortResult (option EntityMetadata) :=
  match COC.sort (commitGraph ms) with
  | COC.Sorted l => COC.Sorted (List.map (fun cls => find cls ms) l)
  | COC.SchemaDependencyError => COC.SchemaDependencyError
  end.

Section WithPlatform.

(** The platform's schema helper and capability flags. *)
Variable isSame : EntityProperty -> Column -> option nat -> IsSame.
Variable supportsColumnAlter : bool.
Variable supportsSchemaConstraints : bool.
Variable getIndexName : string -> list string -> IndexKind -> string.
Variable isImplicitIndex : string -> bool.
Variable usesCascadeStatement : bool.

(** *** Table difference *)

(** [ReferenceType.EMBEDDED && prop.object]: the enum constant is a
    non-empty string, so the test is [prop.object]. *)
Definition shouldHaveColumn (meta : EntityMetadata) (prop : EntityProperty)
    (update : bool) : bool :=
  if negb (persist prop) then false
  else if meta_pivotTable meta || object prop then true
  else if negb (ref_eqb (reference prop) SCALAR) && negb (primary prop)
          && negb supportsSchemaConstraints && negb update then false
  else (ref_eqb (reference prop) SCALAR || ref_eqb (reference prop) MANY_TO_ONE)
       || (ref_eqb (reference prop) ONE_TO_ONE && owner prop).

(** [computeColumnDifference] once [joinColumn] is given (column names are
    not empty, so [!joinColumn] is false there). *)
Definition computeColumnDifferenceAt (table : DatabaseTable) (prop : EntityProperty)
    (joinColumn : string) (idx : nat)
    (acc : list EntityProperty * list UpdateEntry)
    : list EntityProperty * list UpdateEntry :=
  match getColumn joinColumn table with
  | None => (fst acc ++ [prop], snd acc)
  | Some column =>
      if supportsColumnAlter && negb (all (isSame prop column (Some idx)))
      then (fst acc, snd acc ++ [mkUpdate prop column (isSame prop column (Some idx))])
      else acc
  end.

Definition computeColumnDifference (table : DatabaseTable) (prop : EntityProperty)
    (acc : list EntityProperty * list UpdateEntry)
    : list EntityProperty * list UpdateEntry :=
  if isToOne prop
  then Js.forEachIdx (computeColumnDifferenceAt table prop) (Js.arr (joinColumns prop)) 0 acc
  else Js.forEachIdx (computeColumnDifferenceAt table prop) (Js.arr (fieldNames prop)) 0 acc.

(** The [remove.find(...)] of [findRenamedColumns]; [isSame] is called
    without an index there. *)
Definition findMatch (prop : EntityProperty) (fieldName : string)
    (remove : list Column) : option Column :=
  List.find (fun column => all (isSame prop (withName fieldName column) None)) remove.

Definition renamedEntries (create : list EntityProperty) (remove : list Column)
    : list RenameEntry :=
  List.flat_map
    (fun prop =>
       List.flat_map
         (fun fieldName =>
            match findMatch prop fieldName remove with
            | Some m => [mkRename m prop]
            | None => []
            end)
         (Js.arr (fieldNames prop)))
    create.

Definition spliceRenamed (acc : list EntityProperty * list Column) (r : RenameEntry)
    : list EntityProperty * list Column :=
  (Js.spliceIndexOf (ren_to r) (fst acc), Js.spliceIndexOf (ren_from r) (snd acc)).

(** Returns [renamed] together with the [create] and [remove] arrays as the
    two [splice] calls leave them. *)
Definition findRenamedColumns (create : list EntityProperty) (remove : list Column)
    : list RenameEntry * (list EntityProperty * list Column) :=
  let renamed := renamedEntries create remove in
  (renamed, List.fold_left spliceRenamed renamed (create, remove)).

Definition idxName (meta : EntityMetadata) (name : NameOrFlag)
    (columns : list string) (kind : IndexKind) : string :=
  match name with
  | Named s => s
  | _ => getIndexName (collection meta) columns kind
  end.

(** [Utils.flatten(Utils.asArray(index.properties).map(prop =>
    meta.properties[prop].fieldNames))] *)
Definition indexColumns (meta : EntityMetadata) (index : IndexDecl) : list string :=
  List.flat_map
    (fun prop =>
       match Js.get prop (properties meta) with
       | Some p => Js.arr (fieldNames p)
       | None => []
       end)
    (idx_properties index).

Definition declaredIndexes (meta : EntityMetadata) : list IndexDef :=
  List.map (fun index =>
              mkIndexDef (idxName meta (idx_name index) (indexColumns meta index) KIndex)
                         (indexColumns meta index) false)
           (indexes meta)
  ++ List.map (fun index =>
                 mkIndexDef (idxName meta (idx_name index) (indexColumns meta index) KUnique)
                            (indexColumns meta index) true)
              (uniques meta).

Definition propertyIndexNames (meta : EntityMetadata) (prop : EntityProperty)
    : list string :=
  (if truthy (index prop)
   then [idxName meta (index prop) (Js.arr (fieldNames prop)) KIndex] else [])
  ++ (if truthy (unique prop)
      then [idxName meta (unique prop) (Js.arr (fieldNames prop)) KUnique] else [])
  ++ (if isToOne prop
      then [getIndexName (collection meta) (Js.arr (fieldNames prop)) KIndex;
            getIndexName (collection meta) (Js.arr (fieldNames prop)) KForeign]
      else []).

Definition expectedIndexes (meta : EntityMetadata) : list string :=
  List.map def_keyName (declaredIndexes meta)
  ++ List.flat_map (propertyIndexNames meta) (props meta).

Definition willBeRemoved (remove : list Column) (index : list Index) : bool :=
  List.existsb
    (fun col => List.existsb (fun idx => String.eqb (columnName idx) (col_name col)) index)
    remove.

Definition findIndexDifference (meta : EntityMetadata) (table : DatabaseTable)
    (remove : list Column) : list IndexDef * list IndexDef :=
  let existingIndexes := Js.keys (getIndexes table) in
  let addIndex :=
    List.filter (fun d => negb (Js.includes (def_keyName d) existingIndexes))
                (declaredIndexes meta) in
  let dropIndex :=
    List.flat_map
      (fun entry : string * list Index =>
         let (name, index) := entry in
         if negb (Js.includes name (expectedIndexes meta))
            && negb (isImplicitIndex name)
            && negb (willBeRemoved remove index)
         then [mkIndexDef name (List.map columnName index)
                          (match index with i :: _ => idx_unique i | [] => false end)]
         else [])
      (getIndexes table) in
  (addIndex, dropIndex).

Definition hasCounterpart (props : list EntityProperty) (col : Column) : bool :=
  List.existsb
    (fun prop => Js.includes (col_name col) (Js.arr (fieldNames prop))
                 || Js.includes (col_name col) (Js.arr (joinColumns prop)))
    props.

(** The locals of [computeTableDifference] before [findRenamedColumns]
    runs: [props], [remove] as first filtered, and [create] and [update] as
    the loop over [props] leaves them. *)
Definition columnProps (meta : EntityMetadata) : list EntityProperty :=
  List.filter (fun prop => shouldHaveColumn meta prop true) (props meta).

Definition unmatchedColumns (meta : EntityMetadata) (table : DatabaseTable)
    : list Column :=
  List.filter (fun col => negb (hasCounterpart (columnProps meta) col)) (getColumns table).

Definition columnDifferences (meta : EntityMetadata) (table : DatabaseTable)
    : list EntityProperty * list UpdateEntry :=
  List.fold_left (fun acc prop => computeColumnDifference table prop acc)
                 (columnProps meta) ([], []).

Definition computeTableDifference (meta : EntityMetadata) (table : DatabaseTable)
    (safe : bool) : TableDifference :=
  let cu := columnDifferences meta table in
  let renamed := findRenamedColumns (fst cu) (unmatchedColumns meta table) in
  let rename := fst renamed in
  let create := fst (snd renamed) in
  let remove := snd (snd renamed) in
  let ignore :=
    remove ++ List.map ren_from (List.filter (fun c => isToOne (ren_to c)) rename) in
  let indexDifference := findIndexDifference meta table ignore in
  if safe
  then mkDiff create (snd cu) rename [] (fst indexDifference) (snd indexDifference)
  else mkDiff create (snd cu) rename remove (fst indexDifference) (snd indexDifference).

(** *** DDL emission *)

Definition emptyIsSame : IsSame := mkIsSame false false false false false.

Definition createTableColumn (prop : EntityProperty) (alter : option IsSame)
    : list TableOp :=
  [CreateColumn prop alter].

Definition createForeignKeyReference (prop : EntityProperty) : list TableOp :=
  [Foreign prop].

(** [diff ?? {}]: a missing [diff] becomes the empty object. *)
Definition createForeignKey (meta : EntityMetadata) (prop : EntityProperty)
    (diff : option IsSame) : list TableOp :=
  if supportsSchemaConstraints then createForeignKeyReference prop
  else
    let columnAlreadyCreated :=
      primary prop && negb (ref_eqb (reference prop) SCALAR)
      && negb (match diff with Some _ => true | None => false end) in
    if negb (meta_pivotTable meta) && negb columnAlreadyCreated
    then createTableColumn prop (Some (match diff with Some d => d | None => emptyIsSame end))
    else [].

(** [props] is the optional filter [props?: EntityProperty[]]. *)
Definition createForeignKeys (meta : EntityMetadata)
    (only : option (list EntityProperty)) : list TableOp :=
  List.flat_map
    (fun prop => createForeignKey meta prop None)
    (List.filter isOwningToOne
       (List.filter
          (fun prop =>
             match only with
             | None => true
             | Some l => bool_decide (prop ∈ l)
             end)
          (relations meta))).

Definition createIndex (meta : EntityMetadata) (index : IndexDecl) (uniq : bool)
    : list TableOp :=
  let properties := indexColumns meta index in
  let name := idxName meta (idx_name index) properties (if uniq then KUnique else KIndex) in
  if uniq then [AddUnique properties name]
  else [AddIndex properties name (idx_type index)].

Definition createIndexes (meta : EntityMetadata) : list TableOp :=
  List.flat_map (fun index => createIndex meta index false) (indexes meta)
  ++ List.flat_map (fun index => createIndex meta index true) (uniques meta).

(** The local [createIndex] closure of the source is never called, and
    [table.comment] and [finalizeTable] add no column; they are left out. *)
Definition createTable (meta : EntityMetadata) : SchemaOp :=
  CreateTable (collection meta)
    (List.flat_map (fun prop => createTableColumn prop None)
       (List.filter (fun prop => shouldHaveColumn meta prop false) (props meta))
     ++ (if compositePK meta
         then [Primary
                 (List.flat_map
                    (fun pk => match Js.get pk (properties meta) with
                               | Some p => Js.arr (fieldNames p)
                               | None => []
                               end)
                    (primaryKeys meta))]
         else [])).

Definition updateTableColumn (meta : EntityMetadata) (prop : EntityProperty)
    (column : Column) (diff : IsSame) : list TableOp :=
  let equalDefinition := sameTypes diff && sameDefault diff && sameNullable diff in
  (match fk column with
   | Some k => if negb (sameIndex diff)
               then [DropForeign [fk_columnName k] (fk_constraintName k)] else []
   | None => []
   end)
  ++ (if negb (Nat.eqb (length (col_indexes column)) 0) && negb (sameIndex diff)
      then [DropIndex (List.map columnName (col_indexes column)) None] else [])
  ++ (if (match fk column with Some _ => true | None => false end)
         && negb (sameIndex diff) && equalDefinition
      then createForeignKey meta prop (Some diff)
      else [AlterColumn prop diff]).

Definition dropTableColumn (column : Column) : list TableOp :=
  (match fk column with
   | Some k => [DropForeign [fk_columnName k] (fk_constraintName k)]
   | None => []
   end)
  ++ List.map
       (fun index =>
          if idx_unique index
          then DropUnique [columnName index] (keyName index)
          else DropIndex [columnName index] (Some (keyName index)))
       (col_indexes column)
  ++ [DropColumn (col_name column)].

Definition updateTable (meta : EntityMetadata) (table : DatabaseTable) (safe : bool)
    : list SchemaOp :=
  let d := computeTableDifference meta table safe in
  if Nat.eqb (length (create d) + length (update d) + length (remove d) + length (rename d)) 0
  then []
  else
    List.map (fun prop => RenameColumn (table_name table) (ren_from prop) (ren_to prop))
             (rename d)
    ++ [AlterTable (collection meta)
          (List.flat_map (fun prop => createTableColumn prop None) (create d)
           ++ List.flat_map
                (fun col => updateTableColumn meta (upd_prop col) (upd_column col) (upd_diff col))
                (update d)
           ++ List.flat_map dropTableColumn (remove d))].

Definition dropTable (name : string) : SchemaOp :=
  DropTableIfExists name usesCascadeStatement.

Definition getUpdateTableSQL (meta : EntityMetadata) (schema : DatabaseSchema)
    (safe : bool) : list SchemaOp :=
  match getTable (collection meta) schema with
  | None => [createTable meta]
  | Some table => updateTable meta table safe
  end.

Definition getUpdateTableFKsSQL (meta : EntityMetadata) (schema : DatabaseSchema)
    : list SchemaOp :=
  match getTable (collection meta) schema with
  | None => [AlterTable (collection meta) (createForeignKeys meta None)]
  | Some table =>
      let d := computeTableDifference meta table true in
      if Nat.eqb (length (create d)) 0 then []
      else [AlterTable (collection meta) (createForeignKeys meta (Some (create d)))]
  end.

Definition getUpdateTableIndexesSQL (meta : EntityMetadata) (schema : DatabaseSchema)
    : list SchemaOp :=
  match getTable (collection meta) schema with
  | None => [AlterTable (collection meta) (createIndexes meta)]
  | Some table =>
      let d := computeTableDifference meta table true in
      List.map
        (fun index =>
           AlterTable (collection meta)
             [if def_unique index
              then DropUnique (def_columnNames index) (def_keyName index)
              else DropIndex (def_columnNames index) (Some (def_keyName index))])
        (dropIndex d)
      ++ List.map
           (fun index =>
              AlterTable (collection meta)
                [if def_unique index
                 then AddUnique (def_columnNames index) (def_keyName index)
                 else AddIndex (def_columnNames index) (def_keyName index) None])
           (addIndex d)
  end.

(** The statements of [getUpdateSchemaSQL] in the order they are dumped
    ([wrapSchema] only adds the platform's fixed prologue and epilogue around
    them; [dump] drops a statement that renders to the empty text).  The live
    [schema] is what [DatabaseSchema.create] has read.  An entry of the
    ordered metadata that [find] did not resolve contributes nothing. *)
Definition getUpdateSchemaSQL (ms : MetadataStorage) (schema : DatabaseSchema)
    (safe dropTables : bool) : COC.SortResult SchemaOp :=
  match getOrderedMetadata ms with
  | COC.SchemaDependencyError => COC.SchemaDependencyError
  | COC.Sorted ordered =>
      let metadata := List.flat_map (fun o => match o with Some m => [m] | None => [] end) ordered in
      let ret :=
        List.flat_map (fun meta => getUpdateTableSQL meta schema safe) metadata
        ++ List.flat_map (fun meta => getUpdateTableFKsSQL meta schema) metadata
        ++ List.flat_map (fun meta => getUpdateTableIndexesSQL meta schema) metadata in
      if negb dropTables || safe then COC.Sorted ret
      else
        let definedTables := List.map collection metadata in
        let remove :=
          List.filter (fun table => negb (Js.includes (table_name table) definedTables)) schema in
        COC.Sorted (ret ++ List.map (fun table => dropTable (table_name table)) remove)
  end.

(** [getOrderedMetadata()] as the loops below walk it, under the same
    convention as in [getUpdateSchemaSQL]. *)
Definition orderedMetadata (ordered : list (option EntityMetadata)) : list EntityMetadata :=
  List.flat_map (fun o => match o with Some m => [m] | None => [] end) ordered.

(** The statements of [getCreateSchemaSQL]: the tables, then the foreign
    keys, then the indexes, each pass in commit order. *)
Definition getCreateSchemaSQL (ms : MetadataStorage) : COC.SortResult SchemaOp :=
  match getOrderedMetadata ms with
  | COC.SchemaDependencyError => COC.SchemaDependencyError
  | COC.Sorted ordered =>
      let metadata := orderedMetadata ordered in
      COC.Sorted
        (List.map createTable metadata
         ++ List.map (fun meta => AlterTable (collection meta) (createForeignKeys meta None))
                     metadata
         ++ List.map (fun meta => AlterTable (collection meta) (createIndexes meta)) metadata)
  end.

(** The statements of [getDropSchemaSQL]; [migrationsTableName] is
    [config.get('migrations').tableName]. *)
Definition getDropSchemaSQL (ms : MetadataStorage) (dropMigrationsTable : bool)
    (migrationsTableName : string) : COC.SortResult SchemaOp :=
  match getOrderedMetadata ms with
  | COC.SchemaDependencyError => COC.SchemaDependencyError
  | COC.Sorted ordered =>
      let metadata := List.rev (orderedMetadata ordered) in
      COC.Sorted
        (List.map (fun meta => dropTable (collection meta)) metadata
         ++ (if dropMigrationsTable then [dropTable migrationsTableName] else []))
  end.

(** [generate()]: the drop statements followed by the create statements;
    [dropMigrationsTable] keeps its default there. *)
Definition generate (ms : MetadataStorage) : COC.SortResult SchemaOp :=
  match getDropSchemaSQL ms false "", getCreateSchemaSQL ms with
  | COC.Sorted dropSchema, COC.Sorted createSchema => COC.Sorted (dropSchema ++ createSchema)
  | _, _ => COC.SchemaDependencyError
  end.

(** *** Databases *)

(** What the generator does to its collaborators when it creates or drops a
    database: it overwrites the configured [dbName], asks the driver to
    reconnect and hands it statements.  A reconnect is recorded with the
    [dbName] configured at that moment. *)
Inductive DriverCall :=
| Reconnect (configured : string)
| Execute (statement : string).

Record Session := mkSession {
  dbName : string;
  calls : list DriverCall
}.

Section Databases.

(** [this.helper.getManagementDbName()], [getCreateDatabaseSQL],
    [getDropDatabaseSQL], and [knex.ref(name)] rendered as text. *)
Variable getManagementDbName : string.
Variable getCreateDatabaseSQL : string -> string.
Variable getDropDatabaseSQL : string -> string.
Variable ref : string -> string.

Definition setDbName (name : string) (s : Session) : Session :=
  mkSession name (calls s).

Definition reconnect (s : Session) : Session :=
  mkSession (dbName s) (calls s ++ [Reconnect (dbName s)]).

Definition driverExecute (statement : string) (s : Session) : Session :=
  mkSession (dbName s) (calls s ++ [Execute statement]).

Definition createDatabase (name : string) (s : Session) : Session :=
  reconnect (setDbName name (driverExecute (getCreateDatabaseSQL (ref name)) s)).

Definition dropDatabase (name : string) (s : Session) : Session :=
  driverExecute (getDropDatabaseSQL (ref name))
    (reconnect (setDbName getManagementDbName s)).

(** [exists_] is the answer of [helper.databaseExists(connection, dbName)]. *)
Definition ensureDatabase (exists_ : bool) (s : Session) : Session :=
  let name := dbName s in
  if exists_ then s
  else createDatabase name (reconnect (setDbName getManagementDbName s)).

End Databases.

(** What counts as a drop: a dropped table, or a dropped column, index,
    unique constraint or foreign key inside [alterTable]. *)
Definition isDropTableOp (op : TableOp) : bool :=
  match op with
  | DropForeign _ _ | DropIndex _ _ | DropUnique _ _ | DropColumn _ => true
  | _ => false
  end.

Definition isDropColumn (op : TableOp) : bool :=
  match op with
  | DropColumn _ => true
  | _ => false
  end.

Definition body (op : SchemaOp) : list TableOp :=
  match op with
  | CreateTable _ b | AlterTable _ b => b
  | _ => []
  end.

Definition isDropTable (op : SchemaOp) : bool :=
  match op with
  | DropTableIfExists _ _ => true
  | _ => false
  end.

(** Some drop operation of any kind. *)
Definition dropsAnything (op : SchemaOp) : bool :=
  isDropTable op || List.existsb isDropTableOp (body op).

(** A drop that loses data: a table or a column. *)
Definition dropsData (op : SchemaOp) : bool :=
  isDropTable op || List.existsb isDropColumn (body op).

End WithPlatform.

End SchemaGenerator.

(** ** The query builder helper *)

Module QueryBuilderHelper.
Import Metadata.

(** Values of a condition object. *)
#[warnings="-register-all"]
Inductive Value :=
| VUndefined
| VNull
| VBool (b : bool)
| VNum (z : Z)
| VStr (s : string)
| VRegExp (source : string)
| VArr (items : list Value)
| VObj (entries : list (string * Value)).

(** [knex.raw(sql, bindings)] *)
Record Raw := mkRaw { sql : string; bindings : Value }.

(** What [mapper] returns: a column reference or a raw expression. *)
Inductive Ref :=
| Column (c : string)
| RawRef (r : Raw).

(** Third argument of a where call: a plain value or a raw fragment. *)
Inductive Arg :=
| Val (v : Value)
| RawArg (r : Raw).

Inductive Method :=
| where_ | having | andWhere | orWhere | whereNot | orWhereNot.

(** The calls made on the knex query builder: [qb[m](column, op, value)],
    [qb[m](raw)] or [qb[m](raw, raw)], and [qb[m](inner => ...)].  knex
    renders the last form as a parenthesised group. *)
#[warnings="-register-all"]
Inductive Clause :=
| Where (m : Method) (column : Ref) (op : string) (value : Arg)
| WhereRaw (m : Method) (expr : Ref) (arg : option Raw)
| Nested (m : Method) (body : list Clause).

Inductive GroupOperator := and_ | or_.

Inductive Error :=
| InvalidQueryCondition
| TypeError
| OptimisticLockError_lockFailed (entityName : string).

Definition Result := Js.Completion Error.

(** *** Regular expressions *)

Definition backslash : ascii := ascii_of_nat 92.

(** [/[{[(]/] *)
Definition isOpening (c : ascii) : bool :=
  Ascii.eqb c "{" || Ascii.eqb c "[" || Ascii.eqb c "(".

Definition isSimpleRegExp (re : Value) : bool :=
  match re with
  | VRegExp source => negb (Js.matchesClass isOpening source)
  | _ => false
  end.

Definition getRegExpParam (source : string) : string :=
  let value :=
    Js.stripEnd "$"
      (Js.stripStart "^"
         (Js.replace2 backslash "_" "."
            (Js.replace1 "." "_"
               (Js.replace2 "." "*" "%" source)))) in
  if Js.startsWith "^" source && Js.endsWith "$" source then value
  else if Js.startsWith "^" source then value +:+ "%"
  else if Js.endsWith "$" source then "%" +:+ value
  else "%" +:+ value +:+ "%".

(** [/[ ?<>=()]|^\d/] *)
Definition isCustomChar (c : ascii) : bool :=
  Ascii.eqb c " " || Ascii.eqb c "?" || Ascii.eqb c "<" || Ascii.eqb c ">"
  || Ascii.eqb c "=" || Ascii.eqb c "(" || Ascii.eqb c ")".

Definition isDigit (c : ascii) : bool :=
  (48 <=? nat_of_ascii c)%nat && (nat_of_ascii c <=? 57)%nat.

Definition isCustomExpression (field : string) : bool :=
  Js.matchesClass isCustomChar field
  || match field with String c _ => isDigit c | EmptyString => false end.

(** *** Conditions *)

Definition isPlainObject (v : Value) : bool :=
  match v with VObj _ => true | _ => false end.

Definition isArray (v : Value) : bool :=
  match v with VArr _ => true | _ => false end.

Definition getObjectKeysSize (v : Value) : nat :=
  match v with VObj es => length es | _ => 0 end.

Definition isNull (v : Value) : bool :=
  match v with VNull => true | _ => false end.

(** The decimal key of an array index. *)
Definition indexKey (i : nat) : string := NilEmpty.string_of_uint (Nat.to_uint i).

Fixpoint indexed {A : Type} (i : nat) (l : list A) : list (string * A) :=
  match l with
  | [] => []
  | x :: l' => (indexKey i, x) :: indexed (S i) l'
  end.

(** [Object.keys(v)] paired with [v[k]]: the entries of an object, the
    indices of an array or of a string; numbers, booleans and regular
    expressions have no enumerable keys, and [null] and [undefined] have no
    keys to ask for. *)
Definition entriesOf (v : Value) : Result (list (string * Value)) :=
  match v with
  | VObj es => Js.Normal es
  | VArr items => Js.Normal (indexed 0 items)
  | VStr s => Js.Normal (indexed 0 (List.map (fun c => VStr (String c EmptyString))
                                             (list_ascii_of_string s)))
  | VNull | VUndefined => Js.Throw TypeError
  | _ => Js.Normal []
  end.

Definition countQuestionMarks (key : string) : nat :=
  length (List.filter (fun c => Ascii.eqb c "?") (list_ascii_of_string key)).

Definition join (sep : string) (l : list string) : string :=
  match l with
  | [] => ""
  | x :: l' => List.fold_left (fun acc y => acc +:+ sep +:+ y) l' x
  end.

Section Compiler.

(** The query type is only handed on to [mapper]. *)
Variable QueryType : Type.
Variable SELECT : QueryType.
(** [this.mapper(field, type, value)], the field and alias resolution. *)
Variable mapper : string -> QueryType -> Value -> Ref.
Variable subQueries : Js.Dictionary string.
(** How a template literal renders the member of [Object.prototype] of the
    given name; the text of a built-in function is the engine's choice. *)
Variable inheritedText : string -> string.
(** The enum [QueryOperator] of the core package: operator key to SQL. *)
Variable QueryOperator : Js.Dictionary string.
(** Helpers of [Utils] and the platform. *)
Variable isOperator : string -> bool.
Variable splitPrimaryKeys : string -> list string.
Variable asArray : Value -> list Value.
Variable isObject : Value -> bool.
Variable stringify : Value -> string.
Variable getRegExpOperator : string.
Variable requiresValuesKeyword : bool.
Variable getFullTextWhereClause : string.
Variable tableName : string.

(** [this.subQueries[key]] where the code tests it for truthiness and then
    renders it: an own entry counts unless it is the empty string, and a key
    without an entry that names a member of [Object.prototype] reads that
    member, which is truthy. *)
Definition subQuery (key : string) : option string :=
  match Js.get key subQueries with
  | Some sq => if String.eqb sq "" then None else Some sq
  | None => if Js.includes key Js.objectPrototype then Some (inheritedText key) else None
  end.

Definition getOperatorReplacement (op : string) (value : Value) : string :=
  let replacement := match Js.get op QueryOperator with Some r => r | None => "" end in
  let opValue := match value with VObj es => Js.get op es | _ => None end in
  let replacement :=
    if (match opValue with Some VNull => true | _ => false end)
       && (String.eqb op "$eq" || String.eqb op "$ne")
    then (if String.eqb op "$eq" then "is" else "is not")
    else replacement in
  if String.eqb op "$re" then getRegExpOperator else replacement.

Definition processCustomExpression (m : Method) (key : string) (v : Value)
    (type : QueryType) : list Clause :=
  let count := countQuestionMarks key in
  let value := asArray v in
  let params1 :=
    List.map (fun c => if isObject c then VStr (stringify c) else c) (firstn count value) in
  let params2 := skipn count value in
  let k := mapper key type (VArr params1) in
  if negb (Nat.eqb (length params2) 0)
  then [WhereRaw m k (Some (mkRaw "?" (VArr params2)))]
  else [WhereRaw m k None].

(** [processObjectSubCondition] for a value with at most one key: the part
    after the [getObjectKeysSize(value) > 1] test. *)
Definition processOperator (key : string) (v : Value) (m : Method)
    (type : QueryType) : Result (list Clause) :=
  let value := match v with VRegExp source => VObj [("$re", VStr source)] | _ => v end in
  let es := match value with VObj es => es | _ => [] end in
  match List.find (fun op => Js.has op es) (Js.keys QueryOperator) with
  | None => Js.Throw InvalidQueryCondition
  | Some op =>
      let replacement := getOperatorReplacement op value in
      let fields := splitPrimaryKeys key in
      let opValue := match Js.get op es with Some x => x | None => VUndefined end in
      let arg :=
        match opValue with
        | VArr vs =>
            if (1 <? length fields)%nat && negb (List.forallb isArray vs)
            then RawArg (mkRaw ((if requiresValuesKeyword then "values " else "")
                                +:+ "(" +:+ join ", " (List.map (fun _ => "?") fields) +:+ ")")
                               opValue)
            else Val opValue
        | _ => Val opValue
        end in
      match subQuery key with
      | Some sq => Js.Normal [Where m (RawRef (mkRaw ("(" +:+ sq +:+ ")") VUndefined)) replacement arg]
      | None =>
          if String.eqb op "$fulltext"
          then Js.Normal
                 [WhereRaw m
                    (RawRef (mkRaw getFullTextWhereClause
                               (VObj [("table", VStr tableName); ("column", VStr key);
                                      ("query", opValue)])))
                    None]
          else Js.Normal [Where m (mapper key type VUndefined) replacement arg]
      end
  end.

(** With several keys the source rebuilds one single-key object per entry
    and sends each through [appendQueryCondition] with [$and]; that call
    comes back here with [m = method], which is unfolded. *)
Definition processObjectSubCondition (key : string) (v : Value) (method m : Method)
    (type : QueryType) : Result (list Clause) :=
  if (1 <? getObjectKeysSize v)%nat
  then Js.forEachM
         (fun sub : string * Value => processOperator key (VObj [sub]) method type)
         (match v with VObj es => es | _ => [] end)
  else processOperator key v m type.

Definition appendQuerySubCondition (type : QueryType) (method : Method)
    (key : string) (v : Value) (operator : option GroupOperator)
    : Result (list Clause) :=
  let m := match operator with Some or_ => orWhere | _ => method end in
  if isSimpleRegExp v
  then Js.Normal
         [Where m (mapper key type VUndefined) "like"
            (Val (VStr (getRegExpParam (match v with VRegExp s => s | _ => "" end))))]
  else if isPlainObject v || (match v with VRegExp _ => true | _ => false end)
  then processObjectSubCondition key v method m type
  else if isCustomExpression key
  then Js.Normal (processCustomExpression m key v type)
  else
    let op := if isNull v then "is" else "=" in
    match subQuery key with
    | Some sq => Js.Normal [Where m (RawRef (mkRaw ("(" +:+ sq +:+ ")") VUndefined)) op (Val v)]
    | None => Js.Normal [Where m (mapper key type v) op (Val v)]
    end.

(** The [simple] test of [appendGroupCondition] on a member [sub]. *)
Definition isSimpleMember (es : list (string * Value)) : bool :=
  let val := match es with (_, v) :: _ => v | [] => VUndefined end in
  let simple :=
    negb (isPlainObject val)
    || Nat.eqb (getObjectKeysSize val) 1
    || List.forallb (fun k => negb (isOperator k))
                    (match val with VObj ves => Js.keys ves | _ => [] end) in
  Nat.eqb (length es) 1 && simple.

(** [appendGroupCondition], given the recursive [appendQueryCondition] as
    [rec].  A sub-condition that is not an array has neither [length] nor
    [forEach]. *)
Definition appendGroupCondition
    (rec : Value -> option GroupOperator -> Method -> Result (list Clause))
    (operator : GroupOperator) (method : Method) (subCondition : Value)
    : Result (list Clause) :=
  match subCondition with
  | VArr subs =>
      if Nat.eqb (length subs) 1 || (match operator with and_ => true | or_ => false end)
      then Js.forEachM (fun sub => rec sub None method) subs
      else
        Js.bind
          (Js.forEachM
             (fun sub =>
                Js.bind (entriesOf sub) (fun es =>
                  if isSimpleMember es
                  then rec sub (Some operator) where_
                  else Js.bind (rec sub None where_) (fun inner =>
                         Js.Normal [Nested orWhere inner])))
             subs)
          (fun outer => Js.Normal [Nested method outer])
  | _ => Js.Throw TypeError
  end.

Definition groupOperatorOf (k : string) : option GroupOperator :=
  if String.eqb k "$and" then Some and_
  else if String.eqb k "$or" then Some or_
  else None.

Fixpoint appendQueryCondition (type : QueryType) (cond : Value)
    (operator : option GroupOperator) (method : Method) {struct cond}
    : Result (list Clause) :=
  let m := match operator with Some or_ => orWhere | _ => andWhere end in
  match cond with
  | VObj entries =>
      Js.forEachM
        (fun entry : string * Value =>
           let (k, v) := entry in
           match groupOperatorOf k with
           | Some g =>
               match operator with
               | Some _ =>
                   Js.bind
                     (appendGroupCondition (appendQueryCondition type) g method v)
                     (fun inner => Js.Normal [Nested m inner])
               | None => appendGroupCondition (appendQueryCondition type) g method v
               end
           | None =>
               if String.eqb k "$not"
               then Js.bind (appendQueryCondition type v None where_)
                      (fun inner =>
                         Js.Normal
                           [Nested (match operator with
                                    | Some or_ => orWhereNot
                                    | _ => whereNot
                                    end) inner])
               else appendQuerySubCondition type method k v operator
           end)
        entries
  | _ =>
      (* index keys are never [$and], [$or] or [$not] *)
      Js.bind (entriesOf cond)
        (Js.forEachM
           (fun entry : string * Value =>
              appendQuerySubCondition type method (fst entry) (snd entry) operator))
  end.

(** Some clause of the list is a parenthesised group. *)
Definition isNested (c : Clause) : bool :=
  match c with Nested _ _ => true | _ => false end.

Definition parenthesized (cs : list Clause) : bool := List.existsb isNested cs.

(** *** Join conditions *)

(** The calls made on a knex [JoinClause]: [inner.on(left, right)] between
    two columns; [clause[m](column, op, knex.raw('?', value))];
    [clause[m](knex.raw(`${knex.ref(column)} ${op} ?`, value))], kept in
    parts; the one or two arguments of a custom expression; and
    [clause[m](inner => ...)]. *)
Inductive OnMethod := andOn | orOn.

#[warnings="-register-all"]
Inductive JoinCall :=
| OnColumns (left right : string)
| On (m : OnMethod) (column : Ref) (op : string) (value : Raw)
| OnCompare (m : OnMethod) (column : Ref) (op : string) (value : Value)
| OnExpression (m : OnMethod) (expr : Ref) (arg : option Raw)
| OnNested (m : OnMethod) (body : list JoinCall).

(** [processCustomExpression] called on a join clause; the query type keeps
    its default there. *)
Definition processCustomExpressionOn (m : OnMethod) (key : string) (v : Value)
    : list JoinCall :=
  let count := countQuestionMarks key in
  let value := asArray v in
  let params1 :=
    List.map (fun c => if isObject c then VStr (stringify c) else c) (firstn count value) in
  let params2 := skipn count value in
  let k := mapper key SELECT (VArr params1) in
  if negb (Nat.eqb (length params2) 0)
  then [OnExpression m k (Some (mkRaw "?" (VArr params2)))]
  else [OnExpression m k None].

(** The loop [for (const [op, replacement] of Object.entries(QueryOperator))]
    of [processObjectSubClause]: the first operator that is a key of the
    value makes the one call; no operator, no call. *)
Definition processOperatorOn (key : string) (v : Value) (m : OnMethod) : list JoinCall :=
  let es := match v with VObj es => es | _ => [] end in
  match List.find (fun entry : string * string => Js.has (fst entry) es) QueryOperator with
  | Some (op, replacement) =>
      [On m (mapper key SELECT VUndefined) replacement
          (mkRaw "?" (match Js.get op es with Some x => x | None => VUndefined end))]
  | None => []
  end.

(** With several keys the source rebuilds one single-key object per entry
    and sends each through [appendJoinClause] with [$and] inside one nested
    clause; each of these calls comes back here with [andOn], which is
    unfolded. *)
Definition processObjectSubClause (key : string) (v : Value) (m : OnMethod)
    : list JoinCall :=
  if (1 <? getObjectKeysSize v)%nat
  then [OnNested m
          (List.flat_map (fun sub : string * Value => processOperatorOn key (VObj [sub]) andOn)
                         (match v with VObj es => es | _ => [] end))]
  else processOperatorOn key v m.

Definition appendJoinSubClause (key : string) (v : Value)
    (operator : option GroupOperator) : list JoinCall :=
  let m := match operator with Some or_ => orOn | _ => andOn end in
  match v with
  | VRegExp source =>
      [On m (mapper key SELECT VUndefined) "like" (mkRaw "?" (VStr (getRegExpParam source)))]
  | _ =>
      if isPlainObject v then processObjectSubClause key v m
      else if isCustomExpression key then processCustomExpressionOn m key v
      else [OnCompare m (mapper key SELECT v) (if isNull v then "is" else "=") v]
  end.

Fixpoint appendJoinClause (cond : Value) (operator : option GroupOperator)
    {struct cond} : Result (list JoinCall) :=
  match cond with
  | VObj entries =>
      Js.forEachM
        (fun entry : string * Value =>
           let (k, v) := entry in
           match groupOperatorOf k with
           | Some g =>
               let method := match operator with Some or_ => orOn | _ => andOn end in
               let m := match g with or_ => orOn | and_ => andOn end in
               match v with
               | VArr subs =>
                   Js.bind
                     (Js.forEachM
                        (fun sub =>
                           if Nat.eqb (getObjectKeysSize sub) 1
                           then appendJoinClause sub (Some g)
                           else Js.bind (appendJoinClause sub (Some and_))
                                  (fun inner => Js.Normal [OnNested m inner]))
                        subs)
                     (fun outer => Js.Normal [OnNested method outer])
               | _ => Js.Throw TypeError
               end
           | None => Js.Normal (appendJoinSubClause k v operator)
           end)
        entries
  | _ =>
      Js.bind (entriesOf cond)
        (Js.forEachM
           (fun entry : string * Value =>
              Js.Normal (appendJoinSubClause (fst entry) (snd entry) operator)))
  end.

(** *** Joins *)

Inductive JoinType := leftJoin | innerJoin | pivotJoin.

(** [JoinOptions], with the fields the join builders of this class set. *)
Record JoinOptions := mkJoinOptions {
  join_prop : EntityProperty;
  join_type : JoinType;
  join_cond : Value;
  ownerAlias : string;
  join_alias : string;
  inverseAlias : option string;
  join_table : option string;
  join_joinColumns : option (list string);
  join_inverseJoinColumns : option (list string);
  join_primaryKeys : option (list string);
  join_path : option string
}.

(** [qb[method](table, inner => ...)] with the calls made on [inner]. *)
Inductive JoinStatement :=
| Join (method : JoinType) (table : string) (body : list JoinCall).

(** [join.primaryKeys!.forEach((primaryKey, idx) => inner.on(left, right))] *)
Definition joinOn (join : JoinOptions) : Result (list JoinCall) :=
  match join_primaryKeys join with
  | None => Js.Throw TypeError
  | Some primaryKeys =>
      Js.forEachM
        (fun entry : string * nat =>
           match join_joinColumns join with
           | None => Js.Throw TypeError
           | Some joinColumns_ =>
               Js.Normal
                 [OnColumns (ownerAlias join +:+ "." +:+ fst entry)
                            (join_alias join +:+ "." +:+ Js.text (joinColumns_ !! snd entry))]
           end)
        (List.combine primaryKeys (List.seq 0 (length primaryKeys)))
  end.

Definition processJoins (joins : Js.Dictionary JoinOptions) : Result (list JoinStatement) :=
  Js.forEachM
    (fun join =>
       Js.bind (joinOn join) (fun ons =>
         Js.bind (appendJoinClause (join_cond join) None) (fun conds =>
           Js.Normal
             [Join (match join_type join with pivotJoin => leftJoin | t => t end)
                   (Js.text (join_table join) +:+ " as " +:+ join_alias join)
                   (ons ++ conds)])))
    (Js.values joins).

End Compiler.

(** *** Locking *)

(** The lock modes this class names; any other mode is [None]. *)
Inductive LockMode := OPTIMISTIC | PESSIMISTIC_READ | PESSIMISTIC_WRITE.

Inductive LockCall := forShare | forUpdate.

(** [!s] for an optional string *)
Definition unsetString (s : option string) : bool :=
  match s with
  | None => true
  | Some x => String.eqb x ""
  end.

(** [getLockSQL(qb, lockMode)]: the lock calls recorded on [qb] afterwards,
    and how the call completes. *)
Definition getLockSQL (metadata : MetadataStorage) (entityName : string)
    (qb : list LockCall) (lockMode : option LockMode)
    : list LockCall * Result unit :=
  match lockMode with
  | Some PESSIMISTIC_READ => (qb ++ [forShare], Js.Normal tt)
  | Some PESSIMISTIC_WRITE => (qb ++ [forUpdate], Js.Normal tt)
  | _ =>
      match lockMode, find entityName metadata with
      | Some OPTIMISTIC, Some meta =>
          if unsetString (versionProperty meta)
          then (qb, Js.Throw (OptimisticLockError_lockFailed entityName))
          else (qb, Js.Normal tt)
      | _, _ => (qb, Js.Normal tt)
      end
  end.

(** *** processData *)

(** Data handed to [processData] lives in a store: arrays and plain objects
    are reached through references, so that a change made through one
    reference is seen through every other. *)
Inductive JsValue :=
| JUndefined
| JNull
| JBool (b : bool)
| JNum (z : Z)
| JStr (s : string)
| JRaw (sql : string)          (* [knex.raw(sql)] *)
| JOpaque (tag : string)       (* any other object: a Date, a Buffer, ... *)
| JRef (loc : nat).

Inductive JsObject :=
| JArray (items : list JsValue)
| JDict (entries : Js.Dictionary JsValue).

Abbreviation Heap := (list JsObject).

Definition arrayAt (h : Heap) (v : JsValue) : option (list JsValue) :=
  match v with
  | JRef l => match h !! l with Some (JArray items) => Some items | _ => None end
  | _ => None
  end.

Definition isPlainObjectAt (h : Heap) (v : JsValue) : bool :=
  match v with
  | JRef l => match h !! l with Some (JDict _) => true | _ => false end
  | _ => false
  end.

Definition orUndefined (o : option JsValue) : JsValue :=
  match o with Some v => v | None => JUndefined end.

Section ProcessData.

Variable metadata : MetadataStorage.
Variable entityName : string.
Variable usesDefaultKeyword : bool.
(** [JSON.stringify], which reads the store. *)
Variable stringify : Heap -> JsValue -> string.
(** [Utils.renameKey(payload, from, to)] and [Utils.hasObjectKeys(payload)],
    as functions of the payload's own entries. *)
Variable renameKey : Js.Dictionary JsValue -> string -> option string -> Js.Dictionary JsValue.
Variable hasObjectKeys : Js.Dictionary JsValue -> bool.

(** The body of [Object.keys(data).forEach(k => ...)] on the entries [d] of
    the copy. *)
Definition processEntry (h : Heap) (meta : option EntityMetadata)
    (d : Js.Dictionary JsValue) (k : string) : Js.Dictionary JsValue :=
  match meta ≫= (fun m => Js.get k (properties m)) with
  | None => d
  | Some prop =>
      let dk := orUndefined (Js.get k d) in
      match joinColumns prop, arrayAt h dk with
      | Some jcs, Some copy =>
          Js.forEachIdx
            (fun joinColumn idx d' => Js.set joinColumn (orUndefined (copy !! idx)) d')
            jcs 0 (Js.delete k d)
      | _, _ =>
          let d1 :=
            if negb (customType prop)
               && ((match arrayAt h dk with Some _ => true | None => false end)
                   || isPlainObjectAt h dk)
            then Js.set k (JStr (stringify h dk)) d
            else d in
          match fieldNames prop with
          | Some fns => renameKey d1 k (head fns)
          | None => d1
          end
      end
  end.

(** The same as a store update at [c], the location of the copy. *)
Definition processKey (c : nat) (meta : option EntityMetadata) (h : Heap)
    (k : string) : Heap :=
  match h !! c with
  | Some (JDict d) => <[c := JDict (processEntry h meta d k)]> h
  | _ => h
  end.

(** [meta.primaryKeys[0]] used as a key: a missing element is the key
    ["undefined"]. *)
Definition firstPrimaryKey (meta : EntityMetadata) : string :=
  match primaryKeys meta with
  | pk :: _ => pk
  | [] => "undefined"
  end.

Definition defaultRow (c : nat) (meta : option EntityMetadata) (multi : bool)
    (h : Heap) : Heap :=
  match h !! c, meta with
  | Some (JDict d), Some m =>
      if negb (hasObjectKeys d) && multi
      then <[c := JDict (Js.set (firstPrimaryKey m)
                           (if usesDefaultKeyword then JRaw "default" else JUndefined) d)]> h
      else h
  | _, _ => h
  end.

(** [data.map(d => this.processData(d, true))], with [rec] the recursive
    call: the store is threaded through the calls and the results are
    collected in order. *)
Fixpoint processEach (rec : Heap -> JsValue -> option (Heap * JsValue))
    (ds : list JsValue) (h : Heap) (acc : list JsValue)
    : option (Heap * list JsValue) :=
  match ds with
  | [] => Some (h, acc)
  | d :: ds' =>
      match rec h d with
      | Some (h1, r) => processEach rec ds' h1 (acc ++ [r])
      | None => None
      end
  end.

(** [processData(data, multi)].  [data] is a reference to an array or to a
    plain object; [rounds] bounds the nesting of arrays.  The result is the
    store afterwards and the returned reference. *)
Fixpoint processData (rounds : nat) (h : Heap) (data : JsValue) (multi : bool)
    : option (Heap * JsValue) :=
  match rounds with
  | O => None
  | S rounds' =>
      match data with
      | JRef l =>
          match h !! l with
          | Some (JArray items) =>
              match processEach (fun h0 d => processData rounds' h0 d true) items h [] with
              | Some (h', rs) => Some (h' ++ [JArray rs], JRef (length h'))
              | None => None
              end
          | Some (JDict entries) =>
              let c := length h in
              let h1 := h ++ [JDict entries] in
              let meta := find entityName metadata in
              let h2 := List.fold_left (processKey c meta) (Js.keys entries) h1 in
              Some (defaultRow c meta multi h2, JRef c)
          | None => None
          end
      | _ => None
      end
  end.

(** Data [processData] is meant for: a plain object, or arrays nested at most
    [depth - 1] deep around plain objects. *)
Fixpoint isData (depth : nat) (h : Heap) (v : JsValue) : bool :=
  match depth with
  | O => false
  | S depth' =>
      match v with
      | JRef l =>
          match h !! l with
          | Some (JDict _) => true
          | Some (JArray items) => List.forallb (isData depth' h) items
          | None => false
          end
      | _ => false
      end
  end.

End ProcessData.

(** *** Join builders *)

Section Joins.

Variable metadata : MetadataStorage.

Definition getTableName (entityName : string) : string :=
  match find entityName metadata with
  | Some meta => collection meta
  | None => entityName
  end.

(** [prop.mappedBy || prop.inversedBy] used as a property key. *)
Definition inverseKey (prop : EntityProperty) : string :=
  match mappedBy prop with
  | Some s => if String.eqb s "" then Js.text (inversedBy prop) else s
  | None => Js.text (inversedBy prop)
  end.

Definition joinOneToReference (prop : EntityProperty) (ownerAlias_ alias : string)
    (type_ : JoinType) (cond : Value) : Result JoinOptions :=
  match find (type prop) metadata with
  | None => Js.Throw TypeError
  | Some meta =>
      let prop2 := Js.get (inverseKey prop) (properties meta) in
      let table := getTableName (type prop) in
      if owner prop
      then Js.Normal
             (mkJoinOptions prop type_ cond ownerAlias_ alias None (Some table)
                (referencedColumnNames prop) (referencedColumnNames prop)
                (joinColumns prop) None)
      else
        match prop2 with
        | None => Js.Throw TypeError
        | Some p2 =>
            Js.Normal
              (mkJoinOptions prop type_ cond ownerAlias_ alias None (Some table)
                 (joinColumns p2) (referencedColumnNames prop)
                 (referencedColumnNames p2) None)
        end
  end.

Definition joinManyToOneReference (prop : EntityProperty) (ownerAlias_ alias : string)
    (type_ : JoinType) (cond : Value) : JoinOptions :=
  mkJoinOptions prop type_ cond ownerAlias_ alias None (Some (getTableName (type prop)))
    (referencedColumnNames prop) None (fieldNames prop) None.

(** [if (path)] for the optional [path]. *)
Definition truthyPath (path : option string) : option string :=
  match path with
  | Some p => if String.eqb p "" then None else Some p
  | None => None
  end.

Definition withPath (path : option string) (join : JoinOptions) : JoinOptions :=
  mkJoinOptions (join_prop join) (join_type join) (join_cond join) (ownerAlias join)
    (join_alias join) (inverseAlias join) (join_table join) (join_joinColumns join)
    (join_inverseJoinColumns join) (join_primaryKeys join) path.

Definition joinManyToManyReference (prop : EntityProperty)
    (ownerAlias_ alias pivotAlias : string) (type_ : JoinType) (cond : Value)
    (path : option string) : Result (Js.Dictionary JoinOptions) :=
  let pivotKey := ownerAlias_ +:+ "." +:+ name prop in
  let pivotHop :=
    mkJoinOptions prop type_ cond ownerAlias_ pivotAlias (Some alias) (pivotTable prop)
      (joinColumns prop) (inverseJoinColumns prop) (referencedColumnNames prop)
      (match truthyPath path with
       | Some p => Some (if Js.endsWithString "[pivot]" p then p else p +:+ "[pivot]")
       | None => None
       end) in
  match type_ with
  | pivotJoin => Js.Normal [(pivotKey, pivotHop)]
  | _ =>
      match find (Js.text (pivotTable prop)) metadata with
      | None => Js.Throw TypeError
      | Some pivot =>
          match Js.get (type prop +:+ (if owner prop then "_inverse" else "_owner"))
                       (properties pivot) with
          | None => Js.Throw TypeError
          | Some prop2 =>
              let targetHop := joinManyToOneReference prop2 pivotAlias alias type_ (VObj []) in
              Js.Normal
                (Js.set (pivotAlias +:+ "." +:+ name prop2)
                   (match truthyPath path with
                    | Some p => withPath (Some p) targetHop
                    | None => targetHop
                    end)
                   [(pivotKey, pivotHop)])
          end
      end
  end.

Definition joinPivotTable (field : string) (prop : EntityProperty)
    (ownerAlias_ alias : string) (type_ : JoinType) (cond : Value) : Result JoinOptions :=
  match find field metadata with
  | None => Js.Throw TypeError
  | Some meta =>
      match Js.get (inverseKey prop) (properties meta) with
      | None => Js.Throw TypeError
      | Some prop2 =>
          Js.Normal
            (mkJoinOptions prop type_ cond ownerAlias_ alias None (Some (collection meta))
               (joinColumns prop) (joinColumns prop2) (referencedColumnNames prop) None)
      end
  end.

(** [isOneToOneInverse(field)]; a missing property gives [undefined], which
    callers read as false. *)
Definition isOneToOneInverse (entityName field : string) : Result bool :=
  match find entityName metadata with
  | None => Js.Throw TypeError
  | Some meta =>
      match Js.get field (properties meta) with
      | Some prop =>
          Js.Normal (bool_decide (reference prop = ONE_TO_ONE) && negb (owner prop))
      | None => Js.Normal false
      end
  end.

End Joins.

(** *** Field names *)

(** The pattern of [isPrefixed]: somewhere a character of its class (a word
    character, a backtick, a double quote or a square bracket) stands right
    before a dot. *)
Definition isWordChar (c : ascii) : bool :=
  let n := nat_of_ascii c in
  ((48 <=? n) && (n <=? 57) || (65 <=? n) && (n <=? 90)
   || (97 <=? n) && (n <=? 122) || (n =? 95))%nat.

Definition isQualifierChar (c : ascii) : bool :=
  isWordChar c || Ascii.eqb c "`" || Ascii.eqb c (ascii_of_nat 34)
  || Ascii.eqb c "[" || Ascii.eqb c "]".

Fixpoint isPrefixed (field : string) : bool :=
  match field with
  | String c rest =>
      match rest with
      | String d _ => (isQualifierChar c && Ascii.eqb d ".") || isPrefixed rest
      | EmptyString => false
      end
  | EmptyString => false
  end.

Section Fields.

Variable metadata : MetadataStorage.
Variable entityName : string.
Variable alias : string.
Variable aliasMap : Js.Dictionary string.
(** The query types; only [SELECT] and [COUNT] are told apart. *)
Variable QueryType : Type.
Context `{EqDecision QueryType}.
Variable SELECT : QueryType.
Variable COUNT : QueryType.
Variable splitPrimaryKeys : string -> list string.
(** [this.platform.quoteIdentifier(id)], and a [knex.ref(...)] as it reads
    inside a string. *)
Variable quoteIdentifier : string -> string.
Variable ref : Ref -> string.
(** [prop.fieldNameRaw], a field the property record does not carry. *)
Variable fieldNameRaw : EntityProperty -> option string.

Definition splitField (field : string) : string * string :=
  match Js.split "." field with
  | a :: b :: _ => if String.eqb b "" then (alias, a) else (a, b)
  | a :: [] => (alias, a)
  | [] => (alias, "undefined")
  end.

(** [this.aliasMap[alias] || this.entityName] names the entity. *)
Definition getProperty (field alias_ : string) : option EntityProperty :=
  let entityName_ :=
    match Js.get alias_ aliasMap with
    | Some e => if String.eqb e "" then entityName else e
    | None => entityName
    end in
  match find entityName_ metadata with
  | Some meta => Js.get field (properties meta)
  | None => None
  end.

(** [prop.fieldNames[0] ?? field] fails when the property has no field
    names at all. *)
Definition fieldName (field alias_ : string) : Result string :=
  match getProperty field alias_ with
  | None => Js.Normal field
  | Some prop =>
      if negb (unsetString (fieldNameRaw prop))
      then Js.Normal (Js.text (fieldNameRaw prop))
      else
        match fieldNames prop with
        | None => Js.Throw TypeError
        | Some (f :: _) => Js.Normal f
        | Some [] => Js.Normal field
        end
  end.

(** A prefixed field has a dot, hence a second piece. *)
Definition prefix (field : string) (always : bool) : Result string :=
  if negb (isPrefixed field)
  then Js.bind (fieldName field alias) (fun f =>
         Js.Normal ((if always then quoteIdentifier alias +:+ "." else "") +:+ f))
  else
    let pieces := Js.split "." field in
    let a := nth 0 pieces "undefined" in
    let f := nth 1 pieces "undefined" in
    Js.bind (fieldName f a) (fun x => Js.Normal (a +:+ "." +:+ x)).

(** [mapper] once [fields.length > 1] has been found false. *)
Definition mapField (field : string) (type_ : QueryType) (value : Value)
    (as_ : option string) : Result Ref :=
  let customExpression := isCustomExpression field in
  let prop := getProperty field alias in
  let noPrefix := match prop with Some p => negb (persist p) | None => false end in
  if (match prop with Some p => negb (unsetString (fieldNameRaw p)) | None => false end)
  then Js.bind (prefix field true) (fun s => Js.Normal (RawRef (mkRaw s VUndefined)))
  else
    Js.bind (if customExpression then Js.Normal field else prefix field false) (fun ret =>
      let ret := if unsetString as_ then ret else ret +:+ " as " +:+ Js.text as_ in
      if customExpression then Js.Normal (RawRef (mkRaw ret value))
      else if negb (bool_decide (type_ = SELECT) || bool_decide (type_ = COUNT))
              || isPrefixed ret || noPrefix
      then Js.Normal (Column ret)
      else Js.Normal (Column (alias +:+ "." +:+ ret))).

(** The parts of a composite key, each through [rec], the recursive call. *)
Fixpoint mapEach (rec : string -> option (Result Ref)) (fields : list string)
    : option (Result (list string)) :=
  match fields with
  | [] => Some (Js.Normal [])
  | f :: fields' =>
      match rec f with
      | None => None
      | Some (Js.Throw e) => Some (Js.Throw e)
      | Some (Js.Normal r) =>
          match mapEach rec fields' with
          | None => None
          | Some (Js.Throw e) => Some (Js.Throw e)
          | Some (Js.Normal rs) => Some (Js.Normal (ref r :: rs))
          end
      end
  end.

(** [mapper(field, type, value, alias)]; [rounds] bounds the descent into
    the parts of a composite key, and [None] is that bound. *)
Fixpoint mapper (rounds : nat) (field : string) (type_ : QueryType) (value : Value)
    (as_ : option string) : option (Result Ref) :=
  match rounds with
  | O => None
  | S rounds' =>
      let fields := splitPrimaryKeys field in
      if (1 <? length fields)%nat
      then
        match mapEach (fun f => mapper rounds' f type_ value as_) fields with
        | None => None
        | Some (Js.Throw e) => Some (Js.Throw e)
        | Some (Js.Normal parts) =>
            Some (Js.Normal (RawRef (mkRaw ("(" +:+ join ", " parts +:+ ")") VUndefined)))
        end
      else Some (mapField field type_ value as_)
  end.

End Fields.

End QueryBuilderHelper.

(** ** Metadata discovery *)

Module MetadataDiscovery.
Import Metadata.

(** Objects held by the storage are changed in place by the resolver; an
    update goes to the entry under its key. *)
Definition updateMeta (key : string) (f : EntityMetadata -> EntityMetadata)
    (ms : MetadataStorage) : MetadataStorage :=
  match find key ms with
  | Some m => Js.set key (f m) ms
  | None => ms
  end.

Definition getProperty (ms : MetadataStorage) (entity prop : string)
    : option EntityProperty :=
  find entity ms ≫= (fun m => Js.get prop (properties m)).

Definition updateProperty (entity prop : string)
    (f : EntityProperty -> EntityProperty) (ms : MetadataStorage) : MetadataStorage :=
  updateMeta entity
    (fun m =>
       match Js.get prop (properties m) with
       | Some p => set_properties (Js.set prop (f p) (properties m)) m
       | None => m
       end)
    ms.

(** [Utils.flatten(meta2.primaryKeys.map(primaryKey =>
    meta2.properties[primaryKey].fieldNames))] *)
Definition primaryKeyFieldNames (meta2 : EntityMetadata) : list string :=
  List.flat_map
    (fun primaryKey =>
       match Js.get primaryKey (properties meta2) with
       | Some p => Js.arr (fieldNames p)
       | None => []
       end)
    (primaryKeys meta2).

(** [s] is set and not the empty string. *)
Definition truthyString (s : option string) : option string :=
  match s with
  | Some x => if String.eqb x "" then None else Some x
  | None => None
  end.

Section Discovery.

(** The naming strategy. *)
Variable propertyToColumnName : string -> string.
Variable joinKeyColumnName : string -> string -> bool -> string.
Variable classToTableName : string -> string.
Variable referenceColumnName : string.
(** [Utils.getRootEntity(this.metadata, meta)], from the key an entity is
    stored under to the key of its root; it follows the [extends] links,
    which the resolver does not change. *)
Variable getRootEntity : string -> string.

(** *** Field names and join columns *)

Definition initManyToManyFieldName (ms : MetadataStorage) (prop : EntityProperty)
    (name_ : string) : option (list string) :=
  meta2 ← find (type prop) ms;
  Some (List.map (fun _ => propertyToColumnName name_) (primaryKeys meta2)).

(** The loop [for (const primaryKey of meta2.primaryKeys)] of
    [initManyToOneFieldName], with [rec] the call of [initFieldName]: the
    primary-key property is resolved in the storage, then one column is
    pushed per field name of it. *)
Fixpoint eachPrimaryKey
    (rec : MetadataStorage -> EntityProperty -> option (MetadataStorage * EntityProperty))
    (target name_ : string) (composite : bool)
    (pks : list string) (ms : MetadataStorage) (ret : list string)
    : option (MetadataStorage * list string) :=
  match pks with
  | [] => Some (ms, ret)
  | primaryKey :: pks' =>
      match getProperty ms target primaryKey with
      | None => None
      | Some pk =>
          match rec ms pk with
          | None => None
          | Some (ms1, pk') =>
              match fieldNames pk' with
              | None => None
              | Some fns =>
                  eachPrimaryKey rec target name_ composite pks'
                    (updateProperty target primaryKey (fun _ => pk') ms1)
                    (ret ++ List.map
                              (fun fieldName => joinKeyColumnName name_ fieldName composite)
                              fns)
              end
          end
      end
  end.

(** [initFieldName] and [initManyToOneFieldName] call each other along the
    primary keys of the target; [rounds] bounds that descent.  [None] is a
    failed lookup (or the bound).  The property handed to [initFieldName]
    comes back with its field names; the target's primary-key properties are
    updated in the storage. *)
Fixpoint initFieldName (rounds : nat) (ms : MetadataStorage) (prop : EntityProperty)
    {struct rounds} : option (MetadataStorage * EntityProperty) :=
  match rounds with
  | O => None
  | S rounds' =>
      match fieldNames prop with
      | Some (_ :: _) => Some (ms, prop)
      | _ =>
          match reference prop with
          | SCALAR =>
              Some (ms, set_fieldNames (Some [propertyToColumnName (name prop)]) prop)
          | MANY_TO_ONE | ONE_TO_ONE =>
              match
                match find (type prop) ms with
                | None => None
                | Some meta2 =>
                    eachPrimaryKey (initFieldName rounds') (type prop) (name prop)
                      (compositePK meta2) (primaryKeys meta2) ms []
                end
              with
              | Some (ms', ret) => Some (ms', set_fieldNames (Some ret) prop)
              | None => None
              end
          | MANY_TO_MANY =>
              if owner prop
              then match initManyToManyFieldName ms prop (name prop) with
                   | Some ret => Some (ms, set_fieldNames (Some ret) prop)
                   | None => None
                   end
              else Some (ms, prop)
          | _ => Some (ms, prop)
          end
      end
  end.

Definition initManyToOneFieldName (rounds : nat) (ms : MetadataStorage)
    (prop : EntityProperty) (name_ : string)
    : option (MetadataStorage * list string) :=
  match find (type prop) ms with
  | None => None
  | Some meta2 =>
      eachPrimaryKey (initFieldName rounds) (type prop) name_
        (compositePK meta2) (primaryKeys meta2) ms []
  end.

(** [Utils.defaultValue(prop, 'referencedTableName', ...)] only fills an
    undefined field. *)
Definition initManyToOneFields (ms : MetadataStorage) (prop : EntityProperty)
    : option EntityProperty :=
  meta2 ← find (type prop) ms;
  let fieldNames_ := primaryKeyFieldNames meta2 in
  let prop1 :=
    match referencedTableName prop with
    | None => set_referencedTableName (Some (collection meta2)) prop
    | Some _ => prop
    end in
  let prop2 :=
    match joinColumns prop1 with
    | None =>
        set_joinColumns
          (Some (List.map
                   (fun fieldName =>
                      joinKeyColumnName (name prop1) fieldName (1 <? length fieldNames_)%nat)
                   fieldNames_))
          prop1
    | Some _ => prop1
    end in
  Some (match referencedColumnNames prop2 with
        | None => set_referencedColumnNames (Some fieldNames_) prop2
        | Some _ => prop2
        end).

(** *** Single table inheritance *)

(** [initColumnType] only writes the column types, which are not modelled. *)
Definition createDiscriminatorProperty (meta : EntityMetadata) (column : string)
    : EntityProperty :=
  mkProp column "string" SCALAR false false false true false false false
         true
         (Some (Js.keys (match discriminatorMap meta with Some m => m | None => [] end)))
         false (Flag true) Unset []
         (Some [propertyToColumnName column])
         None None None None None None None None None.

(** The loop over [Object.values(meta.properties)]. *)
Definition inheritProperty (rootProperties : Js.Dictionary EntityProperty)
    (prop : EntityProperty) : Js.Dictionary EntityProperty :=
  let exists_ := Js.has (name prop) rootProperties in
  let copy := set_nullable true prop in
  Js.set (name prop) (if exists_ then copy else set_inherited true copy) rootProperties.

Definition children (ms : MetadataStorage) (rootKey : string) : list EntityMetadata :=
  Js.values (List.filter (fun e : string * EntityMetadata => String.eqb (getRootEntity (fst e)) rootKey) ms).

Definition buildDiscriminatorMap (ms : MetadataStorage) (rootKey : string)
    : Js.Dictionary string :=
  List.fold_left
    (fun map m =>
       Js.set (match truthyString (discriminatorValue m) with
               | Some v => v
               | None => classToTableName (className m)
               end)
              (className m) map)
    (children ms rootKey) [].

(** [Object.entries(map).find(([, className]) => className === c)?.[0]] *)
Definition discriminatorValueOf (map : Js.Dictionary string) (c : string)
    : option string :=
  fst <$> List.find (fun e : string * string => String.eqb (snd e) c) map.

(** [initSingleTableInheritance(meta)], for the entity stored under
    [metaKey]; the root is a stored object too, and is the same object when
    the entity is its own root. *)
Definition initSingleTableInheritance (ms : MetadataStorage) (metaKey : string)
    : MetadataStorage :=
  match find metaKey ms with
  | None => ms
  | Some meta0 =>
      let rootKey := getRootEntity metaKey in
      match find rootKey ms with
      | None => ms
      | Some root0 =>
          match truthyString (discriminatorColumn root0) with
          | None => ms
          | Some column =>
              let ms1 :=
                match discriminatorMap root0 with
                | None =>
                    updateMeta rootKey
                      (set_discriminatorMap (Some (buildDiscriminatorMap ms rootKey))) ms
                | Some _ => ms
                end in
              let ms2 :=
                updateMeta metaKey
                  (fun m =>
                     set_discriminatorValue
                       (match find rootKey ms1 ≫= discriminatorMap with
                        | Some map => discriminatorValueOf map (className m)
                        | None => None
                        end) m)
                  ms1 in
              let ms3 :=
                updateMeta rootKey
                  (fun r =>
                     if Js.has column (properties r) then r
                     else set_properties
                            (Js.set column (createDiscriminatorProperty r column) (properties r)) r)
                  ms2 in
              if String.eqb rootKey metaKey then ms3
              else
                match find metaKey ms3 with
                | None => ms3
                | Some meta =>
                    updateMeta rootKey
                      (fun r =>
                         set_uniques (Js.unique idx_object (uniques r ++ uniques meta))
                           (set_indexes (Js.unique idx_object (indexes r ++ indexes meta))
                              (set_properties
                                 (List.fold_left inheritProperty
                                    (Js.values (properties meta)) (properties r))
                                 r)))
                      ms3
                end
          end
      end
  end.

(** [filtered.forEach(meta => this.initSingleTableInheritance(meta))] *)
Definition initAllSingleTableInheritance (ms : MetadataStorage)
    (filtered : list string) : MetadataStorage :=
  List.fold_left initSingleTableInheritance filtered ms.

(** *** Pivot tables *)

(** [initFieldName(primaryProp)] on the fresh scalar gives one column. *)
Definition defineFixedOrderProperty (ms : MetadataStorage) (entity key : string)
    : option (MetadataStorage * EntityProperty) :=
  prop ← getProperty ms entity key;
  let pk :=
    match truthyString (fixedOrderColumn prop) with
    | Some c => c
    | None => referenceColumnName
    end in
  let primaryProp :=
    mkProp pk "number" SCALAR false false true true false false false false None
           false Unset Unset [] (Some [propertyToColumnName pk])
           None None None None None None None None None in
  let ms1 := updateProperty entity key (set_fixedOrderColumn (Some pk)) ms in
  match truthyString (inversedBy prop) with
  | Some inverse =>
      _ ← getProperty ms1 (type prop) inverse;
      Some (updateProperty (type prop) inverse
              (fun prop2 => set_fixedOrderColumn (Some pk) (set_fixedOrder (Some true) prop2))
              ms1,
            primaryProp)
  | None => Some (ms1, primaryProp)
  end.

Definition definePivotProperty (ms : MetadataStorage) (prop : EntityProperty)
    (name_ type_ inverse : string) (owner_ : bool) : option EntityProperty :=
  meta ← find type_ ms;
  Some
    (if owner_
     then mkProp name_ type_ MANY_TO_ONE true false false true false false false false None
                 false Unset Unset [ALL]
                 (joinColumns prop) (joinColumns prop) (referencedColumnNames prop)
                 (referencedColumnNames prop) (Some (collection meta)) None
                 (fixedOrder prop) (fixedOrderColumn prop) None (Some inverse)
     else mkProp name_ type_ MANY_TO_ONE false false false true false false false false None
                 false Unset Unset [ALL]
                 (inverseJoinColumns prop) (inverseJoinColumns prop)
                 (Some (primaryKeyFieldNames meta)) (Some (primaryKeyFieldNames meta))
                 (Some (collection meta)) None
                 (fixedOrder prop) (fixedOrderColumn prop) (Some inverse) None).

(** [prop.joinColumns.every((joinColumn, idx) => joinColumn ===
    prop.inverseJoinColumns[idx])] *)
Fixpoint everyEqual (joinColumns_ inverseJoinColumns_ : list string) : bool :=
  match joinColumns_, inverseJoinColumns_ with
  | [], _ => true
  | _ :: _, [] => false
  | a :: l, b :: l' => String.eqb a b && everyEqual l l'
  end.

(** The block under "handle self-referenced m:n with same default field
    names". *)
Definition disambiguate (ms : MetadataStorage) (entity key : string)
    : option MetadataStorage :=
  meta ← find entity ms;
  prop ← Js.get key (properties meta);
  if String.eqb (meta_name meta) (type prop)
  then
    joinColumns_ ← joinColumns prop;
    inverse_ ← (match joinColumns_ with [] => Some [] | _ => inverseJoinColumns prop end);
    if everyEqual joinColumns_ inverse_
    then
      referenced ← referencedColumnNames prop;
      let owners :=
        List.map (fun n => joinKeyColumnName (collection meta +:+ "_1") n (compositePK meta))
                 referenced in
      let inverses :=
        List.map (fun n => joinKeyColumnName (collection meta +:+ "_2") n (compositePK meta))
                 referenced in
      let ms1 :=
        updateProperty entity key
          (fun p => set_inverseJoinColumns (Some inverses) (set_joinColumns (Some owners) p))
          ms in
      match truthyString (inversedBy prop) with
      | Some inverse =>
          _ ← getProperty ms1 (type prop) inverse;
          prop' ← getProperty ms1 entity key;
          let ms2 :=
            updateProperty (type prop) inverse
              (set_inverseJoinColumns (joinColumns prop')) ms1 in
          prop'' ← getProperty ms2 entity key;
          Some (updateProperty (type prop) inverse
                  (set_joinColumns (inverseJoinColumns prop'')) ms2)
      | None => Some ms1
      end
    else Some ms
  else Some ms.

(** [definePivotTableEntity(meta, prop)] for the property stored under
    [entity], [key]: the storage afterwards and the pivot entity (whose
    [className] the source leaves unset). *)
Definition definePivotTableEntity (ms : MetadataStorage) (entity key : string)
    : option (MetadataStorage * EntityMetadata) :=
  meta ← find entity ms;
  prop ← Js.get key (properties meta);
  pivot ← pivotTable prop;
  let ownerName := meta_name meta +:+ "_owner" in
  let inverseName := type prop +:+ "_inverse" in
  '(ms1, fixed) ←
    (match fixedOrder prop with
     | Some true =>
         '(ms', primaryProp) ← defineFixedOrderProperty ms entity key;
         Some (ms', Some primaryProp)
     | _ => Some (ms, None)
     end);
  ms2 ← disambiguate ms1 entity key;
  prop2 ← getProperty ms2 entity key;
  ownerProp ← definePivotProperty ms2 prop2 ownerName (meta_name meta) inverseName true;
  inverseProp ← definePivotProperty ms2 prop2 inverseName (type prop) ownerName false;
  let data :=
    mkMeta pivot "" pivot None None false true [] []
      (Js.set inverseName inverseProp
         (Js.set ownerName ownerProp
            (match fixed with
             | Some primaryProp => [(name primaryProp, primaryProp)]
             | None => []
             end)))
      (match fixed with
       | Some primaryProp => [name primaryProp]
       | None => [ownerName; inverseName]
       end)
      (match fixed with Some _ => false | None => true end)
      [] [] None None None None in
  Some (Js.set pivot data ms2, data).

(** *** Many-to-many fields *)

(** More of the naming strategy. *)
Variable joinTableName : string -> string -> string -> string.

(** [meta.collection.split('.').pop()] *)
Definition tableNameOf (meta : EntityMetadata) : string :=
  List.last (Js.split "." (collection meta)) "".

(** The first two steps of [initManyToManyFields] on the property:
    [Utils.defaultValue(prop, 'fixedOrder', !!prop.fixedOrderColumn)] and
    the derived pivot table of an owner that names none. *)
Definition initPivotTable (meta meta2 : EntityMetadata) (p : EntityProperty)
    : EntityProperty :=
  let p1 :=
    match fixedOrder p with
    | None =>
        set_fixedOrder
          (Some (match truthyString (fixedOrderColumn p) with Some _ => true | None => false end))
          p
    | Some _ => p
    end in
  match truthyString (pivotTable p1) with
  | None =>
      if owner p1
      then set_pivotTable (Some (joinTableName (collection meta) (collection meta2) (name p1))) p1
      else p1
  | Some _ => p1
  end.

(** [initManyToManyFields(meta, prop)] for the property stored under
    [entity], [key]; [rounds] bounds the descent along [mappedBy] and into
    the primary keys of the target, and [None] is a failed lookup or the
    bound.  The property and the entities are read again after each step
    that can write them. *)
Fixpoint initManyToManyFields (rounds : nat) (ms : MetadataStorage) (entity key : string)
    {struct rounds} : option MetadataStorage :=
  match rounds with
  | O => None
  | S rounds' =>
      meta ← find entity ms;
      prop ← Js.get key (properties meta);
      meta2 ← find (type prop) ms;
      let ms1 := updateProperty entity key (initPivotTable meta meta2) ms in
      ms2 ← (match truthyString (mappedBy prop) with
             | Some mapped =>
                 ms' ← initManyToManyFields rounds' ms1 (type prop) mapped;
                 prop2 ← getProperty ms' (type prop) mapped;
                 Some (updateProperty entity key
                         (fun p =>
                            set_fixedOrderColumn (fixedOrderColumn prop2)
                              (set_fixedOrder (fixedOrder prop2)
                                 (set_pivotTable (pivotTable prop2) p)))
                         ms')
             | None => Some ms1
             end);
      meta' ← find entity ms2;
      let ms3 :=
        updateProperty entity key
          (fun p =>
             match referencedColumnNames p with
             | None => set_referencedColumnNames (Some (primaryKeyFieldNames meta')) p
             | Some _ => p
             end)
          ms2 in
      let ms4 :=
        updateProperty entity key
          (fun p =>
             match joinColumns p with
             | None =>
                 set_joinColumns
                   (Some (List.map
                            (fun referencedColumnName =>
                               joinKeyColumnName (tableNameOf meta') referencedColumnName
                                 (compositePK meta'))
                            (Js.arr (referencedColumnNames p))))
                   p
             | Some _ => p
             end)
          ms3 in
      prop4 ← getProperty ms4 entity key;
      match inverseJoinColumns prop4 with
      | Some _ => Some ms4
      | None =>
          target ← find (type prop4) ms4;
          '(ms5, ret) ← initManyToOneFieldName rounds' ms4 prop4 (tableNameOf target);
          Some (updateProperty entity key (set_inverseJoinColumns (Some ret)) ms5)
      end
  end.

(** *** Bidirectional relations *)

(** The filter of [autoWireBidirectionalProperties]: a relation that is not
    the owner and names the property it is mapped by. *)
Definition isInverseSide (prop : EntityProperty) : bool :=
  negb (bool_decide (reference prop = SCALAR)) && negb (owner prop)
  && match truthyString (mappedBy prop) with Some _ => true | None => false end.

(** One round of the [forEach]: the property [prop.mappedBy] of the target
    gets [inversedBy] when it is there and has none.  A failed lookup of the
    target, or of an earlier round, is [None]. *)
Definition autoWire (wired : option MetadataStorage) (prop : EntityProperty)
    : option MetadataStorage :=
  ms ← wired;
  meta2 ← find (type prop) ms;
  match Js.get (Js.text (mappedBy prop)) (properties meta2) with
  | Some prop2 =>
      match truthyString (inversedBy prop2) with
      | None =>
          Some (updateProperty (type prop) (Js.text (mappedBy prop))
                  (set_inversedBy (Some (name prop))) ms)
      | Some _ => Some ms
      end
  | None => Some ms
  end.

(** [autoWireBidirectionalProperties(meta)] for the entity stored under
    [metaKey].  The rounds read only the name, the type and [mappedBy] of
    the filtered properties, which no round writes. *)
Definition autoWireBidirectionalProperties (ms : MetadataStorage) (metaKey : string)
    : option MetadataStorage :=
  meta ← find metaKey ms;
  List.fold_left autoWire (List.filter isInverseSide (Js.values (properties meta))) (Some ms).

End Discovery.

End MetadataDiscovery.

(** * Properties *)

(** ** Regular expressions and locking *)

Module QueryBuilderHelperSpec.
Import Metadata QueryBuilderHelper.

(** Looking for the one key of a single-entry object among the operator
    names finds that key. *)
Lemma find_single_key (k : string) (v : Value) (ops : list string) :
  In k ops ->
  List.find (fun op => Js.has op [(k, v)]) ops = Some k.
Proof.
  induction ops as [|o ops IH]; intros Hin; [destruct Hin|].
  cbn [List.find]. unfold Js.has at 1. cbn [Js.get].
  destruct (String.eqb o k) eqn:E.
  - apply String.eqb_eq in E. by subst.
  - destruct Hin as [->|Hin].
    + by rewrite String.eqb_refl in E.
    + by apply IH.
Qed.

Lemma keys_has {V} (k : string) (d : Js.Dictionary V) :
  Js.has k d = true -> In k (Js.keys d).
Proof.
  unfold Js.has. induction d as [|[k' v] d IH]; cbn; [done|].
  destruct (String.eqb k k') eqn:E.
  - apply String.eqb_eq in E. auto.
  - intros H. right. by apply IH.
Qed.

Lemma forEachM_single {E A B} (f : A -> Js.Completion E (list B)) (x : A) :
  Js.forEachM f [x] = f x.
Proof. cbn. destruct (f x); [by rewrite app_nil_r | done]. Qed.

Section RegExp.
Variable QueryType : Type.
Variable mapper : string -> QueryType -> Value -> Ref.
Variable subQueries : Js.Dictionary string.
Variable inheritedText : string -> string.
Variable QueryOperator : Js.Dictionary string.
Variable splitPrimaryKeys : string -> list string.
Variable asArray : Value -> list Value.
Variable isObject : Value -> bool.
Variable stringify : Value -> string.
Variable getRegExpOperator : string.
Variable requiresValuesKeyword : bool.
Variable getFullTextWhereClause : string.
Variable tableName : string.

(** The operator enum knows [$re]. *)
Hypothesis has_re : Js.has "$re" QueryOperator = true.

(** A pattern with an opening brace, bracket or parenthesis is not simple,
    and the clause built for it carries the platform's regular-expression
    operator and the pattern's source as it was given. *)
Lemma complex_regexp_stays_native (type : QueryType) (method : Method)
    (key source : string) (operator : option GroupOperator) :
  Js.matchesClass isOpening source = true ->
  isSimpleRegExp (VRegExp source) = false
  /\ appendQuerySubCondition QueryType mapper subQueries inheritedText QueryOperator
       splitPrimaryKeys asArray isObject stringify getRegExpOperator
       requiresValuesKeyword getFullTextWhereClause tableName
       type method key (VRegExp source) operator
     = Js.Normal
         [Where (match operator with Some or_ => orWhere | _ => method end)
                (match subQuery subQueries inheritedText key with
                 | Some sq => RawRef (mkRaw ("(" +:+ sq +:+ ")") VUndefined)
                 | None => mapper key type VUndefined
                 end)
                getRegExpOperator (Val (VStr source))].
Proof.
  intros Hc. split; [cbn; by rewrite Hc|].
  unfold appendQuerySubCondition. cbn [isSimpleRegExp]. rewrite Hc.
  cbn [negb isPlainObject orb].
  unfold processObjectSubCondition. cbn [getObjectKeysSize Nat.ltb Nat.leb].
  unfold processOperator.
  rewrite (find_single_key "$re" (VStr source) _ (keys_has _ _ has_re)).
  cbn [Js.get String.eqb Ascii.eqb Bool.eqb].
  assert (Hrep : getOperatorReplacement QueryOperator getRegExpOperator "$re"
                   (VObj [("$re", VStr source)]) = getRegExpOperator).
  { unfold getOperatorReplacement. by rewrite String.eqb_refl. }
  rewrite Hrep.
  destruct (subQuery subQueries inheritedText key); reflexivity.
Qed.

End RegExp.

(** The regex-to-LIKE rewrite on the four anchoring patterns, on a wildcard
    dot and an escaped dot, and the rule of where and having conditions that
    a pattern containing an opening brace, bracket or parenthesis is not
    simple and reaches the query builder with the platform's
    regular-expression operator and its source unchanged. *)
Theorem regexp_rewrite :
  getRegExpParam "^foo.*bar$" = "foo%bar"
  /\ getRegExpParam "^foo" = "foo%"
  /\ getRegExpParam "bar$" = "%bar"
  /\ getRegExpParam "foo" = "%foo%"
  /\ getRegExpParam "a.b" = "%a_b%"
  /\ getRegExpParam ("a" +:+ String backslash ".b") = "%a.b%"
  /\ forall (QueryType : Type) mapper subQueries inheritedText QueryOperator splitPrimaryKeys
       asArray isObject stringify getRegExpOperator requiresValuesKeyword
       getFullTextWhereClause tableName (type : QueryType) method key source operator,
       Js.has "$re" QueryOperator = true ->
       Js.matchesClass isOpening source = true ->
       isSimpleRegExp (VRegExp source) = false
       /\ appendQuerySubCondition QueryType mapper subQueries inheritedText QueryOperator
            splitPrimaryKeys asArray isObject stringify getRegExpOperator
            requiresValuesKeyword getFullTextWhereClause tableName
            type method key (VRegExp source) operator
          = Js.Normal
              [Where (match operator with Some or_ => orWhere | _ => method end)
                     (match subQuery subQueries inheritedText key with
                      | Some sq => RawRef (mkRaw ("(" +:+ sq +:+ ")") VUndefined)
                      | None => mapper key type VUndefined
                      end)
                     getRegExpOperator (Val (VStr source))].
Proof.
  repeat split; try reflexivity.
  - eapply complex_regexp_stays_native; eassumption.
  - eapply complex_regexp_stays_native; eassumption.
Qed.


(** The operator table of the class ([QueryBuilderHelper.OPERATORS]), used
    as the operator enum in the examples below, with a resolver that leaves
    field names as they are. *)
Definition OPERATORS : Js.Dictionary string :=
  [("$eq", "="); ("$in", "in"); ("$nin", "not in"); ("$gt", ">"); ("$gte", ">=");
   ("$lt", "<"); ("$lte", "<="); ("$ne", "!="); ("$not", "not"); ("$like", "like");
   ("$fulltext", "fulltext"); ("$re", "regexp")].

(** The text V8 gives the members of [Object.prototype] in a template
    literal: the source of a built-in function, and the prototype object
    itself for [__proto__]. *)
Definition nativeText (name : string) : string :=
  if String.eqb name "__proto__" then "[object Object]"
  else "function " +:+ (if String.eqb name "constructor" then "Object" else name)
       +:+ "() { [native code] }".

Definition compileExample (cond : Value) : Result (list Clause) :=
  appendQueryCondition unit (fun k _ _ => Column k) [] nativeText OPERATORS
    (fun k => Js.has k OPERATORS) (fun k => [k]) (fun v => [v]) (fun _ => false)
    (fun _ => "") "regexp" false "" "t" tt cond None where_.

Lemma regexp_rewrite_witness :
  isSimpleRegExp (VRegExp "^(foo|bar)") = false
  /\ compileExample (VObj [("title", VRegExp "^(foo|bar)")])
     = Js.Normal [Where where_ (Column "title") "regexp" (Val (VStr "^(foo|bar)"))].
Proof.
  destruct regexp_rewrite as (_ & _ & _ & _ & _ & _ & H).
  destruct (H unit (fun k _ _ => Column k) [] nativeText OPERATORS (fun k => [k]) (fun v => [v])
              (fun _ => false) (fun _ => "") "regexp" false "" "t" tt where_
              "title" "^(foo|bar)" None eq_refl eq_refl) as [H1 H2].
  split; [exact H1|].
  unfold compileExample. cbn [appendQueryCondition].
  rewrite forEachM_single. cbn [groupOperatorOf String.eqb Ascii.eqb Bool.eqb].
  exact H2.
Defined.

(** The condition of a join, compiled with the same operator table. *)
Definition joinConditionExample (cond : Value) : Result (list JoinCall) :=
  appendJoinClause unit tt (fun k _ _ => Column k) OPERATORS (fun v => [v])
    (fun _ => false) (fun _ => "") cond None.

(** C4 fails on join conditions.  The pattern [^(foo|bar)] has an opening
    parenthesis and is not simple; a where condition hands it to the
    platform's regular-expression operator as it is, but a join condition
    never asks [isSimpleRegExp] and rewrites it to the LIKE pattern
    [(foo|bar)%]. *)
Theorem complex_regexp_in_join_condition :
  isSimpleRegExp (VRegExp "^(foo|bar)") = false
  /\ compileExample (VObj [("title", VRegExp "^(foo|bar)")])
     = Js.Normal [Where where_ (Column "title") "regexp" (Val (VStr "^(foo|bar)"))]
  /\ joinConditionExample (VObj [("title", VRegExp "^(foo|bar)")])
     = Js.Normal [On andOn (Column "title") "like" (mkRaw "?" (VStr "(foo|bar)%"))].
Proof. repeat split. Qed.

(** ** [$or] groups *)

Section Groups.
Variable QueryType : Type.
Variable mapper : string -> QueryType -> Value -> Ref.
Variable subQueries : Js.Dictionary string.
Variable inheritedText : string -> string.
Variable QueryOperator : Js.Dictionary string.
Variable isOperator : string -> bool.
Variable splitPrimaryKeys : string -> list string.
Variable asArray : Value -> list Value.
Variable isObject : Value -> bool.
Variable stringify : Value -> string.
Variable getRegExpOperator : string.
Variable requiresValuesKeyword : bool.
Variable getFullTextWhereClause : string.
Variable tableName : string.

Definition compile : QueryType -> Value -> option GroupOperator -> Method -> Result (list Clause) :=
  appendQueryCondition QueryType mapper subQueries inheritedText QueryOperator isOperator
    splitPrimaryKeys asArray isObject stringify getRegExpOperator
    requiresValuesKeyword getFullTextWhereClause tableName.

(** How one member of a parenthesised [$or] group is appended: inline with
    [or] when it is simple, in a parenthesised sub-group of its own
    otherwise. *)
Definition member (type : QueryType) (sub : Value) : Result (list Clause) :=
  Js.bind (entriesOf sub) (fun es =>
    if isSimpleMember isOperator es
    then compile type sub (Some or_) where_
    else Js.bind (compile type sub None where_) (fun inner =>
           Js.Normal [Nested orWhere inner])).

Lemma compile_or (type : QueryType) (method : Method) (v : Value) :
  compile type (VObj [("$or", v)]) None method
  = appendGroupCondition isOperator (compile type) or_ method v.
Proof.
  unfold compile. cbn [appendQueryCondition].
  rewrite forEachM_single. reflexivity.
Qed.

Lemma or_group_single (type : QueryType) (method : Method) (sub : Value) :
  compile type (VObj [("$or", VArr [sub])]) None method
  = compile type sub None method.
Proof.
  rewrite compile_or. unfold appendGroupCondition. cbn [length Nat.eqb orb].
  exact (forEachM_single (fun s => compile type s None method) sub).
Qed.

Lemma or_group_many (type : QueryType) (method : Method) (subs : list Value) :
  2 <= length subs ->
  compile type (VObj [("$or", VArr subs)]) None method
  = Js.bind (Js.forEachM (member type) subs)
            (fun outer => Js.Normal [Nested method outer]).
Proof.
  intros Hlen. rewrite compile_or. unfold appendGroupCondition.
  destruct (Nat.eqb_spec (length subs) 1) as [E|_]; [lia|].
  reflexivity.
Qed.

(** A member with one key is simple when the value under the key is not a
    plain object, or is an object with exactly one key, or is an object none
    of whose keys is an operator. *)
Lemma single_key_simple (k : string) (v : Value) :
  isPlainObject v = false \/ getObjectKeysSize v = 1
  \/ List.forallb (fun k' => negb (isOperator k'))
       (match v with VObj ves => Js.keys ves | _ => [] end) = true ->
  isSimpleMember isOperator [(k, v)] = true.
Proof.
  unfold isSimpleMember. cbn [length Nat.eqb andb].
  intros [->|[->| ->]]; [done | |]; cbn; by rewrite ?orb_true_r.
Qed.

(** A member with several keys is not simple, and neither is a member whose
    one key holds an object with several keys, one of them an operator. *)
Lemma several_keys_not_simple (es : list (string * Value)) :
  2 <= length es -> isSimpleMember isOperator es = false.
Proof.
  intros Hlen. unfold isSimpleMember.
  destruct (Nat.eqb_spec (length es) 1) as [E|_]; [lia | done].
Qed.

Lemma several_operators_not_simple (k : string) (ves : list (string * Value)) (op : string) :
  2 <= length ves -> In op (Js.keys ves) -> isOperator op = true ->
  isSimpleMember isOperator [(k, VObj ves)] = false.
Proof.
  intros Hlen Hin Hop. unfold isSimpleMember. cbn [length Nat.eqb andb isPlainObject negb orb].
  cbn [getObjectKeysSize]. destruct (Nat.eqb_spec (length ves) 1) as [E|_]; [lia|].
  cbn [orb]. apply not_true_is_false. rewrite List.forallb_forall. intros Hall.
  specialize (Hall op Hin). by rewrite Hop in Hall.
Qed.

(** *** What is inline and what is a group *)

Lemma parenthesized_app (cs cs' : list Clause) :
  parenthesized (cs ++ cs') = parenthesized cs || parenthesized cs'.
Proof. apply List.existsb_app. Qed.

Lemma forEachM_flat {A} (f : A -> Result (list Clause)) (l : list A) (cs : list Clause) :
  (forall x ys, f x = Js.Normal ys -> parenthesized ys = false) ->
  Js.forEachM f l = Js.Normal cs -> parenthesized cs = false.
Proof.
  intros Hf. revert cs. induction l as [|x l IH]; intros cs; cbn [Js.forEachM].
  - by intros [= <-].
  - destruct (f x) as [ys|] eqn:Hx; [|done].
    destruct (Js.forEachM f l) as [zs|]; [|done]. intros [= <-].
    by rewrite parenthesized_app, (Hf x ys Hx), (IH zs).
Qed.

Lemma processOperator_flat (key : string) (v : Value) (m : Method) (type : QueryType)
    (cs : list Clause) :
  processOperator QueryType mapper subQueries inheritedText QueryOperator splitPrimaryKeys
    getRegExpOperator requiresValuesKeyword getFullTextWhereClause tableName key v m type
  = Js.Normal cs ->
  parenthesized cs = false.
Proof.
  unfold processOperator. destruct (List.find _ _); [|done].
  destruct (subQuery subQueries inheritedText key); [by intros [= <-]|].
  destruct (String.eqb _ _); by intros [= <-].
Qed.

(** A condition on one field never opens a group. *)
Lemma appendQuerySubCondition_flat (type : QueryType) (method : Method) (key : string)
    (v : Value) (operator : option GroupOperator) (cs : list Clause) :
  appendQuerySubCondition QueryType mapper subQueries inheritedText QueryOperator
    splitPrimaryKeys asArray isObject stringify getRegExpOperator requiresValuesKeyword
    getFullTextWhereClause tableName type method key v operator = Js.Normal cs ->
  parenthesized cs = false.
Proof.
  unfold appendQuerySubCondition. destruct (isSimpleRegExp v); [by intros [= <-]|].
  destruct (isPlainObject v || _).
  - unfold processObjectSubCondition. destruct (_ <? _)%nat.
    + apply forEachM_flat. intros sub ys. apply processOperator_flat.
    + apply processOperator_flat.
  - destruct (isCustomExpression key).
    + unfold processCustomExpression. intros [= <-]. by destruct (negb _).
    + destruct (subQuery subQueries inheritedText key); by intros [= <-].
Qed.

(** A member whose one key is a field goes to the condition on that field. *)
Lemma member_on_field (type : QueryType) (k : string) (v : Value) :
  groupOperatorOf k = None -> k <> "$not" ->
  isSimpleMember isOperator [(k, v)] = true ->
  member type (VObj [(k, v)])
  = appendQuerySubCondition QueryType mapper subQueries inheritedText QueryOperator
      splitPrimaryKeys asArray isObject stringify getRegExpOperator requiresValuesKeyword
      getFullTextWhereClause tableName type where_ k v (Some or_).
Proof.
  intros Hk Hnot Hsimple. unfold member. cbn [entriesOf Js.bind]. rewrite Hsimple.
  unfold compile. cbn [appendQueryCondition]. rewrite forEachM_single, Hk.
  apply String.eqb_neq in Hnot. by rewrite Hnot.
Qed.

(** A group that is met with a group operator in force is wrapped once. *)
Lemma group_inside_group (type : QueryType) (method : Method) (k : string)
    (g g' : GroupOperator) (v : Value) :
  groupOperatorOf k = Some g' ->
  compile type (VObj [(k, v)]) (Some g) method
  = Js.bind (appendGroupCondition isOperator (compile type) g' method v)
      (fun inner =>
         Js.Normal [Nested (match g with or_ => orWhere | and_ => andWhere end) inner]).
Proof.
  intros Hk. unfold compile. cbn [appendQueryCondition]. rewrite forEachM_single, Hk.
  by destruct g.
Qed.

(** C5, as the code has it.  A top-level condition that is a [$or] group
    with one member compiles to what the member alone compiles to, with no
    group around it, and one with two or more members always becomes one
    parenthesised group.  Inside that group a simple member on a
    field (one key that is not [$and], [$or] or [$not], whose value is not an
    object, or an object with one key, or an object without operator keys)
    is the condition on that field under [or], with no group of its own; a
    member that is not simple (several keys, or one key over several keys of
    which one is an operator) is a parenthesised sub-group.  A [$or] group
    met while a group operator is in force is wrapped in one more group. *)
Theorem or_group_parentheses (type : QueryType) (method : Method) :
  (forall sub,
      compile type (VObj [("$or", VArr [sub])]) None method
      = compile type sub None method)
  /\ (forall subs,
         2 <= length subs ->
         compile type (VObj [("$or", VArr subs)]) None method
         = Js.bind (Js.forEachM (member type) subs)
                   (fun outer => Js.Normal [Nested method outer]))
  /\ (forall k v,
         groupOperatorOf k = None -> k <> "$not" ->
         isPlainObject v = false \/ getObjectKeysSize v = 1
         \/ List.forallb (fun k' => negb (isOperator k'))
              (match v with VObj ves => Js.keys ves | _ => [] end) = true ->
         member type (VObj [(k, v)])
         = appendQuerySubCondition QueryType mapper subQueries inheritedText QueryOperator
             splitPrimaryKeys asArray isObject stringify getRegExpOperator
             requiresValuesKeyword getFullTextWhereClause tableName type where_ k v
             (Some or_)
         /\ forall cs, member type (VObj [(k, v)]) = Js.Normal cs ->
                       parenthesized cs = false)
  /\ (forall es,
         2 <= length es
         \/ (exists k ves op, es = [(k, VObj ves)] /\ 2 <= length ves
                              /\ In op (Js.keys ves) /\ isOperator op = true) ->
         member type (VObj es)
         = Js.bind (compile type (VObj es) None where_)
             (fun inner => Js.Normal [Nested orWhere inner]))
  /\ (forall g v,
         compile type (VObj [("$or", v)]) (Some g) method
         = Js.bind (appendGroupCondition isOperator (compile type) or_ method v)
             (fun inner =>
                Js.Normal
                  [Nested (match g with or_ => orWhere | and_ => andWhere end) inner])).
Proof.
  split; [intros sub; apply or_group_single|].
  split; [intros subs Hlen; by apply or_group_many|].
  split; [|split].
  - intros k v Hk Hnot Hv. pose proof (single_key_simple k v Hv) as Hsimple.
    rewrite (member_on_field type k v Hk Hnot Hsimple).
    split; [done | intros cs; apply appendQuerySubCondition_flat].
  - intros es Hes. unfold member. cbn [entriesOf Js.bind].
    assert (isSimpleMember isOperator es = false) as ->; [|done].
    destruct Hes as [Hlen|(k & ves & op & -> & Hlen & Hin & Hop)].
    + by apply several_keys_not_simple.
    + by eapply several_operators_not_simple.
  - intros g v. by apply group_inside_group.
Qed.

End Groups.

Lemma or_group_parentheses_witness :
  2 <= length [VObj [("a", VObj [("$gt", VNum 1); ("$lt", VNum 5)])]; VObj [("b", VNum 2)]]
  /\ compileExample
       (VObj [("$or", VArr [VObj [("a", VObj [("$gt", VNum 1); ("$lt", VNum 5)])];
                            VObj [("b", VNum 2)]])])
     = Js.Normal
         [Nested where_
            [Nested orWhere
               [Where where_ (Column "a") ">" (Val (VNum 1));
                Where where_ (Column "a") "<" (Val (VNum 5))];
             Where orWhere (Column "b") "=" (Val (VNum 2))]].
Proof.
  split; [cbn; lia|].
  pose proof (or_group_parentheses unit (fun k _ _ => Column k) [] nativeText OPERATORS
                (fun k => Js.has k OPERATORS) (fun k => [k]) (fun v => [v])
                (fun _ => false) (fun _ => "") "regexp" false "" "t" tt where_)
    as (_ & Hmany & _).
  unfold compileExample. unfold compile in Hmany.
  rewrite Hmany by (cbn; lia). reflexivity.
Defined.

(** C5 as the spec words it fails on its own example: the two simple
    equalities of [{ $or: [{a: 1}, {b: 2}] }] are compiled into a
    parenthesised group, and [{ $or: [{a: {$gt: 1}}, {b: 2}] }] gets the very
    same shape, its first member inline. *)
Lemma or_group_counterexample :
  compileExample (VObj [("$or", VArr [VObj [("a", VNum 1)]; VObj [("b", VNum 2)]])])
  = Js.Normal
      [Nested where_
         [Where orWhere (Column "a") "=" (Val (VNum 1));
          Where orWhere (Column "b") "=" (Val (VNum 2))]]
  /\ parenthesized
       [Nested where_
          [Where orWhere (Column "a") "=" (Val (VNum 1));
           Where orWhere (Column "b") "=" (Val (VNum 2))]] = true
  /\ compileExample
       (VObj [("$or", VArr [VObj [("a", VObj [("$gt", VNum 1)])]; VObj [("b", VNum 2)]])])
     = Js.Normal
         [Nested where_
            [Where orWhere (Column "a") ">" (Val (VNum 1));
             Where orWhere (Column "b") "=" (Val (VNum 2))]].
Proof. repeat split. Qed.

Example or_group_one_member :
  compileExample (VObj [("$or", VArr [VObj [("a", VNum 1)]])])
  = Js.Normal [Where where_ (Column "a") "=" (Val (VNum 1))].
Proof. reflexivity. Qed.

(** ** Locking *)

(** C6: for an entity whose metadata has no version property, asking for an
    optimistic lock throws the lock error and records nothing on the query
    builder; the two pessimistic modes record their lock and return, whether
    or not there is a version property. *)
Theorem optimistic_lock_unversioned (metadata : MetadataStorage)
    (entityName : string) (meta : EntityMetadata) (qb : list LockCall) :
  find entityName metadata = Some meta ->
  versionProperty meta = None ->
  getLockSQL metadata entityName qb (Some OPTIMISTIC)
  = (qb, Js.Throw (OptimisticLockError_lockFailed entityName))
  /\ getLockSQL metadata entityName qb (Some PESSIMISTIC_READ)
     = (qb ++ [forShare], Js.Normal tt)
  /\ getLockSQL metadata entityName qb (Some PESSIMISTIC_WRITE)
     = (qb ++ [forUpdate], Js.Normal tt).
Proof.
  intros Hfind Hv. unfold getLockSQL. rewrite Hfind, Hv. done.
Qed.

(** The pessimistic modes never look at the metadata. *)
Lemma pessimistic_lock_ignores_metadata (metadata metadata' : MetadataStorage)
    (entityName : string) (qb : list LockCall) (mode : LockMode) :
  mode <> OPTIMISTIC ->
  getLockSQL metadata entityName qb (Some mode)
  = getLockSQL metadata' entityName qb (Some mode).
Proof. by destruct mode. Qed.

(** With a version property the optimistic lock passes. *)
Lemma optimistic_lock_versioned (metadata : MetadataStorage)
    (entityName v : string) (meta : EntityMetadata) (qb : list LockCall) :
  find entityName metadata = Some meta ->
  versionProperty meta = Some v -> v <> "" ->
  getLockSQL metadata entityName qb (Some OPTIMISTIC) = (qb, Js.Normal tt).
Proof.
  intros Hfind Hv Hne. unfold getLockSQL. rewrite Hfind, Hv. cbn.
  apply String.eqb_neq in Hne. by rewrite Hne.
Qed.

Definition author4 : EntityMetadata :=
  mkMeta "Author4" "Author4" "author4" None None false false [] [] [] ["id"] false
         [] [] None None None None.

Lemma optimistic_lock_unversioned_witness :
  getLockSQL [("Author4", author4)] "Author4" [] (Some OPTIMISTIC)
  = ([], Js.Throw (OptimisticLockError_lockFailed "Author4")).
Proof.
  exact (proj1 (optimistic_lock_unversioned [("Author4", author4)] "Author4" author4 []
                  eq_refl eq_refl)).
Defined.

(** ** [processData] and its argument *)

(** The store [h'] keeps every object of [h] as it was. *)
Definition unchanged (h h' : Heap) : Prop :=
  forall l o, h !! l = Some o -> h' !! l = Some o.

Lemma unchanged_refl h : unchanged h h.
Proof. by intros l o. Qed.

Lemma unchanged_trans h1 h2 h3 : unchanged h1 h2 -> unchanged h2 h3 -> unchanged h1 h3.
Proof. intros H12 H23 l o Hl. by apply H23, H12. Qed.

Lemma unchanged_app h ext : unchanged h (h ++ ext).
Proof. intros l o Hl. by apply lookup_app_l_Some. Qed.

Lemma unchanged_length h h' : unchanged h h' -> length h <= length h'.
Proof.
  intros Hu. destruct (decide (length h <= length h')) as [|Hn]; [done|].
  destruct h as [|o h0] using rev_ind; [cbn; lia|].
  rewrite length_app in *. cbn in *.
  assert (Hl : (h0 ++ [o]) !! length h0 = Some o) by (by rewrite list_lookup_middle).
  apply Hu, lookup_lt_Some in Hl. lia.
Qed.

Section Frame.
Variable metadata : MetadataStorage.
Variable entityName : string.
Variable usesDefaultKeyword : bool.
Variable stringify : Heap -> JsValue -> string.
Variable renameKey : Js.Dictionary JsValue -> string -> option string -> Js.Dictionary JsValue.
Variable hasObjectKeys : Js.Dictionary JsValue -> bool.

Abbreviation processKey := (processKey stringify renameKey).
Abbreviation defaultRow := (defaultRow usesDefaultKeyword hasObjectKeys).
Abbreviation processData := (processData metadata entityName usesDefaultKeyword stringify renameKey hasObjectKeys).

(** Only the object at [c] can differ after a step on the copy. *)
Lemma processKey_frame c meta h k l :
  l <> c -> processKey c meta h k !! l = h !! l.
Proof.
  intros Hne. unfold QueryBuilderHelper.processKey.
  destruct (h !! c) as [[|d]|]; try done.
  by rewrite list_lookup_insert_ne.
Qed.

Lemma processKey_length c meta h k : length (processKey c meta h k) = length h.
Proof.
  unfold QueryBuilderHelper.processKey.
  destruct (h !! c) as [[|d]|]; try done. by rewrite length_insert.
Qed.

Lemma processKeys_frame c meta ks h l :
  l <> c -> fold_left (processKey c meta) ks h !! l = h !! l.
Proof.
  intros Hne. revert h. induction ks as [|k ks IH]; intros h; cbn; [done|].
  rewrite IH. by apply processKey_frame.
Qed.

Lemma processKeys_length c meta ks h :
  length (fold_left (processKey c meta) ks h) = length h.
Proof.
  revert h. induction ks as [|k ks IH]; intros h; cbn; [done|].
  rewrite IH. apply processKey_length.
Qed.

Lemma defaultRow_frame c meta multi h l :
  l <> c -> defaultRow c meta multi h !! l = h !! l.
Proof.
  intros Hne. unfold QueryBuilderHelper.defaultRow.
  destruct (h !! c) as [[|d]|]; try done.
  destruct meta; [|done].
  destruct (_ && _); [|done]. by rewrite list_lookup_insert_ne.
Qed.

Lemma defaultRow_length c meta multi h : length (defaultRow c meta multi h) = length h.
Proof.
  unfold QueryBuilderHelper.defaultRow.
  destruct (h !! c) as [[|d]|]; try done.
  destruct meta; [|done].
  destruct (_ && _); [|done]. by rewrite length_insert.
Qed.

Lemma isData_unchanged depth h h' v :
  unchanged h h' -> isData depth h v = true -> isData depth h' v = true.
Proof.
  intros Hu. revert v. induction depth as [|depth IH]; intros v; cbn; [done|].
  destruct v; try done.
  destruct (h !! loc) as [[items|d]|] eqn:E; try done.
  - rewrite (Hu _ _ E). rewrite !forallb_forall. intros H x Hx. apply IH, H, Hx.
  - by rewrite (Hu _ _ E).
Qed.

(** A call of [processData] on data of the expected shape returns, the
    reference it returns is to an object allocated by the call, and the
    store it started from is unchanged. *)
Definition returnsFresh (rounds : nat) (h : Heap) (v : JsValue) (multi : bool) : Prop :=
  exists h' c,
    processData rounds h v multi = Some (h', JRef c)
    /\ length h <= c < length h'
    /\ unchanged h h'.

Lemma processEach_returns rounds items :
  (forall h v multi, isData rounds h v = true -> returnsFresh rounds h v multi) ->
  forall h acc,
    forallb (isData rounds h) items = true ->
    exists h' rs,
      processEach (fun h0 d => processData rounds h0 d true) items h acc = Some (h', rs)
      /\ unchanged h h'.
Proof.
  intros IH. induction items as [|d items IHi]; intros h acc Hall; cbn.
  - eexists _, _. split; [done | apply unchanged_refl].
  - cbn in Hall. apply andb_prop in Hall as [Hd Hrest].
    destruct (IH h d true Hd) as (h1 & c & -> & _ & Hu1).
    destruct (IHi h1 (acc ++ [JRef c])) as (h' & rs & -> & Hu2).
    { rewrite forallb_forall in *. intros x Hx. eapply isData_unchanged; eauto. }
    eexists _, _. split; [done|]. by eapply unchanged_trans.
Qed.

Lemma processData_returns rounds :
  forall h v multi, isData rounds h v = true -> returnsFresh rounds h v multi.
Proof.
  induction rounds as [|rounds IH]; intros h v multi Hd; [done|].
  cbn in Hd. destruct v as [| | | | | | |l]; try done.
  unfold returnsFresh. cbn [QueryBuilderHelper.processData].
  destruct (h !! l) as [[items|entries]|] eqn:E; [| |done].
  - destruct (processEach_returns rounds items IH h [] Hd) as (h' & rs & -> & Hu).
    eexists _, _. split; [done|]. split.
    + rewrite length_app. cbn. apply unchanged_length in Hu. lia.
    + eapply unchanged_trans; [exact Hu | apply unchanged_app].
  - eexists _, _. split; [done|]. split.
    + rewrite defaultRow_length, processKeys_length, length_app. cbn. lia.
    + intros l' o Hl. pose proof (lookup_lt_Some _ _ _ Hl) as Hlt.
      rewrite defaultRow_frame, processKeys_frame by lia.
      by apply lookup_app_l_Some.
Qed.
End Frame.

(** C10: on a plain object, or on arrays of plain objects, [processData]
    returns a reference to an object it has allocated itself, and every
    object of the store it was called with, its argument included, is what
    it was before: no key renamed, deleted or given a stringified value. *)
Theorem processData_leaves_argument (metadata : MetadataStorage)
    (entityName : string) (usesDefaultKeyword : bool)
    (stringify : Heap -> JsValue -> string)
    (renameKey : Js.Dictionary JsValue -> string -> option string -> Js.Dictionary JsValue)
    (hasObjectKeys : Js.Dictionary JsValue -> bool)
    (rounds : nat) (h : Heap) (data : JsValue) (multi : bool) :
  isData rounds h data = true ->
  exists h' c,
    processData metadata entityName usesDefaultKeyword stringify renameKey
      hasObjectKeys rounds h data multi = Some (h', JRef c)
    /\ length h <= c < length h'
    /\ forall l o, h !! l = Some o -> h' !! l = Some o.
Proof. apply processData_returns. Qed.

(** An example: a book row with a JSON column, a renamed column and a
    composite reference. *)
Definition bookMeta : EntityMetadata :=
  let title := set_fieldNames (Some ["title"]) (blankProperty "title" "string" SCALAR) in
  let meta_ := set_fieldNames (Some ["meta_data"]) (blankProperty "meta" "object" SCALAR) in
  let author :=
    set_joinColumns (Some ["author_id"; "author_tenant"])
      (set_fieldNames (Some ["author_id"; "author_tenant"])
         (blankProperty "author" "Author" MANY_TO_ONE)) in
  mkMeta "Book" "Book" "book" None None false false [title; meta_; author] [author]
         [("title", title); ("meta", meta_); ("author", author)] ["id"] false
         [] [] None None None None.

Definition renameKeyExample (d : Js.Dictionary JsValue) (from : string)
    (to : option string) : Js.Dictionary JsValue :=
  match to with
  | Some t =>
      if Js.has from d && negb (Js.has t d)
      then List.map (fun e : string * JsValue =>
                       if String.eqb (fst e) from then (t, snd e) else e) d
      else d
  | None => d
  end.

Definition bookHeap : Heap :=
  [JDict [("category", JStr "novel")];
   JDict [("title", JStr "t"); ("meta", JRef 0); ("author", JRef 2)];
   JArray [JNum 1; JNum 2]].

Definition processBook : option (Heap * JsValue) :=
  processData [("Book", bookMeta)] "Book" false (fun _ _ => "{...}") renameKeyExample
    (fun d => negb (Nat.eqb (length d) 0)) 1 bookHeap (JRef 1) false.

Example processBook_result :
  processBook
  = Some (bookHeap
            ++ [JDict [("title", JStr "t"); ("meta_data", JStr "{...}");
                       ("author_id", JNum 1); ("author_tenant", JNum 2)]],
          JRef 3).
Proof. reflexivity. Qed.

Lemma processData_leaves_argument_witness :
  isData 1 bookHeap (JRef 1) = true
  /\ exists h' c,
       processBook = Some (h', JRef c)
       /\ length bookHeap <= c < length h'
       /\ forall l o, bookHeap !! l = Some o -> h' !! l = Some o.
Proof.
  split; [reflexivity|].
  exact (processData_leaves_argument [("Book", bookMeta)] "Book" false
           (fun _ _ => "{...}") renameKeyExample
           (fun d => negb (Nat.eqb (length d) 0)) 1 bookHeap (JRef 1) false eq_refl).
Defined.

End QueryBuilderHelperSpec.

(** ** Relationship resolution *)

Module MetadataDiscoverySpec.
Import Metadata MetadataDiscovery.

(** *** Dictionaries *)

Lemma get_set_eq {V} (k : string) (v : V) (d : Js.Dictionary V) :
  Js.get k (Js.set k v d) = Some v.
Proof.
  induction d as [|[k' v'] d IH]; cbn.
  - by rewrite String.eqb_refl.
  - destruct (String.eqb k k') eqn:E; cbn; rewrite E; [done | exact IH].
Qed.

Lemma get_set_ne {V} (k k0 : string) (v : V) (d : Js.Dictionary V) :
  k0 <> k -> Js.get k0 (Js.set k v d) = Js.get k0 d.
Proof.
  intros Hne. induction d as [|[k' v'] d IH]; cbn.
  - apply String.eqb_neq in Hne. by rewrite Hne.
  - destruct (String.eqb k k') eqn:E; cbn.
    + apply String.eqb_eq in E. subst k'.
      apply String.eqb_neq in Hne. by rewrite Hne.
    + by rewrite IH.
Qed.

Lemma set_same {V} (k : string) (v : V) (d : Js.Dictionary V) :
  Js.get k d = Some v -> Js.set k v d = d.
Proof.
  induction d as [|[k' v'] d IH]; cbn; [done|].
  destruct (String.eqb k k') eqn:E.
  - by intros [= ->].
  - intros H. by rewrite IH.
Qed.

Lemma has_set {V} (k k0 : string) (v : V) (d : Js.Dictionary V) :
  Js.has k0 (Js.set k v d) = String.eqb k0 k || Js.has k0 d.
Proof.
  unfold Js.has. destruct (String.eqb_spec k0 k) as [->|Hne].
  - by rewrite get_set_eq.
  - by rewrite get_set_ne.
Qed.

Lemma lookup_map {A B} (f : A -> B) (l : list A) (i : nat) :
  List.map f l !! i = f <$> (l !! i).
Proof. revert i. induction l as [|x l IH]; intros [|i]; cbn; auto. Qed.

Lemma set_properties_same (m : EntityMetadata) : set_properties (properties m) m = m.
Proof. by destruct m. Qed.

Lemma updateProperty_same (ms : MetadataStorage) (entity key : string) (p : EntityProperty) :
  getProperty ms entity key = Some p ->
  updateProperty entity key (fun _ => p) ms = ms.
Proof.
  unfold getProperty, updateProperty, updateMeta.
  destruct (find entity ms) as [m|] eqn:Hm; cbn; [|done].
  intros Hp. rewrite Hp. rewrite (set_same _ _ _ Hp), set_properties_same.
  by apply set_same.
Qed.

Section JoinColumns.
Variable propertyToColumnName : string -> string.
Variable joinKeyColumnName : string -> string -> bool -> string.

(** Every primary-key property of the target carries its field names. *)
Definition resolvedPrimaryKeys (meta2 : EntityMetadata) : Prop :=
  forall pk, In pk (primaryKeys meta2) ->
    exists p f fns, Js.get pk (properties meta2) = Some p /\ fieldNames p = Some (f :: fns).

Lemma initFieldName_resolved (rounds : nat) (ms : MetadataStorage)
    (p : EntityProperty) (f : string) (fns : list string) :
  fieldNames p = Some (f :: fns) ->
  initFieldName propertyToColumnName joinKeyColumnName (S rounds) ms p = Some (ms, p).
Proof. intros Hf. cbn. by rewrite Hf. Qed.

Lemma eachPrimaryKey_resolved (rounds : nat) (ms : MetadataStorage)
    (target name_ : string) (composite : bool) (meta2 : EntityMetadata)
    (pks : list string) (ret : list string) :
  find target ms = Some meta2 ->
  (forall pk, In pk pks ->
     exists p f fns, Js.get pk (properties meta2) = Some p /\ fieldNames p = Some (f :: fns)) ->
  eachPrimaryKey joinKeyColumnName
    (initFieldName propertyToColumnName joinKeyColumnName (S rounds))
    target name_ composite pks ms ret
  = Some (ms,
          ret ++ List.map (fun fieldName => joinKeyColumnName name_ fieldName composite)
                   (List.flat_map
                      (fun primaryKey =>
                         match Js.get primaryKey (properties meta2) with
                         | Some p => Js.arr (fieldNames p)
                         | None => []
                         end) pks)).
Proof.
  intros Hfind. revert ret. induction pks as [|pk pks IH]; intros ret Hres; cbn [eachPrimaryKey].
  - cbn. by rewrite app_nil_r.
  - destruct (Hres pk (or_introl eq_refl)) as (p & f & fns & Hp & Hf).
    assert (Hgp : getProperty ms target pk = Some p).
    { unfold getProperty. rewrite Hfind. exact Hp. }
    rewrite Hgp, (initFieldName_resolved _ _ _ _ _ Hf), Hf.
    rewrite (updateProperty_same _ _ _ _ Hgp).
    rewrite IH by (intros pk' Hin; apply Hres; by right).
    cbn [flat_map]. rewrite Hp, Hf. cbn [Js.arr].
    by rewrite List.map_app, app_assoc.
Qed.

(** C7: for a to-one relation whose join columns are derived (none given)
    and whose target has its primary-key field names resolved,
    [initManyToOneFields] derives one join column per primary-key field name
    of the target, with [joinKeyColumnName] and in primary-key order, so the
    two lists have the same length; [initManyToOneFieldName] derives the
    field names of the relation the same way and leaves the storage as it
    is. *)
Theorem join_columns_follow_primary_key (ms : MetadataStorage)
    (prop : EntityProperty) (meta2 : EntityMetadata) (rounds : nat) (name_ : string) :
  find (type prop) ms = Some meta2 ->
  resolvedPrimaryKeys meta2 ->
  joinColumns prop = None ->
  let pkFields := primaryKeyFieldNames meta2 in
  (exists prop',
      initManyToOneFields joinKeyColumnName ms prop = Some prop'
      /\ joinColumns prop'
         = Some (List.map (fun fieldName =>
                             joinKeyColumnName (name prop) fieldName (1 <? length pkFields)%nat)
                          pkFields)
      /\ length (Js.arr (joinColumns prop')) = length pkFields
      /\ forall i fieldName,
           pkFields !! i = Some fieldName ->
           Js.arr (joinColumns prop') !! i
           = Some (joinKeyColumnName (name prop) fieldName (1 <? length pkFields)%nat))
  /\ initManyToOneFieldName propertyToColumnName joinKeyColumnName (S rounds) ms prop name_
     = Some (ms, List.map (fun fieldName =>
                             joinKeyColumnName name_ fieldName (compositePK meta2))
                          pkFields).
Proof.
  intros Hfind Hres Hjc pkFields. split.
  - unfold initManyToOneFields. rewrite Hfind. cbn.
    eexists. split; [reflexivity|].
    assert (Hjc' : joinColumns
              match referencedTableName prop with
              | Some _ => prop
              | None => set_referencedTableName (Some (collection meta2)) prop
              end = None).
    { destruct prop; cbn in *. by destruct referencedTableName0. }
    rewrite Hjc'.
    assert (Hname : name
              match referencedTableName prop with
              | Some _ => prop
              | None => set_referencedTableName (Some (collection meta2)) prop
              end = name prop).
    { destruct prop; cbn. by destruct referencedTableName0. }
    rewrite Hname.
    set (cols := List.map _ (primaryKeyFieldNames meta2)).
    assert (Hcols : forall q,
              joinColumns (match referencedColumnNames (set_joinColumns (Some cols) q) with
                           | Some _ => set_joinColumns (Some cols) q
                           | None => set_referencedColumnNames (Some (primaryKeyFieldNames meta2))
                                       (set_joinColumns (Some cols) q)
                           end) = Some cols).
    { intros q. destruct q; cbn. by destruct referencedColumnNames0. }
    rewrite Hcols. split; [reflexivity|]. cbn [Js.arr]. split.
    + subst cols. by rewrite length_map.
    + intros i fieldName Hi. subst cols.
      rewrite lookup_map. subst pkFields. by rewrite Hi.
  - unfold initManyToOneFieldName. rewrite Hfind.
    rewrite (eachPrimaryKey_resolved rounds ms (type prop) name_ _ meta2 _ [] Hfind Hres).
    reflexivity.
Qed.

End JoinColumns.

(** *** Single table inheritance *)

Lemma find_updateMeta_eq (k : string) (f : EntityMetadata -> EntityMetadata)
    (ms : MetadataStorage) :
  find k (updateMeta k f ms) = f <$> find k ms.
Proof.
  unfold updateMeta, find. destruct (Js.get k ms) as [m|] eqn:E; cbn.
  - by rewrite get_set_eq.
  - by rewrite E.
Qed.

Lemma find_updateMeta_ne (k k' : string) (f : EntityMetadata -> EntityMetadata)
    (ms : MetadataStorage) :
  k' <> k -> find k' (updateMeta k f ms) = find k' ms.
Proof.
  intros Hne. unfold updateMeta, find. destruct (Js.get k ms) as [m|] eqn:E; [|done].
  by rewrite get_set_ne.
Qed.

Lemma has_get {V} (k : string) (d : Js.Dictionary V) :
  Js.has k d = true <-> exists v, Js.get k d = Some v.
Proof.
  unfold Js.has. destruct (Js.get k d); split; eauto; try done. by intros [? ?].
Qed.

(** A tagged entry sits under a name the dictionary [d0] did not have. *)
Definition taggedOnlyNew (d0 d : Js.Dictionary EntityProperty) : Prop :=
  forall k p', Js.get k d = Some p' -> inherited p' = true -> Js.has k d0 = false.

Lemma nullable_set_nullable v p : nullable (set_nullable v p) = v.
Proof. by destruct p. Qed.
Lemma nullable_set_inherited v p : nullable (set_inherited v p) = nullable p.
Proof. by destruct p. Qed.
Lemma inherited_set_nullable v p : inherited (set_nullable v p) = inherited p.
Proof. by destruct p. Qed.
Lemma inherited_set_inherited v p : inherited (set_inherited v p) = v.
Proof. by destruct p. Qed.

Lemma inheritProperty_has (d : Js.Dictionary EntityProperty) (q : EntityProperty) (k : string) :
  Js.has k (inheritProperty d q) = String.eqb k (name q) || Js.has k d.
Proof. unfold inheritProperty. apply has_set. Qed.

Lemma inheritProperty_tagged (d0 d : Js.Dictionary EntityProperty) (q : EntityProperty) :
  (forall k, Js.has k d0 = true -> Js.has k d = true) ->
  inherited q = false ->
  taggedOnlyNew d0 d -> taggedOnlyNew d0 (inheritProperty d q).
Proof.
  intros Hmono Hq Ht k p'. unfold inheritProperty.
  destruct (String.eqb_spec k (name q)) as [->|Hne].
  - rewrite get_set_eq. intros [= <-].
    destruct (Js.has (name q) d) eqn:Hhas.
    + by rewrite inherited_set_nullable, Hq.
    + intros _. destruct (Js.has (name q) d0) eqn:H0; [|done].
      apply Hmono in H0. congruence.
  - rewrite get_set_ne by done. apply Ht.
Qed.

Lemma inheritAll_has (ps : list EntityProperty) (d : Js.Dictionary EntityProperty) (k : string) :
  Js.has k (fold_left inheritProperty ps d)
  = Js.has k d || List.existsb (fun p => String.eqb k (name p)) ps.
Proof.
  revert d. induction ps as [|q ps IH]; intros d; cbn; [by rewrite orb_false_r|].
  rewrite IH, inheritProperty_has.
  destruct (String.eqb k (name q)), (Js.has k d); done.
Qed.

Lemma inheritAll_tagged (d0 : Js.Dictionary EntityProperty) (ps : list EntityProperty)
    (d : Js.Dictionary EntityProperty) :
  (forall k, Js.has k d0 = true -> Js.has k d = true) ->
  (forall p, In p ps -> inherited p = false) ->
  taggedOnlyNew d0 d -> taggedOnlyNew d0 (fold_left inheritProperty ps d).
Proof.
  revert d. induction ps as [|q ps IH]; intros d Hmono Hps Ht; cbn; [done|].
  apply IH.
  - intros k Hk. rewrite inheritProperty_has. rewrite (Hmono k Hk). apply orb_true_r.
  - intros p Hp. apply Hps. by right.
  - apply inheritProperty_tagged; [done | apply Hps; by left | done].
Qed.

(** [p'] is the copy the loop stores for the subclass property [q]:
    [Utils.copy(prop)] made nullable, and tagged when the name was new. *)
Definition copyOf (q p' : EntityProperty) : Prop :=
  p' = set_nullable true q \/ p' = set_inherited true (set_nullable true q).

Lemma copyOf_nullable (q p' : EntityProperty) : copyOf q p' -> nullable p' = true.
Proof.
  intros [->| ->]; by rewrite ?nullable_set_inherited, nullable_set_nullable.
Qed.

(** The entry under [n] is the copy of a property called [n] among [P]. *)
Definition copiedFrom (P : EntityProperty -> Prop) (d : Js.Dictionary EntityProperty)
    (n : string) : Prop :=
  exists q p', P q /\ name q = n /\ Js.get n d = Some p' /\ copyOf q p'.

Lemma copiedFrom_mono (P P' : EntityProperty -> Prop) (d : Js.Dictionary EntityProperty)
    (n : string) :
  (forall q, P q -> P' q) -> copiedFrom P d n -> copiedFrom P' d n.
Proof. intros HP (q & p' & Hq & H). exists q, p'. split; [by apply HP | done]. Qed.

Lemma inheritProperty_copied (P : EntityProperty -> Prop)
    (d : Js.Dictionary EntityProperty) (q : EntityProperty) :
  P q -> copiedFrom P (inheritProperty d q) (name q).
Proof.
  intros Hq. exists q. eexists. split; [done|]. split; [done|].
  unfold inheritProperty. rewrite get_set_eq. split; [done|].
  destruct (Js.has (name q) d); [by left | by right].
Qed.

Lemma inheritProperty_copied_keep (P : EntityProperty -> Prop)
    (d : Js.Dictionary EntityProperty) (q : EntityProperty) (n : string) :
  P q -> copiedFrom P d n -> copiedFrom P (inheritProperty d q) n.
Proof.
  intros Hq Hn. destruct (String.eqb_spec n (name q)) as [->|Hne].
  - by apply inheritProperty_copied.
  - destruct Hn as (q0 & p' & Hq0 & Hname & Hget & Hcopy). exists q0, p'.
    repeat split; try done. unfold inheritProperty. by rewrite get_set_ne.
Qed.

Lemma inheritAll_copied_keep (P : EntityProperty -> Prop) (ps : list EntityProperty)
    (d : Js.Dictionary EntityProperty) (n : string) :
  (forall q, In q ps -> P q) ->
  copiedFrom P d n -> copiedFrom P (fold_left inheritProperty ps d) n.
Proof.
  revert d. induction ps as [|q ps IH]; intros d HP Hn; cbn; [done|].
  apply IH; [intros q' Hq'; apply HP; by right|].
  apply inheritProperty_copied_keep; [apply HP; by left | done].
Qed.

Lemma inheritAll_copied (P : EntityProperty -> Prop) (ps : list EntityProperty)
    (d : Js.Dictionary EntityProperty) (p : EntityProperty) :
  (forall q, In q ps -> P q) ->
  In p ps -> copiedFrom P (fold_left inheritProperty ps d) (name p).
Proof.
  revert d. induction ps as [|q ps IH]; intros d HP Hin; cbn; [destruct Hin|].
  assert (HP' : forall q', In q' ps -> P q') by (intros q' Hq'; apply HP; by right).
  destruct Hin as [->|Hin].
  - apply inheritAll_copied_keep; [done|]. apply inheritProperty_copied, HP. by left.
  - by apply IH.
Qed.

Section Inheritance.
Variable propertyToColumnName : string -> string.
Variable classToTableName : string -> string.
Variable getRootEntity : string -> string.

Abbreviation step := (initSingleTableInheritance propertyToColumnName classToTableName getRootEntity).

(** The root's dictionary once the discriminator property is in. *)
Definition withDiscriminator (column : string) (dp : EntityProperty)
    (d : Js.Dictionary EntityProperty) : Js.Dictionary EntityProperty :=
  if Js.has column d then d else Js.set column dp d.

Lemma properties_set_discriminatorMap v m :
  properties (set_discriminatorMap v m) = properties m.
Proof. by destruct m. Qed.
Lemma properties_set_discriminatorValue v m :
  properties (set_discriminatorValue v m) = properties m.
Proof. by destruct m. Qed.
Lemma properties_set_properties v m : properties (set_properties v m) = v.
Proof. by destruct m. Qed.
Lemma properties_set_indexes v m : properties (set_indexes v m) = properties m.
Proof. by destruct m. Qed.
Lemma properties_set_uniques v m : properties (set_uniques v m) = properties m.
Proof. by destruct m. Qed.
Lemma column_set_discriminatorMap v m :
  discriminatorColumn (set_discriminatorMap v m) = discriminatorColumn m.
Proof. by destruct m. Qed.
Lemma column_set_discriminatorValue v m :
  discriminatorColumn (set_discriminatorValue v m) = discriminatorColumn m.
Proof. by destruct m. Qed.
Lemma column_set_properties v m :
  discriminatorColumn (set_properties v m) = discriminatorColumn m.
Proof. by destruct m. Qed.
Lemma column_set_indexes v m : discriminatorColumn (set_indexes v m) = discriminatorColumn m.
Proof. by destruct m. Qed.
Lemma column_set_uniques v m : discriminatorColumn (set_uniques v m) = discriminatorColumn m.
Proof. by destruct m. Qed.

(** One call changes at most the entity and its root. *)
Lemma step_elsewhere (ms : MetadataStorage) (key k : string) :
  k <> key -> k <> getRootEntity key -> find k (step ms key) = find k ms.
Proof.
  intros Hk Hr. unfold initSingleTableInheritance.
  destruct (find key ms) as [meta0|]; [|done].
  destruct (find (getRootEntity key) ms) as [root0|]; [|done].
  destruct (truthyString (discriminatorColumn root0)) as [column|]; [|done].
  set (ms1 := match discriminatorMap root0 with Some _ => ms | None => _ end).
  assert (H1 : find k ms1 = find k ms).
  { subst ms1. destruct (discriminatorMap root0); [done|]. by apply find_updateMeta_ne. }
  destruct (String.eqb (getRootEntity key) key).
  - by rewrite !find_updateMeta_ne.
  - match goal with |- context [find key ?m] => destruct (find key m) end;
      by rewrite !find_updateMeta_ne.
Qed.

(** The entity itself, when it is not its own root, keeps its properties. *)
Lemma step_child (ms : MetadataStorage) (key : string) :
  getRootEntity key <> key ->
  properties <$> find key (step ms key) = properties <$> find key ms.
Proof.
  intros Hr. unfold initSingleTableInheritance.
  destruct (find key ms) as [meta0|] eqn:Hm; [|by rewrite Hm].
  destruct (find (getRootEntity key) ms) as [root0|]; [|by rewrite Hm].
  destruct (truthyString (discriminatorColumn root0)) as [column|]; [|by rewrite Hm].
  set (ms1 := match discriminatorMap root0 with Some _ => ms | None => _ end).
  assert (H1 : find key ms1 = Some meta0).
  { subst ms1. destruct (discriminatorMap root0); [done|]. by rewrite find_updateMeta_ne. }
  destruct (String.eqb_spec (getRootEntity key) key) as [E|_]; [done|].
  match goal with |- context [match find key ?m with _ => _ end] =>
    assert (H3 : find key m = Some (set_discriminatorValue
       match find (getRootEntity key) ms1 ≫= discriminatorMap with
       | Some map => discriminatorValueOf map (className meta0)
       | None => None
       end meta0))
  end.
  { rewrite find_updateMeta_ne by done. by rewrite find_updateMeta_eq, H1. }
  rewrite H3. rewrite find_updateMeta_ne by done. rewrite H3. cbn.
  by rewrite properties_set_discriminatorValue.
Qed.

(** What a call for a child does to the root: the discriminator property is
    added if missing, then every property of the child is copied in. *)
Lemma step_root (ms : MetadataStorage) (key column : string) (meta root_ : EntityMetadata) :
  getRootEntity key <> key ->
  find key ms = Some meta ->
  find (getRootEntity key) ms = Some root_ ->
  truthyString (discriminatorColumn root_) = Some column ->
  exists root' dp,
    find (getRootEntity key) (step ms key) = Some root'
    /\ discriminatorColumn root' = discriminatorColumn root_
    /\ inherited dp = false
    /\ properties root'
       = fold_left inheritProperty (Js.values (properties meta))
           (withDiscriminator column dp (properties root_)).
Proof.
  intros Hr Hm Hroot Hcol. unfold initSingleTableInheritance.
  rewrite Hm, Hroot, Hcol.
  set (ms1 := match discriminatorMap root_ with Some _ => ms | None => _ end).
  assert (H1 : exists r1, find (getRootEntity key) ms1 = Some r1
                 /\ properties r1 = properties root_
                 /\ discriminatorColumn r1 = discriminatorColumn root_).
  { subst ms1. destruct (discriminatorMap root_).
    - by exists root_.
    - rewrite find_updateMeta_eq, Hroot. eexists. split; [done|].
      by rewrite properties_set_discriminatorMap, column_set_discriminatorMap. }
  destruct H1 as (r1 & Hr1 & Hp1 & Hc1).
  assert (H1m : find key ms1 = Some meta).
  { subst ms1. destruct (discriminatorMap root_); [done|]. by rewrite find_updateMeta_ne. }
  destruct (String.eqb_spec (getRootEntity key) key) as [E|_]; [done|].
  match goal with |- context [match find key ?m with _ => _ end] =>
    set (ms3 := m);
    assert (H3 : exists m3, find key ms3 = Some m3 /\ properties m3 = properties meta)
  end.
  { subst ms3. rewrite find_updateMeta_ne by done. rewrite find_updateMeta_eq, H1m.
    eexists. split; [done|]. by rewrite properties_set_discriminatorValue. }
  destruct H3 as (m3 & Hm3 & Hpm3). rewrite Hm3.
  rewrite find_updateMeta_eq. subst ms3.
  rewrite find_updateMeta_eq. rewrite find_updateMeta_ne by done. rewrite Hr1. cbn.
  eexists _, (createDiscriminatorProperty propertyToColumnName r1 column).
  split; [reflexivity|].
  rewrite column_set_uniques, column_set_indexes, column_set_properties.
  rewrite properties_set_uniques, properties_set_indexes, properties_set_properties.
  rewrite Hpm3. unfold withDiscriminator. rewrite <- Hp1.
  destruct (Js.has column (properties r1)).
  - by rewrite Hc1.
  - by rewrite column_set_properties, properties_set_properties, Hc1.
Qed.

(** What a call for the root itself does to it. *)
Lemma step_self (ms : MetadataStorage) (key column : string) (root_ : EntityMetadata) :
  getRootEntity key = key ->
  find key ms = Some root_ ->
  truthyString (discriminatorColumn root_) = Some column ->
  exists root' dp,
    find key (step ms key) = Some root'
    /\ discriminatorColumn root' = discriminatorColumn root_
    /\ inherited dp = false
    /\ properties root' = withDiscriminator column dp (properties root_).
Proof.
  intros Hr Hroot Hcol. unfold initSingleTableInheritance.
  rewrite Hr, Hroot, Hcol, String.eqb_refl.
  set (ms1 := match discriminatorMap root_ with Some _ => ms | None => _ end).
  assert (H1 : exists r1, find key ms1 = Some r1
                 /\ properties r1 = properties root_
                 /\ discriminatorColumn r1 = discriminatorColumn root_).
  { subst ms1. destruct (discriminatorMap root_).
    - by exists root_.
    - rewrite find_updateMeta_eq, Hroot. eexists. split; [done|].
      by rewrite properties_set_discriminatorMap, column_set_discriminatorMap. }
  destruct H1 as (r1 & Hr1 & Hp1 & Hc1).
  rewrite !find_updateMeta_eq, Hr1. cbn.
  eexists _, (createDiscriminatorProperty propertyToColumnName
                (set_discriminatorValue _ r1) column).
  split; [reflexivity|].
  unfold withDiscriminator. rewrite properties_set_discriminatorValue, Hp1.
  destruct (Js.has column (properties root_));
    by rewrite ?column_set_properties, ?properties_set_properties,
         ?column_set_discriminatorValue, ?properties_set_discriminatorValue, ?Hp1, ?Hc1.
Qed.

(** *** The whole pass *)

Lemma get_In_values {V} (k : string) (v : V) (d : Js.Dictionary V) :
  Js.get k d = Some v -> In v (Js.values d).
Proof.
  induction d as [|[k' v'] d IH]; cbn; [done|].
  destruct (String.eqb k k'); [intros [= ->]; by left | intros H; right; by apply IH].
Qed.

Lemma withDiscriminator_has (column : string) (dp : EntityProperty)
    (d : Js.Dictionary EntityProperty) (k : string) :
  Js.has k (withDiscriminator column dp d) = Js.has k d || String.eqb k column.
Proof.
  unfold withDiscriminator. destruct (Js.has column d) eqn:E.
  - destruct (String.eqb_spec k column) as [->|_]; [by rewrite E | by rewrite orb_false_r].
  - rewrite has_set. apply orb_comm.
Qed.

Lemma withDiscriminator_copied (P : EntityProperty -> Prop) (column : string)
    (dp : EntityProperty) (d : Js.Dictionary EntityProperty) (n : string) :
  copiedFrom P d n -> copiedFrom P (withDiscriminator column dp d) n.
Proof.
  unfold withDiscriminator. destruct (Js.has column d) eqn:E; [done|].
  intros (q & p' & Hq & Hname & Hget & Hcopy). exists q, p'. repeat split; try done.
  rewrite get_set_ne; [done|]. intros ->. unfold Js.has in E. by rewrite Hget in E.
Qed.

Lemma withDiscriminator_tagged (d0 : Js.Dictionary EntityProperty) (column : string)
    (dp : EntityProperty) (d : Js.Dictionary EntityProperty) :
  inherited dp = false ->
  taggedOnlyNew d0 d -> taggedOnlyNew d0 (withDiscriminator column dp d).
Proof.
  intros Hdp Ht. unfold withDiscriminator. destruct (Js.has column d); [done|].
  intros k p'. destruct (String.eqb_spec k column) as [->|Hne].
  - rewrite get_set_eq. intros [= <-]. by rewrite Hdp.
  - rewrite get_set_ne by done. apply Ht.
Qed.

Lemma existsb_name (ps : list EntityProperty) (k : string) :
  List.existsb (fun p => String.eqb k (name p)) ps = true ->
  exists p, In p ps /\ name p = k.
Proof.
  rewrite List.existsb_exists. intros (p & Hp & He).
  apply String.eqb_eq in He. eauto.
Qed.

Section Pass.
Hypothesis root_of_root : forall k, getRootEntity (getRootEntity k) = getRootEntity k.

Variable ms : MetadataStorage.
Variable rootKey column : string.
Variable root_ : EntityMetadata.
Hypothesis rootKey_root : getRootEntity rootKey = rootKey.
Hypothesis find_root : find rootKey ms = Some root_.
Hypothesis root_column : truthyString (discriminatorColumn root_) = Some column.
Hypothesis untagged :
  forall k m p, find k ms = Some m -> In p (Js.values (properties m)) -> inherited p = false.

(** [p] is a property of a subclass, among the entities in [done]. *)
Definition subclassProperty (done : list string) (p : EntityProperty) : Prop :=
  exists child meta,
    In child done /\ getRootEntity child = rootKey /\ child <> rootKey
    /\ find child ms = Some meta /\ In p (Js.values (properties meta)).

(** What holds of the storage once the entities in [done] are through. *)
Definition passInvariant (done : list string) (cur : MetadataStorage) : Prop :=
  (forall c, getRootEntity c <> c ->
     properties <$> find c cur = properties <$> find c ms)
  /\ exists rc,
       find rootKey cur = Some rc
       /\ discriminatorColumn rc = discriminatorColumn root_
       /\ (forall k, Js.has k (properties root_) = true -> Js.has k (properties rc) = true)
       /\ (forall p, subclassProperty done p ->
              copiedFrom (subclassProperty done) (properties rc) (name p))
       /\ (forall k, Js.has k (properties rc) = true ->
              Js.has k (properties root_) = true \/ k = column
              \/ exists p, subclassProperty done p /\ name p = k)
       /\ taggedOnlyNew (properties root_) (properties rc).

Lemma step_nonroot (cur : MetadataStorage) (key c : string) :
  getRootEntity c <> c ->
  properties <$> find c (step cur key) = properties <$> find c cur.
Proof.
  intros Hc. destruct (decide (c = key)) as [->|Hne].
  - by apply step_child.
  - rewrite step_elsewhere; [done | done |].
    intros ->. apply Hc, root_of_root.
Qed.

Lemma step_missing (cur : MetadataStorage) (key : string) :
  find key cur = None -> step cur key = cur.
Proof. intros H. unfold initSingleTableInheritance. by rewrite H. Qed.

Lemma subclassProperty_mono (done : list string) (key : string) (p : EntityProperty) :
  subclassProperty done p -> subclassProperty (done ++ [key]) p.
Proof.
  intros (c & m & Hin & H). exists c, m. split; [|done]. apply in_or_app. by left.
Qed.

Lemma subclassProperty_last (done : list string) (key : string) (p : EntityProperty) :
  subclassProperty (done ++ [key]) p ->
  subclassProperty done p
  \/ (getRootEntity key = rootKey /\ key <> rootKey
      /\ exists meta, find key ms = Some meta /\ In p (Js.values (properties meta))).
Proof.
  intros (c & m & Hin & Hr & Hne & Hf & Hp).
  apply in_app_or in Hin as [Hin|[<-|[]]].
  - left. by exists c, m.
  - right. eauto.
Qed.

Lemma passInvariant_step (done : list string) (cur : MetadataStorage) (key : string) :
  passInvariant done cur -> passInvariant (done ++ [key]) (step cur key).
Proof.
  intros (R1 & rc & Hrc & Hcol & Hmono & Hnull & Hunion & Htag).
  split.
  { intros c Hc. rewrite step_nonroot by done. by apply R1. }
  assert (Hcolumn : truthyString (discriminatorColumn rc) = Some column)
    by (by rewrite Hcol).
  assert (Hold : forall p, subclassProperty done p ->
                   copiedFrom (subclassProperty (done ++ [key])) (properties rc) (name p)).
  { intros p Hp. eapply copiedFrom_mono; [|by apply Hnull].
    intros q. apply subclassProperty_mono. }
  destruct (decide (key = rootKey)) as [->|Hkey].
  - (* the root itself *)
    destruct (step_self cur rootKey column rc rootKey_root Hrc Hcolumn)
      as (root' & dp & Hfind & Hc' & Hdp & Hprops).
    exists root'. split; [done|]. split; [congruence|]. rewrite Hprops.
    split; [|split; [|split]].
    + intros k Hk. rewrite withDiscriminator_has, (Hmono k Hk). done.
    + intros p Hp. apply withDiscriminator_copied.
      apply subclassProperty_last in Hp as [Hp|(_ & Hne & _)]; [by apply Hold | done].
    + intros k. rewrite withDiscriminator_has. intros [Hk|Hk]%orb_prop.
      * destruct (Hunion k Hk) as [?|[?|(p & Hp & Hn)]]; auto.
        right. right. exists p. split; [by apply subclassProperty_mono | done].
      * apply String.eqb_eq in Hk. auto.
    + by apply withDiscriminator_tagged.
  - destruct (decide (getRootEntity key = rootKey)) as [Hroot|Hroot].
    + (* a subclass of the root *)
      destruct (find key cur) as [meta_c|] eqn:Hmc.
      * assert (Hnr : getRootEntity key <> key) by congruence.
        pose proof (R1 key Hnr) as Hsame. rewrite Hmc in Hsame. cbn in Hsame.
        destruct (find key ms) as [meta|] eqn:Hm; [|done].
        cbn in Hsame. injection Hsame as Hsame.
        rewrite <- Hroot in Hrc.
        destruct (step_root cur key column meta_c rc Hnr Hmc Hrc Hcolumn)
          as (root' & dp & Hfind & Hc' & Hdp & Hprops).
        rewrite Hroot in Hfind.
        exists root'. split; [done|]. split; [congruence|]. rewrite Hprops, Hsame.
        split; [|split; [|split]].
        -- intros k Hk. rewrite inheritAll_has, withDiscriminator_has, (Hmono k Hk). done.
        -- assert (Hown : forall q, In q (Js.values (properties meta)) ->
                              subclassProperty (done ++ [key]) q).
           { intros q Hq. exists key, meta. repeat split; try done.
             apply in_or_app. right. by left. }
           intros p Hp.
           apply subclassProperty_last in Hp as [Hp|(_ & _ & meta' & Hm' & Hp)].
           ++ by apply inheritAll_copied_keep, withDiscriminator_copied, Hold.
           ++ apply inheritAll_copied; [done | congruence].
        -- intros k. rewrite inheritAll_has, withDiscriminator_has.
           intros [[Hk|Hk]%orb_prop|Hk]%orb_prop.
           ++ destruct (Hunion k Hk) as [?|[?|(p & Hp & Hn)]]; auto.
              right. right. exists p. split; [by apply subclassProperty_mono | done].
           ++ apply String.eqb_eq in Hk. auto.
           ++ apply existsb_name in Hk as (p & Hp & Hn).
              right. right. exists p. split; [|done].
              exists key, meta. repeat split; try done. apply in_or_app. right. by left.
        -- apply inheritAll_tagged.
           ++ intros k Hk. by rewrite withDiscriminator_has, (Hmono k Hk).
           ++ intros p Hp. by eapply untagged.
           ++ by apply withDiscriminator_tagged.
      * rewrite step_missing by done.
        exists rc. repeat split; try done.
        -- intros p Hp.
           apply subclassProperty_last in Hp as [Hp|(_ & _ & meta' & Hm' & Hp)];
             [by apply Hold|].
           assert (Hnr : getRootEntity key <> key) by congruence.
           pose proof (R1 key Hnr) as Hsame. by rewrite Hmc, Hm' in Hsame.
        -- intros k Hk. destruct (Hunion k Hk) as [?|[?|(p & Hp & Hn)]]; auto.
           right. right. exists p. split; [by apply subclassProperty_mono | done].
    + (* an entity of another hierarchy *)
      exists rc. rewrite step_elsewhere by congruence.
      repeat split; try done.
      * intros p Hp.
        apply subclassProperty_last in Hp as [Hp|(Hr' & _)]; [by apply Hold | done].
      * intros k Hk. destruct (Hunion k Hk) as [?|[?|(p & Hp & Hn)]]; auto.
        right. right. exists p. split; [by apply subclassProperty_mono | done].
Qed.

Lemma passInvariant_start : passInvariant [] ms.
Proof.
  split; [done|]. exists root_. repeat split; try done.
  - intros p (c & m & [] & _).
  - auto.
  - intros k p' Hp Ht. apply get_In_values in Hp.
    by rewrite (untagged _ _ _ find_root Hp) in Ht.
Qed.

Lemma passInvariant_all (rest done : list string) (cur : MetadataStorage) :
  passInvariant done cur ->
  passInvariant (done ++ rest) (fold_left step rest cur).
Proof.
  revert done cur. induction rest as [|key rest IH]; intros done cur Hinv; cbn.
  - by rewrite app_nil_r.
  - replace (done ++ key :: rest) with ((done ++ [key]) ++ rest)
      by (by rewrite <- app_assoc).
    by apply IH, passInvariant_step.
Qed.

End Pass.

(** C8, as the code has it: after the pass over the discovered entities,
    the root of a single-table hierarchy holds, under the name of every
    property of every subclass, the copy of a subclass property of that
    name, made nullable whether or not the root declared a property of that
    name; it holds nothing but its own properties, the discriminator
    property and subclass properties; and an entry that is tagged as
    inherited sits under a name the root did not have. *)
Theorem single_table_inheritance_root (ms : MetadataStorage) (filtered : list string)
    (rootKey column : string) (root_ : EntityMetadata) :
  (forall k, getRootEntity (getRootEntity k) = getRootEntity k) ->
  getRootEntity rootKey = rootKey ->
  find rootKey ms = Some root_ ->
  truthyString (discriminatorColumn root_) = Some column ->
  (forall k m p, find k ms = Some m -> In p (Js.values (properties m)) -> inherited p = false) ->
  exists root',
    find rootKey
      (initAllSingleTableInheritance propertyToColumnName classToTableName getRootEntity
         ms filtered) = Some root'
    /\ (forall child meta p,
           In child filtered -> getRootEntity child = rootKey -> child <> rootKey ->
           find child ms = Some meta -> In p (Js.values (properties meta)) ->
           exists child' meta' q p',
             In child' filtered /\ getRootEntity child' = rootKey /\ child' <> rootKey
             /\ find child' ms = Some meta' /\ In q (Js.values (properties meta'))
             /\ name q = name p
             /\ Js.get (name p) (properties root') = Some p'
             /\ (p' = set_nullable true q \/ p' = set_inherited true (set_nullable true q))
             /\ nullable p' = true)
    /\ (forall k, Js.has k (properties root') = true ->
           Js.has k (properties root_) = true \/ k = column
           \/ exists child meta p,
                In child filtered /\ getRootEntity child = rootKey /\ child <> rootKey
                /\ find child ms = Some meta /\ In p (Js.values (properties meta))
                /\ name p = k)
    /\ (forall k, Js.has k (properties root_) = true -> Js.has k (properties root') = true)
    /\ (forall k p', Js.get k (properties root') = Some p' -> inherited p' = true ->
           Js.has k (properties root_) = false).
Proof.
  intros Hidem Hroot Hfind Hcol Huntagged.
  assert (Hinv : passInvariant ms rootKey column root_ ([] ++ filtered)
                   (fold_left step filtered ms)).
  { apply passInvariant_all; try done. by apply passInvariant_start. }
  destruct Hinv as (_ & rc & Hrc & _ & Hmono & Hnull & Hunion & Htag).
  exists rc. split; [exact Hrc|]. split; [|split; [|split]].
  - intros child meta p Hin Hr Hne Hm Hp.
    destruct (Hnull p) as (q & p' & (c & m & Hq) & Hname & Hget & Hcopy).
    { by exists child, meta. }
    exists c, m, q, p'. pose proof (copyOf_nullable q p' Hcopy). tauto.
  - intros k Hk. destruct (Hunion k Hk) as [?|[?|(p & (c & m & H) & Hn)]]; auto.
    right. right. exists c, m, p. tauto.
  - exact Hmono.
  - exact Htag.
Qed.

End Inheritance.

(** *** Pivot tables of self-referencing relations *)

Lemma getProperty_update_eq (ms : MetadataStorage) (e k : string)
    (f : EntityProperty -> EntityProperty) :
  getProperty (updateProperty e k f ms) e k = f <$> getProperty ms e k.
Proof.
  unfold getProperty, updateProperty. rewrite find_updateMeta_eq.
  destruct (find e ms) as [m|]; cbn; [|done].
  destruct (Js.get k (properties m)) as [p|] eqn:E; cbn.
  - destruct m; cbn in *. by rewrite get_set_eq.
  - by rewrite E.
Qed.

Lemma getProperty_update_ne (ms : MetadataStorage) (e k e' k' : string)
    (f : EntityProperty -> EntityProperty) :
  e' <> e \/ k' <> k ->
  getProperty (updateProperty e k f ms) e' k' = getProperty ms e' k'.
Proof.
  intros Hne. unfold getProperty, updateProperty.
  destruct (decide (e' = e)) as [->|He].
  - rewrite find_updateMeta_eq. destruct (find e ms) as [m|]; cbn; [|done].
    destruct (Js.get k (properties m)) as [p|] eqn:E; cbn; [|done].
    destruct Hne as [Hne|Hne]; [done|].
    destruct m; cbn in *. by rewrite get_set_ne.
  - by rewrite find_updateMeta_ne.
Qed.

(** The fields of an entity that an update of one of its properties leaves
    alone. *)
Definition sameEntity (m m' : EntityMetadata) : Prop :=
  meta_name m' = meta_name m /\ collection m' = collection m
  /\ compositePK m' = compositePK m.

Lemma find_updateProperty (ms : MetadataStorage) (e k e' : string)
    (f : EntityProperty -> EntityProperty) (m : EntityMetadata) :
  find e' ms = Some m ->
  exists m', find e' (updateProperty e k f ms) = Some m' /\ sameEntity m m'.
Proof.
  intros Hm. unfold updateProperty. destruct (decide (e' = e)) as [->|He].
  - rewrite find_updateMeta_eq, Hm. cbn. eexists. split; [done|].
    destruct (Js.get k (properties m)); by destruct m.
  - rewrite find_updateMeta_ne by done. by exists m.
Qed.

Lemma sameEntity_trans m1 m2 m3 : sameEntity m1 m2 -> sameEntity m2 m3 -> sameEntity m1 m3.
Proof. unfold sameEntity. intros (?&?&?) (?&?&?). repeat split; congruence. Qed.

Lemma everyEqual_refl (l : list string) : everyEqual l l = true.
Proof. induction l as [|a l IH]; cbn; [done|]. by rewrite String.eqb_refl. Qed.

Lemma append_inj_r (s a b : string) : s +:+ a = s +:+ b -> a = b.
Proof. induction s as [|c s IH]; cbn; [done|]. intros [= H]. by apply IH. Qed.

(** The columns a relation needs for the pivot table. *)
Definition sameColumns (p p' : EntityProperty) : Prop :=
  type p' = type p /\ joinColumns p' = joinColumns p
  /\ inverseJoinColumns p' = inverseJoinColumns p
  /\ referencedColumnNames p' = referencedColumnNames p
  /\ inversedBy p' = inversedBy p.

Lemma sameColumns_fixedOrderColumn v p : sameColumns p (set_fixedOrderColumn v p).
Proof. by destruct p. Qed.
Lemma sameColumns_fixedOrder v p : sameColumns p (set_fixedOrder v p).
Proof. by destruct p. Qed.

Section Pivot.
Variable propertyToColumnName : string -> string.
Variable joinKeyColumnName : string -> string -> bool -> string.
Variable referenceColumnName : string.

Variable entity key : string.

(** The owning side is not its own inverse side, and the inverse side it
    names exists (the metadata validator sees to both). *)
Definition inverseSideOk (ms : MetadataStorage) (prop : EntityProperty) : Prop :=
  forall inverse, truthyString (inversedBy prop) = Some inverse ->
    inverse <> key /\ is_Some (getProperty ms (type prop) inverse).

Lemma defineFixedOrderProperty_keeps (ms : MetadataStorage) (meta : EntityMetadata)
    (prop : EntityProperty) :
  find entity ms = Some meta ->
  Js.get key (properties meta) = Some prop ->
  type prop = entity ->
  inverseSideOk ms prop ->
  exists ms1 primaryProp meta1 prop1,
    defineFixedOrderProperty propertyToColumnName referenceColumnName ms entity key
    = Some (ms1, primaryProp)
    /\ find entity ms1 = Some meta1 /\ sameEntity meta meta1
    /\ Js.get key (properties meta1) = Some prop1 /\ sameColumns prop prop1
    /\ inverseSideOk ms1 prop1.
Proof.
  intros Hm Hp Ht Hinv. unfold defineFixedOrderProperty.
  assert (Hgp : getProperty ms entity key = Some prop).
  { unfold getProperty. by rewrite Hm. }
  rewrite Hgp. cbn [mbind option_bind].
  set (pk := match truthyString (fixedOrderColumn prop) with Some c => c | None => _ end).
  set (ms1 := updateProperty entity key (set_fixedOrderColumn (Some pk)) ms).
  assert (Hgp1 : getProperty ms1 entity key = Some (set_fixedOrderColumn (Some pk) prop)).
  { subst ms1. by rewrite getProperty_update_eq, Hgp. }
  destruct (truthyString (inversedBy prop)) as [inverse|] eqn:Hi.
  - destruct (Hinv inverse Hi) as (Hne & [p2 Hp2]).
    assert (Hp2' : getProperty ms1 (type prop) inverse = Some p2).
    { subst ms1. rewrite getProperty_update_ne by (by right). done. }
    rewrite Hp2'. cbn [mbind option_bind].
    set (ms2 := updateProperty (type prop) inverse _ ms1).
    assert (Hgp2 : getProperty ms2 entity key = Some (set_fixedOrderColumn (Some pk) prop)).
    { subst ms2. rewrite getProperty_update_ne by (right; congruence). done. }
    unfold getProperty in Hgp2.
    destruct (find entity ms2) as [meta2|] eqn:Hm2; [|done]. cbn in Hgp2.
    eexists _, _, meta2, _. split; [reflexivity|]. split; [done|]. split.
    + destruct (find_updateProperty ms entity key entity (set_fixedOrderColumn (Some pk)) meta Hm)
        as (m1 & Hm1 & Hs1).
      destruct (find_updateProperty ms1 (type prop) inverse entity
                  (fun prop2 => set_fixedOrderColumn (Some pk) (set_fixedOrder (Some true) prop2))
                  m1 Hm1) as (m2 & Hm2' & Hs2).
      fold ms2 in Hm2'. rewrite Hm2 in Hm2'. injection Hm2' as <-.
      by eapply sameEntity_trans.
    + split; [exact Hgp2|]. split; [apply sameColumns_fixedOrderColumn|].
      intros inverse'. destruct prop; cbn in *. intros Hi'.
      rewrite Hi in Hi'. injection Hi' as <-. split; [done|].
      subst ms2. destruct (decide (inverse = inverse)) as [_|]; [|done].
      rewrite getProperty_update_eq, Hp2'. by eexists.
  - unfold getProperty in Hgp1.
    destruct (find entity ms1) as [meta1|] eqn:Hm1; [|done]. cbn in Hgp1.
    eexists _, _, meta1, _. split; [reflexivity|]. split; [done|]. split.
    + destruct (find_updateProperty ms entity key entity (set_fixedOrderColumn (Some pk)) meta Hm)
        as (m1 & Hm1' & Hs1).
      fold ms1 in Hm1'. rewrite Hm1 in Hm1'. by injection Hm1' as <-.
    + split; [exact Hgp1|]. split; [apply sameColumns_fixedOrderColumn|].
      intros inverse'. destruct prop; cbn in *. by rewrite Hi.
Qed.

Lemma disambiguate_self (ms : MetadataStorage) (meta : EntityMetadata)
    (prop : EntityProperty) (shared referenced : list string) :
  find entity ms = Some meta ->
  Js.get key (properties meta) = Some prop ->
  type prop = entity ->
  meta_name meta = type prop ->
  joinColumns prop = Some shared ->
  inverseJoinColumns prop = Some shared ->
  referencedColumnNames prop = Some referenced ->
  inverseSideOk ms prop ->
  exists ms2 meta2 prop2,
    disambiguate joinKeyColumnName ms entity key = Some ms2
    /\ find entity ms2 = Some meta2 /\ sameEntity meta meta2
    /\ Js.get key (properties meta2) = Some prop2
    /\ type prop2 = type prop
    /\ joinColumns prop2
       = Some (List.map (fun n => joinKeyColumnName (collection meta +:+ "_1") n (compositePK meta))
                        referenced)
    /\ inverseJoinColumns prop2
       = Some (List.map (fun n => joinKeyColumnName (collection meta +:+ "_2") n (compositePK meta))
                        referenced).
Proof.
  intros Hm Hp Ht Hself Hjc Hinvc Href Hinv. unfold disambiguate.
  rewrite Hm. cbn [mbind option_bind]. rewrite Hp. cbn [mbind option_bind].
  rewrite Hself, String.eqb_refl, Hjc. cbn [mbind option_bind].
  assert (Hinv' : match shared with [] => Some [] | _ :: _ => inverseJoinColumns prop end
                  = Some shared).
  { by destruct shared. }
  rewrite Hinv'. cbn [mbind option_bind]. rewrite everyEqual_refl, Href.
  cbn [mbind option_bind].
  set (owners := List.map (fun n => joinKeyColumnName (collection meta +:+ "_1") n (compositePK meta))
                         referenced).
  set (inverses := List.map (fun n => joinKeyColumnName (collection meta +:+ "_2") n (compositePK meta))
                           referenced).
  set (ms1 := updateProperty entity key _ ms).
  assert (Hgp : getProperty ms entity key = Some prop).
  { unfold getProperty. by rewrite Hm. }
  assert (Hgp1 : getProperty ms1 entity key
                 = Some (set_inverseJoinColumns (Some inverses) (set_joinColumns (Some owners) prop))).
  { subst ms1. by rewrite getProperty_update_eq, Hgp. }
  assert (Hfields : forall q,
            type (set_inverseJoinColumns (Some inverses) (set_joinColumns (Some owners) q)) = type q
            /\ joinColumns (set_inverseJoinColumns (Some inverses) (set_joinColumns (Some owners) q))
               = Some owners
            /\ inverseJoinColumns (set_inverseJoinColumns (Some inverses) (set_joinColumns (Some owners) q))
               = Some inverses).
  { by intros []. }
  destruct (Hfields prop) as (Hty & Hjo & Hji).
  destruct (find_updateProperty ms entity key entity
              (fun p => set_inverseJoinColumns (Some inverses) (set_joinColumns (Some owners) p))
              meta Hm) as (m1 & Hm1 & Hs1).
  fold ms1 in Hm1.
  destruct (truthyString (inversedBy prop)) as [inverse|] eqn:Hi.
  - destruct (Hinv inverse Hi) as (Hne & [p2 Hp2]).
    assert (Hp2' : getProperty ms1 (type prop) inverse = Some p2).
    { subst ms1. rewrite getProperty_update_ne by (by right). done. }
    rewrite Hp2'. cbn [mbind option_bind]. rewrite Hgp1. cbn [mbind option_bind].
    set (ms2 := updateProperty (type prop) inverse _ ms1).
    assert (Hgp2 : getProperty ms2 entity key
                   = Some (set_inverseJoinColumns (Some inverses)
                             (set_joinColumns (Some owners) prop))).
    { subst ms2. rewrite getProperty_update_ne by (right; congruence). done. }
    rewrite Hgp2. cbn [mbind option_bind].
    set (ms3 := updateProperty (type prop) inverse _ ms2).
    assert (Hgp3 : getProperty ms3 entity key
                   = Some (set_inverseJoinColumns (Some inverses)
                             (set_joinColumns (Some owners) prop))).
    { subst ms3. rewrite getProperty_update_ne by (right; congruence). done. }
    destruct (find_updateProperty ms1 (type prop) inverse entity
                (set_inverseJoinColumns
                   (joinColumns (set_inverseJoinColumns (Some inverses)
                                   (set_joinColumns (Some owners) prop))))
                m1 Hm1) as (m2 & Hm2 & Hs2).
    fold ms2 in Hm2.
    destruct (find_updateProperty ms2 (type prop) inverse entity
                (set_joinColumns
                   (inverseJoinColumns (set_inverseJoinColumns (Some inverses)
                                          (set_joinColumns (Some owners) prop))))
                m2 Hm2) as (m3 & Hm3 & Hs3).
    fold ms3 in Hm3.
    unfold getProperty in Hgp3. rewrite Hm3 in Hgp3. cbn in Hgp3.
    eexists ms3, m3, _. split; [reflexivity|]. split; [done|]. split.
    { eapply sameEntity_trans; [|exact Hs3]. by eapply sameEntity_trans. }
    split; [exact Hgp3|]. done.
  - unfold getProperty in Hgp1. rewrite Hm1 in Hgp1. cbn in Hgp1.
    eexists ms1, m1, _. split; [reflexivity|]. split; [done|]. split; [done|].
    split; [exact Hgp1|]. done.
Qed.

(** C9: for a self-referencing many-to-many relation whose owner and
    inverse join columns are the same list, the pivot entity's owner property
    gets its join columns from the table name with suffix [_1], its inverse
    property from the table name with suffix [_2], one per referenced column;
    the two lists share no column as soon as the naming strategy tells the
    two suffixed names apart. *)
Theorem self_reference_pivot (ms : MetadataStorage) (meta : EntityMetadata)
    (prop : EntityProperty) (pivot : string) (shared referenced : list string) :
  find entity ms = Some meta ->
  Js.get key (properties meta) = Some prop ->
  pivotTable prop = Some pivot ->
  type prop = entity ->
  meta_name meta = type prop ->
  joinColumns prop = Some shared ->
  inverseJoinColumns prop = Some shared ->
  referencedColumnNames prop = Some referenced ->
  inverseSideOk ms prop ->
  (forall n n', In n referenced -> In n' referenced ->
     joinKeyColumnName (collection meta +:+ "_1") n (compositePK meta)
     <> joinKeyColumnName (collection meta +:+ "_2") n' (compositePK meta)) ->
  exists ms' data ownerProp inverseProp,
    definePivotTableEntity propertyToColumnName joinKeyColumnName referenceColumnName
      ms entity key = Some (ms', data)
    /\ Js.get (meta_name meta +:+ "_owner") (properties data) = Some ownerProp
    /\ Js.get (type prop +:+ "_inverse") (properties data) = Some inverseProp
    /\ joinColumns ownerProp
       = Some (List.map (fun n => joinKeyColumnName (collection meta +:+ "_1") n (compositePK meta))
                        referenced)
    /\ joinColumns inverseProp
       = Some (List.map (fun n => joinKeyColumnName (collection meta +:+ "_2") n (compositePK meta))
                        referenced)
    /\ forall c, In c (Js.arr (joinColumns ownerProp)) ->
                 In c (Js.arr (joinColumns inverseProp)) -> False.
Proof.
  intros Hm Hp Hpivot Ht Hself Hjc Hinvc Href Hinv Hsep.
  unfold definePivotTableEntity.
  rewrite Hm. cbn [mbind option_bind]. rewrite Hp. cbn [mbind option_bind].
  rewrite Hpivot. cbn [mbind option_bind].
  assert (Hfixed : exists ms1 fixed meta1 prop1,
             match fixedOrder prop with
             | Some true =>
                 defineFixedOrderProperty propertyToColumnName referenceColumnName ms entity key
                 ≫= (fun '(ms', primaryProp) => Some (ms', Some primaryProp))
             | _ => Some (ms, None)
             end = Some (ms1, fixed)
             /\ find entity ms1 = Some meta1 /\ sameEntity meta meta1
             /\ Js.get key (properties meta1) = Some prop1 /\ sameColumns prop prop1
             /\ inverseSideOk ms1 prop1).
  { destruct (fixedOrder prop) as [[|]|].
    - destruct (defineFixedOrderProperty_keeps ms meta prop Hm Hp Ht Hinv)
        as (ms1 & pp & meta1 & prop1 & -> & H).
      exists ms1, (Some pp), meta1, prop1. split; [reflexivity | exact H].
    - exists ms, None, meta, prop.
      split; [done|]. split; [done|]. split; [by repeat split|].
      split; [done|]. split; [by repeat split | exact Hinv].
    - exists ms, None, meta, prop.
      split; [done|]. split; [done|]. split; [by repeat split|].
      split; [done|]. split; [by repeat split | exact Hinv]. }
  destruct Hfixed as (ms1 & fixed & meta1 & prop1 & -> & Hm1 & (Hn1 & Hc1 & Hk1) & Hp1
                      & (Ht1 & Hj1 & Hi1 & Hr1 & Hb1) & Hinv1).
  cbn [mbind option_bind].
  assert (Ht1' : type prop1 = entity) by congruence.
  assert (Hself1 : meta_name meta1 = type prop1) by congruence.
  assert (Hjc1 : joinColumns prop1 = Some shared) by congruence.
  assert (Hinvc1 : inverseJoinColumns prop1 = Some shared) by congruence.
  assert (Href1 : referencedColumnNames prop1 = Some referenced) by congruence.
  destruct (disambiguate_self ms1 meta1 prop1 shared referenced Hm1 Hp1 Ht1' Hself1
              Hjc1 Hinvc1 Href1 Hinv1)
    as (ms2 & meta2 & prop2 & -> & Hm2 & (Hn2 & Hc2 & Hk2) & Hp2 & Ht2 & Hjo & Hji).
  cbn [mbind option_bind].
  assert (Hgp2 : getProperty ms2 entity key = Some prop2).
  { unfold getProperty. by rewrite Hm2. }
  rewrite Hgp2. cbn [mbind option_bind].
  assert (Hfm : find (meta_name meta) ms2 = Some meta2) by congruence.
  assert (Hft : find (type prop) ms2 = Some meta2) by congruence.
  unfold definePivotProperty. rewrite Hfm, Hft. cbn [mbind option_bind].
  eexists _, _, _, _. split; [reflexivity|].
  cbn [properties].
  assert (Hnames : meta_name meta +:+ "_owner" <> type prop +:+ "_inverse").
  { rewrite Hself. intros H. by apply append_inj_r in H. }
  split.
  { rewrite get_set_ne by done. apply get_set_eq. }
  split; [apply get_set_eq|].
  cbn [joinColumns]. rewrite Hjo, Hji, Hc1, Hk1. split; [done|]. split; [done|].
  cbn [Js.arr]. intros c [n [<- Hn]]%in_map_iff [n' [Heq Hn']]%in_map_iff.
  by apply (Hsep n n').
Qed.

End Pivot.

(** *** Examples *)

(** A naming strategy in the style of the underscore strategy. *)
Definition underscoreJoinKey (entityName referencedColumnName : string) (composite : bool)
    : string :=
  entityName +:+ "_" +:+ referencedColumnName.

(** Such a strategy always tells the two suffixed table names apart. *)
Lemma underscoreJoinKey_separates (table n n' : string) (composite : bool) :
  underscoreJoinKey (table +:+ "_1") n composite
  <> underscoreJoinKey (table +:+ "_2") n' composite.
Proof.
  unfold underscoreJoinKey. induction table as [|c table IH]; cbn.
  - discriminate.
  - intros [= H]. by apply IH.
Qed.

Definition authorMeta : EntityMetadata :=
  let id := set_fieldNames (Some ["id"]) (blankProperty "id" "number" SCALAR) in
  let tenant := set_fieldNames (Some ["tenant_id"]) (blankProperty "tenant" "number" SCALAR) in
  mkMeta "Author" "Author" "author" None None false false [id; tenant] []
         [("id", id); ("tenant", tenant)] ["id"; "tenant"] true [] [] None None None None.

Lemma join_columns_follow_primary_key_witness :
  exists prop',
    initManyToOneFields underscoreJoinKey [("Author", authorMeta)]
      (blankProperty "author" "Author" MANY_TO_ONE) = Some prop'
    /\ joinColumns prop' = Some ["author_id"; "author_tenant_id"].
Proof.
  assert (Hres : resolvedPrimaryKeys authorMeta).
  { intros pk [<-|[<-|[]]]; eexists _, _, _; split; reflexivity. }
  destruct (join_columns_follow_primary_key id underscoreJoinKey
              [("Author", authorMeta)] (blankProperty "author" "Author" MANY_TO_ONE)
              authorMeta 0 "author" eq_refl Hres eq_refl)
    as [(prop' & Hinit & Hcols & _) _].
  exists prop'. split; [exact Hinit | exact Hcols].
Defined.

(** A hierarchy: [Person] with a discriminator column and a subclass
    [Employee] that declares [salary] and declares [name] again. *)
Definition personMeta : EntityMetadata :=
  let id := blankProperty "id" "number" SCALAR in
  let name_ := blankProperty "name" "string" SCALAR in
  mkMeta "Person" "Person" "person" None None false false [id; name_] []
         [("id", id); ("name", name_)] ["id"] false [] [] (Some "type") None None None.

Definition employeeMeta : EntityMetadata :=
  let salary := blankProperty "salary" "number" SCALAR in
  let name_ := blankProperty "name" "string" SCALAR in
  mkMeta "Employee" "Employee" "person" (Some "Person") None false false [salary; name_] []
         [("salary", salary); ("name", name_)] [] false [] [] None None None None.

Definition rootOfExample (k : string) : string :=
  if String.eqb k "Employee" then "Person" else k.

Definition hierarchy : MetadataStorage :=
  [("Person", personMeta); ("Employee", employeeMeta)].

Example hierarchy_root_properties :
  (fun m => List.map (fun e : string * EntityProperty =>
                        (fst e, nullable (snd e), inherited (snd e)))
                     (properties m))
  <$> find "Person"
        (initAllSingleTableInheritance id id rootOfExample hierarchy ["Person"; "Employee"])
  = Some [("id", false, false); ("name", true, false); ("type", false, false);
          ("salary", true, true)].
Proof. reflexivity. Qed.

(** Declarations are told apart as objects: the root keeps its own
    declaration and the equal one of the subclass, and the same object once. *)
Example index_objects_are_kept :
  Js.unique idx_object
    ([mkIndexDecl 1 Unset ["name"] None]
     ++ [mkIndexDecl 2 Unset ["name"] None; mkIndexDecl 1 Unset ["name"] None])
  = [mkIndexDecl 1 Unset ["name"] None; mkIndexDecl 2 Unset ["name"] None].
Proof. reflexivity. Qed.

Lemma single_table_inheritance_root_witness :
  exists root',
    find "Person"
      (initAllSingleTableInheritance id id rootOfExample hierarchy ["Person"; "Employee"])
    = Some root'
    /\ exists p', Js.get "salary" (properties root') = Some p' /\ nullable p' = true.
Proof.
  assert (Hidem : forall k, rootOfExample (rootOfExample k) = rootOfExample k).
  { intros k. unfold rootOfExample. destruct (String.eqb k "Employee") eqn:E; [done|].
    by rewrite E. }
  assert (Huntagged : forall k m p, find k hierarchy = Some m ->
                        In p (Js.values (properties m)) -> inherited p = false).
  { intros k m p. unfold find, hierarchy. cbn [Js.get].
    destruct (String.eqb k "Person").
    - intros [= <-] [<-|[<-|[]]]; reflexivity.
    - destruct (String.eqb k "Employee"); [|done].
      intros [= <-] [<-|[<-|[]]]; reflexivity. }
  destruct (single_table_inheritance_root id id rootOfExample hierarchy
              ["Person"; "Employee"] "Person" "type" personMeta
              Hidem eq_refl eq_refl eq_refl Huntagged)
    as (root' & Hfind & Hsub & _).
  exists root'. split; [exact Hfind|].
  destruct (Hsub "Employee" employeeMeta (blankProperty "salary" "number" SCALAR))
    as (_ & _ & _ & p' & _ & _ & _ & _ & _ & _ & Hget & _ & Hnull).
  - right. by left.
  - reflexivity.
  - discriminate.
  - reflexivity.
  - by left.
  - exists p'. split; [exact Hget | exact Hnull].
Defined.

(** C8 as the spec words it fails: [Person] declares [name], not nullable,
    and its subclass [Employee] has a [name] too; after the pass the root's
    [name] is nullable all the same, and it is not tagged. *)
Lemma single_table_inheritance_counterexample :
  (nullable <$> Js.get "name" (properties personMeta)) = Some false
  /\ Js.has "name" (properties employeeMeta) = true
  /\ ((fun p => (nullable p, inherited p))
      <$> (find "Person"
             (initAllSingleTableInheritance id id rootOfExample hierarchy
                ["Person"; "Employee"])
           ≫= fun root' => Js.get "name" (properties root')))
     = Some (true, false).
Proof. repeat split. Qed.

(** A self-referencing relation [Friend.friends]. *)
Definition friendMeta : EntityMetadata :=
  let id := set_fieldNames (Some ["id"]) (blankProperty "id" "number" SCALAR) in
  let friends :=
    mkProp "friends" "Friend" MANY_TO_MANY true false false true false false false false None
           false Unset Unset [] (Some ["friends"])
           (Some ["friend_id"]) (Some ["friend_id"]) (Some ["id"]) None
           (Some "friend_friends") None None None None in
  mkMeta "Friend" "Friend" "friend" None None false false [id; friends] [friends]
         [("id", id); ("friends", friends)] ["id"] false [] [] None None None None.

Example friend_pivot_columns :
  (fun r : MetadataStorage * EntityMetadata =>
     List.map (fun e : string * EntityProperty => (fst e, joinColumns (snd e)))
              (properties (snd r)))
  <$> definePivotTableEntity id underscoreJoinKey "id" [("Friend", friendMeta)]
        "Friend" "friends"
  = Some [("Friend_owner", Some ["friend_1_id"]); ("Friend_inverse", Some ["friend_2_id"])].
Proof. reflexivity. Qed.

Lemma self_reference_pivot_witness :
  exists ms' data ownerProp inverseProp,
    definePivotTableEntity id underscoreJoinKey "id" [("Friend", friendMeta)]
      "Friend" "friends" = Some (ms', data)
    /\ Js.get "Friend_owner" (properties data) = Some ownerProp
    /\ Js.get "Friend_inverse" (properties data) = Some inverseProp
    /\ joinColumns ownerProp = Some ["friend_1_id"]
    /\ joinColumns inverseProp = Some ["friend_2_id"].
Proof.
  destruct (self_reference_pivot id underscoreJoinKey "id" "Friend" "friends"
              [("Friend", friendMeta)] friendMeta
              (mkProp "friends" "Friend" MANY_TO_MANY true false false true false false
                 false false None false Unset Unset [] (Some ["friends"])
                 (Some ["friend_id"]) (Some ["friend_id"]) (Some ["id"]) None
                 (Some "friend_friends") None None None None)
              "friend_friends" ["friend_id"] ["id"]
              eq_refl eq_refl eq_refl eq_refl eq_refl eq_refl eq_refl eq_refl)
    as (ms' & data & ownerProp & inverseProp & H1 & H2 & H3 & H4 & H5 & _).
  - intros inverse. discriminate.
  - intros n n' _ _. apply underscoreJoinKey_separates.
  - exists ms', data, ownerProp, inverseProp. repeat split; assumption.
Defined.

End MetadataDiscoverySpec.

(** ** Schema generation *)

Module SchemaGeneratorSpec.
Import Metadata Schema SchemaGenerator.
Module COC := CommitOrderCalculator.

(** *** Safe mode *)

Lemma Forall_flat_map {A B} (P : B -> Prop) (f : A -> list B) (l : list A) :
  (forall x, In x l -> Forall P (f x)) -> Forall P (List.flat_map f l).
Proof.
  intros H. induction l as [|x l IH]; cbn; [constructor|].
  apply Forall_app. split; [apply H; by left | apply IH; intros y Hy; apply H; by right].
Qed.

Lemma Forall_map' {A B} (P : B -> Prop) (f : A -> B) (l : list A) :
  (forall x, In x l -> P (f x)) -> Forall P (List.map f l).
Proof.
  intros H. induction l as [|x l IH]; cbn; constructor.
  - apply H. by left.
  - apply IH. intros y Hy. apply H. by right.
Qed.

Lemma existsb_false_Forall {A} (f : A -> bool) (l : list A) :
  Forall (fun x => f x = false) l -> List.existsb f l = false.
Proof. induction 1 as [|x l Hx _ IH]; cbn; [done|]. by rewrite Hx, IH. Qed.

Section SafeMode.
Variable isSame : EntityProperty -> Column -> option nat -> IsSame.
Variable supportsColumnAlter : bool.
Variable supportsSchemaConstraints : bool.
Variable getIndexName : string -> list string -> IndexKind -> string.
Variable isImplicitIndex : string -> bool.
Variable usesCascadeStatement : bool.

Abbreviation diff :=
  (computeTableDifference isSame supportsColumnAlter supportsSchemaConstraints
     getIndexName isImplicitIndex).

Abbreviation keepsColumn := (fun op : TableOp => isDropColumn op = false).
Abbreviation keepsData := (fun op : SchemaOp => dropsData op = false).

Lemma safe_remove_empty (meta : EntityMetadata) (table : DatabaseTable) :
  remove (diff meta table true) = [].
Proof. reflexivity. Qed.

Lemma createForeignKey_keeps meta prop d :
  Forall keepsColumn (createForeignKey supportsSchemaConstraints meta prop d).
Proof.
  unfold createForeignKey, createForeignKeyReference, createTableColumn.
  destruct supportsSchemaConstraints; [by repeat constructor|].
  destruct (_ && _); by repeat constructor.
Qed.

Lemma updateTableColumn_keeps meta prop column d :
  Forall keepsColumn (updateTableColumn supportsSchemaConstraints meta prop column d).
Proof.
  unfold updateTableColumn. repeat apply Forall_app_2.
  - destruct (fk column); [destruct (negb _)|]; by repeat constructor.
  - destruct (_ && _); by repeat constructor.
  - destruct (_ && _); [apply createForeignKey_keeps | by repeat constructor].
Qed.

Lemma alterTable_keeps name body_ :
  Forall keepsColumn body_ -> keepsData (AlterTable name body_).
Proof. intros H. unfold dropsData. cbn. by apply existsb_false_Forall. Qed.

Lemma updateTable_safe meta table :
  Forall keepsData
    (updateTable isSame supportsColumnAlter supportsSchemaConstraints getIndexName
       isImplicitIndex meta table true).
Proof.
  unfold updateTable. destruct (Nat.eqb _ 0); [constructor|].
  apply Forall_app_2.
  - by apply Forall_map'.
  - constructor; [|constructor]. apply alterTable_keeps.
    rewrite safe_remove_empty. cbn [flat_map]. rewrite app_nil_r.
    apply Forall_app_2.
    + apply Forall_flat_map. intros; by repeat constructor.
    + apply Forall_flat_map. intros; apply updateTableColumn_keeps.
Qed.

Lemma createTable_keeps meta :
  keepsData (createTable supportsSchemaConstraints meta).
Proof.
  unfold createTable, dropsData. cbn. apply existsb_false_Forall, Forall_app_2.
  - apply Forall_flat_map. intros; by repeat constructor.
  - destruct (compositePK meta); by repeat constructor.
Qed.

Lemma getUpdateTableSQL_safe meta schema :
  Forall keepsData
    (getUpdateTableSQL isSame supportsColumnAlter supportsSchemaConstraints getIndexName
       isImplicitIndex meta schema true).
Proof.
  unfold getUpdateTableSQL. destruct (getTable _ _).
  - apply updateTable_safe.
  - constructor; [apply createTable_keeps | constructor].
Qed.

Lemma createForeignKeys_keeps meta only :
  Forall keepsColumn (createForeignKeys supportsSchemaConstraints meta only).
Proof.
  unfold createForeignKeys. apply Forall_flat_map. intros; apply createForeignKey_keeps.
Qed.

Lemma getUpdateTableFKsSQL_keeps meta schema :
  Forall keepsData
    (getUpdateTableFKsSQL isSame supportsColumnAlter supportsSchemaConstraints getIndexName
       isImplicitIndex meta schema).
Proof.
  unfold getUpdateTableFKsSQL. destruct (getTable _ _).
  - destruct (Nat.eqb _ 0); [constructor|].
    constructor; [|constructor]. apply alterTable_keeps, createForeignKeys_keeps.
  - constructor; [|constructor]. apply alterTable_keeps, createForeignKeys_keeps.
Qed.

Lemma getUpdateTableIndexesSQL_keeps meta schema :
  Forall keepsData
    (getUpdateTableIndexesSQL isSame supportsColumnAlter supportsSchemaConstraints
       getIndexName isImplicitIndex meta schema).
Proof.
  unfold getUpdateTableIndexesSQL. destruct (getTable _ _).
  - apply Forall_app_2; apply Forall_map'; intros index _;
      apply alterTable_keeps; destruct (def_unique index); by repeat constructor.
  - constructor; [|constructor]. apply alterTable_keeps.
    unfold createIndexes. apply Forall_app_2; apply Forall_flat_map; intros index _;
      unfold createIndex; by repeat constructor.
Qed.

(** C2, as the code has it: in safe mode the table difference has an empty
    remove list, and no statement of the schema update drops a table or a
    column (whatever [dropTables] says). *)
Theorem safe_mode_keeps_data (ms : MetadataStorage) (schema : DatabaseSchema)
    (dropTables : bool) :
  (forall meta table, remove (diff meta table true) = [])
  /\ forall ops,
       getUpdateSchemaSQL isSame supportsColumnAlter supportsSchemaConstraints
         getIndexName isImplicitIndex usesCascadeStatement ms schema true dropTables
       = COC.Sorted ops ->
       Forall (fun op => dropsData op = false) ops.
Proof.
  split; [intros; apply safe_remove_empty|].
  intros ops. unfold getUpdateSchemaSQL.
  destruct (getOrderedMetadata ms) as [ordered|]; [|done].
  rewrite orb_true_r. intros [= <-].
  repeat apply Forall_app_2; apply Forall_flat_map; intros meta _.
  - apply getUpdateTableSQL_safe.
  - apply getUpdateTableFKsSQL_keeps.
  - apply getUpdateTableIndexesSQL_keeps.
Qed.

End SafeMode.

(** An example platform: columns are the same when name, type and
    nullability agree. *)
Definition sameColumn (prop : EntityProperty) (column : Column) (idx : option nat) : IsSame :=
  let same :=
    Js.includes (col_name column) (Js.arr (fieldNames prop))
    && String.eqb (col_type column) (type prop)
    && Bool.eqb (col_nullable column) (nullable prop) in
  mkIsSame same (String.eqb (col_type column) (type prop))
           (Bool.eqb (col_nullable column) (nullable prop)) true true.

Definition indexNameExample (table : string) (columns : list string) (kind : IndexKind)
    : string :=
  table +:+ "_" +:+ QueryBuilderHelper.join "_" columns
  +:+ match kind with KIndex => "_index" | KUnique => "_unique" | KForeign => "_foreign" end.

Definition scalarColumn (n t : string) : EntityProperty :=
  set_fieldNames (Some [n]) (blankProperty n t SCALAR).

Definition bookEntity : EntityMetadata :=
  mkMeta "Book" "Book" "book" None None false false
         [scalarColumn "id" "int"; scalarColumn "title" "varchar"] []
         [("id", scalarColumn "id" "int"); ("title", scalarColumn "title" "varchar")]
         ["id"] false [] [] None None None None.

Definition liveBook : DatabaseTable :=
  mkTable "book"
    [mkColumn "id" "int" false None None [];
     mkColumn "title" "varchar" false None None [mkIndex "title" "old_title_idx" false];
     mkColumn "isbn" "varchar" false None None []]
    [("old_title_idx", [mkIndex "title" "old_title_idx" false])].

Definition liveLegacy : DatabaseTable := mkTable "legacy" [] [].

Definition updateBooks (safe : bool) : COC.SortResult SchemaOp :=
  getUpdateSchemaSQL sameColumn true true indexNameExample (fun _ => false) false
    [("Book", bookEntity)] [liveBook; liveLegacy] safe true.

Example update_unsafe :
  updateBooks false
  = COC.Sorted
      [AlterTable "book" [DropColumn "isbn"];
       AlterTable "book" [DropIndex ["title"] (Some "old_title_idx")];
       DropTableIfExists "legacy" false].
Proof. reflexivity. Qed.

(** C2 as the spec words it (no drop operation of any kind) fails: in safe
    mode the index that the metadata does not expect is still dropped. *)
Lemma safe_mode_counterexample :
  updateBooks true
  = COC.Sorted [AlterTable "book" [DropIndex ["title"] (Some "old_title_idx")]]
  /\ List.existsb (dropsAnything)
       [AlterTable "book" [DropIndex ["title"] (Some "old_title_idx")]] = true.
Proof. split; reflexivity. Qed.

Lemma safe_mode_keeps_data_witness :
  Forall (fun op => dropsData op = false)
         [AlterTable "book" [DropIndex ["title"] (Some "old_title_idx")]].
Proof.
  exact (proj2 (safe_mode_keeps_data sameColumn true true indexNameExample (fun _ => false)
                  false [("Book", bookEntity)] [liveBook; liveLegacy] true)
               _ eq_refl).
Defined.


(** *** Renamed columns *)

(** How often [x] occurs in [l]. *)
Definition occurrences {A} `{EqDecision A} (x : A) (l : list A) : nat :=
  length (List.filter (fun y => bool_decide (y = x)) l).

Section Occurrences.
Context {A : Type} `{EqDecision A}.

Lemma occurrences_app (x : A) (l1 l2 : list A) :
  occurrences x (l1 ++ l2) = occurrences x l1 + occurrences x l2.
Proof. unfold occurrences. by rewrite List.filter_app, length_app. Qed.

Lemma occurrences_cons (x y : A) (l : list A) :
  occurrences x (y :: l) = (if decide (y = x) then 1 else 0) + occurrences x l.
Proof.
  unfold occurrences. cbn [List.filter].
  destruct (decide (y = x)); [rewrite bool_decide_true | rewrite bool_decide_false]; done.
Qed.

Lemma occurrences_not_In (x : A) (l : list A) : occurrences x l = 0 -> ~ In x l.
Proof.
  induction l as [|y l IH]; [by intros _ []|].
  rewrite occurrences_cons. destruct (decide (y = x)) as [->|Hne]; [done|].
  intros H [->|Hin]; [done | by apply IH].
Qed.

Lemma occurrences_absent (x : A) (l : list A) : ~ In x l -> occurrences x l = 0.
Proof.
  induction l as [|z l IH]; [done|]. intros Hn.
  rewrite occurrences_cons. destruct (decide (z = x)) as [->|]; [destruct Hn; by left|].
  cbn. apply IH. intros Hin. apply Hn. by right.
Qed.

Lemma occurrences_NoDup (x : A) (l : list A) : List.NoDup l -> occurrences x l <= 1.
Proof.
  induction 1 as [|y l Hy _ IH]; [cbn; lia|].
  rewrite occurrences_cons. destruct (decide (y = x)) as [->|Hne]; [|lia].
  rewrite occurrences_absent; [lia | done].
Qed.

Lemma occurrences_pos (x : A) (l : list A) : 1 <= occurrences x l -> In x l.
Proof.
  induction l as [|y l IH]; [cbn; lia|]. rewrite occurrences_cons.
  destruct (decide (y = x)) as [->|]; [by left | intros H; right; apply IH; lia].
Qed.

Lemma occurrences_In (x : A) (l : list A) : In x l -> 1 <= occurrences x l.
Proof.
  induction l as [|y l IH]; [done|]. rewrite occurrences_cons.
  intros [->|Hin]; [destruct (decide (x = x)); [lia|done] | specialize (IH Hin); lia].
Qed.

Lemma occurrences_filter (x : A) (f : A -> bool) (l : list A) :
  occurrences x (List.filter f l) <= occurrences x l.
Proof.
  induction l as [|y l IH]; [done|]. cbn [List.filter].
  destruct (f y); rewrite ?occurrences_cons; lia.
Qed.

Lemma occurrences_removeAt (x : A) (i : nat) (l : list A) :
  occurrences x (Js.removeAt i l) <= occurrences x l.
Proof.
  revert i. induction l as [|y l IH]; intros [|i]; cbn [Js.removeAt]; try done.
  - rewrite occurrences_cons. lia.
  - rewrite !occurrences_cons. specialize (IH i). lia.
Qed.

Lemma occurrences_removelast (x : A) (l : list A) :
  occurrences x (List.removelast l) <= occurrences x l.
Proof.
  induction l as [|y l IH]; [done|]. cbn [List.removelast].
  destruct l as [|z l]; [cbn; lia|].
  rewrite (occurrences_cons x y (z :: l)), (occurrences_cons x y). lia.
Qed.

Lemma occurrences_splice (x y : A) (l : list A) :
  occurrences x (Js.spliceIndexOf y l) <= occurrences x l.
Proof.
  unfold Js.spliceIndexOf. destruct (Js.indexOf y l).
  - apply occurrences_removeAt.
  - apply occurrences_removelast.
Qed.

Lemma indexOf_None (x : A) (l : list A) : Js.indexOf x l = None -> ~ In x l.
Proof.
  induction l as [|y l IH]; [by intros _ []|]. cbn [Js.indexOf].
  destruct (decide (x = y)) as [->|Hne]; [done|].
  destruct (Js.indexOf x l); [done|]. intros _ [->|Hin]; [done | by apply IH].
Qed.

(** Splicing at [x] takes one occurrence of [x] away, if there is one. *)
Lemma occurrences_splice_self (x : A) (l : list A) :
  occurrences x (Js.spliceIndexOf x l) = occurrences x l - 1.
Proof.
  unfold Js.spliceIndexOf.
  destruct (Js.indexOf x l) as [i|] eqn:E.
  - revert i E. induction l as [|y l IH]; intros i E; [done|].
    cbn [Js.indexOf] in E. rewrite occurrences_cons.
    destruct (decide (x = y)) as [->|Hne].
    + injection E as <-. cbn [Js.removeAt]. destruct (decide (y = y)); [lia|done].
    + destruct (Js.indexOf x l) as [j|] eqn:Ej; [|done]. injection E as <-.
      cbn [Js.removeAt]. rewrite occurrences_cons, (IH j eq_refl).
      destruct (decide (y = x)); [congruence | lia].
  - apply indexOf_None in E. pose proof (occurrences_removelast x l) as Hle.
    rewrite (occurrences_absent x l E) in *. lia.
Qed.

End Occurrences.


Section Renames.
Variable isSame : EntityProperty -> Column -> option nat -> IsSame.
Variable supportsColumnAlter : bool.
Variable supportsSchemaConstraints : bool.
Variable getIndexName : string -> list string -> IndexKind -> string.
Variable isImplicitIndex : string -> bool.

Abbreviation diff' :=
  (computeTableDifference isSame supportsColumnAlter supportsSchemaConstraints
     getIndexName isImplicitIndex).

(** The column names [computeColumnDifference] looks up for a property. *)
Definition columnNames (prop : EntityProperty) : list string :=
  if isToOne prop then Js.arr (joinColumns prop) else Js.arr (fieldNames prop).

Definition missingColumns (table : DatabaseTable) (cols : list string) : list string :=
  List.filter (fun c => match getColumn c table with None => true | Some _ => false end) cols.

Lemma forEachIdx_create (table : DatabaseTable) (p : EntityProperty)
    (cols : list string) (i : nat) (acc : list EntityProperty * list UpdateEntry) :
  fst (Js.forEachIdx (computeColumnDifferenceAt isSame supportsColumnAlter table p) cols i acc)
  = fst acc ++ List.map (fun _ => p) (missingColumns table cols).
Proof.
  revert i acc. induction cols as [|c cols IH]; intros i acc; cbn [Js.forEachIdx].
  - cbn. by rewrite app_nil_r.
  - rewrite IH. unfold computeColumnDifferenceAt, missingColumns. cbn [List.filter].
    destruct (getColumn c table) as [column|].
    + by destruct (_ && _).
    + cbn. by rewrite <- app_assoc.
Qed.

Lemma computeColumnDifference_create (table : DatabaseTable) (p : EntityProperty)
    (acc : list EntityProperty * list UpdateEntry) :
  fst (computeColumnDifference isSame supportsColumnAlter table p acc)
  = fst acc ++ List.map (fun _ => p) (missingColumns table (columnNames p)).
Proof.
  unfold computeColumnDifference, columnNames.
  destruct (isToOne p); apply forEachIdx_create.
Qed.

Lemma occurrences_map_const {A B} `{EqDecision A} (x y : A) (l : list B) :
  occurrences x (List.map (fun _ => y) l) = if decide (y = x) then length l else 0.
Proof.
  induction l as [|b l IH]; cbn [List.map]; [by destruct (decide (y = x))|].
  rewrite occurrences_cons, IH. destruct (decide (y = x)); cbn; lia.
Qed.

(** A property occurs in [create] once per column of its own that the live
    table lacks. *)
Lemma occurrences_create (table : DatabaseTable) (prop : EntityProperty)
    (ps : list EntityProperty) (acc : list EntityProperty * list UpdateEntry) :
  List.NoDup ps -> In prop ps ->
  occurrences prop
    (fst (fold_left (fun acc p => computeColumnDifference isSame supportsColumnAlter table p acc)
            ps acc))
  = occurrences prop (fst acc) + length (missingColumns table (columnNames prop)).
Proof.
  intros Hnd. revert acc. induction Hnd as [|q ps Hq Hnd IH]; intros acc Hin; [destruct Hin|].
  cbn [fold_left]. destruct Hin as [->|Hin].
  - assert (Hrest : forall acc',
              occurrences prop
                (fst (fold_left (fun acc p => computeColumnDifference isSame supportsColumnAlter
                                                table p acc) ps acc'))
              = occurrences prop (fst acc')).
    { clear IH Hnd. induction ps as [|r ps IH]; intros acc'; [done|]. cbn [fold_left].
      rewrite IH by (intros H; apply Hq; by right).
      rewrite computeColumnDifference_create, occurrences_app, occurrences_map_const.
      destruct (decide (r = prop)) as [->|]; [destruct Hq; by left | lia]. }
    rewrite Hrest, computeColumnDifference_create, occurrences_app, occurrences_map_const.
    by destruct (decide (prop = prop)).
  - rewrite IH by done.
    rewrite computeColumnDifference_create, occurrences_app, occurrences_map_const.
    destruct (decide (q = prop)) as [->|]; [done | lia].
Qed.

(** The rename entries a property gives rise to. *)
Definition entriesFor (remove : list Column) (prop : EntityProperty) : list RenameEntry :=
  List.flat_map
    (fun fieldName =>
       match findMatch isSame prop fieldName remove with
       | Some m => [mkRename m prop]
       | None => []
       end)
    (Js.arr (fieldNames prop)).

Lemma entriesFor_to (remove : list Column) (p : EntityProperty) (r : RenameEntry) :
  In r (entriesFor remove p) -> ren_to r = p.
Proof.
  unfold entriesFor. rewrite in_flat_map. intros (f & _ & Hr).
  destruct (findMatch isSame p f remove); [|done]. by destruct Hr as [<-|[]].
Qed.

Lemma occurrences_renamed (remove : list Column) (r : RenameEntry)
    (create : list EntityProperty) :
  occurrences r (renamedEntries isSame create remove)
  = occurrences (ren_to r) create * occurrences r (entriesFor remove (ren_to r)).
Proof.
  unfold renamedEntries. induction create as [|p create IH]; [done|].
  cbn [flat_map]. rewrite occurrences_app, IH, occurrences_cons. fold (entriesFor remove p).
  destruct (decide (p = ren_to r)) as [->|Hne]; [lia|].
  rewrite (occurrences_absent r (entriesFor remove p)); [lia|].
  intros Hin. by apply entriesFor_to in Hin.
Qed.

Lemma splice_all_le_create (x : EntityProperty) (rs : list RenameEntry)
    (acc : list EntityProperty * list Column) :
  occurrences x (fst (fold_left spliceRenamed rs acc)) <= occurrences x (fst acc).
Proof.
  revert acc. induction rs as [|r rs IH]; intros acc; [done|]. cbn [fold_left].
  etrans; [apply IH|]. apply occurrences_splice.
Qed.

Lemma splice_all_le_remove (x : Column) (rs : list RenameEntry)
    (acc : list EntityProperty * list Column) :
  occurrences x (snd (fold_left spliceRenamed rs acc)) <= occurrences x (snd acc).
Proof.
  revert acc. induction rs as [|r rs IH]; intros acc; [done|]. cbn [fold_left].
  etrans; [apply IH|]. apply occurrences_splice.
Qed.

Lemma splice_all_hit_create (r : RenameEntry) (rs : list RenameEntry)
    (acc : list EntityProperty * list Column) :
  In r rs ->
  occurrences (ren_to r) (fst (fold_left spliceRenamed rs acc))
  <= occurrences (ren_to r) (fst acc) - 1.
Proof.
  revert acc. induction rs as [|r' rs IH]; intros acc Hin; [destruct Hin|].
  cbn [fold_left]. destruct Hin as [->|Hin].
  - etrans; [apply splice_all_le_create|]. unfold spliceRenamed. cbn [fst snd].
    by rewrite occurrences_splice_self.
  - etrans; [by apply IH|]. unfold spliceRenamed. cbn [fst snd].
    pose proof (occurrences_splice (ren_to r) (ren_to r') (fst acc)). lia.
Qed.

Lemma splice_all_hit_remove (r : RenameEntry) (rs : list RenameEntry)
    (acc : list EntityProperty * list Column) :
  In r rs ->
  occurrences (ren_from r) (snd (fold_left spliceRenamed rs acc))
  <= occurrences (ren_from r) (snd acc) - 1.
Proof.
  revert acc. induction rs as [|r' rs IH]; intros acc Hin; [destruct Hin|].
  cbn [fold_left]. destruct Hin as [->|Hin].
  - etrans; [apply splice_all_le_remove|]. unfold spliceRenamed. cbn [fst snd].
    by rewrite occurrences_splice_self.
  - etrans; [by apply IH|]. unfold spliceRenamed. cbn [fst snd].
    pose proof (occurrences_splice (ren_from r) (ren_from r') (snd acc)). lia.
Qed.

(** What [findMatch] finds: an unmatched column that is the same as the
    property once it bears the field name, and the first such column. *)
Lemma findMatch_Some (prop : EntityProperty) (f : string) (remove : list Column)
    (col : Column) :
  findMatch isSame prop f remove = Some col ->
  In col remove /\ all (isSame prop (withName f col) None) = true.
Proof. unfold findMatch. intros H. apply List.find_some in H. exact H. Qed.

(** Every rename entry is one its property gives rise to. *)
Lemma renamedEntries_In (create : list EntityProperty) (remove : list Column)
    (r : RenameEntry) :
  In r (renamedEntries isSame create remove) -> In r (entriesFor remove (ren_to r)).
Proof.
  intros Hin. apply occurrences_pos.
  destruct (decide (occurrences r (renamedEntries isSame create remove) = 0)) as [E|E].
  - by apply occurrences_not_In in E.
  - rewrite occurrences_renamed in E. nia.
Qed.

(** C3, as the code has it: a property with one field name whose column the
    live table lacks, and the first live column without a counterpart that
    equals the property once renamed to that field name, give exactly one
    rename entry pairing the two, and the property has no other rename
    entry; afterwards the create list does not hold the property and the
    remove list does not hold the column. *)
Theorem rename_detected (meta : EntityMetadata) (table : DatabaseTable) (safe : bool)
    (prop : EntityProperty) (col : Column) (f : string) :
  List.NoDup (props meta) ->
  List.NoDup (getColumns table) ->
  In prop (columnProps supportsSchemaConstraints meta) ->
  fieldNames prop = Some [f] ->
  columnNames prop = [f] ->
  getColumn f table = None ->
  findMatch isSame prop f (unmatchedColumns supportsSchemaConstraints meta table) = Some col ->
  occurrences (mkRename col prop) (rename (diff' meta table safe)) = 1
  /\ (forall r, In r (rename (diff' meta table safe)) -> ren_to r = prop ->
                r = mkRename col prop)
  /\ ~ In prop (create (diff' meta table safe))
  /\ ~ In col (remove (diff' meta table safe)).
Proof.
  intros Hprops Hcols Hin Hf Hnames Hmissing Hmatch.
  set (create0 := fst (columnDifferences isSame supportsColumnAlter supportsSchemaConstraints
                         meta table)).
  set (remove0 := unmatchedColumns supportsSchemaConstraints meta table).
  assert (Hcreate0 : occurrences prop create0 = 1).
  { subst create0. unfold columnDifferences.
    rewrite occurrences_create; [|by apply List.NoDup_filter | done].
    rewrite Hnames. unfold missingColumns. cbn [List.filter]. by rewrite Hmissing. }
  assert (Hentries : entriesFor remove0 prop = [mkRename col prop]).
  { unfold entriesFor. rewrite Hf. cbn [Js.arr flat_map]. fold remove0 in Hmatch.
    by rewrite Hmatch. }
  assert (Hren : occurrences (mkRename col prop) (renamedEntries isSame create0 remove0) = 1).
  { rewrite occurrences_renamed. cbn [ren_to]. rewrite Hcreate0, Hentries.
    rewrite occurrences_cons. by destruct (decide (mkRename col prop = mkRename col prop)). }
  assert (Hentry : In (mkRename col prop) (renamedEntries isSame create0 remove0)).
  { apply occurrences_pos. lia. }
  assert (Hremove0 : occurrences col remove0 <= 1).
  { subst remove0. unfold unmatchedColumns. by apply occurrences_NoDup, List.NoDup_filter. }
  assert (Hc : occurrences prop
                 (fst (fold_left spliceRenamed (renamedEntries isSame create0 remove0)
                         (create0, remove0))) = 0).
  { pose proof (splice_all_hit_create _ _ (create0, remove0) Hentry) as H.
    cbn [ren_to fst] in H. lia. }
  assert (Hr : occurrences col
                 (snd (fold_left spliceRenamed (renamedEntries isSame create0 remove0)
                         (create0, remove0))) = 0).
  { pose proof (splice_all_hit_remove _ _ (create0, remove0) Hentry) as H.
    cbn [ren_from snd] in H. lia. }
  assert (Honly : forall r, In r (renamedEntries isSame create0 remove0) ->
                             ren_to r = prop -> r = mkRename col prop).
  { intros r Hin' Hto. apply renamedEntries_In in Hin'. rewrite Hto, Hentries in Hin'.
    by destruct Hin' as [<-|[]]. }
  unfold computeTableDifference, findRenamedColumns. fold create0 remove0. cbn zeta.
  destruct safe; cbn [rename create remove fst snd].
  - split; [exact Hren|]. split; [exact Honly|].
    split; [by apply occurrences_not_In | by intros []].
  - split; [exact Hren|]. split; [exact Honly|]. split; by apply occurrences_not_In.
Qed.

End Renames.


(** *** Examples *)

Definition intColumn (n : string) : Column := mkColumn n "int" false None None [].

(** One property renamed: the live table still calls the column [title]. *)
Definition renamedEntity : EntityMetadata :=
  mkMeta "Book" "Book" "book" None None false false
         [scalarColumn "id" "int"; scalarColumn "name" "int"] []
         [("id", scalarColumn "id" "int"); ("name", scalarColumn "name" "int")]
         ["id"] false [] [] None None None None.

Definition renamedTable : DatabaseTable :=
  mkTable "book" [intColumn "id"; intColumn "title"] [].

Example rename_single :
  (fun d => (create d, rename d, remove d))
    (computeTableDifference sameColumn true true indexNameExample (fun _ => false)
       renamedEntity renamedTable false)
  = ([], [mkRename (intColumn "title") (scalarColumn "name" "int")], []).
Proof. reflexivity. Qed.

Lemma rename_detected_witness :
  occurrences (mkRename (intColumn "title") (scalarColumn "name" "int"))
    (rename (computeTableDifference sameColumn true true indexNameExample (fun _ => false)
               renamedEntity renamedTable false)) = 1
  /\ (forall r,
        In r (rename (computeTableDifference sameColumn true true indexNameExample
                        (fun _ => false) renamedEntity renamedTable false)) ->
        ren_to r = scalarColumn "name" "int" ->
        r = mkRename (intColumn "title") (scalarColumn "name" "int"))
  /\ ~ In (scalarColumn "name" "int")
        (create (computeTableDifference sameColumn true true indexNameExample (fun _ => false)
                   renamedEntity renamedTable false))
  /\ ~ In (intColumn "title")
        (remove (computeTableDifference sameColumn true true indexNameExample (fun _ => false)
                   renamedEntity renamedTable false)).
Proof.
  apply (rename_detected sameColumn true true indexNameExample (fun _ => false)
           renamedEntity renamedTable false (scalarColumn "name" "int")
           (intColumn "title") "name").
  - repeat constructor; cbn; intuition discriminate.
  - repeat constructor; cbn; intuition discriminate.
  - cbn. right. by left.
  - reflexivity.
  - reflexivity.
  - reflexivity.
  - reflexivity.
Defined.

(** Two live columns that both equal the new property once renamed: only the
    first becomes the rename. *)
Definition twoCandidates : EntityMetadata :=
  mkMeta "T" "T" "t" None None false false [scalarColumn "c" "int"] []
         [("c", scalarColumn "c" "int")] [] false [] [] None None None None.

Definition twoCandidatesTable : DatabaseTable :=
  mkTable "t" [intColumn "a"; intColumn "b"] [].

(** C3 as the spec words it fails: column [b] differs from property [c] in
    its name only, there is no live column [c] and no property for [b], and
    yet no rename entry pairs [b] with [c], and [b] stays in the remove
    list. *)
Lemma rename_counterexample :
  all (sameColumn (scalarColumn "c" "int") (withName "c" (intColumn "b")) None) = true
  /\ getColumn "c" twoCandidatesTable = None
  /\ hasCounterpart (columnProps true twoCandidates) (intColumn "b") = false
  /\ rename (computeTableDifference sameColumn true true indexNameExample (fun _ => false)
               twoCandidates twoCandidatesTable false)
     = [mkRename (intColumn "a") (scalarColumn "c" "int")]
  /\ remove (computeTableDifference sameColumn true true indexNameExample (fun _ => false)
               twoCandidates twoCandidatesTable false)
     = [intColumn "b"].
Proof. repeat split. Qed.

End SchemaGeneratorSpec.

(** ** The commit order *)

Module CommitOrderSpec.
Import CommitOrderCalculator.

Lemma includes_In (x : string) (l : list string) :
  Js.includes x l = true <-> In x l.
Proof.
  unfold Js.includes. rewrite List.existsb_exists. split.
  - intros (y & Hy & He). apply String.eqb_eq in He. by subst.
  - intros H. exists x. split; [done | apply String.eqb_refl].
Qed.

Section IndexOf.
Context {A : Type} `{EqDecision A}.

Lemma indexOf_In (x : A) (l : list A) : In x l -> exists i, Js.indexOf x l = Some i /\ i < length l.
Proof.
  induction l as [|y l IH]; [done|]. cbn [Js.indexOf length].
  destruct (decide (x = y)) as [->|Hne]; [exists 0; split; [done|lia]|].
  intros [->|Hin]; [done|]. destruct (IH Hin) as (i & -> & Hi).
  exists (S i). split; [done|lia].
Qed.

Lemma indexOf_Some (x : A) (l : list A) (i : nat) :
  Js.indexOf x l = Some i -> In x l /\ i < length l.
Proof.
  revert i. induction l as [|y l IH]; intros i; [done|]. cbn [Js.indexOf length].
  destruct (decide (x = y)) as [->|Hne]; [intros [= <-]; split; [by left | lia]|].
  destruct (Js.indexOf x l) as [j|]; [|done]. intros [= <-].
  destruct (IH j eq_refl). split; [by right | lia].
Qed.

Lemma indexOf_app_l (x : A) (l l' : list A) :
  In x l -> Js.indexOf x (l ++ l') = Js.indexOf x l.
Proof.
  induction l as [|y l IH]; [done|]. cbn [Js.indexOf app].
  destruct (decide (x = y)); [done|]. intros [->|Hin]; [done|]. by rewrite IH.
Qed.

Lemma indexOf_app_r (x : A) (l : list A) :
  ~ In x l -> Js.indexOf x (l ++ [x]) = Some (length l).
Proof.
  induction l as [|y l IH]; intros Hn; cbn [Js.indexOf app length].
  - by destruct (decide (x = x)).
  - destruct (decide (x = y)) as [->|]; [destruct Hn; by left|].
    rewrite IH; [done|]. intros Hin. apply Hn. by right.
Qed.

Lemma precedes_app (a b : A) (l l' : list A) :
  precedes a b l -> precedes a b (l ++ l').
Proof.
  intros (i & j & Ha & Hb & Hlt). exists i, j.
  rewrite !indexOf_app_l; [done| |]; by eapply indexOf_Some.
Qed.

Lemma precedes_last (a b : A) (l : list A) :
  In a l -> ~ In b l -> precedes a b (l ++ [b]).
Proof.
  intros Ha Hb. destruct (indexOf_In a l Ha) as (i & Hi & Hlt).
  exists i, (length l). rewrite indexOf_app_l by done. by rewrite indexOf_app_r.
Qed.

Lemma precedes_trans (a b c : A) (l : list A) :
  precedes a b l -> precedes b c l -> precedes a c l.
Proof.
  intros (i & j & Ha & Hb & Hij) (j' & k & Hb' & Hc & Hjk).
  exists i, k. rewrite Hb in Hb'. injection Hb' as <-. repeat split; try done. lia.
Qed.

Lemma precedes_irrefl (a : A) (l : list A) : ~ precedes a a l.
Proof. intros (i & j & Ha & Ha' & Hlt). rewrite Ha in Ha'. injection Ha' as <-. lia. Qed.

End IndexOf.

Lemma removeNode_In (n x : string) (l : list string) :
  In x (removeNode n l) <-> In x l /\ x <> n.
Proof.
  unfold removeNode. rewrite List.filter_In. split.
  - intros [Hin Hne]. split; [done|]. intros ->. by rewrite String.eqb_refl in Hne.
  - intros [Hin Hne]. split; [done|]. apply String.eqb_neq in Hne. by rewrite Hne.
Qed.

Lemma removeNode_length (n : string) (l : list string) :
  In n l -> length (removeNode n l) < length l.
Proof.
  unfold removeNode. induction l as [|y l IH]; [done|]. cbn [List.filter length].
  intros [->|Hin].
  - rewrite String.eqb_refl. cbn. pose proof (List.filter_length_le (fun x => negb (String.eqb x n)) l).
    lia.
  - destruct (negb (String.eqb y n)); cbn [length]; specialize (IH Hin); lia.
Qed.

Section Sort.
Variable es : list Edge.
Variable nodes_ : list string.

(** Every required dependency between nodes whose target is in [l] is
    honoured by [l]. *)
Definition respects (l : list string) : Prop :=
  forall e, In e es -> required e = true -> In (from e) nodes_ -> In (to e) l ->
    precedes (from e) (to e) l.

Lemma blocked_false (onlyRequired : bool) (pending : list string) (n : string) (e : Edge) :
  blocked onlyRequired es pending n = false ->
  In e es -> to e = n -> required e = true -> ~ In (from e) pending.
Proof.
  unfold blocked. intros Hb He Hto Hreq Hin.
  assert (List.existsb
            (fun e => String.eqb (to e) n && Js.includes (from e) pending
                      && (negb onlyRequired || required e)) es = true); [|congruence].
  apply List.existsb_exists. exists e. split; [done|].
  rewrite Hto, String.eqb_refl, Hreq, orb_true_r. cbn.
  rewrite andb_true_r. by apply includes_In.
Qed.

Lemma blocked_true (pending : list string) (n : string) :
  blocked true es pending n = true ->
  exists e, In e es /\ to e = n /\ required e = true /\ In (from e) pending.
Proof.
  unfold blocked. rewrite List.existsb_exists. intros (e & He & H).
  apply andb_prop in H as [H Hreq]. apply andb_prop in H as [Hto Hinc].
  exists e. repeat split; try done.
  - by apply String.eqb_eq.
  - by apply includes_In.
Qed.

(** Placing a node that waits for no required dependency keeps the order
    honoured. *)
Lemma respects_place (pending placed : list string) (n : string) :
  (forall x, In x nodes_ -> In x pending \/ In x placed) ->
  (forall x, In x pending -> ~ In x placed) ->
  In n pending ->
  blocked true es pending n = false ->
  respects placed -> respects (placed ++ [n]).
Proof.
  intros Hcover Hdisj Hn Hb Hres e He Hreq Hfrom Hto.
  apply in_app_or in Hto as [Hto|[Hto|[]]].
  - by apply precedes_app, Hres.
  - rewrite <- Hto. apply precedes_last.
    + destruct (Hcover _ Hfrom) as [Hp|Hp]; [|done].
      by destruct (blocked_false true pending n e Hb He (eq_sym Hto) Hreq).
    + by apply Hdisj.
Qed.

Lemma find_unblocked (onlyRequired : bool) (pending : list string) (n : string) :
  List.find (fun n => negb (blocked onlyRequired es pending n)) pending = Some n ->
  In n pending /\ blocked true es pending n = false.
Proof.
  intros H. apply List.find_some in H as [Hin Hb]. split; [done|].
  apply negb_true_iff in Hb. destruct onlyRequired; [done|].
  unfold blocked in *. apply not_true_is_false. intros Ht.
  apply List.existsb_exists in Ht as (e & He & H).
  assert (List.existsb
            (fun e => String.eqb (to e) n && Js.includes (from e) pending
                      && (negb false || required e)) es = true); [|congruence].
  apply List.existsb_exists. exists e. split; [done|].
  apply andb_prop in H as [H _]. by rewrite H.
Qed.

(** The loop invariant: pending and placed nodes split the nodes, and the
    placed ones honour the required dependencies. *)
Definition loopInvariant (pending placed : list string) : Prop :=
  (forall x, In x nodes_ <-> In x pending \/ In x placed)
  /\ (forall x, In x pending -> ~ In x placed)
  /\ respects placed.

Lemma loopInvariant_place (pending placed : list string) (n : string) :
  In n pending -> blocked true es pending n = false ->
  loopInvariant pending placed ->
  loopInvariant (removeNode n pending) (placed ++ [n]).
Proof.
  intros Hn Hb (Hsplit & Hdisj & Hres). split; [|split].
  - intros x. rewrite Hsplit, removeNode_In, in_app_iff. cbn.
    destruct (decide (x = n)) as [->|Hne]; [tauto|]. split; [tauto|].
    intros [[? _]|[?|[->|[]]]]; tauto.
  - intros x [Hx Hne]%removeNode_In [Hp|[->|[]]]%in_app_or; [by apply (Hdisj x)|done].
  - apply (respects_place pending); try done. intros x Hx. by apply Hsplit.
Qed.

Lemma sortLoop_sorted (rounds : nat) (pending placed l : list string) :
  length pending <= rounds ->
  loopInvariant pending placed ->
  sortLoop rounds es pending placed = Sorted l ->
  respects l /\ forall x, In x l <-> In x nodes_.
Proof.
  revert pending placed. induction rounds as [|rounds IH]; intros pending placed Hlen Hinv.
  - destruct pending; [|cbn in Hlen; lia]. cbn. intros [= <-].
    destruct Hinv as (Hsplit & _ & Hres). split; [done|].
    intros x. rewrite Hsplit. cbn. tauto.
  - destruct pending as [|q pending''].
    { cbn. intros [= <-]. destruct Hinv as (Hsplit & _ & Hres). split; [done|].
      intros x. rewrite Hsplit. cbn. tauto. }
    set (pending := q :: pending'') in *. cbn [sortLoop]. fold pending.
    destruct (List.find (fun n => negb (blocked false es pending n)) pending) as [n|] eqn:E1.
    + apply find_unblocked in E1 as [Hn Hb]. apply IH.
      * pose proof (removeNode_length n pending Hn). lia.
      * by apply loopInvariant_place.
    + destruct (List.find (fun n => negb (blocked true es pending n)) pending) as [n|] eqn:E2;
        [|done].
      apply find_unblocked in E2 as [Hn Hb]. apply IH.
      * pose proof (removeNode_length n pending Hn). lia.
      * by apply loopInvariant_place.
Qed.

(** When the loop gives up, some pending nodes all wait for one another
    through required dependencies. *)
Lemma sortLoop_stuck (rounds : nat) (pending placed : list string) :
  length pending <= rounds ->
  sortLoop rounds es pending placed = SchemaDependencyError ->
  exists stuck,
    stuck <> [] /\ forall n, In n stuck -> blocked true es stuck n = true.
Proof.
  revert pending placed. induction rounds as [|rounds IH]; intros pending placed Hlen.
  - destruct pending; [done | cbn in Hlen; lia].
  - destruct pending as [|q pending'']; [done|]. set (pending := q :: pending'') in *.
    cbn [sortLoop]. fold pending.
    destruct (List.find (fun n => negb (blocked false es pending n)) pending) as [n|] eqn:E1.
    + apply find_unblocked in E1 as [Hn Hb]. apply IH.
      pose proof (removeNode_length n pending Hn). lia.
    + destruct (List.find (fun n => negb (blocked true es pending n)) pending) as [n|] eqn:E2.
      * apply find_unblocked in E2 as [Hn Hb]. apply IH.
        pose proof (removeNode_length n pending Hn). lia.
      * intros _. exists pending. split; [done|]. intros n Hn.
        pose proof (List.find_none _ _ E2 n Hn) as H. by apply negb_false_iff in H.
Qed.

End Sort.

(** *** From a stuck set of nodes to a cycle *)

Section Cycles.
Variable es : list Edge.

(** A list of nodes, each linked to the next by an edge. *)
Inductive chain : list string -> Prop :=
| chain_one x : chain [x]
| chain_cons e l : In e es -> chain (to e :: l) -> chain (from e :: to e :: l).

Lemma chain_tail (x : string) (l : list string) : chain (x :: l) -> l <> [] -> chain l.
Proof. intros H Hl. inversion H; subst; [done | assumption]. Qed.

Lemma chain_suffix (l1 l2 : list string) : chain (l1 ++ l2) -> l2 <> [] -> chain l2.
Proof.
  induction l1 as [|x l1 IH]; [done|]. cbn. intros H Hl. apply IH; [|done].
  apply (chain_tail x); [done|]. by destruct l1, l2.
Qed.

Lemma chain_prefix (l l' : list string) : chain (l ++ l') -> l <> [] -> chain l.
Proof.
  induction l as [|a l IH]; [done|]. intros H _.
  destruct l as [|b l]; [constructor|].
  cbn in H. inversion H; subst. constructor; [done|]. by apply IH.
Qed.

Lemma chain_path (l : list string) (x y : string) : chain (x :: l ++ [y]) -> path es x y.
Proof.
  revert x. induction l as [|z l IH]; intros x H; inversion H; subst.
  - by apply path_edge.
  - apply path_step; [done|]. by apply IH.
Qed.

Lemma repeated_or_NoDup (l : list string) :
  List.NoDup l \/ exists x l1 l2 l3, l = l1 ++ x :: l2 ++ x :: l3.
Proof.
  induction l as [|x l [IH|(y & l1 & l2 & l3 & ->)]].
  - left. constructor.
  - destruct (List.in_dec string_dec x l) as [Hin|Hn].
    + right. apply List.in_split in Hin as (l2 & l3 & ->). by exists x, [], l2, l3.
    + left. by constructor.
  - right. by exists y, (x :: l1), l2, l3.
Qed.

Variable stuck : list string.
Hypothesis waits :
  forall n, In n stuck -> exists e, In e es /\ to e = n /\ In (from e) stuck.

Lemma chain_back (k : nat) (n : string) :
  In n stuck ->
  exists c, chain c /\ length c = S k /\ (forall x, In x c -> In x stuck).
Proof.
  intros Hn. induction k as [|k (c & Hc & Hlen & Hin)].
  - exists [n]. split; [constructor|]. split; [done|]. by intros x [<-|[]].
  - destruct c as [|y c]; [done|].
    destruct (waits y (Hin y (or_introl eq_refl))) as (e & He & Hto & Hfrom).
    exists (from e :: y :: c). split; [|split].
    + subst y. by constructor.
    + cbn in *. lia.
    + intros x [<-|Hx]; [done | by apply Hin].
Qed.

Lemma stuck_cycle : stuck <> [] -> exists x, path es x x.
Proof.
  intros Hne.
  assert (exists n, In n stuck) as [n Hn].
  { clear waits. destruct stuck as [|n rest]; [done|]. exists n. by left. }
  destruct (chain_back (length stuck) n Hn) as (c & Hc & Hlen & Hin).
  destruct (repeated_or_NoDup c) as [Hnd|(x & l1 & l2 & l3 & ->)].
  - pose proof (List.NoDup_incl_length Hnd Hin). lia.
  - exists x. apply (chain_path l2).
    apply (chain_prefix _ l3); [|done].
    cbn. rewrite <- app_assoc. cbn. by apply (chain_suffix l1).
Qed.

End Cycles.

(** *** The sort *)

Lemma path_incl (es es' : list Edge) (x y : string) :
  (forall e, In e es -> In e es') -> path es x y -> path es' x y.
Proof.
  intros Hincl. induction 1 as [e He|e z He _ IH].
  - apply path_edge. by apply Hincl.
  - apply path_step; [by apply Hincl | done].
Qed.

Lemma requiredEdges_In (es : list Edge) (e : Edge) :
  In e (requiredEdges es) <-> In e es /\ required e = true.
Proof. unfold requiredEdges. apply List.filter_In. Qed.

(** Every dependency runs between nodes. *)
Definition wellFormed (c : t) : Prop :=
  forall e, In e (edges c) -> In (from e) (nodes c) /\ In (to e) (nodes c).

(** Without a cycle of required dependencies the sort succeeds, lists the
    nodes, and puts every required dependency before its dependant. *)
Lemma sort_acyclic (c : t) :
  acyclic (requiredEdges (edges c)) ->
  exists l,
    sort c = Sorted l
    /\ (forall x, In x l <-> In x (nodes c))
    /\ forall e, In e (edges c) -> required e = true ->
         In (from e) (nodes c) -> In (to e) (nodes c) ->
         precedes (from e) (to e) l.
Proof.
  intros Hacyclic. unfold sort. destruct (sortLoop _ _ _ _) as [l|] eqn:E.
  - exists l. split; [done|].
    destruct (sortLoop_sorted (edges c) (nodes c) (length (nodes c)) (nodes c) [] l (le_n _))
      as [Hres Hall];
      [|exact E|].
    + split; [|split]; [intros x; cbn; tauto | by intros x _ [] |].
      intros e _ _ _ [].
    + split; [done|]. intros e He Hreq Hfrom Hto. apply Hres; try done. by apply Hall.
  - exfalso. apply sortLoop_stuck in E as (stuck & Hne & Hstuck); [|done].
    destruct (stuck_cycle (requiredEdges (edges c)) stuck) as [x Hx]; [|done|by apply (Hacyclic x)].
    intros n Hn. destruct (blocked_true _ _ _ (Hstuck n Hn)) as (e & He & Hto & Hreq & Hfrom).
    exists e. split; [by apply requiredEdges_In | done].
Qed.

(** A cycle of required dependencies makes the sort fail. *)
Lemma sort_cycle (c : t) (x : string) :
  wellFormed c ->
  path (requiredEdges (edges c)) x x ->
  sort c = SchemaDependencyError.
Proof.
  intros Hwf Hcycle. unfold sort. destruct (sortLoop _ _ _ _) as [l|] eqn:E; [|done].
  exfalso.
  destruct (sortLoop_sorted (edges c) (nodes c) (length (nodes c)) (nodes c) [] l (le_n _))
      as [Hres Hall];
    [|exact E|].
  { split; [|split]; [intros y; cbn; tauto | by intros y _ [] |].
    intros e _ _ _ []. }
  assert (Hpath : forall a b, path (requiredEdges (edges c)) a b -> precedes a b l).
  { induction 1 as [e He|e z He _ IH].
    - apply requiredEdges_In in He as [He Hreq]. destruct (Hwf e He) as [Hfrom Hto].
      apply Hres; try done. by apply Hall.
    - apply requiredEdges_In in He as [He Hreq]. destruct (Hwf e He) as [Hfrom Hto].
      eapply precedes_trans; [|exact IH]. apply Hres; try done. by apply Hall. }
  by apply (precedes_irrefl x l), Hpath.
Qed.

End CommitOrderSpec.

Module CommitGraphSpec.
Import Metadata SchemaGenerator CommitOrderCalculator CommitOrderSpec.

(** The dependency a property of [meta] registers, given the nodes. *)
Definition dependencyOf (nodes_ : list string) (meta : EntityMetadata)
    (prop : EntityProperty) : list Edge :=
  if Js.includes (type prop) nodes_ && isOwningToOne prop
  then [mkEdge (type prop) (meta_name meta) (if nullable prop then 0 else 1)]
  else [].

Lemma addCommitDependency_spec (calc : t) (prop : EntityProperty) (n : string) :
  addCommitDependency calc prop n
  = if isOwningToOne prop
    then addDependency (type prop) n (if nullable prop then 0 else 1) calc
    else calc.
Proof.
  unfold addCommitDependency, isOwningToOne.
  destruct (ref_eqb (reference prop) ONE_TO_ONE), (owner prop),
    (ref_eqb (reference prop) MANY_TO_ONE); reflexivity.
Qed.

Lemma addDependencies_spec (calc : t) (meta : EntityMetadata) :
  nodes (addDependencies calc meta) = nodes calc
  /\ edges (addDependencies calc meta)
     = edges calc ++ List.flat_map (dependencyOf (nodes calc) meta) (props meta).
Proof.
  unfold addDependencies. generalize (props meta). intros ps. revert calc.
  induction ps as [|p ps IH]; intros calc; cbn [fold_left flat_map].
  - by rewrite app_nil_r.
  - set (calc' := if hasNode (type p) calc then _ else calc).
    assert (Hc : nodes calc' = nodes calc
                 /\ edges calc' = edges calc ++ dependencyOf (nodes calc) meta p).
    { subst calc'. unfold dependencyOf, hasNode. rewrite addCommitDependency_spec.
      destruct (Js.includes (type p) (nodes calc)), (isOwningToOne p); cbn;
        by rewrite ?app_nil_r. }
    destruct Hc as [Hn He]. destruct (IH calc') as [IHn IHe].
    rewrite IHn, IHe, Hn, He. split; [done|]. by rewrite <- app_assoc.
Qed.

Lemma addAllDependencies_spec (metas : list EntityMetadata) (calc : t) :
  nodes (fold_left addDependencies metas calc) = nodes calc
  /\ edges (fold_left addDependencies metas calc)
     = edges calc
       ++ List.flat_map
            (fun meta => List.flat_map (dependencyOf (nodes calc) meta) (props meta)) metas.
Proof.
  revert calc. induction metas as [|m metas IH]; intros calc; cbn [fold_left flat_map].
  - by rewrite app_nil_r.
  - destruct (addDependencies_spec calc m) as [Hn He]. destruct (IH (addDependencies calc m)) as [IHn IHe].
    rewrite IHn, IHe, Hn, He. split; [done|]. by rewrite <- app_assoc.
Qed.

Lemma addNodes_spec (metas : list EntityMetadata) (calc : t) :
  edges (fold_left (fun c meta => addNode (meta_name meta) c) metas calc) = edges calc
  /\ forall n,
       In n (nodes (fold_left (fun c meta => addNode (meta_name meta) c) metas calc))
       <-> In n (nodes calc) \/ exists meta, In meta metas /\ meta_name meta = n.
Proof.
  revert calc. induction metas as [|m metas IH]; intros calc; cbn [fold_left].
  - split; [done|]. intros n. split; [tauto|]. by intros [?|(? & [] & _)].
  - destruct (IH (addNode (meta_name m) calc)) as [IHe IHn]. split.
    + rewrite IHe. unfold addNode. by destruct (hasNode _ _).
    + intros n. rewrite IHn. unfold addNode.
      destruct (hasNode (meta_name m) calc) eqn:Eh.
      * apply includes_In in Eh. split.
        -- intros [?|(meta & ? & ?)]; [tauto|]. right. exists meta. split; [by right|done].
        -- intros [?|(meta & [->|?] & <-)]; [tauto | tauto |]. right. by exists meta.
      * cbn [nodes]. rewrite in_app_iff. cbn. split.
        -- intros [[?|[<-|[]]]|(meta & ? & ?)]; [tauto | |].
           ++ right. exists m. split; [by left | done].
           ++ right. exists meta. split; [by right | done].
        -- intros [?|(meta & [->|?] & <-)]; [tauto | tauto |]. right. by exists meta.
Qed.

(** The graph [getOrderedMetadata] hands to the calculator: a node per root
    entity, and per owning to-one property whose target is a node a
    dependency of weight 0 when the property is nullable and 1 otherwise. *)
Lemma commitGraph_spec (ms : MetadataStorage) :
  (forall n, In n (nodes (commitGraph ms))
             <-> exists meta, In meta (rootEntities ms) /\ meta_name meta = n)
  /\ forall e, In e (edges (commitGraph ms))
       <-> exists meta prop,
             In meta (rootEntities ms) /\ In prop (props meta)
             /\ isOwningToOne prop = true
             /\ hasNode (type prop) (commitGraph ms) = true
             /\ e = mkEdge (type prop) (meta_name meta) (if nullable prop then 0 else 1).
Proof.
  unfold commitGraph. cbn zeta.
  set (calc := fold_left (fun c meta => addNode (meta_name meta) c) (rootEntities ms) empty).
  destruct (addNodes_spec (rootEntities ms) empty) as [He Hn]. fold calc in He, Hn.
  destruct (addAllDependencies_spec (rev (rootEntities ms)) calc) as [Hn' He'].
  split.
  - intros n. rewrite Hn', Hn. cbn. split; [by intros [[]|?] | tauto].
  - intros e. unfold hasNode. rewrite He', Hn', He. cbn [edges empty app].
    rewrite in_flat_map. split.
    + intros (meta & Hm & Hin). apply in_flat_map in Hin as (prop & Hp & Hd).
      unfold dependencyOf in Hd.
      destruct (Js.includes (type prop) (nodes calc)) eqn:Ei; [|done].
      destruct (isOwningToOne prop) eqn:Eo; [|done]. destruct Hd as [<-|[]].
      exists meta, prop. repeat split; try done. by apply in_rev.
    + intros (meta & prop & Hm & Hp & Ho & Hh & ->).
      exists meta. split; [by apply in_rev in Hm|]. apply in_flat_map.
      exists prop. split; [done|]. unfold dependencyOf. rewrite Hh, Ho. by left.
Qed.

Lemma commitGraph_wellFormed (ms : MetadataStorage) : wellFormed (commitGraph ms).
Proof.
  destruct (commitGraph_spec ms) as [Hn He]. intros e Hin.
  apply He in Hin as (meta & prop & Hm & Hp & Ho & Hh & ->). cbn. split.
  - by apply includes_In.
  - apply Hn. by exists meta.
Qed.

(** C1: every dependency registered for the commit order comes from an
    owning to-one property of a root entity and weighs 0 when the property is
    nullable and 1 when it is required; when the dependency graph has no
    cycle, [getOrderedMetadata] returns the entities in an order in which
    [B] comes before [A] for every required owning to-one property of [A]
    that targets [B]; a cycle of required dependencies makes it fail with
    the dependency error. *)
Theorem commit_order (ms : MetadataStorage) :
  (forall e, In e (edges (commitGraph ms))
     <-> exists meta prop,
           In meta (rootEntities ms) /\ In prop (props meta)
           /\ isOwningToOne prop = true
           /\ hasNode (type prop) (commitGraph ms) = true
           /\ e = mkEdge (type prop) (meta_name meta) (if nullable prop then 0 else 1))
  /\ (acyclic (edges (commitGraph ms)) ->
      exists order,
        sort (commitGraph ms) = Sorted order
        /\ getOrderedMetadata ms = Sorted (List.map (fun cls => find cls ms) order)
        /\ forall A B prop,
             In A (rootEntities ms) -> In B (rootEntities ms) ->
             In prop (props A) -> isOwningToOne prop = true ->
             type prop = meta_name B -> nullable prop = false ->
             precedes (meta_name B) (meta_name A) order)
  /\ ((exists x, path (requiredEdges (edges (commitGraph ms))) x x) ->
      getOrderedMetadata ms = SchemaDependencyError).
Proof.
  destruct (commitGraph_spec ms) as [Hn He]. split; [exact He|]. split.
  - intros Hacyclic.
    destruct (sort_acyclic (commitGraph ms)) as (order & Hsort & Hall & Hres).
    { intros x Hx. apply (Hacyclic x). eapply path_incl; [|exact Hx].
      intros e. by intros [? _]%requiredEdges_In. }
    exists order. split; [done|]. split; [unfold getOrderedMetadata; by rewrite Hsort|].
    intros A B prop HA HB Hp Ho Ht Hnull.
    assert (HnB : In (meta_name B) (nodes (commitGraph ms))) by (apply Hn; by exists B).
    assert (HnA : In (meta_name A) (nodes (commitGraph ms))) by (apply Hn; by exists A).
    apply (Hres (mkEdge (meta_name B) (meta_name A) 1)); try done.
    apply He. exists A, prop. repeat split; try done.
    + rewrite Ht. by apply includes_In.
    + by rewrite Ht, Hnull.
  - intros [x Hx]. unfold getOrderedMetadata.
    by rewrite (sort_cycle (commitGraph ms) x (commitGraph_wellFormed ms) Hx).
Qed.

End CommitGraphSpec.

Module CommitOrderExamples.
Import Metadata SchemaGenerator CommitOrderCalculator CommitGraphSpec.

Definition reference_ (n target : string) (nullable_ : bool) : EntityProperty :=
  set_nullable nullable_ (blankProperty n target MANY_TO_ONE).

Definition entity (n : string) (ps : list EntityProperty) : EntityMetadata :=
  mkMeta n n n None None false false ps [] [] ["id"] false [] [] None None None None.

(** Author 1:N Book, the book's author being required. *)
Definition library : MetadataStorage :=
  [("Book", entity "Book" [blankProperty "id" "number" SCALAR; reference_ "author" "Author" false]);
   ("Author", entity "Author" [blankProperty "id" "number" SCALAR])].

Example library_order :
  getOrderedMetadata library
  = Sorted [find "Author" library; find "Book" library].
Proof. reflexivity. Qed.

Example library_graph :
  commitGraph library = mkCalc ["Book"; "Author"] [mkEdge "Author" "Book" 1].
Proof. reflexivity. Qed.

(** Two entities that require each other, and the same with one side
    nullable. *)
Definition requiredCycle : MetadataStorage :=
  [("A", entity "A" [reference_ "b" "B" false]);
   ("B", entity "B" [reference_ "a" "A" false])].

Definition nullableCycle : MetadataStorage :=
  [("A", entity "A" [reference_ "b" "B" false]);
   ("B", entity "B" [reference_ "a" "A" true])].

Example requiredCycle_fails : getOrderedMetadata requiredCycle = SchemaDependencyError.
Proof. reflexivity. Qed.

Example nullableCycle_order :
  getOrderedMetadata nullableCycle
  = Sorted [find "B" nullableCycle; find "A" nullableCycle].
Proof. reflexivity. Qed.

Lemma library_acyclic : acyclic (edges (commitGraph library)).
Proof.
  intros x Hx. change (edges (commitGraph library)) with [mkEdge "Author" "Book" 1] in Hx.
  assert (Hfrom : forall a b, path [mkEdge "Author" "Book" 1] a b -> a = "Author" /\ b = "Book").
  { induction 1 as [e [<-|[]]|e z [<-|[]] _ [IH _]]; [done|discriminate]. }
  destruct (Hfrom x x Hx) as [-> [=]].
Qed.

Lemma commit_order_witness :
  exists order,
    getOrderedMetadata library = Sorted (List.map (fun cls => find cls library) order)
    /\ precedes "Author" "Book" order.
Proof.
  destruct (commit_order library) as (_ & Hacyclic & _).
  destruct (Hacyclic library_acyclic) as (order & _ & Hordered & Hbefore).
  exists order. split; [exact Hordered|].
  apply (Hbefore (entity "Book" [blankProperty "id" "number" SCALAR;
                                 reference_ "author" "Author" false])
                 (entity "Author" [blankProperty "id" "number" SCALAR])
                 (reference_ "author" "Author" false)).
  - by left.
  - right. by left.
  - right. by left.
  - reflexivity.
  - reflexivity.
  - reflexivity.
Defined.

End CommitOrderExamples.


(** ** What a resolution step leaves alone *)

Module StorageFrame.
Import Metadata MetadataDiscovery.

Section Frame.

(** A relation between a property before and after, such as "the same in
    these fields". *)
Variable R : EntityProperty -> EntityProperty -> Prop.
Hypothesis R_refl : forall p, R p p.
Hypothesis R_trans : forall p1 p2 p3, R p1 p2 -> R p2 p3 -> R p1 p3.

(** The storage [ms'] holds every property of [ms], related by [R]. *)
Definition keeps (ms ms' : MetadataStorage) : Prop :=
  forall e k p, getProperty ms e k = Some p ->
    exists p', getProperty ms' e k = Some p' /\ R p p'.

Lemma keeps_refl ms : keeps ms ms.
Proof. intros e k p Hp. exists p. split; [done | apply R_refl]. Qed.

Lemma keeps_trans ms1 ms2 ms3 : keeps ms1 ms2 -> keeps ms2 ms3 -> keeps ms1 ms3.
Proof.
  intros H12 H23 e k p Hp. destruct (H12 e k p Hp) as (p2 & Hp2 & Hs2).
  destruct (H23 e k p2 Hp2) as (p3 & Hp3 & Hs3).
  exists p3. split; [done | by eapply R_trans].
Qed.

Lemma keeps_update_at (ms : MetadataStorage) (e k : string)
    (f : EntityProperty -> EntityProperty) :
  (forall p, getProperty ms e k = Some p -> R p (f p)) ->
  keeps ms (updateProperty e k f ms).
Proof.
  intros Hf e' k' p Hp.
  destruct (decide (e' = e /\ k' = k)) as [[-> ->]|Hne].
  - rewrite MetadataDiscoverySpec.getProperty_update_eq, Hp. cbn. eexists. split; [done|].
    by apply Hf.
  - rewrite MetadataDiscoverySpec.getProperty_update_ne.
    + exists p. split; [done | apply R_refl].
    + destruct (decide (e' = e)); destruct (decide (k' = k)); tauto.
Qed.

Lemma keeps_update (ms : MetadataStorage) (e k : string)
    (f : EntityProperty -> EntityProperty) :
  (forall p, R p (f p)) -> keeps ms (updateProperty e k f ms).
Proof. intros Hf. apply keeps_update_at. intros p _. apply Hf. Qed.

(** The same through the resolution of field names, for a relation that
    does not look at the field names. *)
Hypothesis R_sym : forall p1 p2, R p1 p2 -> R p2 p1.
Hypothesis R_fieldNames : forall v p, R p (set_fieldNames v p).

Variable propertyToColumnName : string -> string.
Variable joinKeyColumnName : string -> string -> bool -> string.

Lemma eachPrimaryKey_keeps
    (rec : MetadataStorage -> EntityProperty -> option (MetadataStorage * EntityProperty))
    (target name_ : string) (composite : bool) (pks : list string) :
  (forall ms p ms' p', rec ms p = Some (ms', p') -> keeps ms ms' /\ R p p') ->
  forall ms ret ms' ret',
    eachPrimaryKey joinKeyColumnName rec target name_ composite pks ms ret = Some (ms', ret') ->
    keeps ms ms'.
Proof.
  intros Hrec. induction pks as [|pk pks IH]; intros ms ret ms' ret'; cbn [eachPrimaryKey].
  - intros [= <- _]. apply keeps_refl.
  - destruct (getProperty ms target pk) as [p|] eqn:Hp; [|done].
    destruct (rec ms p) as [[ms1 p']|] eqn:Hr; [|done].
    destruct (fieldNames p'); [|done]. intros Heach.
    destruct (Hrec _ _ _ _ Hr) as [Hk Hp'].
    eapply keeps_trans; [exact Hk|]. eapply keeps_trans; [|exact (IH _ _ _ _ Heach)].
    apply keeps_update_at. intros p1 Hp1.
    destruct (Hk _ _ _ Hp) as (p1' & Hp1' & Hr1). rewrite Hp1 in Hp1'. injection Hp1' as <-.
    eapply R_trans; [apply R_sym; exact Hr1 | exact Hp'].
Qed.

Lemma initFieldName_keeps (rounds : nat) :
  forall ms p ms' p',
    initFieldName propertyToColumnName joinKeyColumnName rounds ms p = Some (ms', p') ->
    keeps ms ms' /\ R p p'.
Proof.
  induction rounds as [|rounds IH]; intros ms p ms' p'; [done|]. cbn [initFieldName].
  destruct (fieldNames p) as [[|f fns]|] eqn:Hf.
  2: { intros [= <- <-]. split; [apply keeps_refl | apply R_refl]. }
  all: destruct (reference p).
  all: try (intros [= <- <-]; split; [apply keeps_refl | first [apply R_refl | apply R_fieldNames]]).
  all: try (destruct (find (type p) ms) as [meta2|]; [|done];
            destruct (eachPrimaryKey _ _ _ _ _ _ _ _) as [[ms1 ret]|] eqn:He; [|done];
            intros [= <- <-]; split; [|apply R_fieldNames];
            eapply eachPrimaryKey_keeps; [exact IH | exact He]).
  all: destruct (owner p); [|intros [= <- <-]; split; [apply keeps_refl | apply R_refl]].
  all: destruct (initManyToManyFieldName _ _ _ _) ; [|done].
  all: intros [= <- <-]; split; [apply keeps_refl | apply R_fieldNames].
Qed.

Lemma initManyToOneFieldName_keeps (rounds : nat) (ms ms' : MetadataStorage)
    (prop : EntityProperty) (name_ : string) (ret : list string) :
  initManyToOneFieldName propertyToColumnName joinKeyColumnName rounds ms prop name_
  = Some (ms', ret) ->
  keeps ms ms'.
Proof.
  unfold initManyToOneFieldName. destruct (find (type prop) ms); [|done].
  apply eachPrimaryKey_keeps. apply initFieldName_keeps.
Qed.

End Frame.

End StorageFrame.

(** ** Many-to-many fields *)

Module ManyToManySpec.
Import Metadata MetadataDiscovery.

(** The pivot table and its ordering. *)
Definition samePivot (p p' : EntityProperty) : Prop :=
  pivotTable p' = pivotTable p /\ fixedOrder p' = fixedOrder p
  /\ fixedOrderColumn p' = fixedOrderColumn p.

Lemma samePivot_refl p : samePivot p p.
Proof. by repeat split. Qed.

Lemma samePivot_sym p p' : samePivot p p' -> samePivot p' p.
Proof. unfold samePivot. intros (?&?&?). by repeat split. Qed.

Lemma samePivot_trans p1 p2 p3 : samePivot p1 p2 -> samePivot p2 p3 -> samePivot p1 p3.
Proof. unfold samePivot. intros (?&?&?) (?&?&?). repeat split; congruence. Qed.

Lemma samePivot_fieldNames v p : samePivot p (set_fieldNames v p).
Proof. by destruct p. Qed.

Abbreviation keepsPivots := (StorageFrame.keeps samePivot).

Section Fields.
Variable propertyToColumnName : string -> string.
Variable joinKeyColumnName : string -> string -> bool -> string.
Variable joinTableName : string -> string -> string -> string.

Abbreviation initFields :=
  (initManyToManyFields propertyToColumnName joinKeyColumnName joinTableName).

(** The steps after the pivot table is settled do not touch it. *)
Lemma later_steps_keep_pivots (rounds : nat) (ms2 ms' : MetadataStorage)
    (entity key : string) :
  (meta' ← find entity ms2;
   let ms3 :=
     updateProperty entity key
       (fun p =>
          match referencedColumnNames p with
          | None => set_referencedColumnNames (Some (primaryKeyFieldNames meta')) p
          | Some _ => p
          end) ms2 in
   let ms4 :=
     updateProperty entity key
       (fun p =>
          match joinColumns p with
          | None =>
              set_joinColumns
                (Some (List.map
                         (fun referencedColumnName =>
                            joinKeyColumnName (tableNameOf meta') referencedColumnName
                              (compositePK meta'))
                         (Js.arr (referencedColumnNames p)))) p
          | Some _ => p
          end) ms3 in
   prop4 ← getProperty ms4 entity key;
   match inverseJoinColumns prop4 with
   | Some _ => Some ms4
   | None =>
       target ← find (type prop4) ms4;
       '(ms5, ret) ← initManyToOneFieldName propertyToColumnName joinKeyColumnName
                        rounds ms4 prop4 (tableNameOf target);
       Some (updateProperty entity key (set_inverseJoinColumns (Some ret)) ms5)
   end) = Some ms' ->
  keepsPivots ms2 ms'.
Proof.
  destruct (find entity ms2) as [meta'|]; cbn [mbind option_bind]; [|done].
  cbn zeta.
  set (ms3 := updateProperty entity key _ ms2).
  set (ms4 := updateProperty entity key _ ms3).
  assert (H3 : keepsPivots ms2 ms3).
  { apply StorageFrame.keeps_update; [apply samePivot_refl|].
    intros p. destruct p; cbn. destruct referencedColumnNames0; by repeat split. }
  assert (H4 : keepsPivots ms3 ms4).
  { apply StorageFrame.keeps_update; [apply samePivot_refl|].
    intros p. destruct p; cbn. destruct joinColumns0; by repeat split. }
  assert (H24 : keepsPivots ms2 ms4).
  { eapply StorageFrame.keeps_trans; [apply samePivot_trans | exact H3 | exact H4]. }
  destruct (getProperty ms4 entity key) as [prop4|]; cbn [mbind option_bind]; [|done].
  destruct (inverseJoinColumns prop4).
  - by intros [= <-].
  - destruct (find (type prop4) ms4) as [target|]; cbn [mbind option_bind]; [|done].
    destruct (initManyToOneFieldName _ _ _ _ _ _) as [[ms5 ret]|] eqn:H5;
      cbn [mbind option_bind]; [|done].
    intros [= <-].
    eapply StorageFrame.keeps_trans; [apply samePivot_trans | exact H24 |].
    eapply StorageFrame.keeps_trans; [apply samePivot_trans | |].
    + eapply StorageFrame.initManyToOneFieldName_keeps; [| | | |exact H5].
      * apply samePivot_refl.
      * apply samePivot_trans.
      * apply samePivot_sym.
      * apply samePivot_fieldNames.
    + apply StorageFrame.keeps_update; [apply samePivot_refl|]. by intros [].
Qed.

(** X1: the inverse side mirrors the owner: after [initManyToManyFields] on a
    property that is mapped by another one, the two carry the same pivot
    table, the same fixed-order flag and the same fixed-order column. *)
Theorem inverse_side_mirrors_the_owner (rounds : nat) (ms ms' : MetadataStorage)
    (entity key mapped : string) (meta : EntityMetadata) (prop : EntityProperty) :
  find entity ms = Some meta ->
  Js.get key (properties meta) = Some prop ->
  truthyString (mappedBy prop) = Some mapped ->
  entity <> type prop \/ key <> mapped ->
  initFields rounds ms entity key = Some ms' ->
  exists p' p2',
    getProperty ms' entity key = Some p'
    /\ getProperty ms' (type prop) mapped = Some p2'
    /\ pivotTable p' = pivotTable p2'
    /\ fixedOrder p' = fixedOrder p2'
    /\ fixedOrderColumn p' = fixedOrderColumn p2'.
Proof.
  intros Hmeta Hprop Hmapped Hne. destruct rounds as [|rounds]; [done|].
  cbn [initManyToManyFields]. rewrite Hmeta. cbn [mbind option_bind].
  rewrite Hprop. cbn [mbind option_bind].
  destruct (find (type prop) ms) as [meta2|]; cbn [mbind option_bind]; [|done].
  rewrite Hmapped.
  destruct (initManyToManyFields _ _ _ rounds _ (type prop) mapped) as [msr|];
    cbn [mbind option_bind]; [|done].
  destruct (getProperty msr (type prop) mapped) as [prop2|] eqn:Hprop2;
    cbn [mbind option_bind]; [|done].
  set (ms2 := updateProperty entity key _ msr).
  intros Hrest.
  assert (Hlater : keepsPivots ms2 ms').
  { eapply later_steps_keep_pivots. exact Hrest. }
  assert (Hother : getProperty ms2 (type prop) mapped = Some prop2).
  { subst ms2. rewrite MetadataDiscoverySpec.getProperty_update_ne; [done|].
    destruct Hne; [left | right]; congruence. }
  assert (exists q, getProperty ms2 entity key = Some q /\ samePivot prop2 q)
    as (q & Hq & Hsame).
  { subst ms2. rewrite MetadataDiscoverySpec.getProperty_update_eq.
    destruct (getProperty msr entity key) as [pr|] eqn:Hpr.
    - eexists. split; [done|]. by destruct pr.
    - exfalso. revert Hrest.
      destruct (find entity (updateProperty entity key _ msr)) as [meta'|];
        cbn [mbind option_bind]; [|done].
      cbn zeta. rewrite !MetadataDiscoverySpec.getProperty_update_eq, Hpr. done. }
  destruct (Hlater _ _ _ Hq) as (p' & Hp' & Hs1).
  destruct (Hlater _ _ _ Hother) as (p2' & Hp2' & Hs2).
  exists p', p2'. split; [done|]. split; [done|].
  destruct Hsame as (?&?&?), Hs1 as (?&?&?), Hs2 as (?&?&?). repeat split; congruence.
Qed.

(** The pivot table of an owning side, once the call has returned. *)
Lemma owner_pivot_table_returned (rounds : nat) (ms ms' : MetadataStorage)
    (entity key : string) (meta meta2 : EntityMetadata) (prop : EntityProperty) :
  find entity ms = Some meta ->
  Js.get key (properties meta) = Some prop ->
  find (type prop) ms = Some meta2 ->
  owner prop = true ->
  truthyString (mappedBy prop) = None ->
  initFields rounds ms entity key = Some ms' ->
  exists p',
    getProperty ms' entity key = Some p'
    /\ pivotTable p'
       = match truthyString (pivotTable prop) with
         | Some _ => pivotTable prop
         | None => Some (joinTableName (collection meta) (collection meta2) (name prop))
         end.
Proof.
  intros Hmeta Hprop Hmeta2 Hown Hmapped. destruct rounds as [|rounds]; [done|].
  cbn [initManyToManyFields]. rewrite Hmeta. cbn [mbind option_bind].
  rewrite Hprop. cbn [mbind option_bind]. rewrite Hmeta2. cbn [mbind option_bind].
  rewrite Hmapped. cbn [mbind option_bind].
  set (ms1 := updateProperty entity key _ ms). intros Hrest.
  pose proof (later_steps_keep_pivots _ _ _ _ _ Hrest) as Hlater.
  assert (Hq : getProperty ms1 entity key = Some (initPivotTable joinTableName meta meta2 prop)).
  { subst ms1. rewrite MetadataDiscoverySpec.getProperty_update_eq.
    unfold getProperty. rewrite Hmeta. cbn. by rewrite Hprop. }
  destruct (Hlater _ _ _ Hq) as (p' & Hp' & (Hpivot & _)).
  exists p'. split; [done|]. rewrite Hpivot.
  unfold initPivotTable. destruct prop; cbn in *. subst.
  destruct fixedOrder0; cbn; destruct (truthyString pivotTable0); reflexivity.
Qed.

(** What an entity keeps when a property of it is updated without a change
    to field names: its table, its keys and the field names of its
    properties. *)
Definition sameKeys (m m' : EntityMetadata) : Prop :=
  collection m' = collection m /\ compositePK m' = compositePK m
  /\ primaryKeys m' = primaryKeys m
  /\ forall k, fieldNames <$> Js.get k (properties m') = fieldNames <$> Js.get k (properties m).

Lemma sameKeys_refl m : sameKeys m m.
Proof. by repeat split. Qed.

Lemma sameKeys_trans m1 m2 m3 : sameKeys m1 m2 -> sameKeys m2 m3 -> sameKeys m1 m3.
Proof.
  unfold sameKeys. intros (?&?&?&Ha) (?&?&?&Hb). repeat split; try congruence.
  all: intros k; by rewrite Hb, Ha.
Qed.

Lemma find_updateProperty_sameKeys (ms : MetadataStorage) (e k e' : string)
    (f : EntityProperty -> EntityProperty) (m : EntityMetadata) :
  (forall p, fieldNames (f p) = fieldNames p) ->
  find e' ms = Some m ->
  exists m', find e' (updateProperty e k f ms) = Some m' /\ sameKeys m m'.
Proof.
  intros Hf Hm. unfold updateProperty. destruct (decide (e' = e)) as [->|He].
  - rewrite MetadataDiscoverySpec.find_updateMeta_eq, Hm. cbn. eexists. split; [done|].
    destruct (Js.get k (properties m)) as [p|] eqn:Hp; [|apply sameKeys_refl].
    destruct m; cbn in *. repeat split. intros k'. cbn [properties].
    destruct (String.eqb_spec k' k) as [->|Hne].
    + by rewrite MetadataDiscoverySpec.get_set_eq, Hp; cbn; rewrite Hf.
    + by rewrite MetadataDiscoverySpec.get_set_ne.
  - rewrite MetadataDiscoverySpec.find_updateMeta_ne by done. exists m.
    split; [done | apply sameKeys_refl].
Qed.

Lemma primaryKeyFieldNames_sameKeys (m m' : EntityMetadata) :
  sameKeys m m' -> primaryKeyFieldNames m' = primaryKeyFieldNames m.
Proof.
  intros (_ & _ & Hpk & Hfields). unfold primaryKeyFieldNames. rewrite Hpk.
  apply List.flat_map_ext. intros pk. specialize (Hfields pk).
  destruct (Js.get pk (properties m')), (Js.get pk (properties m)); cbn in Hfields;
    congruence.
Qed.

Lemma tableNameOf_sameKeys (m m' : EntityMetadata) :
  sameKeys m m' -> tableNameOf m' = tableNameOf m.
Proof. intros (Hc & _). unfold tableNameOf. by rewrite Hc. Qed.

Lemma resolvedPrimaryKeys_sameKeys (m m' : EntityMetadata) :
  sameKeys m m' ->
  MetadataDiscoverySpec.resolvedPrimaryKeys m -> MetadataDiscoverySpec.resolvedPrimaryKeys m'.
Proof.
  intros (_ & _ & Hpk & Hfields) Hres pk Hin. rewrite Hpk in Hin.
  destruct (Hres pk Hin) as (p & f & fns & Hp & Hf). specialize (Hfields pk).
  rewrite Hp in Hfields. cbn in Hfields.
  destruct (Js.get pk (properties m')) as [p'|]; [|done]. cbn in Hfields.
  exists p', f, fns. split; [done | congruence].
Qed.

(** A property that is not mapped by another one is resolved in two rounds
    when the primary keys of its target have their field names: the call
    returns. *)
Lemma unmapped_side_returns (rounds : nat) (ms : MetadataStorage)
    (entity key : string) (meta meta2 : EntityMetadata) (prop : EntityProperty) :
  find entity ms = Some meta ->
  Js.get key (properties meta) = Some prop ->
  find (type prop) ms = Some meta2 ->
  truthyString (mappedBy prop) = None ->
  MetadataDiscoverySpec.resolvedPrimaryKeys meta2 ->
  exists ms', initFields (S (S rounds)) ms entity key = Some ms'.
Proof.
  intros Hmeta Hprop Hmeta2 Hmapped Hres.
  cbn [initManyToManyFields]. rewrite Hmeta. cbn [mbind option_bind].
  rewrite Hprop. cbn [mbind option_bind]. rewrite Hmeta2. cbn [mbind option_bind].
  rewrite Hmapped. cbn [mbind option_bind].
  set (f1 := initPivotTable joinTableName meta meta2).
  assert (Hf1 : forall p, fieldNames (f1 p) = fieldNames p /\ type (f1 p) = type p).
  { intros p. subst f1. unfold initPivotTable. destruct p; cbn.
    destruct fixedOrder0; cbn; destruct (truthyString pivotTable0); cbn;
      try destruct owner0; done. }
  destruct (find_updateProperty_sameKeys ms entity key entity f1 meta
              (fun p => proj1 (Hf1 p)) Hmeta) as (meta1 & Hmeta1 & _).
  rewrite Hmeta1. cbn [mbind option_bind]. cbn zeta.
  set (ms1 := updateProperty entity key f1 ms).
  set (f3 := fun p => match referencedColumnNames p with
                      | None => set_referencedColumnNames (Some (primaryKeyFieldNames meta1)) p
                      | Some _ => p
                      end).
  set (f4 := fun p => match joinColumns p with
                      | None => set_joinColumns _ p
                      | Some _ => p
                      end).
  set (ms3 := updateProperty entity key f3 ms1).
  set (ms4 := updateProperty entity key f4 ms3).
  assert (Hf3 : forall p, fieldNames (f3 p) = fieldNames p /\ type (f3 p) = type p).
  { intros p. subst f3. destruct p; cbn. by destruct referencedColumnNames0. }
  assert (Hf4 : forall p, fieldNames (f4 p) = fieldNames p /\ type (f4 p) = type p).
  { intros p. subst f4. destruct p; cbn. by destruct joinColumns0. }
  assert (Hgp : getProperty ms entity key = Some prop).
  { unfold getProperty. rewrite Hmeta. exact Hprop. }
  assert (Hp4 : getProperty ms4 entity key = Some (f4 (f3 (f1 prop)))).
  { subst ms4 ms3 ms1. by rewrite !MetadataDiscoverySpec.getProperty_update_eq, Hgp. }
  rewrite Hp4. cbn [mbind option_bind].
  destruct (inverseJoinColumns (f4 (f3 (f1 prop)))); [by eexists|].
  assert (Hty : type (f4 (f3 (f1 prop))) = type prop).
  { by rewrite (proj2 (Hf4 _)), (proj2 (Hf3 _)), (proj2 (Hf1 _)). }
  rewrite Hty.
  destruct (find_updateProperty_sameKeys ms entity key (type prop) f1 meta2
              (fun p => proj1 (Hf1 p)) Hmeta2) as (t1 & Ht1 & Hk1).
  destruct (find_updateProperty_sameKeys ms1 entity key (type prop) f3 t1
              (fun p => proj1 (Hf3 p)) Ht1) as (t3 & Ht3 & Hk3).
  destruct (find_updateProperty_sameKeys ms3 entity key (type prop) f4 t3
              (fun p => proj1 (Hf4 p)) Ht3) as (t4 & Ht4 & Hk4).
  fold ms3 in Ht3. fold ms4 in Ht4.
  assert (Hk : sameKeys meta2 t4).
  { eapply sameKeys_trans; [exact Hk1|]. eapply sameKeys_trans; [exact Hk3 | exact Hk4]. }
  rewrite Ht4. cbn [mbind option_bind].
  unfold initManyToOneFieldName. rewrite Hty, Ht4.
  rewrite (MetadataDiscoverySpec.eachPrimaryKey_resolved propertyToColumnName
             joinKeyColumnName rounds ms4 (type prop) (tableNameOf t4) (compositePK t4)
             t4 (primaryKeys t4) [] Ht4 (resolvedPrimaryKeys_sameKeys _ _ Hk Hres)).
  cbn [mbind option_bind]. by eexists.
Qed.

(** X2: an owning many-to-many property without [mappedBy], whose target
    has the field names of its primary keys, is resolved in two rounds, and
    its pivot table is then the name it declares, or else the name the
    naming strategy derives from the two tables and the property. *)
Theorem owner_pivot_table_is_declared_or_derived (rounds : nat) (ms : MetadataStorage)
    (entity key : string) (meta meta2 : EntityMetadata) (prop : EntityProperty) :
  find entity ms = Some meta ->
  Js.get key (properties meta) = Some prop ->
  find (type prop) ms = Some meta2 ->
  owner prop = true ->
  truthyString (mappedBy prop) = None ->
  MetadataDiscoverySpec.resolvedPrimaryKeys meta2 ->
  exists ms' p',
    initFields (S (S rounds)) ms entity key = Some ms'
    /\ getProperty ms' entity key = Some p'
    /\ pivotTable p'
       = match truthyString (pivotTable prop) with
         | Some _ => pivotTable prop
         | None => Some (joinTableName (collection meta) (collection meta2) (name prop))
         end.
Proof.
  intros Hmeta Hprop Hmeta2 Hown Hmapped Hres.
  destruct (unmapped_side_returns rounds ms entity key meta meta2 prop
              Hmeta Hprop Hmeta2 Hmapped Hres) as (ms' & Hinit).
  destruct (owner_pivot_table_returned _ _ _ _ _ _ _ _ Hmeta Hprop Hmeta2 Hown Hmapped Hinit)
    as (p' & Hp' & Hpivot).
  by exists ms', p'.
Qed.

(** X3: why a self-referencing relation needs its columns told apart: for a
    many-to-many property of an entity onto itself that is not mapped by
    another property and names no columns, the join columns and the inverse
    join columns are derived from the same table name and the same
    primary-key field names, so the two lists are the same. *)
Theorem self_reference_derives_the_same_columns (rounds : nat) (ms : MetadataStorage)
    (entity key : string) (meta : EntityMetadata) (prop : EntityProperty) :
  find entity ms = Some meta ->
  Js.get key (properties meta) = Some prop ->
  type prop = entity ->
  truthyString (mappedBy prop) = None ->
  referencedColumnNames prop = None ->
  joinColumns prop = None ->
  inverseJoinColumns prop = None ->
  MetadataDiscoverySpec.resolvedPrimaryKeys meta ->
  exists ms' p',
    initFields (S (S rounds)) ms entity key = Some ms'
    /\ getProperty ms' entity key = Some p'
    /\ joinColumns p'
       = Some (List.map (fun f => joinKeyColumnName (tableNameOf meta) f (compositePK meta))
                        (primaryKeyFieldNames meta))
    /\ inverseJoinColumns p' = joinColumns p'.
Proof.
  intros Hmeta Hprop Hself Hmapped Href Hjc Hinv Hres.
  cbn [initManyToManyFields]. rewrite Hmeta. cbn [mbind option_bind].
  rewrite Hprop. cbn [mbind option_bind]. rewrite Hself, Hmeta. cbn [mbind option_bind].
  rewrite Hmapped. cbn [mbind option_bind].
  set (f1 := initPivotTable joinTableName meta meta).
  assert (Hf1 : forall p, fieldNames (f1 p) = fieldNames p
                          /\ referencedColumnNames (f1 p) = referencedColumnNames p
                          /\ joinColumns (f1 p) = joinColumns p
                          /\ inverseJoinColumns (f1 p) = inverseJoinColumns p
                          /\ type (f1 p) = type p).
  { intros p. subst f1. unfold initPivotTable. destruct p; cbn.
    destruct fixedOrder0; cbn; destruct (truthyString pivotTable0); cbn;
      try destruct owner0; done. }
  destruct (find_updateProperty_sameKeys ms entity key entity f1 meta
              (fun p => proj1 (Hf1 p)) Hmeta) as (meta1 & Hmeta1 & Hk1).
  rewrite Hmeta1. cbn [mbind option_bind]. cbn zeta.
  set (ms1 := updateProperty entity key f1 ms).
  set (f3 := fun p => match referencedColumnNames p with
                      | None => set_referencedColumnNames (Some (primaryKeyFieldNames meta1)) p
                      | Some _ => p
                      end).
  set (f4 := fun p => match joinColumns p with
                      | None => set_joinColumns _ p
                      | Some _ => p
                      end).
  set (ms3 := updateProperty entity key f3 ms1).
  set (ms4 := updateProperty entity key f4 ms3).
  assert (Hgp : getProperty ms entity key = Some prop).
  { unfold getProperty. rewrite Hmeta. exact Hprop. }
  assert (Hp4 : getProperty ms4 entity key = Some (f4 (f3 (f1 prop)))).
  { subst ms4 ms3 ms1. by rewrite !MetadataDiscoverySpec.getProperty_update_eq, Hgp. }
  rewrite Hp4. cbn [mbind option_bind].
  destruct (Hf1 prop) as (_ & Href1 & Hjc1 & Hinv1 & Hty1).
  rewrite Href in Href1. rewrite Hjc in Hjc1. rewrite Hinv in Hinv1.
  set (cols := List.map (fun f => joinKeyColumnName (tableNameOf meta) f (compositePK meta))
                        (primaryKeyFieldNames meta)).
  assert (Hq : joinColumns (f4 (f3 (f1 prop))) = Some cols
               /\ inverseJoinColumns (f4 (f3 (f1 prop))) = None
               /\ type (f4 (f3 (f1 prop))) = entity).
  { subst f4 f3. cbn beta.
    rewrite Href1. destruct (f1 prop) eqn:E; cbn in *. subst.
    rewrite (primaryKeyFieldNames_sameKeys _ _ Hk1), (tableNameOf_sameKeys _ _ Hk1).
    destruct Hk1 as (_ & -> & _). done. }
  destruct Hq as (Hqj & Hqi & Hqt). rewrite Hqi, Hqt.
  assert (Hf3 : forall p, fieldNames (f3 p) = fieldNames p).
  { intros p. subst f3. destruct p; cbn. by destruct referencedColumnNames0. }
  assert (Hf4 : forall p, fieldNames (f4 p) = fieldNames p).
  { intros p. subst f4. destruct p; cbn. by destruct joinColumns0. }
  destruct (find_updateProperty_sameKeys ms1 entity key entity f3 meta1 Hf3 Hmeta1)
    as (meta3 & Hmeta3 & Hk3).
  destruct (find_updateProperty_sameKeys ms3 entity key entity f4 meta3 Hf4 Hmeta3)
    as (meta4 & Hmeta4 & Hk4).
  fold ms3 in Hmeta3. fold ms4 in Hmeta4.
  assert (Hk : sameKeys meta meta4).
  { eapply sameKeys_trans; [exact Hk1|]. eapply sameKeys_trans; [exact Hk3 | exact Hk4]. }
  rewrite Hmeta4. cbn [mbind option_bind].
  unfold initManyToOneFieldName. rewrite Hqt, Hmeta4.
  rewrite (MetadataDiscoverySpec.eachPrimaryKey_resolved propertyToColumnName
             joinKeyColumnName rounds ms4 entity (tableNameOf meta4) (compositePK meta4)
             meta4 (primaryKeys meta4) [] Hmeta4
             (resolvedPrimaryKeys_sameKeys _ _ Hk Hres)).
  cbn [mbind option_bind app].
  eexists _, _. split; [reflexivity|].
  rewrite MetadataDiscoverySpec.getProperty_update_eq, Hp4. cbn.
  split; [reflexivity|].
  fold (primaryKeyFieldNames meta4).
  rewrite (primaryKeyFieldNames_sameKeys _ _ Hk), (tableNameOf_sameKeys _ _ Hk).
  destruct Hk as (_ & -> & _). fold cols.
  assert (Hset : forall v q, joinColumns (set_inverseJoinColumns v q) = joinColumns q
                             /\ inverseJoinColumns (set_inverseJoinColumns v q) = v).
  { by intros v []. }
  destruct (Hset (Some cols) (f4 (f3 (f1 prop)))) as [-> ->]. by rewrite Hqj.
Qed.

End Fields.

(** *** Examples: books with tags, and people with friends *)

Definition joinTableOf (sourceEntity targetEntity propertyName : string) : string :=
  sourceEntity +:+ "_" +:+ propertyName.

Definition idProperty : EntityProperty :=
  set_fieldNames (Some ["id"]) (blankProperty "id" "number" SCALAR).

Definition tagsOfBook : EntityProperty :=
  mkProp "tags" "Tag" MANY_TO_MANY true false false true false false false false None
    false Unset Unset [] None None None None None None None None None (Some "books").

Definition booksOfTag : EntityProperty :=
  mkProp "books" "Book" MANY_TO_MANY false false false true false false false false None
    false Unset Unset [] None None None None None None None None (Some "tags") None.

Definition friendsOfPerson : EntityProperty :=
  mkProp "friends" "Person" MANY_TO_MANY true false false true false false false false None
    false Unset Unset [] None None None None None None None None None None.

Definition entityOf (entityName table : string) (relation : EntityProperty)
    : EntityMetadata :=
  mkMeta entityName entityName table None None false false [idProperty; relation]
    [relation] [("id", idProperty); (name relation, relation)] ["id"] false [] [] None None
    None None.

Definition library : MetadataStorage :=
  [("Book", entityOf "Book" "book" tagsOfBook);
   ("Tag", entityOf "Tag" "tag" booksOfTag);
   ("Person", entityOf "Person" "person" friendsOfPerson)].

Definition initExample : nat -> MetadataStorage -> string -> string -> option MetadataStorage :=
  initManyToManyFields (fun s => s) MetadataDiscoverySpec.underscoreJoinKey joinTableOf.

Lemma inverse_side_mirrors_the_owner_witness :
  exists ms' p' p2',
    initExample 3 library "Tag" "books" = Some ms'
    /\ getProperty ms' "Tag" "books" = Some p'
    /\ getProperty ms' "Book" "tags" = Some p2'
    /\ pivotTable p' = pivotTable p2'
    /\ pivotTable p' = Some "book_tags".
Proof.
  destruct (initExample 3 library "Tag" "books") as [ms'|] eqn:Hinit;
    [|by vm_compute in Hinit].
  destruct (inverse_side_mirrors_the_owner (fun s => s)
              MetadataDiscoverySpec.underscoreJoinKey joinTableOf 3 library ms' "Tag"
              "books" "tags" (entityOf "Tag" "tag" booksOfTag) booksOfTag eq_refl eq_refl
              eq_refl ltac:(left; discriminate) Hinit)
    as (p' & p2' & Hp' & Hp2' & Hpivot & _).
  exists ms', p', p2'. repeat split; [exact Hp' | exact Hp2' | exact Hpivot |].
  vm_compute in Hinit. injection Hinit as <-.
  vm_compute in Hp'. injection Hp' as <-. reflexivity.
Defined.

Lemma owner_pivot_table_is_declared_or_derived_witness :
  exists ms' p',
    initExample 2 library "Book" "tags" = Some ms'
    /\ getProperty ms' "Book" "tags" = Some p'
    /\ pivotTable p' = Some "book_tags".
Proof.
  assert (Hres : MetadataDiscoverySpec.resolvedPrimaryKeys
                   (entityOf "Tag" "tag" booksOfTag)).
  { intros pk [<-|[]]. eexists _, _, _. split; reflexivity. }
  destruct (owner_pivot_table_is_declared_or_derived (fun s => s)
              MetadataDiscoverySpec.underscoreJoinKey joinTableOf 0 library "Book"
              "tags" (entityOf "Book" "book" tagsOfBook) (entityOf "Tag" "tag" booksOfTag)
              tagsOfBook eq_refl eq_refl eq_refl eq_refl eq_refl Hres)
    as (ms' & p' & Hinit & Hp' & Hpivot).
  exists ms', p'. repeat split; [exact Hinit | exact Hp' | exact Hpivot].
Defined.

Lemma self_reference_derives_the_same_columns_witness :
  exists ms' p',
    initExample 2 library "Person" "friends" = Some ms'
    /\ getProperty ms' "Person" "friends" = Some p'
    /\ joinColumns p' = Some ["person_id"]
    /\ inverseJoinColumns p' = Some ["person_id"].
Proof.
  assert (Hres : MetadataDiscoverySpec.resolvedPrimaryKeys
                   (entityOf "Person" "person" friendsOfPerson)).
  { intros pk [<-|[]]. eexists _, _, _. split; reflexivity. }
  destruct (self_reference_derives_the_same_columns (fun s => s)
              MetadataDiscoverySpec.underscoreJoinKey joinTableOf 0 library "Person"
              "friends" (entityOf "Person" "person" friendsOfPerson) friendsOfPerson
              eq_refl eq_refl eq_refl eq_refl eq_refl eq_refl eq_refl Hres)
    as (ms' & p' & Hinit & Hp' & Hjoin & Hinverse).
  exists ms', p'. repeat split; [exact Hinit | exact Hp' | exact Hjoin |].
  rewrite Hinverse. exact Hjoin.
Defined.

End ManyToManySpec.

(** ** Conditions: null, unknown operators, [$and] and several operators *)

Module ConditionSpec.
Import Metadata QueryBuilderHelper.

Lemma forEachM_app {E A B} (f : A -> Js.Completion E (list B)) (l1 l2 : list A) :
  Js.forEachM f (l1 ++ l2)
  = match Js.forEachM f l1 with
    | Js.Throw e => Js.Throw e
    | Js.Normal ys =>
        match Js.forEachM f l2 with
        | Js.Throw e => Js.Throw e
        | Js.Normal zs => Js.Normal (ys ++ zs)
        end
    end.
Proof.
  induction l1 as [|x l1 IH]; cbn [app Js.forEachM].
  - by destruct (Js.forEachM f l2).
  - destruct (f x) as [ys|e]; [|done]. rewrite IH.
    destruct (Js.forEachM f l1) as [ys1|e]; [|done].
    destruct (Js.forEachM f l2) as [zs|e]; [|done]. by rewrite app_assoc.
Qed.

Lemma forEachM_ext {E A B} (f g : A -> Js.Completion E (list B)) (l : list A) :
  (forall x, In x l -> f x = g x) -> Js.forEachM f l = Js.forEachM g l.
Proof.
  induction l as [|x l IH]; intros H; cbn [Js.forEachM]; [done|].
  rewrite (H x) by (by left). rewrite IH; [done|]. intros y Hy. apply H. by right.
Qed.

(** One throwing element makes the whole loop throw, when [e] is the only
    error the body can throw. *)
Lemma forEachM_throws {E A B} (f : A -> Js.Completion E (list B)) (l : list A) (e : E) :
  (forall x e', f x = Js.Throw e' -> e' = e) ->
  (exists x, In x l /\ f x = Js.Throw e) ->
  Js.forEachM f l = Js.Throw e.
Proof.
  intros Honly (x & Hin & Hx). induction l as [|y l IH]; [destruct Hin|].
  cbn [Js.forEachM]. destruct (f y) as [ys|e'] eqn:Ey.
  - destruct Hin as [->|Hin]; [congruence|]. by rewrite IH.
  - f_equal. by eapply Honly.
Qed.

Section Conditions.
Variable QueryType : Type.
Variable mapper : string -> QueryType -> Value -> Ref.
Variable subQueries : Js.Dictionary string.
Variable inheritedText : string -> string.
Variable QueryOperator : Js.Dictionary string.
Variable isOperator : string -> bool.
Variable splitPrimaryKeys : string -> list string.
Variable asArray : Value -> list Value.
Variable isObject : Value -> bool.
Variable stringify : Value -> string.
Variable getRegExpOperator : string.
Variable requiresValuesKeyword : bool.
Variable getFullTextWhereClause : string.
Variable tableName : string.

Abbreviation compile :=
  (appendQueryCondition QueryType mapper subQueries inheritedText QueryOperator isOperator
     splitPrimaryKeys asArray isObject stringify getRegExpOperator
     requiresValuesKeyword getFullTextWhereClause tableName).

Abbreviation operatorClause :=
  (processOperator QueryType mapper subQueries inheritedText QueryOperator splitPrimaryKeys
     getRegExpOperator requiresValuesKeyword getFullTextWhereClause tableName).

(** A key that is a field: not one of [$and], [$or] and [$not]. *)
Definition isFieldKey (k : string) : bool :=
  match groupOperatorOf k with
  | Some _ => false
  | None => negb (String.eqb k "$not")
  end.

(** The condition [{ [k]: v }] on a field goes to [appendQuerySubCondition]. *)
Lemma compile_field (type : QueryType) (k : string) (v : Value)
    (operator : option GroupOperator) (method : Method) :
  isFieldKey k = true ->
  compile type (VObj [(k, v)]) operator method
  = appendQuerySubCondition QueryType mapper subQueries inheritedText QueryOperator splitPrimaryKeys
      asArray isObject stringify getRegExpOperator requiresValuesKeyword
      getFullTextWhereClause tableName type method k v operator.
Proof.
  unfold isFieldKey. intros Hk. cbn [appendQueryCondition].
  rewrite QueryBuilderHelperSpec.forEachM_single.
  destruct (groupOperatorOf k); [done|].
  apply negb_true_iff in Hk. by rewrite Hk.
Qed.

Lemma find_missing_key (k : string) (v : Value) (ops : list string) :
  ~ In k ops -> List.find (fun op => Js.has op [(k, v)]) ops = None.
Proof.
  induction ops as [|o ops IH]; intros Hn; [done|].
  cbn [List.find]. unfold Js.has at 1. cbn [Js.get].
  destruct (String.eqb o k) eqn:E.
  - apply String.eqb_eq in E. subst. destruct Hn. by left.
  - apply IH. intros H. apply Hn. by right.
Qed.

Lemma operatorClause_throws (key : string) (v : Value) (m : Method) (type : QueryType)
    (e : Error) :
  operatorClause key v m type = Js.Throw e -> e = InvalidQueryCondition.
Proof.
  unfold processOperator. destruct (List.find _ _); [|congruence].
  destruct (subQuery subQueries inheritedText key); [done|]. by destruct (String.eqb _ _).
Qed.

(** X4: comparing with [null], for a field key that is no custom expression
    and for which [this.subQueries[k]] reads falsy: [{ k: null }] compiles
    to [k is null], and the operators [$eq] and [$ne] with a [null] operand
    become [is] and [is not]. *)
Theorem null_is_compared_with_is (type : QueryType) (k : string)
    (operator : option GroupOperator) (method : Method) :
  isFieldKey k = true ->
  isCustomExpression k = false ->
  subQuery subQueries inheritedText k = None ->
  let m := match operator with Some or_ => orWhere | _ => method end in
  compile type (VObj [(k, VNull)]) operator method
  = Js.Normal [Where m (mapper k type VNull) "is" (Val VNull)]
  /\ (In "$eq" (Js.keys QueryOperator) ->
      compile type (VObj [(k, VObj [("$eq", VNull)])]) operator method
      = Js.Normal [Where m (mapper k type VUndefined) "is" (Val VNull)])
  /\ (In "$ne" (Js.keys QueryOperator) ->
      compile type (VObj [(k, VObj [("$ne", VNull)])]) operator method
      = Js.Normal [Where m (mapper k type VUndefined) "is not" (Val VNull)]).
Proof.
  intros Hk Hcustom Hsub m. rewrite !compile_field by done.
  unfold appendQuerySubCondition. cbn [isSimpleRegExp isPlainObject orb isNull].
  rewrite Hcustom, Hsub. split; [done|].
  unfold processObjectSubCondition. cbn [getObjectKeysSize length Nat.ltb Nat.leb].
  unfold processOperator.
  split; intros Hop; rewrite (QueryBuilderHelperSpec.find_single_key _ _ _ Hop);
    cbn [Js.get String.eqb Ascii.eqb Bool.eqb]; rewrite Hsub; reflexivity.
Qed.

(** X5: a condition on a field whose object value is empty, or has a key that
    is not an operator, throws "Invalid query condition", in every group
    context. *)
Theorem unknown_operator_is_rejected (type : QueryType) (k : string)
    (es : list (string * Value)) (operator : option GroupOperator) (method : Method) :
  isFieldKey k = true ->
  es = [] \/ (exists op, In op (Js.keys es) /\ ~ In op (Js.keys QueryOperator)) ->
  compile type (VObj [(k, VObj es)]) operator method = Js.Throw InvalidQueryCondition.
Proof.
  intros Hk Hes. rewrite compile_field by done.
  unfold appendQuerySubCondition. cbn [isSimpleRegExp isPlainObject orb].
  unfold processObjectSubCondition. cbn [getObjectKeysSize].
  destruct Hes as [->|(op & Hin & Hmiss)].
  - cbn. unfold processOperator.
    assert (List.find (fun op => Js.has op (@nil (string * Value))) (Js.keys QueryOperator)
            = None) as ->; [|done].
    by induction (Js.keys QueryOperator).
  - unfold Js.keys in Hin. apply in_map_iff in Hin as ([op' v] & <- & Hin). cbn [fst] in Hmiss.
    assert (Hthrow : forall m, operatorClause k (VObj [(op', v)]) m type
                               = Js.Throw InvalidQueryCondition).
    { intros m. unfold processOperator. by rewrite (find_missing_key _ _ _ Hmiss). }
    destruct (1 <? length es)%nat eqn:Hlen.
    + apply forEachM_throws.
      * intros x e. apply operatorClause_throws.
      * exists (op', v). split; [done | apply Hthrow].
    + destruct es as [|e1 [|e2 es]]; [destruct Hin | | done].
      destruct Hin as [->|[]]. apply Hthrow.
Qed.

(** X6: a top-level [$and] group adds no parentheses: when no key occurs twice
    among its members, it compiles to the very clauses of the one object that
    holds the members' entries one after another. *)
Theorem and_group_is_flat (type : QueryType) (method : Method)
    (members : list (list (string * Value))) :
  List.NoDup (Js.keys (List.concat members)) ->
  compile type (VObj [("$and", VArr (List.map VObj members))]) None method
  = compile type (VObj (List.concat members)) None method.
Proof.
  intros _. cbn [appendQueryCondition]. rewrite QueryBuilderHelperSpec.forEachM_single.
  cbn [groupOperatorOf String.eqb Ascii.eqb Bool.eqb].
  unfold appendGroupCondition. rewrite orb_true_r.
  induction members as [|es members IH]; cbn [List.map List.concat Js.forEachM]; [done|].
  rewrite forEachM_app, <- IH. cbn [appendQueryCondition]. reflexivity.
Qed.

(** X7: several operators on one field are taken one by one: [{ k: { op1: v1,
    op2: v2, ... } }] compiles to what the single-operator conditions
    [{ k: { op1: v1 } }], [{ k: { op2: v2 } }], ... compile to under [$and],
    one after another, also inside an [$or] group. *)
Theorem operators_on_one_field_are_conjoined (type : QueryType) (k : string)
    (es : list (string * Value)) (operator : option GroupOperator) (method : Method) :
  isFieldKey k = true ->
  2 <= length es ->
  compile type (VObj [(k, VObj es)]) operator method
  = Js.forEachM
      (fun sub => compile type (VObj [(k, VObj [sub])]) (Some and_) method) es.
Proof.
  intros Hk Hlen. rewrite compile_field by done.
  unfold appendQuerySubCondition at 1. cbn [isSimpleRegExp isPlainObject orb].
  unfold processObjectSubCondition. cbn [getObjectKeysSize].
  destruct (Nat.ltb_spec 1 (length es)) as [_|]; [|lia].
  apply forEachM_ext. intros sub _. rewrite compile_field by done.
  unfold appendQuerySubCondition. cbn [isSimpleRegExp isPlainObject orb].
  unfold processObjectSubCondition. by cbn [getObjectKeysSize length Nat.ltb Nat.leb].
Qed.

End Conditions.

(** *** Examples, with the operator table of the class *)

(** What counts as a sub-query is what reads truthy on the object: without
    any sub-query a field called [constructor] still reads the inherited
    member, and an empty sub-query does not count. *)
Example inherited_member_reads_as_sub_query :
  QueryBuilderHelperSpec.compileExample (VObj [("constructor", VNull)])
  = Js.Normal
      [Where where_ (RawRef (mkRaw "(function Object() { [native code] })" VUndefined))
         "is" (Val VNull)]
  /\ subQuery [("total", "")] QueryBuilderHelperSpec.nativeText "total" = None
  /\ subQuery [("total", "select 1")] QueryBuilderHelperSpec.nativeText "total"
     = Some "select 1".
Proof. repeat split. Qed.

Lemma null_is_compared_with_is_witness :
  QueryBuilderHelperSpec.compileExample (VObj [("deletedAt", VNull)])
  = Js.Normal [Where where_ (Column "deletedAt") "is" (Val VNull)].
Proof.
  exact (proj1 (null_is_compared_with_is unit (fun k _ _ => Column k) []
           QueryBuilderHelperSpec.nativeText
                  QueryBuilderHelperSpec.OPERATORS
                  (fun k => Js.has k QueryBuilderHelperSpec.OPERATORS) (fun k => [k])
                  (fun v => [v]) (fun _ => false) (fun _ => "") "regexp" false "" "t"
                  tt "deletedAt" None where_ eq_refl eq_refl eq_refl)).
Defined.

Lemma unknown_operator_is_rejected_witness :
  QueryBuilderHelperSpec.compileExample (VObj [("age", VObj [("$gtt", VNum 18)])])
  = Js.Throw InvalidQueryCondition.
Proof.
  apply (unknown_operator_is_rejected unit (fun k _ _ => Column k) []
           QueryBuilderHelperSpec.nativeText
           QueryBuilderHelperSpec.OPERATORS
           (fun k => Js.has k QueryBuilderHelperSpec.OPERATORS) (fun k => [k])
           (fun v => [v]) (fun _ => false) (fun _ => "") "regexp" false "" "t"
           tt "age" [("$gtt", VNum 18)] None where_ eq_refl).
  right. exists "$gtt". split; [by left|]. cbn. intuition discriminate.
Defined.

Lemma and_group_is_flat_witness :
  QueryBuilderHelperSpec.compileExample
    (VObj [("$and", VArr [VObj [("a", VNum 1)]; VObj [("b", VNum 2)]])])
  = QueryBuilderHelperSpec.compileExample (VObj [("a", VNum 1); ("b", VNum 2)]).
Proof.
  apply (and_group_is_flat unit (fun k _ _ => Column k) []
           QueryBuilderHelperSpec.nativeText
           QueryBuilderHelperSpec.OPERATORS
           (fun k => Js.has k QueryBuilderHelperSpec.OPERATORS) (fun k => [k])
           (fun v => [v]) (fun _ => false) (fun _ => "") "regexp" false "" "t"
           tt where_ [[("a", VNum 1)]; [("b", VNum 2)]]).
  repeat constructor; cbn; intuition discriminate.
Defined.

Lemma operators_on_one_field_are_conjoined_witness :
  QueryBuilderHelperSpec.compileExample
    (VObj [("age", VObj [("$gt", VNum 1); ("$lt", VNum 5)])])
  = Js.Normal [Where where_ (Column "age") ">" (Val (VNum 1));
               Where where_ (Column "age") "<" (Val (VNum 5))].
Proof.
  unfold QueryBuilderHelperSpec.compileExample.
  rewrite (operators_on_one_field_are_conjoined unit (fun k _ _ => Column k) []
           QueryBuilderHelperSpec.nativeText
             QueryBuilderHelperSpec.OPERATORS
             (fun k => Js.has k QueryBuilderHelperSpec.OPERATORS) (fun k => [k])
             (fun v => [v]) (fun _ => false) (fun _ => "") "regexp" false "" "t"
             tt "age" [("$gt", VNum 1); ("$lt", VNum 5)] None where_ eq_refl
             ltac:(cbn; lia)).
  reflexivity.
Defined.

End ConditionSpec.

(** ** The LIKE pattern of a regular expression, in general *)

Module RegExpSpec.
Import QueryBuilderHelper.

(** The patterns the rewrite is meant for: literal characters, [.], [.*]
    and the escaped dot. *)
Inductive Token :=
| Lit (c : ascii)
| AnyChar
| AnyString
| EscapedDot.

(** A literal is any character but the dot, the backslash, the two anchors
    and the star. *)
Definition plain (c : ascii) : bool :=
  negb (Ascii.eqb c "." || Ascii.eqb c backslash || Ascii.eqb c "^"
        || Ascii.eqb c "$" || Ascii.eqb c "*").

Definition wellFormed (ts : list Token) : bool :=
  List.forallb (fun t => match t with Lit c => plain c | _ => true end) ts.

(** The source text of a pattern. *)
Fixpoint source (ts : list Token) : string :=
  match ts with
  | [] => ""
  | Lit c :: r => String c (source r)
  | AnyChar :: r => String "." (source r)
  | AnyString :: r => String "." (String "*" (source r))
  | EscapedDot :: r => String backslash (String "." (source r))
  end.

(** The LIKE pattern that matches the same strings, but for the wildcard
    characters [%] and [_] among the literals, which stay as they are. *)
Fixpoint like (ts : list Token) : string :=
  match ts with
  | [] => ""
  | Lit c :: r => String c (like r)
  | AnyChar :: r => String "_" (like r)
  | AnyString :: r => String "%" (like r)
  | EscapedDot :: r => String "." (like r)
  end.

(** The text after [.*] became [%], and after every other dot became [_]. *)
Fixpoint afterStars (ts : list Token) : string :=
  match ts with
  | [] => ""
  | Lit c :: r => String c (afterStars r)
  | AnyChar :: r => String "." (afterStars r)
  | AnyString :: r => String "%" (afterStars r)
  | EscapedDot :: r => String backslash (String "." (afterStars r))
  end.

Fixpoint afterDots (ts : list Token) : string :=
  match ts with
  | [] => ""
  | Lit c :: r => String c (afterDots r)
  | AnyChar :: r => String "_" (afterDots r)
  | AnyString :: r => String "%" (afterDots r)
  | EscapedDot :: r => String backslash (String "_" (afterDots r))
  end.

Lemma append_cons (c : ascii) (s t : string) : String c s +:+ t = String c (s +:+ t).
Proof. reflexivity. Qed.

Lemma append_nil (t : string) : "" +:+ t = t.
Proof. reflexivity. Qed.

Ltac push_append := rewrite ?append_cons, ?append_nil.

(** An end of the pattern: nothing, or the anchor [$]. *)
Definition isEnd (tail : string) : Prop := tail = "" \/ tail = "$".

Lemma head_not_star (ts : list Token) (tail : string) :
  wellFormed ts = true -> isEnd tail ->
  match source ts +:+ tail with String c _ => Ascii.eqb c "*" = false | EmptyString => True end.
Proof.
  intros Hwf [-> | ->]; destruct ts as [|[c| | |] ts]; cbn [source]; push_append; try done.
  all: cbn in Hwf; apply andb_prop in Hwf as [Hc _]; unfold plain in Hc;
    apply negb_true_iff in Hc; repeat (apply orb_false_elim in Hc as [Hc ?]); done.
Qed.

Lemma plain_inv (c : ascii) :
  plain c = true ->
  Ascii.eqb c "." = false /\ Ascii.eqb c backslash = false /\ Ascii.eqb c "^" = false
  /\ Ascii.eqb c "$" = false /\ Ascii.eqb c "*" = false.
Proof.
  unfold plain. intros Hc. apply negb_true_iff in Hc.
  repeat (apply orb_false_elim in Hc as [Hc ?]). done.
Qed.

Lemma replace2_step (a b x : ascii) (by_ s : string) :
  Ascii.eqb x a = false ->
  Js.replace2 a b by_ (String x s) = String x (Js.replace2 a b by_ s).
Proof. intros Hx. cbn [Js.replace2]. destruct s; [done|]. by rewrite Hx. Qed.

Lemma replace2_miss (a b : ascii) (by_ s : string) :
  match s with String c _ => Ascii.eqb c b = false | EmptyString => True end ->
  Js.replace2 a b by_ (String a s) = String a (Js.replace2 a b by_ s).
Proof.
  intros Hs. cbn [Js.replace2]. destruct s as [|c s]; [done|].
  by rewrite Hs, andb_false_r.
Qed.

Lemma replace2_hit (a b : ascii) (by_ s : string) :
  Js.replace2 a b by_ (String a (String b s)) = by_ +:+ Js.replace2 a b by_ s.
Proof. cbn [Js.replace2]. by rewrite !Ascii.eqb_refl. Qed.

Lemma pass_stars (ts : list Token) (tail : string) :
  wellFormed ts = true -> isEnd tail ->
  Js.replace2 "." "*" "%" (source ts +:+ tail) = afterStars ts +:+ tail.
Proof.
  intros Hwf Htail. induction ts as [|t ts IH].
  - by destruct Htail as [-> | ->].
  - assert (Hwf' : wellFormed ts = true) by (by apply andb_prop in Hwf as [_ ?]).
    specialize (IH Hwf'). pose proof (head_not_star ts tail Hwf' Htail) as Hhead.
    destruct t as [c| | |]; cbn [source afterStars]; push_append.
    + apply andb_prop in Hwf as [Hc _]. apply plain_inv in Hc as (Hc & _).
      by rewrite replace2_step, IH.
    + by rewrite replace2_miss, IH.
    + by rewrite replace2_hit, IH.
    + by rewrite replace2_step, replace2_miss, IH.
Qed.

Lemma pass_dots (ts : list Token) (tail : string) :
  wellFormed ts = true -> isEnd tail ->
  Js.replace1 "." "_" (afterStars ts +:+ tail) = afterDots ts +:+ tail.
Proof.
  intros Hwf Htail. induction ts as [|t ts IH].
  - by destruct Htail as [-> | ->].
  - assert (Hwf' : wellFormed ts = true) by (by apply andb_prop in Hwf as [_ ?]).
    specialize (IH Hwf').
    destruct t as [c| | |]; cbn [afterStars afterDots]; push_append; cbn [Js.replace1 Ascii.eqb Bool.eqb].
    + apply andb_prop in Hwf as [Hc _]. apply plain_inv in Hc as (-> & _). by rewrite IH.
    + by rewrite IH.
    + by rewrite IH.
    + by rewrite IH.
Qed.

Lemma pass_escapes (ts : list Token) (tail : string) :
  wellFormed ts = true -> isEnd tail ->
  Js.replace2 backslash "_" "." (afterDots ts +:+ tail) = like ts +:+ tail.
Proof.
  intros Hwf Htail. induction ts as [|t ts IH].
  - by destruct Htail as [-> | ->].
  - assert (Hwf' : wellFormed ts = true) by (by apply andb_prop in Hwf as [_ ?]).
    specialize (IH Hwf').
    destruct t as [c| | |]; cbn [afterDots like]; push_append.
    + apply andb_prop in Hwf as [Hc _]. apply plain_inv in Hc as (_ & Hc & _).
      by rewrite replace2_step, IH.
    + by rewrite replace2_step, IH.
    + by rewrite replace2_step, IH.
    + by rewrite replace2_hit, IH.
Qed.

Lemma stripEnd_anchor (s : string) : Js.stripEnd "$" (s +:+ "$") = s.
Proof.
  induction s as [|c s IH]; [done|]. push_append. cbn [Js.stripEnd].
  rewrite IH. by destruct s.
Qed.

Lemma endsWith_anchor (s : string) : Js.endsWith "$" (s +:+ "$") = true.
Proof.
  induction s as [|c s IH]; [done|]. push_append. cbn [Js.endsWith].
  rewrite IH. by destruct s.
Qed.

(** Neither a pattern's source nor its LIKE form ends in [$]. *)
Lemma source_open_end_after (ts : list Token) (c : ascii) :
  wellFormed ts = true -> Ascii.eqb c "$" = false ->
  Js.endsWith "$" (String c (source ts)) = false.
Proof.
  revert c. induction ts as [|t ts IH]; intros c Hwf Hc; [by cbn; rewrite Hc|].
  assert (Hwf' : wellFormed ts = true) by (by apply andb_prop in Hwf as [_ ?]).
  destruct t as [c'| | |]; cbn [source Js.endsWith].
  - apply andb_prop in Hwf as [Hc' _]. apply plain_inv in Hc' as (_ & _ & _ & Hc' & _).
    by apply IH.
  - by apply IH.
  - by apply (IH "*"%char).
  - by apply (IH "."%char).
Qed.

Lemma source_open_end (ts : list Token) (prefix : string) :
  wellFormed ts = true -> prefix = "" \/ prefix = "^" ->
  Js.endsWith "$" (prefix +:+ source ts) = false.
Proof.
  intros Hwf [-> | ->]; push_append; [|by apply source_open_end_after].
  destruct ts as [|t ts]; [done|].
  assert (Hwf' : wellFormed ts = true) by (by apply andb_prop in Hwf as [_ ?]).
  destruct t as [c'| | |]; cbn [source].
  - apply andb_prop in Hwf as [Hc' _]. apply plain_inv in Hc' as (_ & _ & _ & Hc' & _).
    by apply source_open_end_after.
  - by apply source_open_end_after.
  - cbn [Js.endsWith]. by apply (source_open_end_after ts "*"%char).
  - cbn [Js.endsWith]. by apply (source_open_end_after ts "."%char).
Qed.

Lemma like_open_end (ts : list Token) :
  wellFormed ts = true -> Js.stripEnd "$" (like ts) = like ts.
Proof.
  induction ts as [|t ts IH]; intros Hwf; [done|].
  assert (Hwf' : wellFormed ts = true) by (by apply andb_prop in Hwf as [_ ?]).
  specialize (IH Hwf').
  destruct t as [c| | |]; cbn [like Js.stripEnd]; rewrite IH.
  - apply andb_prop in Hwf as [Hc _]. apply plain_inv in Hc as (_ & _ & _ & -> & _).
    by destruct (like ts).
  - by destruct (like ts).
  - by destruct (like ts).
  - by destruct (like ts).
Qed.

Lemma like_open_start (ts : list Token) (tail : string) :
  wellFormed ts = true -> isEnd tail ->
  Js.stripStart "^" (like ts +:+ tail) = like ts +:+ tail.
Proof.
  intros Hwf [-> | ->]; destruct ts as [|[c| | |] ts]; cbn [like]; push_append;
    cbn [Js.stripStart]; try done.
  all: apply andb_prop in Hwf as [Hc _]; apply plain_inv in Hc as (_ & _ & -> & _); done.
Qed.

Lemma source_open_start (ts : list Token) (tail : string) :
  wellFormed ts = true -> isEnd tail ->
  Js.startsWith "^" (source ts +:+ tail) = false.
Proof.
  intros Hwf [-> | ->]; destruct ts as [|[c| | |] ts]; cbn [source]; push_append;
    cbn [Js.startsWith]; try done.
  all: apply andb_prop in Hwf as [Hc _]; apply plain_inv in Hc as (_ & _ & -> & _); done.
Qed.

Lemma append_empty (s : string) : s +:+ "" = s.
Proof. induction s as [|c s IH]; [done|]. by rewrite append_cons, IH. Qed.

(** The three replacements, on a pattern that may carry anchors. *)
Definition replaced (s : string) : string :=
  Js.replace2 backslash "_" "." (Js.replace1 "." "_" (Js.replace2 "." "*" "%" s)).

Lemma replaced_open (ts : list Token) (tail : string) :
  wellFormed ts = true -> isEnd tail ->
  replaced (source ts +:+ tail) = like ts +:+ tail.
Proof.
  intros Hwf Htail. unfold replaced. by rewrite pass_stars, pass_dots, pass_escapes.
Qed.

Lemma replaced_anchored (ts : list Token) (tail : string) :
  wellFormed ts = true -> isEnd tail ->
  replaced (String "^" (source ts +:+ tail)) = String "^" (like ts +:+ tail).
Proof.
  intros Hwf Htail. unfold replaced.
  rewrite replace2_step by done. rewrite pass_stars by done.
  cbn [Js.replace1 Ascii.eqb Bool.eqb]. rewrite pass_dots by done.
  rewrite replace2_step by done. by rewrite pass_escapes.
Qed.

Lemma getRegExpParam_replaced (s : string) :
  getRegExpParam s
  = let value := Js.stripEnd "$" (Js.stripStart "^" (replaced s)) in
    if Js.startsWith "^" s && Js.endsWith "$" s then value
    else if Js.startsWith "^" s then value +:+ "%"
    else if Js.endsWith "$" s then "%" +:+ value
    else "%" +:+ value +:+ "%".
Proof. reflexivity. Qed.

(** X8: the rewrite is right on every pattern built from literals, [.], [.*] and
    the escaped dot: the four anchorings give the LIKE form with a [%] on
    each open side. *)
Theorem regexp_param_of_pattern (ts : list Token) :
  wellFormed ts = true ->
  getRegExpParam (source ts) = "%" +:+ like ts +:+ "%"
  /\ getRegExpParam ("^" +:+ source ts) = like ts +:+ "%"
  /\ getRegExpParam (source ts +:+ "$") = "%" +:+ like ts
  /\ getRegExpParam ("^" +:+ source ts +:+ "$") = like ts.
Proof.
  intros Hwf.
  assert (Hnone : isEnd "") by (by left).
  assert (Hanchor : isEnd "$") by (by right).
  pose proof (replaced_open ts "" Hwf Hnone) as H00.
  pose proof (replaced_anchored ts "" Hwf Hnone) as H10.
  pose proof (replaced_open ts "$" Hwf Hanchor) as H01.
  pose proof (replaced_anchored ts "$" Hwf Hanchor) as H11.
  pose proof (source_open_start ts "" Hwf Hnone) as Hs0.
  pose proof (source_open_start ts "$" Hwf Hanchor) as Hs1.
  pose proof (source_open_end ts "" Hwf (or_introl eq_refl)) as He0.
  pose proof (source_open_end ts "^" Hwf (or_intror eq_refl)) as He1.
  pose proof (like_open_start ts "" Hwf Hnone) as Hl0.
  pose proof (like_open_start ts "$" Hwf Hanchor) as Hl1.
  rewrite ?append_cons, ?append_nil, ?append_empty in *.
  rewrite !getRegExpParam_replaced. cbn zeta. repeat split.
  - rewrite H00, Hs0, He0, Hl0, like_open_end by done. reflexivity.
  - rewrite H10, He1. cbn [Js.startsWith Js.stripStart Ascii.eqb Bool.eqb andb].
    by rewrite like_open_end.
  - rewrite H01, Hs1, endsWith_anchor, Hl1, stripEnd_anchor. reflexivity.
  - rewrite H11. cbn [Js.startsWith Js.stripStart Ascii.eqb Bool.eqb andb].
    rewrite stripEnd_anchor.
    assert (Js.endsWith "$" (String "^" (source ts +:+ "$")) = true) as ->; [|done].
    exact (endsWith_anchor (String "^" (source ts))).
Qed.

Lemma regexp_param_of_pattern_witness :
  getRegExpParam "^a.b.*c$" = "a_b%c".
Proof.
  exact (proj2 (proj2 (proj2 (regexp_param_of_pattern
                                [Lit "a"; AnyChar; Lit "b"; AnyString; Lit "c"] eq_refl)))).
Defined.

End RegExpSpec.

(** ** What [processData] does to a row *)

Module ProcessDataSpec.
Import Metadata QueryBuilderHelper.

Lemma get_delete_eq {V} (k : string) (d : Js.Dictionary V) : Js.get k (Js.delete k d) = None.
Proof.
  induction d as [|[k' v'] d IH]; cbn; [done|].
  destruct (String.eqb k k') eqn:E; [done|]. cbn. by rewrite E.
Qed.

Lemma get_delete_ne {V} (k k0 : string) (d : Js.Dictionary V) :
  k0 <> k -> Js.get k0 (Js.delete k d) = Js.get k0 d.
Proof.
  intros Hne. induction d as [|[k' v'] d IH]; cbn; [done|].
  destruct (String.eqb k k') eqn:E; cbn.
  - apply String.eqb_eq in E. subst k'. apply String.eqb_neq in Hne. by rewrite Hne.
  - by rewrite IH.
Qed.

(** The loop [prop.joinColumns.forEach((joinColumn, idx) => data[joinColumn]
    = copy[idx])]. *)
Definition spread (copy : list JsValue) (jcs : list string) (i : nat)
    (d : Js.Dictionary JsValue) : Js.Dictionary JsValue :=
  Js.forEachIdx (fun joinColumn idx d' => Js.set joinColumn (orUndefined (copy !! idx)) d')
                jcs i d.

Lemma spread_other (copy : list JsValue) (jcs : list string) (i : nat)
    (d : Js.Dictionary JsValue) (k : string) :
  ~ In k jcs -> Js.get k (spread copy jcs i d) = Js.get k d.
Proof.
  unfold spread. revert i d. induction jcs as [|c jcs IH]; intros i d Hn; cbn; [done|].
  rewrite IH by (intros H; apply Hn; by right).
  apply MetadataDiscoverySpec.get_set_ne. intros ->. apply Hn. by left.
Qed.

Lemma spread_column (copy : list JsValue) (jcs : list string) (i : nat)
    (d : Js.Dictionary JsValue) (j : nat) (c : string) :
  List.NoDup jcs -> jcs !! j = Some c ->
  Js.get c (spread copy jcs i d) = Some (orUndefined (copy !! (i + j))).
Proof.
  intros Hnd. revert i d j. induction Hnd as [|c0 jcs Hc0 _ IH]; intros i d j Hj; [done|].
  destruct j as [|j]; cbn in Hj.
  - injection Hj as <-. change (spread copy (c0 :: jcs) i d)
      with (spread copy jcs (S i) (Js.set c0 (orUndefined (copy !! i)) d)).
    rewrite spread_other by done. rewrite MetadataDiscoverySpec.get_set_eq.
    by rewrite Nat.add_0_r.
  - change (spread copy (c0 :: jcs) i d)
      with (spread copy jcs (S i) (Js.set c0 (orUndefined (copy !! i)) d)).
    rewrite (IH _ _ j Hj). do 3 f_equal. lia.
Qed.

Section Rows.
Variable metadata : MetadataStorage.
Variable entityName : string.
Variable usesDefaultKeyword : bool.
Variable stringify : Heap -> JsValue -> string.
Variable renameKey : Js.Dictionary JsValue -> string -> option string -> Js.Dictionary JsValue.
Variable hasObjectKeys : Js.Dictionary JsValue -> bool.

(** X9: a reference given as an array of key parts is spread over the join
    columns of its property: the key of the property goes, the i-th join
    column holds the i-th part ([undefined] when the array is shorter), and
    every other entry of the row stays. *)
Theorem composite_reference_is_spread (h : Heap) (meta : EntityMetadata)
    (prop : EntityProperty) (d : Js.Dictionary JsValue) (k : string)
    (jcs : list string) (parts : list JsValue) :
  Js.get k (properties meta) = Some prop ->
  joinColumns prop = Some jcs ->
  arrayAt h (orUndefined (Js.get k d)) = Some parts ->
  List.NoDup jcs ->
  (forall i c, jcs !! i = Some c ->
     Js.get c (processEntry stringify renameKey h (Some meta) d k)
     = Some (orUndefined (parts !! i)))
  /\ (forall k', ~ In k' jcs ->
        Js.get k' (processEntry stringify renameKey h (Some meta) d k)
        = if String.eqb k' k then None else Js.get k' d).
Proof.
  intros Hprop Hjcs Hparts Hnd. unfold processEntry. cbn [mbind option_bind].
  rewrite Hprop, Hjcs, Hparts. fold (spread parts jcs 0 (Js.delete k d)). split.
  - intros i c Hc. by rewrite (spread_column _ _ _ _ i c Hnd Hc).
  - intros k' Hk'. rewrite spread_other by done.
    destruct (String.eqb_spec k' k) as [->|Hne];
      [apply get_delete_eq | by apply get_delete_ne].
Qed.

Lemma processKeys_unknown (c : nat) (h : Heap) (ks : list string) :
  List.fold_left (processKey stringify renameKey c None) ks h = h.
Proof.
  induction ks as [|k ks IH]; cbn [List.fold_left]; [done|].
  assert (processKey stringify renameKey c None h k = h) as ->; [|done].
  unfold processKey. destruct (h !! c) as [[items|d]|] eqn:E; try done.
  cbn. by apply list_insert_id.
Qed.

(** X10: for an entity the metadata does not know, a row comes back as a copy
    with the very same entries, allocated after the objects of the store;
    this holds for an empty row of a multi insert too. *)
Theorem unknown_entity_row_is_copied (rounds : nat) (h : Heap) (l : nat)
    (entries : Js.Dictionary JsValue) (multi : bool) :
  find entityName metadata = None ->
  h !! l = Some (JDict entries) ->
  processData metadata entityName usesDefaultKeyword stringify renameKey hasObjectKeys
    (S rounds) h (JRef l) multi
  = Some (h ++ [JDict entries], JRef (length h)).
Proof.
  intros Hfind Hl. cbn [processData]. rewrite Hl, Hfind, processKeys_unknown.
  unfold defaultRow. rewrite list_lookup_middle by done. reflexivity.
Qed.

End Rows.

Lemma composite_reference_is_spread_witness :
  Js.get "author_tenant"
    (processEntry (fun _ _ => "{...}") QueryBuilderHelperSpec.renameKeyExample
       QueryBuilderHelperSpec.bookHeap (Some QueryBuilderHelperSpec.bookMeta)
       [("title", JStr "t"); ("meta", JRef 0); ("author", JRef 2)] "author")
  = Some (JNum 2).
Proof.
  exact (proj1 (composite_reference_is_spread (fun _ _ => "{...}")
                  QueryBuilderHelperSpec.renameKeyExample QueryBuilderHelperSpec.bookHeap
                  QueryBuilderHelperSpec.bookMeta _
                  [("title", JStr "t"); ("meta", JRef 0); ("author", JRef 2)] "author"
                  ["author_id"; "author_tenant"] [JNum 1; JNum 2]
                  eq_refl eq_refl eq_refl
                  ltac:(repeat constructor; cbn; intuition discriminate))
               1 "author_tenant" eq_refl).
Defined.

Lemma unknown_entity_row_is_copied_witness :
  processData [] "Book" true (fun _ _ => "{...}") QueryBuilderHelperSpec.renameKeyExample
    (fun d => negb (Nat.eqb (length d) 0)) 1 [JDict []] (JRef 0) true
  = Some ([JDict []; JDict []], JRef 1).
Proof.
  exact (unknown_entity_row_is_copied [] "Book" true (fun _ _ => "{...}")
           QueryBuilderHelperSpec.renameKeyExample (fun d => negb (Nat.eqb (length d) 0))
           0 [JDict []] 0 [] true eq_refl eq_refl).
Defined.

End ProcessDataSpec.

(** ** Field names, aliases and qualified columns *)

Module FieldSpec.
Import Metadata QueryBuilderHelper.

(** No dot in the text. *)
Definition dotFree (s : string) : bool :=
  negb (Js.matchesClass (fun c => Ascii.eqb c ".") s).

Lemma dotFree_cons (c : ascii) (s : string) :
  dotFree (String c s) = true -> Ascii.eqb c "." = false /\ dotFree s = true.
Proof.
  unfold dotFree. cbn [Js.matchesClass]. intros H. apply negb_true_iff in H.
  apply orb_false_elim in H as [-> H]. split; [done|]. by apply negb_true_iff.
Qed.

Lemma split_plain (s : string) : dotFree s = true -> Js.split "." s = [s].
Proof.
  induction s as [|c s IH]; [done|]. intros [Hc Hs]%dotFree_cons.
  cbn [Js.split]. by rewrite Hc, (IH Hs).
Qed.

Lemma split_qualified (a rest : string) :
  dotFree a = true -> Js.split "." (a +:+ "." +:+ rest) = a :: Js.split "." rest.
Proof.
  induction a as [|c a IH].
  - intros _. rewrite RegExpSpec.append_nil, RegExpSpec.append_cons, RegExpSpec.append_nil. cbn [Js.split].
    by rewrite Ascii.eqb_refl.
  - intros [Hc Ha]%dotFree_cons. rewrite RegExpSpec.append_cons. cbn [Js.split].
    by rewrite Hc, (IH Ha).
Qed.

Section Fields.
Variable metadata : MetadataStorage.
Variable entityName : string.
Variable alias : string.
Variable aliasMap : Js.Dictionary string.
Variable QueryType : Type.
Context `{EqDecision QueryType}.
Variable SELECT : QueryType.
Variable COUNT : QueryType.
Variable splitPrimaryKeys : string -> list string.
Variable quoteIdentifier : string -> string.
Variable ref : Ref -> string.
Variable fieldNameRaw : EntityProperty -> option string.

Abbreviation property := (getProperty metadata entityName aliasMap).
Abbreviation column := (fieldName metadata entityName aliasMap fieldNameRaw).
Abbreviation map :=
  (mapper metadata entityName alias aliasMap QueryType SELECT COUNT splitPrimaryKeys
     quoteIdentifier ref fieldNameRaw).

(** X11: [splitField] reads [alias.field]: a field without a dot belongs to the
    root alias; [a.b] splits into the two; anything after a second dot is
    dropped; and a trailing dot leaves the text before it as a field of the
    root alias. *)
Theorem splitField_reads_qualified_names (a b : string) :
  dotFree a = true -> dotFree b = true -> b <> "" ->
  splitField alias a = (alias, a)
  /\ splitField alias (a +:+ "." +:+ b) = (a, b)
  /\ (forall rest, splitField alias (a +:+ "." +:+ b +:+ "." +:+ rest) = (a, b))
  /\ splitField alias (a +:+ ".") = (alias, a).
Proof.
  intros Ha Hb Hne. apply String.eqb_neq in Hne. unfold splitField. repeat split.
  - by rewrite split_plain.
  - by rewrite split_qualified, split_plain, Hne.
  - intros rest. by rewrite !split_qualified, Hne.
  - change (a +:+ ".") with (a +:+ "." +:+ ""). by rewrite split_qualified.
Qed.

(** *** [mapper] *)







End Fields.

(** *** Examples: the books of alias [e0] *)



Lemma splitField_reads_qualified_names_witness :
  splitField "e0" "title" = ("e0", "title")
  /\ splitField "e0" "a.name" = ("a", "name").
Proof.
  destruct (splitField_reads_qualified_names "e0" "title" "x" eq_refl eq_refl
              ltac:(discriminate)) as (H1 & _).
  destruct (splitField_reads_qualified_names "e0" "a" "name" eq_refl eq_refl
              ltac:(discriminate)) as (_ & H2 & _).
  split; [exact H1 | exact H2].
Defined.



End FieldSpec.

(** ** Join conditions and join columns *)

Module JoinSpec.
Import Metadata QueryBuilderHelper.

Section JoinConditions.
Variable QueryType : Type.
Variable SELECT : QueryType.
Variable mapper : string -> QueryType -> Value -> Ref.
Variable subQueries : Js.Dictionary string.
Variable inheritedText : string -> string.
Variable QueryOperator : Js.Dictionary string.
Variable isOperator : string -> bool.
Variable splitPrimaryKeys : string -> list string.
Variable asArray : Value -> list Value.
Variable isObject : Value -> bool.
Variable stringify : Value -> string.
Variable getRegExpOperator : string.
Variable requiresValuesKeyword : bool.
Variable getFullTextWhereClause : string.
Variable tableName : string.

Abbreviation joinClause :=
  (appendJoinClause QueryType SELECT mapper QueryOperator asArray isObject stringify).
Abbreviation whereClause :=
  (appendQueryCondition QueryType mapper subQueries inheritedText QueryOperator isOperator
     splitPrimaryKeys asArray isObject stringify getRegExpOperator
     requiresValuesKeyword getFullTextWhereClause tableName).

(** The condition [{ [k]: v }] of a join on anything but a group key goes to
    [appendJoinSubClause]; [$not] is no group key there. *)
Lemma joinClause_field (k : string) (v : Value) (operator : option GroupOperator) :
  groupOperatorOf k = None ->
  joinClause (VObj [(k, v)]) operator
  = Js.Normal (appendJoinSubClause QueryType SELECT mapper QueryOperator asArray isObject
                 stringify k v operator).
Proof.
  intros Hk. cbn [appendJoinClause]. rewrite QueryBuilderHelperSpec.forEachM_single.
  by rewrite Hk.
Qed.

(** X14: in a join condition every regular expression becomes a LIKE pattern,
    also one with an opening brace, bracket or parenthesis, which a where
    condition hands to the platform's regular-expression operator. *)
Theorem join_regexp_is_always_like (k source : string) (operator : option GroupOperator) :
  groupOperatorOf k = None ->
  joinClause (VObj [(k, VRegExp source)]) operator
  = Js.Normal
      [On (match operator with Some or_ => orOn | _ => andOn end)
          (mapper k SELECT VUndefined) "like"
          (mkRaw "?" (VStr (getRegExpParam source)))].
Proof. intros Hk. by rewrite joinClause_field. Qed.

Lemma find_no_operator (op : string) (v : Value) (ops : Js.Dictionary string) :
  ~ In op (Js.keys ops) ->
  List.find (fun entry : string * string => Js.has (fst entry) [(op, v)]) ops = None.
Proof.
  induction ops as [|[o r] ops IH]; intros Hn; [done|].
  cbn [List.find fst]. unfold Js.has at 1. cbn [Js.get].
  destruct (String.eqb o op) eqn:E.
  - apply String.eqb_eq in E. subst. destruct Hn. by left.
  - apply IH. intros H. apply Hn. by right.
Qed.

(** X15: an operator the operator enum does not know is dropped from a join
    condition without a word: the condition adds no call at all, where the
    same condition in a where clause throws "Invalid query condition". *)
Theorem join_unknown_operator_is_dropped (k op : string) (v : Value)
    (operator : option GroupOperator) (type_ : QueryType) (method : Method) :
  groupOperatorOf k = None ->
  k <> "$not" ->
  ~ In op (Js.keys QueryOperator) ->
  joinClause (VObj [(k, VObj [(op, v)])]) operator = Js.Normal []
  /\ whereClause type_ (VObj [(k, VObj [(op, v)])]) operator method
     = Js.Throw InvalidQueryCondition.
Proof.
  intros Hk Hnot Hop. split.
  - rewrite joinClause_field by done. unfold appendJoinSubClause.
    cbn [isPlainObject]. unfold processObjectSubClause.
    cbn [getObjectKeysSize length Nat.ltb Nat.leb]. unfold processOperatorOn.
    by rewrite find_no_operator.
  - rewrite ConditionSpec.compile_field.
    + unfold appendQuerySubCondition. cbn [isSimpleRegExp isPlainObject orb].
      unfold processObjectSubCondition. cbn [getObjectKeysSize length Nat.ltb Nat.leb].
      unfold processOperator. by rewrite (ConditionSpec.find_missing_key _ _ _ Hop).
    + unfold ConditionSpec.isFieldKey. rewrite Hk.
      apply negb_true_iff. by apply String.eqb_neq.
Qed.

Lemma flat_map_forEachM {A B} (f : A -> list B) (l : list A) :
  Js.forEachM (E := Error) (fun x => Js.Normal (f x)) l = Js.Normal (List.flat_map f l).
Proof.
  induction l as [|x l IH]; cbn [Js.forEachM flat_map]; [done|]. by rewrite IH.
Qed.

(** X16: several operators on one field of a join condition go into one nested
    clause, each as the single-operator condition compiles under [$and]. *)
Theorem join_operators_on_one_field_are_grouped (k : string)
    (es : list (string * Value)) (operator : option GroupOperator) :
  groupOperatorOf k = None ->
  2 <= length es ->
  joinClause (VObj [(k, VObj es)]) operator
  = Js.bind
      (Js.forEachM (fun sub => joinClause (VObj [(k, VObj [sub])]) (Some and_)) es)
      (fun inner =>
         Js.Normal [OnNested (match operator with Some or_ => orOn | _ => andOn end) inner]).
Proof.
  intros Hk Hlen. rewrite joinClause_field by done.
  unfold appendJoinSubClause at 1. cbn [isPlainObject].
  unfold processObjectSubClause. cbn [getObjectKeysSize].
  destruct (Nat.ltb_spec 1 (length es)) as [_|]; [|lia].
  rewrite (ConditionSpec.forEachM_ext _
             (fun sub => Js.Normal
                           (processOperatorOn QueryType SELECT mapper QueryOperator k
                              (VObj [sub]) andOn))).
  - by rewrite flat_map_forEachM.
  - intros sub _. rewrite joinClause_field by done.
    unfold appendJoinSubClause. cbn [isPlainObject].
    unfold processObjectSubClause. by cbn [getObjectKeysSize length Nat.ltb Nat.leb].
Qed.

(** *** Join columns *)

Variable metadata : MetadataStorage.

Abbreviation joins :=
  (processJoins QueryType SELECT mapper QueryOperator asArray isObject stringify).

Lemma joinOn_pairs (owner_ alias : string) (fs rs every : list string) (i : nat) :
  drop i every = rs -> length fs = length rs ->
  Js.forEachM (E := Error)
    (fun entry : string * nat =>
       Js.Normal
         [OnColumns (owner_ +:+ "." +:+ fst entry)
                    (alias +:+ "." +:+ Js.text (every !! snd entry))])
    (List.combine fs (List.seq i (length fs)))
  = Js.Normal
      (List.map (fun pair : string * string =>
                   OnColumns (owner_ +:+ "." +:+ fst pair) (alias +:+ "." +:+ snd pair))
                (List.combine fs rs)).
Proof.
  revert rs i. induction fs as [|f fs IH]; intros rs i Hdrop Hlen; [done|].
  destruct rs as [|r rs]; [done|]. cbn [length List.seq List.combine Js.forEachM List.map fst snd].
  assert (Hi : every !! i = Some r).
  { rewrite <- (Nat.add_0_r i), <- lookup_drop, Hdrop. done. }
  rewrite (IH rs (S i)).
  - by rewrite Hi.
  - apply drop_S in Hi. rewrite Hdrop in Hi. by injection Hi.
  - by injection Hlen.
Qed.

(** X17: the join to the target of a to-one property compares, position by
    position, the property's own columns under the owner alias with the
    columns they reference under the new alias; a pivot join is emitted as
    a left join. *)
Theorem to_one_join_pairs_columns (prop : EntityProperty) (key owner_ alias : string)
    (type_ : JoinType) (fs rs : list string) :
  fieldNames prop = Some fs ->
  referencedColumnNames prop = Some rs ->
  length fs = length rs ->
  joins [(key, joinManyToOneReference metadata prop owner_ alias type_ (VObj []))]
  = Js.Normal
      [Join (match type_ with pivotJoin => leftJoin | t => t end)
            (getTableName metadata (type prop) +:+ " as " +:+ alias)
            (List.map (fun pair : string * string =>
                         OnColumns (owner_ +:+ "." +:+ fst pair) (alias +:+ "." +:+ snd pair))
                      (List.combine fs rs))].
Proof.
  intros Hfs Hrs Hlen. unfold processJoins. cbn [Js.values List.map snd].
  rewrite QueryBuilderHelperSpec.forEachM_single.
  unfold joinOn, joinManyToOneReference.
  cbn [join_primaryKeys join_joinColumns ownerAlias join_alias join_cond join_type join_table].
  rewrite Hfs, Hrs. rewrite (joinOn_pairs owner_ alias fs rs rs 0 eq_refl Hlen).
  cbn [Js.bind appendJoinClause Js.forEachM Js.text]. rewrite app_nil_r. by destruct type_.
Qed.

(** X18: the two sides of a one-to-one relation join over the same column pairs,
    mirrored: the owning side compares its join columns with the columns
    they reference in the target table, the inverse side compares those
    referenced columns, now its own, with the owner's join columns in the
    owner's table. *)
Theorem one_to_one_joins_mirror (prop inverse : EntityProperty)
    (target source : EntityMetadata) (key owner_ alias : string) (type_ : JoinType)
    (jc rc : list string) :
  owner prop = true ->
  owner inverse = false ->
  find (type prop) metadata = Some target ->
  find (type inverse) metadata = Some source ->
  Js.get (inverseKey inverse) (properties source) = Some prop ->
  joinColumns prop = Some jc ->
  referencedColumnNames prop = Some rc ->
  length jc = length rc ->
  Js.bind (joinOneToReference metadata prop owner_ alias type_ (VObj []))
          (fun join => joins [(key, join)])
  = Js.Normal
      [Join (match type_ with pivotJoin => leftJoin | t => t end)
            (collection target +:+ " as " +:+ alias)
            (List.map (fun pair : string * string =>
                         OnColumns (owner_ +:+ "." +:+ fst pair) (alias +:+ "." +:+ snd pair))
                      (List.combine jc rc))]
  /\ Js.bind (joinOneToReference metadata inverse owner_ alias type_ (VObj []))
             (fun join => joins [(key, join)])
     = Js.Normal
         [Join (match type_ with pivotJoin => leftJoin | t => t end)
               (collection source +:+ " as " +:+ alias)
               (List.map (fun pair : string * string =>
                            OnColumns (owner_ +:+ "." +:+ fst pair)
                                      (alias +:+ "." +:+ snd pair))
                         (List.combine rc jc))].
Proof.
  intros Hown Hinv Htarget Hsource Hprop Hjc Hrc Hlen. unfold joinOneToReference, getTableName.
  rewrite Htarget, Hsource, Hown, Hinv, Hprop. cbn [Js.bind].
  unfold processJoins. cbn [Js.values List.map snd].
  rewrite !QueryBuilderHelperSpec.forEachM_single. unfold joinOn.
  cbn [join_primaryKeys join_joinColumns ownerAlias join_alias join_cond join_type join_table].
  rewrite Hjc, Hrc.
  rewrite (joinOn_pairs owner_ alias jc rc rc 0 eq_refl Hlen).
  rewrite (joinOn_pairs owner_ alias rc jc jc 0 eq_refl (eq_sym Hlen)).
  cbn [Js.bind appendJoinClause Js.forEachM Js.text]. rewrite !app_nil_r.
  by destruct type_.
Qed.

End JoinConditions.

(** *** Examples *)

Definition joinExample (cond : Value) : Result (list JoinCall) :=
  appendJoinClause unit tt (fun k _ _ => Column k) QueryBuilderHelperSpec.OPERATORS
    (fun v => [v]) (fun _ => false) (fun _ => "") cond None.

Definition joinsExample (joins : Js.Dictionary JoinOptions) : Result (list JoinStatement) :=
  processJoins unit tt (fun k _ _ => Column k) QueryBuilderHelperSpec.OPERATORS
    (fun v => [v]) (fun _ => false) (fun _ => "") joins.

(** A user with a one-to-one [profile] it owns, and the profile's inverse
    side [user]; a book with its author. *)
Definition profileOfUser : EntityProperty :=
  set_inversedBy (Some "user")
    (set_referencedColumnNames (Some ["id"])
       (set_joinColumns (Some ["profile_id"])
          (set_fieldNames (Some ["profile_id"])
             (mkProp "profile" "Profile" ONE_TO_ONE true false false true false false false
                false None false Unset Unset [] None None None None None None None None
                None None)))).

Definition userOfProfile : EntityProperty :=
  mkProp "user" "User" ONE_TO_ONE false false false true false false false false None false
    Unset Unset [] None None None None None None None None (Some "profile") None.

Definition authorOfBook : EntityProperty :=
  set_referencedColumnNames (Some ["id"; "tenant_id"])
    (set_fieldNames (Some ["author_id"; "author_tenant"])
       (blankProperty "author" "Author" MANY_TO_ONE)).

Definition joinStorage : MetadataStorage :=
  [("User", mkMeta "User" "User" "users" None None false false [profileOfUser]
              [profileOfUser] [("profile", profileOfUser)] ["id"] false [] [] None None
              None None);
   ("Profile", mkMeta "Profile" "Profile" "profiles" None None false false [userOfProfile]
                 [userOfProfile] [("user", userOfProfile)] ["id"] false [] [] None None
                 None None);
   ("Author", MetadataDiscoverySpec.authorMeta)].

Lemma join_regexp_is_always_like_witness :
  joinExample (VObj [("title", VRegExp "^(foo|bar)")])
  = Js.Normal [On andOn (Column "title") "like" (mkRaw "?" (VStr "(foo|bar)%"))].
Proof.
  exact (join_regexp_is_always_like unit tt (fun k _ _ => Column k)
           QueryBuilderHelperSpec.OPERATORS (fun v => [v]) (fun _ => false) (fun _ => "")
           "title" "^(foo|bar)" None eq_refl).
Defined.

Lemma join_unknown_operator_is_dropped_witness :
  joinExample (VObj [("age", VObj [("$gtt", VNum 18)])]) = Js.Normal []
  /\ QueryBuilderHelperSpec.compileExample (VObj [("age", VObj [("$gtt", VNum 18)])])
     = Js.Throw InvalidQueryCondition.
Proof.
  apply (join_unknown_operator_is_dropped unit tt (fun k _ _ => Column k) []
           QueryBuilderHelperSpec.nativeText
           QueryBuilderHelperSpec.OPERATORS
           (fun k => Js.has k QueryBuilderHelperSpec.OPERATORS) (fun k => [k])
           (fun v => [v]) (fun _ => false) (fun _ => "") "regexp" false "" "t"
           "age" "$gtt" (VNum 18) None tt where_ eq_refl).
  - discriminate.
  - cbn. intuition discriminate.
Defined.

Lemma join_operators_on_one_field_are_grouped_witness :
  joinExample (VObj [("age", VObj [("$gt", VNum 1); ("$lt", VNum 5)])])
  = Js.Normal
      [OnNested andOn
         [On andOn (Column "age") ">" (mkRaw "?" (VNum 1));
          On andOn (Column "age") "<" (mkRaw "?" (VNum 5))]].
Proof.
  unfold joinExample.
  rewrite (join_operators_on_one_field_are_grouped unit tt (fun k _ _ => Column k)
             QueryBuilderHelperSpec.OPERATORS (fun v => [v]) (fun _ => false)
             (fun _ => "") "age" [("$gt", VNum 1); ("$lt", VNum 5)] None eq_refl
             ltac:(cbn; lia)).
  reflexivity.
Defined.

Lemma to_one_join_pairs_columns_witness :
  joinsExample
    [("e0.author", joinManyToOneReference joinStorage authorOfBook "e0" "a1" leftJoin (VObj []))]
  = Js.Normal
      [Join leftJoin "author as a1"
         [OnColumns "e0.author_id" "a1.id"; OnColumns "e0.author_tenant" "a1.tenant_id"]].
Proof.
  exact (to_one_join_pairs_columns unit tt (fun k _ _ => Column k)
           QueryBuilderHelperSpec.OPERATORS (fun v => [v]) (fun _ => false) (fun _ => "")
           joinStorage authorOfBook "e0.author" "e0" "a1" leftJoin
           ["author_id"; "author_tenant"] ["id"; "tenant_id"] eq_refl eq_refl eq_refl).
Defined.

Lemma one_to_one_joins_mirror_witness :
  Js.bind (joinOneToReference joinStorage profileOfUser "e0" "e1" innerJoin (VObj []))
          (fun join => joinsExample [("e0.profile", join)])
  = Js.Normal [Join innerJoin "profiles as e1" [OnColumns "e0.profile_id" "e1.id"]]
  /\ Js.bind (joinOneToReference joinStorage userOfProfile "e0" "e1" innerJoin (VObj []))
             (fun join => joinsExample [("e0.profile", join)])
     = Js.Normal [Join innerJoin "users as e1" [OnColumns "e0.id" "e1.profile_id"]].
Proof.
  exact (one_to_one_joins_mirror unit tt (fun k _ _ => Column k)
           QueryBuilderHelperSpec.OPERATORS (fun v => [v]) (fun _ => false) (fun _ => "")
           joinStorage profileOfUser userOfProfile _ _ "e0.profile" "e0" "e1" innerJoin
           ["profile_id"] ["id"] eq_refl eq_refl eq_refl eq_refl eq_refl eq_refl eq_refl
           eq_refl).
Defined.

End JoinSpec.

(** ** The pivot entity, from its definition to the join *)

Module PivotJoinSpec.
Import Metadata MetadataDiscovery.
Module QBH := QueryBuilderHelper.

(** What tells a relation apart: the fields no step of the pivot definition
    writes. *)
Definition sameRelation (p p' : EntityProperty) : Prop :=
  name p' = name p /\ type p' = type p /\ owner p' = owner p
  /\ pivotTable p' = pivotTable p.

Lemma sameRelation_refl p : sameRelation p p.
Proof. by repeat split. Qed.

Lemma sameRelation_trans p1 p2 p3 :
  sameRelation p1 p2 -> sameRelation p2 p3 -> sameRelation p1 p3.
Proof. unfold sameRelation. intros (?&?&?&?) (?&?&?&?). repeat split; congruence. Qed.

(** The storage [ms'] holds every property of [ms], as the same relation. *)
Definition keepsRelations (ms ms' : MetadataStorage) : Prop :=
  forall e k p, getProperty ms e k = Some p ->
    exists p', getProperty ms' e k = Some p' /\ sameRelation p p'.

Lemma keepsRelations_refl ms : keepsRelations ms ms.
Proof. intros e k p Hp. exists p. split; [done | apply sameRelation_refl]. Qed.

Lemma keepsRelations_trans ms1 ms2 ms3 :
  keepsRelations ms1 ms2 -> keepsRelations ms2 ms3 -> keepsRelations ms1 ms3.
Proof.
  intros H12 H23 e k p Hp. destruct (H12 e k p Hp) as (p2 & Hp2 & Hs2).
  destruct (H23 e k p2 Hp2) as (p3 & Hp3 & Hs3).
  exists p3. split; [done | by eapply sameRelation_trans].
Qed.

Lemma keepsRelations_update (ms : MetadataStorage) (e k : string)
    (f : EntityProperty -> EntityProperty) :
  (forall p, sameRelation p (f p)) ->
  keepsRelations ms (updateProperty e k f ms).
Proof.
  intros Hf e' k' p Hp.
  destruct (decide (e' = e /\ k' = k)) as [[-> ->]|Hne].
  - rewrite MetadataDiscoverySpec.getProperty_update_eq, Hp. cbn. by eexists.
  - rewrite MetadataDiscoverySpec.getProperty_update_ne.
    + exists p. split; [done | apply sameRelation_refl].
    + destruct (decide (e' = e)); destruct (decide (k' = k)); tauto.
Qed.

Section Pivot.
Variable propertyToColumnName : string -> string.
Variable joinKeyColumnName : string -> string -> bool -> string.
Variable referenceColumnName : string.

Lemma defineFixedOrderProperty_keepsRelations (ms ms1 : MetadataStorage)
    (entity key : string) (primaryProp : EntityProperty) :
  defineFixedOrderProperty propertyToColumnName referenceColumnName ms entity key
  = Some (ms1, primaryProp) ->
  keepsRelations ms ms1.
Proof.
  unfold defineFixedOrderProperty.
  destruct (getProperty ms entity key) as [prop|]; cbn [mbind option_bind]; [|done].
  set (upd := updateProperty entity key _ ms).
  assert (Hupd : keepsRelations ms upd).
  { apply keepsRelations_update. by intros []. }
  destruct (truthyString (inversedBy prop)) as [inverse|].
  - destruct (getProperty upd (type prop) inverse); cbn [mbind option_bind]; [|done].
    intros [= <- _]. eapply keepsRelations_trans; [exact Hupd|].
    apply keepsRelations_update. by intros [].
  - by intros [= <- _].
Qed.

Lemma disambiguate_keepsRelations (ms ms2 : MetadataStorage) (entity key : string) :
  disambiguate joinKeyColumnName ms entity key = Some ms2 ->
  keepsRelations ms ms2.
Proof.
  unfold disambiguate.
  destruct (find entity ms) as [meta|]; cbn [mbind option_bind]; [|done].
  destruct (Js.get key (properties meta)) as [prop|]; cbn [mbind option_bind]; [|done].
  destruct (String.eqb _ _); [|intros [= <-]; apply keepsRelations_refl].
  destruct (joinColumns prop) as [jcs|]; cbn [mbind option_bind]; [|done].
  destruct (match jcs with [] => Some [] | _ :: _ => inverseJoinColumns prop end)
    as [inv|]; cbn [mbind option_bind]; [|done].
  destruct (everyEqual jcs inv); [|intros [= <-]; apply keepsRelations_refl].
  destruct (referencedColumnNames prop) as [referenced|]; cbn [mbind option_bind]; [|done].
  set (ms1 := updateProperty entity key _ ms).
  assert (H1 : keepsRelations ms ms1).
  { apply keepsRelations_update. by intros []. }
  destruct (truthyString (inversedBy prop)) as [inverse|]; [|by intros [= <-]].
  destruct (getProperty ms1 (type prop) inverse); cbn [mbind option_bind]; [|done].
  destruct (getProperty ms1 entity key) as [prop'|]; cbn [mbind option_bind]; [|done].
  set (ms2' := updateProperty (type prop) inverse _ ms1).
  assert (H2 : keepsRelations ms1 ms2').
  { apply keepsRelations_update. by intros []. }
  destruct (getProperty ms2' entity key) as [prop''|]; cbn [mbind option_bind]; [|done].
  intros [= <-]. eapply keepsRelations_trans; [exact H1|].
  eapply keepsRelations_trans; [exact H2|].
  apply keepsRelations_update. by intros [].
Qed.

(** X19: the pivot entity that the discovery defines for an owning many-to-many
    property is the one the query builder looks for when it joins through
    the property: the entity is stored under the property's pivot table, it
    holds the property [<target>_inverse], and the two joins are the hop
    into the pivot table over the property's join columns and the hop out of
    it over the property's inverse join columns. *)
Theorem pivot_entity_serves_the_join (ms ms' : MetadataStorage) (entity key : string)
    (data : EntityMetadata) (ownerAlias_ alias pivotAlias : string)
    (type_ : QBH.JoinType) (cond : QBH.Value) :
  definePivotTableEntity propertyToColumnName joinKeyColumnName referenceColumnName
    ms entity key = Some (ms', data) ->
  meta_name data <> entity ->
  type_ <> QBH.pivotJoin ->
  exists prop inverseProp,
    getProperty ms' entity key = Some prop
    /\ pivotTable prop = Some (meta_name data)
    /\ find (meta_name data) ms' = Some data
    /\ Js.get (type prop +:+ "_inverse") (properties data) = Some inverseProp
    /\ fieldNames inverseProp = inverseJoinColumns prop
    /\ (owner prop = true ->
        QBH.joinManyToManyReference ms' prop ownerAlias_ alias pivotAlias type_ cond None
        = Js.Normal
            (Js.set (pivotAlias +:+ "." +:+ type prop +:+ "_inverse")
               (QBH.mkJoinOptions inverseProp type_ (QBH.VObj []) pivotAlias alias None
                  (Some (QBH.getTableName ms' (type prop)))
                  (referencedColumnNames inverseProp) None (inverseJoinColumns prop) None)
               [(ownerAlias_ +:+ "." +:+ name prop,
                 QBH.mkJoinOptions prop type_ cond ownerAlias_ pivotAlias (Some alias)
                   (Some (meta_name data)) (joinColumns prop) (inverseJoinColumns prop)
                   (referencedColumnNames prop) None)])).
Proof.
  unfold definePivotTableEntity. intros Hdef Hne Htype.
  destruct (find entity ms) as [meta|] eqn:Hmeta; cbn [mbind option_bind] in Hdef; [|done].
  destruct (Js.get key (properties meta)) as [prop0|] eqn:Hprop0;
    cbn [mbind option_bind] in Hdef; [|done].
  destruct (pivotTable prop0) as [pivot|] eqn:Hpivot; cbn [mbind option_bind] in Hdef; [|done].
  assert (Hgp0 : getProperty ms entity key = Some prop0).
  { unfold getProperty. by rewrite Hmeta. }
  destruct (match fixedOrder prop0 with
            | Some true => _
            | _ => Some (ms, None)
            end) as [[ms1 fixed]|] eqn:Hfixed; cbn [mbind option_bind] in Hdef; [|done].
  assert (H1 : keepsRelations ms ms1).
  { destruct (fixedOrder prop0) as [[|]|].
    - destruct (defineFixedOrderProperty _ _ ms entity key) as [[ms1' pp]|] eqn:Hf;
        cbn [mbind option_bind] in Hfixed; [|done].
      injection Hfixed as <- _. by eapply defineFixedOrderProperty_keepsRelations.
    - injection Hfixed as <- _. apply keepsRelations_refl.
    - injection Hfixed as <- _. apply keepsRelations_refl. }
  destruct (disambiguate joinKeyColumnName ms1 entity key) as [ms2|] eqn:Hdis;
    cbn [mbind option_bind] in Hdef; [|done].
  pose proof (disambiguate_keepsRelations _ _ _ _ Hdis) as H2.
  destruct (getProperty ms2 entity key) as [prop|] eqn:Hprop;
    cbn [mbind option_bind] in Hdef; [|done].
  destruct (keepsRelations_trans _ _ _ H1 H2 _ _ _ Hgp0) as (prop' & Hprop' & Hsame).
  rewrite Hprop in Hprop'. injection Hprop' as <-.
  destruct Hsame as (Hname & Htype' & Howner & Hpivot').
  unfold definePivotProperty in Hdef.
  destruct (find (meta_name meta) ms2) as [ownerMeta|]; cbn [mbind option_bind] in Hdef; [|done].
  destruct (find (type prop0) ms2) as [target|]; cbn [mbind option_bind] in Hdef; [|done].
  injection Hdef as <- <-. cbn [meta_name properties] in *.
  eexists prop, _. split.
  { unfold getProperty, find in *. by rewrite MetadataDiscoverySpec.get_set_ne. }
  split; [congruence|]. split; [apply MetadataDiscoverySpec.get_set_eq|].
  split; [rewrite Htype'; apply MetadataDiscoverySpec.get_set_eq|].
  split; [done|].
  intros Hown. unfold QBH.joinManyToManyReference.
  rewrite Hpivot', Hpivot. cbn [Js.text QBH.truthyPath].
  destruct type_; [| |done].
  all: unfold find; rewrite MetadataDiscoverySpec.get_set_eq; cbn [properties];
    rewrite Hown, Htype', MetadataDiscoverySpec.get_set_eq; reflexivity.
Qed.

End Pivot.

(** *** Example: the friends of a friend *)

Lemma pivot_entity_serves_the_join_witness :
  exists ms' data prop,
    definePivotTableEntity id MetadataDiscoverySpec.underscoreJoinKey "id"
      [("Friend", MetadataDiscoverySpec.friendMeta)] "Friend" "friends" = Some (ms', data)
    /\ getProperty ms' "Friend" "friends" = Some prop
    /\ Js.bind (QBH.joinManyToManyReference ms' prop "e0" "e1" "e2" QBH.leftJoin
                  (QBH.VObj []) None)
               JoinSpec.joinsExample
       = Js.Normal
           [QBH.Join QBH.leftJoin "friend_friends as e2"
              [QBH.OnColumns "e0.id" "e2.friend_1_id"];
            QBH.Join QBH.leftJoin "friend as e1"
              [QBH.OnColumns "e2.friend_2_id" "e1.id"]].
Proof.
  destruct (definePivotTableEntity id MetadataDiscoverySpec.underscoreJoinKey "id"
              [("Friend", MetadataDiscoverySpec.friendMeta)] "Friend" "friends")
    as [[ms' data]|] eqn:Hdef; [|by vm_compute in Hdef].
  assert (Hname : meta_name data <> "Friend").
  { pose proof Hdef as H. vm_compute in H. injection H as _ <-. discriminate. }
  destruct (pivot_entity_serves_the_join id MetadataDiscoverySpec.underscoreJoinKey "id"
              _ ms' "Friend" "friends" data "e0" "e1" "e2" QBH.leftJoin (QBH.VObj [])
              Hdef Hname ltac:(discriminate))
    as (prop & inverseProp & Hprop & _ & _ & Hinverse & _ & Hjoin).
  exists ms', data, prop. split; [reflexivity|]. split; [exact Hprop|].
  vm_compute in Hdef. injection Hdef as <- <-.
  vm_compute in Hprop. injection Hprop as <-.
  vm_compute in Hinverse. injection Hinverse as <-.
  rewrite (Hjoin eq_refl). reflexivity.
Defined.

End PivotJoinSpec.

(** ** Wiring the two sides of a relation *)

Module AutoWireSpec.
Import Metadata MetadataDiscovery.

(** What a round may do to a property: nothing, or fill an unset
    [inversedBy] with the name of an inverse side that is mapped by it. *)
Definition wiredFrom (sides : list EntityProperty) (e k : string)
    (p p' : EntityProperty) : Prop :=
  p' = p
  \/ (truthyString (inversedBy p) = None
      /\ exists side, In side sides /\ type side = e /\ mappedBy side = Some k
                      /\ p' = set_inversedBy (Some (name side)) p).

Lemma set_inversedBy_twice v w p :
  set_inversedBy v (set_inversedBy w p) = set_inversedBy v p.
Proof. by destruct p. Qed.

Lemma inversedBy_set v p : inversedBy (set_inversedBy v p) = v.
Proof. by destruct p. Qed.

Lemma autoWire_failed (sides : list EntityProperty) :
  List.fold_left autoWire sides None = None.
Proof. induction sides as [|s sides IH]; [done | exact IH]. Qed.

Lemma mappedBy_text (side : EntityProperty) :
  isInverseSide side = true -> mappedBy side = Some (Js.text (mappedBy side)).
Proof.
  unfold isInverseSide. intros [_ H]%andb_prop.
  by destruct (mappedBy side).
Qed.

(** One round, seen from a property of the storage. *)
Lemma autoWire_step (ms ms' : MetadataStorage) (side : EntityProperty)
    (e k : string) (p : EntityProperty) :
  isInverseSide side = true ->
  autoWire (Some ms) side = Some ms' ->
  getProperty ms e k = Some p ->
  exists p', getProperty ms' e k = Some p'
             /\ (p' = p
                 \/ (truthyString (inversedBy p) = None /\ type side = e
                     /\ mappedBy side = Some k
                     /\ p' = set_inversedBy (Some (name side)) p)).
Proof.
  intros Hside. unfold autoWire. cbn [mbind option_bind].
  destruct (find (type side) ms) as [meta2|] eqn:Hm; cbn [mbind option_bind]; [|done].
  destruct (Js.get (Js.text (mappedBy side)) (properties meta2)) as [prop2|] eqn:Hp2.
  - destruct (truthyString (inversedBy prop2)) eqn:Hinv.
    + intros [= <-] Hp. exists p. auto.
    + intros [= <-] Hp.
      destruct (decide (e = type side /\ k = Js.text (mappedBy side))) as [[-> ->]|Hne].
      * rewrite MetadataDiscoverySpec.getProperty_update_eq, Hp. cbn.
        eexists. split; [done|]. right.
        assert (p = prop2) as ->.
        { unfold getProperty in Hp. rewrite Hm in Hp. cbn in Hp. congruence. }
        split; [done|]. split; [done|]. split; [by apply mappedBy_text | done].
      * rewrite MetadataDiscoverySpec.getProperty_update_ne.
        -- exists p. auto.
        -- destruct (decide (e = type side));
             destruct (decide (k = Js.text (mappedBy side))); tauto.
  - intros [= <-] Hp. exists p. auto.
Qed.

Lemma autoWire_all (sides every : list EntityProperty) (ms ms' : MetadataStorage) :
  (forall side, In side sides -> In side every /\ isInverseSide side = true) ->
  List.fold_left autoWire sides (Some ms) = Some ms' ->
  forall e k p, getProperty ms e k = Some p ->
    exists p', getProperty ms' e k = Some p' /\ wiredFrom every e k p p'.
Proof.
  revert ms. induction sides as [|side sides IH]; intros ms Hsides Hfold e k p Hp.
  - injection Hfold as <-. exists p. split; [done | by left].
  - cbn [List.fold_left] in Hfold.
    destruct (autoWire (Some ms) side) as [ms1|] eqn:Hstep;
      [|by rewrite autoWire_failed in Hfold].
    destruct (Hsides side ltac:(by left)) as [Hin Hside].
    destruct (autoWire_step ms ms1 side e k p Hside Hstep Hp) as (p1 & Hp1 & Hw1).
    destruct (IH ms1 ltac:(intros s Hs; apply Hsides; by right) Hfold e k p1 Hp1)
      as (p' & Hp' & Hw).
    exists p'. split; [done|].
    destruct Hw1 as [->|(Hunset & Hty & Hmap & ->)]; [done|].
    destruct Hw as [->|(Hunset' & side' & Hin' & Hty' & Hmap' & ->)].
    + right. split; [done|]. by exists side.
    + right. split; [done|]. exists side'. by rewrite set_inversedBy_twice.
Qed.

(** X20: auto-wiring never overrides: every property of the storage is still
    there afterwards, and it is what it was unless its [inversedBy] was unset
    and an inverse side of the entity is mapped by it; then it is the same
    property with [inversedBy] set to the name of such an inverse side. *)
Theorem autowire_only_fills_unset_inversedBy (ms ms' : MetadataStorage)
    (metaKey : string) (meta : EntityMetadata) :
  find metaKey ms = Some meta ->
  autoWireBidirectionalProperties ms metaKey = Some ms' ->
  forall e k p, getProperty ms e k = Some p ->
    exists p', getProperty ms' e k = Some p'
               /\ wiredFrom (List.filter isInverseSide (Js.values (properties meta))) e k p p'.
Proof.
  intros Hmeta. unfold autoWireBidirectionalProperties. rewrite Hmeta.
  cbn [mbind option_bind]. intros Hfold. eapply autoWire_all; [|exact Hfold].
  intros side Hin. split; [done|]. by apply List.filter_In in Hin as [_ ?].
Qed.

(** Once a property has some [inversedBy], later rounds leave it one. *)
Lemma autoWire_keeps_set (sides : list EntityProperty) (ms ms' : MetadataStorage)
    (e k : string) (p : EntityProperty) :
  (forall side, In side sides -> isInverseSide side = true) ->
  List.fold_left autoWire sides (Some ms) = Some ms' ->
  getProperty ms e k = Some p -> is_Some (inversedBy p) ->
  exists p', getProperty ms' e k = Some p' /\ is_Some (inversedBy p').
Proof.
  intros Hsides Hfold Hp Hset.
  destruct (autoWire_all sides sides ms ms' ltac:(intros s Hs; split; auto) Hfold e k p Hp)
    as (p' & Hp' & Hw).
  exists p'. split; [done|].
  destruct Hw as [->|(_ & side & _ & _ & _ & ->)]; [done|].
  rewrite inversedBy_set. by eexists.
Qed.

(** X21: auto-wiring links the two sides: after it, the property that an inverse
    side of the entity is mapped by, if the target entity has it, carries an
    [inversedBy]. *)
Theorem autowire_sets_the_owning_side (ms ms' : MetadataStorage) (metaKey : string)
    (meta : EntityMetadata) (side prop2 : EntityProperty) (k : string) :
  find metaKey ms = Some meta ->
  autoWireBidirectionalProperties ms metaKey = Some ms' ->
  In side (Js.values (properties meta)) ->
  isInverseSide side = true ->
  mappedBy side = Some k ->
  getProperty ms (type side) k = Some prop2 ->
  exists prop2', getProperty ms' (type side) k = Some prop2'
                 /\ is_Some (inversedBy prop2').
Proof.
  intros Hmeta. unfold autoWireBidirectionalProperties. rewrite Hmeta.
  cbn [mbind option_bind]. intros Hfold Hin Hside Hmap Hp2.
  assert (Hfiltered : In side (List.filter isInverseSide (Js.values (properties meta)))).
  { apply List.filter_In. by split. }
  assert (Hall : forall s, In s (List.filter isInverseSide (Js.values (properties meta))) ->
                   isInverseSide s = true).
  { intros s Hs. by apply List.filter_In in Hs as [_ ?]. }
  revert Hfold Hfiltered Hall Hp2. generalize (List.filter isInverseSide (Js.values (properties meta))).
  intros sides. clear Hmeta. revert ms prop2.
  induction sides as [|s sides IH]; intros ms prop2 Hfold Hin' Hall Hp2; [destruct Hin'|].
  cbn [List.fold_left] in Hfold.
  destruct (autoWire (Some ms) s) as [ms1|] eqn:Hstep;
    [|by rewrite autoWire_failed in Hfold].
  destruct Hin' as [->|Hin'].
  - assert (exists p1, getProperty ms1 (type side) k = Some p1 /\ is_Some (inversedBy p1))
      as (p1 & Hp1 & Hset).
    { revert Hstep. unfold autoWire. cbn [mbind option_bind].
      unfold getProperty in Hp2.
      destruct (find (type side) ms) as [meta2|] eqn:Hm; cbn [mbind option_bind] in *; [|done].
      rewrite Hmap. cbn [Js.text]. rewrite Hp2.
      destruct (truthyString (inversedBy prop2)) eqn:Hinv.
      - intros [= <-]. exists prop2. split; [by unfold getProperty; rewrite Hm|].
        unfold truthyString in Hinv. destruct (inversedBy prop2); [by eexists | done].
      - intros [= <-]. rewrite MetadataDiscoverySpec.getProperty_update_eq.
        unfold getProperty. rewrite Hm. cbn. rewrite Hp2. cbn.
        eexists. split; [done|]. rewrite inversedBy_set. by eexists. }
    eapply autoWire_keeps_set; [|exact Hfold|exact Hp1|exact Hset].
    intros s' Hs'. apply Hall. by right.
  - destruct (autoWire_step ms ms1 s (type side) k prop2 (Hall s ltac:(by left)) Hstep Hp2)
      as (p1 & Hp1 & _).
    eapply (IH ms1 p1); [exact Hfold | exact Hin' | | exact Hp1].
    intros s' Hs'. apply Hall. by right.
Qed.

(** An owner [Author.books] without [inversedBy] and the inverse side
    [Book.author], which is mapped by it. *)
Definition wiringExample : MetadataStorage :=
  let books := blankProperty "books" "Book" ONE_TO_MANY in
  let author :=
    mkProp "author" "Author" ONE_TO_ONE false false false true false false false false None
           false Unset Unset [] None None None None None None None None (Some "books") None in
  [("Author",
    mkMeta "Author" "Author" "author" None None false false [books] [books]
           [("books", books)] [] false [] [] None None None None);
   ("Book",
    mkMeta "Book" "Book" "book" None None false false [author] [author]
           [("author", author)] [] false [] [] None None None None)].

Example wiring_result :
  (fun ms' => inversedBy <$> getProperty ms' "Author" "books")
  <$> autoWireBidirectionalProperties wiringExample "Book"
  = Some (Some (Some "author")).
Proof. reflexivity. Qed.

Lemma autowire_only_fills_unset_inversedBy_witness :
  exists ms',
    autoWireBidirectionalProperties wiringExample "Book" = Some ms'
    /\ exists p', getProperty ms' "Book" "author" = Some p'.
Proof.
  destruct (autoWireBidirectionalProperties wiringExample "Book") as [ms'|] eqn:Hwire;
    [|by vm_compute in Hwire].
  exists ms'. split; [done|].
  destruct (autowire_only_fills_unset_inversedBy wiringExample ms' "Book" _ eq_refl Hwire
              "Book" "author" _ eq_refl) as (p' & Hp' & _).
  by exists p'.
Defined.

Lemma autowire_sets_the_owning_side_witness :
  exists ms',
    autoWireBidirectionalProperties wiringExample "Book" = Some ms'
    /\ exists prop2', getProperty ms' "Author" "books" = Some prop2'
                      /\ is_Some (inversedBy prop2').
Proof.
  destruct (autoWireBidirectionalProperties wiringExample "Book") as [ms'|] eqn:Hwire;
    [|by vm_compute in Hwire].
  exists ms'. split; [done|].
  exact (autowire_sets_the_owning_side wiringExample ms' "Book" _ _ _ "books" eq_refl Hwire
           (or_introl eq_refl) eq_refl eq_refl eq_refl).
Defined.

End AutoWireSpec.

(** ** Creating, dropping and re-synchronising a schema *)

Module SchemaLifecycleSpec.
Import Metadata Schema SchemaGenerator.

Lemma flat_map_single {A B} (f : A -> B) (l : list A) :
  List.flat_map (fun x => [f x]) l = List.map f l.
Proof. induction l as [|x l IH]; cbn; [done | by rewrite IH]. Qed.

Lemma flat_map_nil {A B} (f : A -> list B) (l : list A) :
  (forall x, In x l -> f x = []) -> List.flat_map f l = [].
Proof.
  induction l as [|x l IH]; intros H; cbn; [done|].
  rewrite (H x) by (by left). apply IH. intros y Hy. apply H. by right.
Qed.

(** The tables a list of statements creates, and the tables it drops. *)
Definition createdTables (ops : list SchemaOp) : list string :=
  List.flat_map (fun op => match op with CreateTable n _ => [n] | _ => [] end) ops.

Definition droppedTables (ops : list SchemaOp) : list string :=
  List.flat_map (fun op => match op with DropTableIfExists n _ => [n] | _ => [] end) ops.

Lemma createdTables_app (l1 l2 : list SchemaOp) :
  createdTables (l1 ++ l2) = createdTables l1 ++ createdTables l2.
Proof. apply List.flat_map_app. Qed.

Lemma droppedTables_app (l1 l2 : list SchemaOp) :
  droppedTables (l1 ++ l2) = droppedTables l1 ++ droppedTables l2.
Proof. apply List.flat_map_app. Qed.

Lemma createdTables_alter {A} (f : A -> string) (g : A -> list TableOp) (l : list A) :
  createdTables (List.map (fun x => AlterTable (f x) (g x)) l) = [].
Proof. induction l as [|x l IH]; cbn; [done | exact IH]. Qed.

Section Platform.
Variable isSame : EntityProperty -> Column -> option nat -> IsSame.
Variable supportsColumnAlter : bool.
Variable supportsSchemaConstraints : bool.
Variable getIndexName : string -> list string -> IndexKind -> string.
Variable isImplicitIndex : string -> bool.
Variable usesCascadeStatement : bool.

Abbreviation update :=
  (getUpdateSchemaSQL isSame supportsColumnAlter supportsSchemaConstraints getIndexName
     isImplicitIndex usesCascadeStatement).
Abbreviation create := (getCreateSchemaSQL supportsSchemaConstraints getIndexName).
Abbreviation drop := (getDropSchemaSQL usesCascadeStatement).

(** X22: against a database without tables, the schema update is the schema
    creation, statement for statement, whatever the [safe] and [dropTables]
    flags say. *)
Theorem update_of_empty_schema_is_create (ms : MetadataStorage) (safe dropTables : bool) :
  update ms [] safe dropTables = create ms.
Proof.
  unfold getUpdateSchemaSQL, getCreateSchemaSQL.
  destruct (getOrderedMetadata ms) as [ordered|]; [|done].
  fold (orderedMetadata ordered).
  unfold getUpdateTableSQL, getUpdateTableFKsSQL, getUpdateTableIndexesSQL.
  cbn [getTable List.find List.filter List.map].
  rewrite !flat_map_single, app_nil_r.
  by destruct (negb dropTables || safe).
Qed.

Lemma createdTables_createTable (metadata : list EntityMetadata) :
  createdTables (List.map (createTable supportsSchemaConstraints) metadata)
  = List.map collection metadata.
Proof. induction metadata as [|m l IH]; cbn; [done | by rewrite <- IH]. Qed.

(** X23: the schema is dropped in the reverse of the order it is created in: the
    drop statements are one [drop table if exists] per created table, last
    created first, followed by the migrations table when that is asked
    for. *)
Theorem drop_reverses_create (ms : MetadataStorage) (dropMigrationsTable : bool)
    (migrationsTableName : string) (created : list SchemaOp) :
  create ms = COC.Sorted created ->
  drop ms dropMigrationsTable migrationsTableName
  = COC.Sorted
      (List.map (dropTable usesCascadeStatement) (List.rev (createdTables created))
       ++ (if dropMigrationsTable then [dropTable usesCascadeStatement migrationsTableName]
           else [])).
Proof.
  unfold getCreateSchemaSQL, getDropSchemaSQL.
  destruct (getOrderedMetadata ms) as [ordered|]; [|done].
  intros [= <-]. do 2 f_equal.
  rewrite !createdTables_app, !createdTables_alter, !app_nil_r, createdTables_createTable.
  by rewrite <- List.map_rev, List.map_map.
Qed.

(** *** A schema that is up to date *)

(** Every column [computeColumnDifference] looks up for [prop] is in the
    table and, where columns can be altered, the same as the property wants
    it. *)
Fixpoint columnsPresent (table : DatabaseTable) (prop : EntityProperty)
    (cols : list string) (idx : nat) : bool :=
  match cols with
  | [] => true
  | c :: cols' =>
      match getColumn c table with
      | Some column =>
          (negb supportsColumnAlter || all (isSame prop column (Some idx)))
          && columnsPresent table prop cols' (S idx)
      | None => false
      end
  end.

(** The table matches the entity: the columns of every property are
    present, every live column belongs to a property, every declared index
    exists under its name, and every live index is expected or implicit. *)
Definition inSync (meta : EntityMetadata) (table : DatabaseTable) : bool :=
  List.forallb
    (fun prop => columnsPresent table prop (SchemaGeneratorSpec.columnNames prop) 0)
    (columnProps supportsSchemaConstraints meta)
  && List.forallb (hasCounterpart (columnProps supportsSchemaConstraints meta))
                  (getColumns table)
  && List.forallb
       (fun d => Js.includes (def_keyName d) (Js.keys (getIndexes table)))
       (declaredIndexes getIndexName meta)
  && List.forallb
       (fun entry : string * list Index =>
          Js.includes (fst entry) (expectedIndexes getIndexName meta)
          || isImplicitIndex (fst entry))
       (getIndexes table).

Lemma forEachIdx_present (table : DatabaseTable) (prop : EntityProperty)
    (cols : list string) (idx : nat) (acc : list EntityProperty * list UpdateEntry) :
  columnsPresent table prop cols idx = true ->
  Js.forEachIdx (computeColumnDifferenceAt isSame supportsColumnAlter table prop) cols idx acc
  = acc.
Proof.
  revert idx acc. induction cols as [|c cols IH]; intros idx acc; cbn; [done|].
  unfold computeColumnDifferenceAt at 2.
  destruct (getColumn c table) as [column|]; [|done].
  intros [Hsame Hrest]%andb_prop. rewrite IH by done.
  destruct supportsColumnAlter; [|done]. cbn in Hsame. by rewrite Hsame.
Qed.

Lemma columnDifferences_present (table : DatabaseTable) (ps : list EntityProperty)
    (acc : list EntityProperty * list UpdateEntry) :
  List.forallb
    (fun prop => columnsPresent table prop (SchemaGeneratorSpec.columnNames prop) 0) ps = true ->
  List.fold_left
    (fun acc prop => computeColumnDifference isSame supportsColumnAlter table prop acc) ps acc
  = acc.
Proof.
  induction ps as [|p ps IH]; cbn; [done|].
  intros [Hp Hps]%andb_prop. rewrite <- (IH Hps) at 2. f_equal.
  unfold computeColumnDifference. unfold SchemaGeneratorSpec.columnNames in Hp.
  destruct (isToOne p); by apply forEachIdx_present.
Qed.

Lemma filter_none {A} (f : A -> bool) (l : list A) :
  List.forallb f l = true -> List.filter (fun x => negb (f x)) l = [].
Proof.
  induction l as [|x l IH]; cbn; [done|].
  intros [Hx Hl]%andb_prop. rewrite Hx. cbn. by apply IH.
Qed.

(** For a table that matches its entity, the table difference is empty. *)
Lemma inSync_difference (meta : EntityMetadata) (table : DatabaseTable) (safe : bool) :
  inSync meta table = true ->
  computeTableDifference isSame supportsColumnAlter supportsSchemaConstraints getIndexName
    isImplicitIndex meta table safe
  = mkDiff [] [] [] [] [] [].
Proof.
  unfold inSync. intros [[[Hcols Hlive]%andb_prop Hdecl]%andb_prop Hidx]%andb_prop.
  unfold computeTableDifference, columnDifferences, unmatchedColumns.
  rewrite (columnDifferences_present _ _ _ Hcols), (filter_none _ _ Hlive).
  cbn [fst snd findRenamedColumns renamedEntries flat_map fold_left List.filter List.map app].
  unfold findIndexDifference. rewrite (filter_none _ _ Hdecl).
  rewrite (flat_map_nil _ (getIndexes table)).
  - by destruct safe.
  - intros [name index] Hin. rewrite forallb_forall in Hidx.
    specialize (Hidx _ Hin). cbn [fst] in Hidx.
    apply orb_prop in Hidx as [-> | ->]; [done|]. by rewrite andb_false_r.
Qed.

(** X24: updating a schema that is up to date emits no statement: when every
    entity in commit order has its table and the table matches it, and no
    table without an entity is about to be dropped, [getUpdateSchemaSQL]
    returns the empty list. *)
Theorem synchronized_schema_needs_no_update (ms : MetadataStorage)
    (schema : DatabaseSchema) (safe dropTables : bool)
    (ordered : list (option EntityMetadata)) :
  getOrderedMetadata ms = COC.Sorted ordered ->
  (forall meta,
      In meta (orderedMetadata ordered) ->
      exists table, getTable (collection meta) schema = Some table
                    /\ inSync meta table = true) ->
  (safe = false -> dropTables = true ->
   forall table,
     In table schema ->
     Js.includes (table_name table) (List.map collection (orderedMetadata ordered)) = true) ->
  update ms schema safe dropTables = COC.Sorted [].
Proof.
  intros Hordered Hsync Hdefined. unfold getUpdateSchemaSQL. rewrite Hordered.
  fold (orderedMetadata ordered).
  assert (Htables : List.flat_map
            (fun meta => getUpdateTableSQL isSame supportsColumnAlter supportsSchemaConstraints
                           getIndexName isImplicitIndex meta schema safe)
            (orderedMetadata ordered) = []).
  { apply flat_map_nil. intros meta Hin. destruct (Hsync meta Hin) as (table & Ht & Hs).
    unfold getUpdateTableSQL, updateTable. rewrite Ht.
    by rewrite (inSync_difference meta table safe Hs). }
  assert (Hfks : List.flat_map
            (fun meta => getUpdateTableFKsSQL isSame supportsColumnAlter
                           supportsSchemaConstraints getIndexName isImplicitIndex meta schema)
            (orderedMetadata ordered) = []).
  { apply flat_map_nil. intros meta Hin. destruct (Hsync meta Hin) as (table & Ht & Hs).
    unfold getUpdateTableFKsSQL. rewrite Ht.
    by rewrite (inSync_difference meta table true Hs). }
  assert (Hidx : List.flat_map
            (fun meta => getUpdateTableIndexesSQL isSame supportsColumnAlter
                           supportsSchemaConstraints getIndexName isImplicitIndex meta schema)
            (orderedMetadata ordered) = []).
  { apply flat_map_nil. intros meta Hin. destruct (Hsync meta Hin) as (table & Ht & Hs).
    unfold getUpdateTableIndexesSQL. rewrite Ht.
    by rewrite (inSync_difference meta table true Hs). }
  rewrite Htables, Hfks, Hidx. cbn [app].
  destruct (negb dropTables || safe) eqn:E; [done|].
  apply orb_false_elim in E as [Hd ->]. apply negb_false_iff in Hd.
  rewrite (filter_none
             (fun table => Js.includes (table_name table)
                             (List.map collection (orderedMetadata ordered))) schema); [done|].
  apply forallb_forall. intros table Hin. by apply Hdefined.
Qed.

(** *** Which tables an update drops *)

Lemma droppedTables_nil (ops : list SchemaOp) :
  Forall (fun op => isDropTable op = false) ops -> droppedTables ops = [].
Proof.
  unfold droppedTables. induction 1 as [|op ops Hop _ IH]; cbn [flat_map]; [done|].
  rewrite IH, app_nil_r. by destruct op.
Qed.

Lemma droppedTables_flat_map {A} (f : A -> list SchemaOp) (l : list A) :
  (forall x, Forall (fun op => isDropTable op = false) (f x)) ->
  droppedTables (List.flat_map f l) = [].
Proof.
  intros H. apply droppedTables_nil, SchemaGeneratorSpec.Forall_flat_map. intros x _. apply H.
Qed.

Lemma droppedTables_dropTable (names : list string) :
  droppedTables (List.map (dropTable usesCascadeStatement) names) = names.
Proof.
  unfold droppedTables. induction names as [|n l IH]; cbn [List.map flat_map]; [done|].
  rewrite IH. reflexivity.
Qed.

Lemma filter_names (f : string -> bool) (tables : list DatabaseTable) :
  List.map table_name (List.filter (fun table => f (table_name table)) tables)
  = List.filter f (List.map table_name tables).
Proof.
  induction tables as [|t l IH]; cbn; [done|].
  destruct (f (table_name t)); cbn; by rewrite IH.
Qed.

(** X25: the tables an update drops are the live tables that no entity in commit
    order maps to, in the order the live schema lists them, and only when
    [dropTables] is set and [safe] is not; neither the table statements nor
    the foreign-key and index statements ever drop a table. *)
Theorem update_drops_unmapped_tables (ms : MetadataStorage) (schema : DatabaseSchema)
    (safe dropTables : bool) (ordered : list (option EntityMetadata)) :
  getOrderedMetadata ms = COC.Sorted ordered ->
  exists ops,
    update ms schema safe dropTables = COC.Sorted ops
    /\ droppedTables ops
       = if negb dropTables || safe then []
         else List.filter
                (fun name =>
                   negb (Js.includes name (List.map collection (orderedMetadata ordered))))
                (List.map table_name schema).
Proof.
  intros Hordered. unfold getUpdateSchemaSQL. rewrite Hordered.
  fold (orderedMetadata ordered).
  assert (Hkeep : forall ops',
            droppedTables
              ((List.flat_map
                  (fun meta => getUpdateTableSQL isSame supportsColumnAlter
                                 supportsSchemaConstraints getIndexName isImplicitIndex
                                 meta schema safe) (orderedMetadata ordered)
                ++ List.flat_map
                     (fun meta => getUpdateTableFKsSQL isSame supportsColumnAlter
                                    supportsSchemaConstraints getIndexName isImplicitIndex
                                    meta schema) (orderedMetadata ordered)
                ++ List.flat_map
                     (fun meta => getUpdateTableIndexesSQL isSame supportsColumnAlter
                                    supportsSchemaConstraints getIndexName isImplicitIndex
                                    meta schema) (orderedMetadata ordered)) ++ ops')
            = droppedTables ops').
  { intros ops'. rewrite !droppedTables_app, !droppedTables_flat_map; [done| | |].
    - intros meta. unfold getUpdateTableIndexesSQL. destruct (getTable _ _).
      + apply Forall_app_2; apply SchemaGeneratorSpec.Forall_map'; by intros.
      + by repeat constructor.
    - intros meta. unfold getUpdateTableFKsSQL. destruct (getTable _ _).
      + destruct (Nat.eqb _ 0); by repeat constructor.
      + by repeat constructor.
    - intros meta. unfold getUpdateTableSQL, updateTable. destruct (getTable _ _).
      + destruct (Nat.eqb _ 0); [constructor|].
        apply Forall_app_2; [apply SchemaGeneratorSpec.Forall_map'; by intros|].
        by repeat constructor.
      + by repeat constructor. }
  destruct (negb dropTables || safe).
  - eexists. split; [done|]. specialize (Hkeep []). rewrite app_nil_r in Hkeep. exact Hkeep.
  - eexists. split; [done|]. rewrite Hkeep.
    rewrite <- (List.map_map table_name (dropTable usesCascadeStatement)).
    rewrite droppedTables_dropTable.
    exact (filter_names
             (fun name => negb (Js.includes name (List.map collection (orderedMetadata ordered))))
             schema).
Qed.

(** *** Indexes *)

Abbreviation difference :=
  (computeTableDifference isSame supportsColumnAlter supportsSchemaConstraints getIndexName
     isImplicitIndex).

Lemma dropIndex_In (meta : EntityMetadata) (table : DatabaseTable) (safe : bool)
    (d : IndexDef) :
  In d (dropIndex (difference meta table safe)) ->
  Js.includes (def_keyName d) (Js.keys (getIndexes table)) = true
  /\ Js.includes (def_keyName d) (expectedIndexes getIndexName meta) = false
  /\ isImplicitIndex (def_keyName d) = false.
Proof.
  intros Hin.
  assert (exists remove,
             In d (snd (findIndexDifference getIndexName isImplicitIndex meta table remove)))
    as [remove Hd].
  { unfold computeTableDifference in Hin. destruct safe; cbn [dropIndex] in Hin; eauto. }
  unfold findIndexDifference in Hd. cbn [snd] in Hd.
  apply in_flat_map in Hd as ([name index] & Hentry & Hd).
  destruct (Js.includes name (expectedIndexes getIndexName meta)) eqn:He; [done|].
  destruct (isImplicitIndex name) eqn:Hi; [done|].
  destruct (willBeRemoved remove index); [done|].
  destruct Hd as [<-|[]]. cbn [def_keyName]. split; [|done].
  apply CommitOrderSpec.includes_In. unfold Js.keys.
  apply in_map_iff. by exists (name, index).
Qed.

Lemma addIndex_In (meta : EntityMetadata) (table : DatabaseTable) (safe : bool)
    (d : IndexDef) :
  In d (addIndex (difference meta table safe)) ->
  In d (declaredIndexes getIndexName meta)
  /\ Js.includes (def_keyName d) (Js.keys (getIndexes table)) = false.
Proof.
  intros Hin.
  assert (exists remove,
             In d (fst (findIndexDifference getIndexName isImplicitIndex meta table remove)))
    as [remove Hd].
  { unfold computeTableDifference in Hin. destruct safe; cbn [addIndex] in Hin; eauto. }
  unfold findIndexDifference in Hd. cbn [fst] in Hd.
  apply List.filter_In in Hd as [Hd Hn]. split; [done|]. by apply negb_true_iff.
Qed.

(** X26: no index is dropped and added under the same name by one table
    difference: what is added is missing from the live table, what is dropped
    is in it. *)
Theorem index_not_dropped_and_added (meta : EntityMetadata) (table : DatabaseTable)
    (safe : bool) (added dropped : IndexDef) :
  In added (addIndex (difference meta table safe)) ->
  In dropped (dropIndex (difference meta table safe)) ->
  def_keyName added <> def_keyName dropped.
Proof.
  intros [_ Ha]%addIndex_In [Hd _]%dropIndex_In E. congruence.
Qed.

(** X27: the indexes that belong to a relation are never dropped: for a to-one
    property of the entity, neither the index nor the foreign-key index that
    the platform names after the property's columns is in the drop list; and
    the same holds for the index or unique constraint a property declares
    itself. *)
Theorem property_indexes_are_kept (meta : EntityMetadata) (table : DatabaseTable)
    (safe : bool) (prop : EntityProperty) (name : string) :
  In prop (props meta) ->
  (isToOne prop = true
   /\ (name = getIndexName (collection meta) (Js.arr (fieldNames prop)) KIndex
       \/ name = getIndexName (collection meta) (Js.arr (fieldNames prop)) KForeign))
  \/ (truthy (index prop) = true
      /\ name = idxName getIndexName meta (index prop) (Js.arr (fieldNames prop)) KIndex)
  \/ (truthy (unique prop) = true
      /\ name = idxName getIndexName meta (unique prop) (Js.arr (fieldNames prop)) KUnique) ->
  ~ In name (List.map def_keyName (dropIndex (difference meta table safe))).
Proof.
  intros Hprop Hname Hin.
  apply in_map_iff in Hin as (d & <- & Hd).
  apply dropIndex_In in Hd as (_ & Hexp & _).
  assert (In (def_keyName d) (expectedIndexes getIndexName meta)) as Hin.
  { unfold expectedIndexes. apply in_or_app. right.
    apply in_flat_map. exists prop. split; [done|]. unfold propertyIndexNames.
    destruct Hname as [[Hto Hn]|[[Ht ->]|[Ht ->]]].
    - rewrite Hto. do 2 (apply in_or_app; right). destruct Hn as [-> | ->]; cbn; auto.
    - rewrite Ht. apply in_or_app. left. by left.
    - rewrite Ht. apply in_or_app. right. apply in_or_app. left. by left. }
  apply CommitOrderSpec.includes_In in Hin. congruence.
Qed.

(** *** One column, two renames *)

(** X28: the rename detection can claim one live column twice.  When two new
    single-column properties both equal the first unmatched column once it
    bears their name, both get a rename entry from that column; the second
    [splice] then finds the column gone, so [indexOf] is -1 and it takes the
    last element of the remove list instead.  With one more unmatched column
    [d], the outcome is: two renames of the same column, no column created
    for the second property, and [d] neither renamed nor removed. *)
Theorem one_column_is_renamed_twice (p1 p2 : EntityProperty) (c d : Column)
    (f1 f2 : string) :
  p1 <> p2 ->
  c <> d ->
  fieldNames p1 = Some [f1] ->
  fieldNames p2 = Some [f2] ->
  all (isSame p1 (withName f1 c) None) = true ->
  all (isSame p2 (withName f2 c) None) = true ->
  findRenamedColumns isSame [p1; p2] [c; d]
  = ([mkRename c p1; mkRename c p2], ([], [])).
Proof.
  intros Hp Hc Hf1 Hf2 H1 H2. unfold findRenamedColumns, renamedEntries.
  cbn [flat_map]. rewrite Hf1, Hf2. cbn [Js.arr flat_map]. unfold findMatch.
  cbn [List.find]. rewrite H1, H2. cbn [app fold_left]. f_equal.
  unfold spliceRenamed, Js.spliceIndexOf. cbn [fst snd ren_to ren_from Js.indexOf].
  destruct (decide (p1 = p1)) as [_|]; [|done].
  destruct (decide (c = c)) as [_|]; [|done]. cbn [Js.removeAt Js.indexOf].
  destruct (decide (p2 = p2)) as [_|]; [|done].
  destruct (decide (c = d)) as [|_]; [done|]. reflexivity.
Qed.

End Platform.

(** *** Databases *)

Section Databases.
Variable getManagementDbName : string.
Variable getCreateDatabaseSQL : string -> string.
Variable getDropDatabaseSQL : string -> string.
Variable ref : string -> string.

(** X29: [ensureDatabase] leaves the configured database name as it found it,
    whether or not the database was there: when it was missing, the create
    statement for that name runs after a reconnect made while the management
    database is configured, and a reconnect to the named database follows.
    [dropDatabase] does not restore the name: it runs its statement after a
    reconnect to the management database and leaves that one configured. *)
Theorem database_name_after_create_and_drop (exists_ : bool) (name : string) (s : Session) :
  dbName (ensureDatabase getManagementDbName getCreateDatabaseSQL ref exists_ s) = dbName s
  /\ calls (ensureDatabase getManagementDbName getCreateDatabaseSQL ref exists_ s)
     = calls s
       ++ (if exists_ then []
           else [Reconnect getManagementDbName;
                 Execute (getCreateDatabaseSQL (ref (dbName s)));
                 Reconnect (dbName s)])
  /\ dbName (dropDatabase getManagementDbName getDropDatabaseSQL ref name s)
     = getManagementDbName
  /\ calls (dropDatabase getManagementDbName getDropDatabaseSQL ref name s)
     = calls s ++ [Reconnect getManagementDbName; Execute (getDropDatabaseSQL (ref name))].
Proof.
  unfold ensureDatabase, createDatabase, dropDatabase, reconnect, setDbName, driverExecute.
  cbn [dbName calls]. rewrite <- !app_assoc. cbn [app].
  destruct exists_; cbn [dbName calls]; rewrite ?app_nil_r, <- ?app_assoc; done.
Qed.

End Databases.

(** *** Examples *)

Definition syncedBook : DatabaseTable :=
  mkTable "book"
    [mkColumn "id" "int" false None None []; mkColumn "title" "varchar" false None None []]
    [].

Example library_create :
  getCreateSchemaSQL true SchemaGeneratorSpec.indexNameExample
    [("Book", SchemaGeneratorSpec.bookEntity)]
  = COC.Sorted
      [CreateTable "book"
         [CreateColumn (SchemaGeneratorSpec.scalarColumn "id" "int") None;
          CreateColumn (SchemaGeneratorSpec.scalarColumn "title" "varchar") None];
       AlterTable "book" []; AlterTable "book" []].
Proof. reflexivity. Qed.

Lemma drop_reverses_create_witness :
  getDropSchemaSQL false [("Book", SchemaGeneratorSpec.bookEntity)] true "migrations"
  = COC.Sorted [DropTableIfExists "book" false; DropTableIfExists "migrations" false].
Proof.
  exact (drop_reverses_create true SchemaGeneratorSpec.indexNameExample false
           [("Book", SchemaGeneratorSpec.bookEntity)] true "migrations" _ library_create).
Defined.

Lemma synchronized_schema_needs_no_update_witness :
  getUpdateSchemaSQL SchemaGeneratorSpec.sameColumn true true
    SchemaGeneratorSpec.indexNameExample (fun _ => false) false
    [("Book", SchemaGeneratorSpec.bookEntity)] [syncedBook] false true
  = COC.Sorted [].
Proof.
  apply (synchronized_schema_needs_no_update SchemaGeneratorSpec.sameColumn true true
           SchemaGeneratorSpec.indexNameExample (fun _ => false) false
           [("Book", SchemaGeneratorSpec.bookEntity)] [syncedBook] false true
           [Some SchemaGeneratorSpec.bookEntity] eq_refl).
  - intros meta [<-|[]]. exists syncedBook. split; reflexivity.
  - intros _ _ table [<-|[]]. reflexivity.
Defined.

Lemma update_drops_unmapped_tables_witness :
  exists ops,
    SchemaGeneratorSpec.updateBooks false = COC.Sorted ops
    /\ droppedTables ops = ["legacy"].
Proof.
  exact (update_drops_unmapped_tables SchemaGeneratorSpec.sameColumn true true
           SchemaGeneratorSpec.indexNameExample (fun _ => false) false
           [("Book", SchemaGeneratorSpec.bookEntity)]
           [SchemaGeneratorSpec.liveBook; SchemaGeneratorSpec.liveLegacy] false true
           [Some SchemaGeneratorSpec.bookEntity] eq_refl).
Defined.

(** A review that belongs to a book: a foreign-key index that is expected,
    a declared index that is missing, and a stale index. *)
Definition reviewEntity : EntityMetadata :=
  let id := SchemaGeneratorSpec.scalarColumn "id" "int" in
  let book :=
    set_joinColumns (Some ["book_id"])
      (set_fieldNames (Some ["book_id"]) (blankProperty "book" "int" MANY_TO_ONE)) in
  mkMeta "Review" "Review" "review" None None false false [id; book] [book]
         [("id", id); ("book", book)] ["id"] false
         [mkIndexDecl 0 (Named "review_lookup") ["id"] None] [] None None None None.

Definition liveReview : DatabaseTable :=
  mkTable "review"
    [mkColumn "id" "int" false None None []; mkColumn "book_id" "int" false None None []]
    [("review_book_id_foreign", [mkIndex "book_id" "review_book_id_foreign" false]);
     ("stale", [mkIndex "id" "stale" false])].

Definition reviewDifference : TableDifference :=
  computeTableDifference SchemaGeneratorSpec.sameColumn true true
    SchemaGeneratorSpec.indexNameExample (fun _ => false) reviewEntity liveReview false.

Example review_indexes :
  (addIndex reviewDifference, dropIndex reviewDifference)
  = ([mkIndexDef "review_lookup" ["id"] false], [mkIndexDef "stale" ["id"] false]).
Proof. reflexivity. Qed.

Lemma index_not_dropped_and_added_witness :
  In (mkIndexDef "review_lookup" ["id"] false) (addIndex reviewDifference)
  /\ "review_lookup" <> "stale".
Proof.
  split; [by left|].
  exact (index_not_dropped_and_added SchemaGeneratorSpec.sameColumn true true
           SchemaGeneratorSpec.indexNameExample (fun _ => false) reviewEntity liveReview false
           (mkIndexDef "review_lookup" ["id"] false) (mkIndexDef "stale" ["id"] false)
           (or_introl eq_refl) (or_introl eq_refl)).
Defined.

Lemma property_indexes_are_kept_witness :
  In "review_book_id_foreign" (Js.keys (getIndexes liveReview))
  /\ ~ In "review_book_id_foreign" (List.map def_keyName (dropIndex reviewDifference)).
Proof.
  split; [by left|].
  apply (property_indexes_are_kept SchemaGeneratorSpec.sameColumn true true
           SchemaGeneratorSpec.indexNameExample (fun _ => false) reviewEntity liveReview false
           (set_joinColumns (Some ["book_id"])
              (set_fieldNames (Some ["book_id"]) (blankProperty "book" "int" MANY_TO_ONE)))).
  - right. by left.
  - left. split; [reflexivity|]. right. reflexivity.
Defined.

Lemma one_column_is_renamed_twice_witness :
  findRenamedColumns SchemaGeneratorSpec.sameColumn
    [SchemaGeneratorSpec.scalarColumn "first" "int"; SchemaGeneratorSpec.scalarColumn "second" "int"]
    [SchemaGeneratorSpec.intColumn "old"; SchemaGeneratorSpec.intColumn "legacy"]
  = ([mkRename (SchemaGeneratorSpec.intColumn "old") (SchemaGeneratorSpec.scalarColumn "first" "int");
      mkRename (SchemaGeneratorSpec.intColumn "old") (SchemaGeneratorSpec.scalarColumn "second" "int")],
     ([], [])).
Proof.
  apply (one_column_is_renamed_twice SchemaGeneratorSpec.sameColumn _ _ _ _ "first" "second").
  - discriminate.
  - discriminate.
  - reflexivity.
  - reflexivity.
  - reflexivity.
  - reflexivity.
Defined.

End SchemaLifecycleSpec.
